(* ===== verification/_CoqProject ===== *)
-Q . S2P
Prelude.v
Numbers.v
Endian.v
Xdr.v
RpcMsg.v
Rpc.v
MsgSock.v
Pollset.v
PollsetProps.v
Wakeups.v
ServerPaxosTypes.v
ServerTypes.v
PaxosTypes.v
Interfaces.v
ChubbyServer.v
Names.v
ServerDB.v
DirContent.v
Tree.v
ServerDBWf.v
ServerDBRefine.v
ServerDBProps.v
DbApi.v
ServerLogic.v
LogicInv.v
LogicErrors.v
LogicSpec.v
CloseSpec.v
Backstore.v
Paxos.v
BackstoreRefine.v
TreeStore.v
LogicProps.v
ChubbyApp.v
ChubbyProps.v
LogicAnswers.v
LogicTypes.v
PaxosProps.v
PaxosDb.v
PaxosRpc.v
Config.v
ChubbyClient.v
ClientProps.v
ClientLib.v
EndToEnd.v
Shell.v
ShellProps.v
BarrierSpec.v
Programs.v
Runs.v
Barrier.v
BarrierServer.v
BarrierRel.v
BarrierProps.v
BarrierSafe.v
LeaderElect.v
LeaderServer.v
LeaderRel.v
LeaderProps.v
LeaderHonest.v
LeaderSafe.v
StdString.v
IniParse.v
IniProps.v
Membership.v
MembershipProps.v
Printer.v
PrinterProps.v
XdrShapes.v
Signals.v
SignalsProps.v
Sockets.v
SocketsProps.v
WireSafety.v
