(* ===== verification/Prelude.v ===== *)
(** * Chubby: a lock service over a replicated database

    The repository is a small Chubby: clients open files and directories of a
    name space kept by a server, read and write their contents, use them as
    locks and subscribe to their events.  The server keeps the name space in
    SQLite tables; every operation on the tables is marshaled, replicated by
    the processes of a Paxos group, run by each of them and unmarshaled again.
    This library models these layers from the source and proves that the
    stack behaves like one tree of files, and where it does not.

    ** The parts of the program and the files that model them

    From the wire to the client, with the calls between the layers:

    - [xdrpp/xdrpp] (marshaling): [Endian] has the byte order of the marshaler
      on both kinds of machine ([endian.h], the mixins of [marshal.h]); [Xdr]
      has the buffers, [xdr_put], [xdr_get], the traits of every type shape
      ([xdr_traits], class [Xdr]) and the messages ([xdr_to_msg],
      [xdr_from_msg]); [XdrShapes] has the shapes that the programs do not use.  A buffer is the list of bytes between [p_] and [e_]; an
      access past [e_] is an outcome of its own.
    - Generated types, each with its codec and its laws (class [XdrLaws]):
      [ServerPaxosTypes] ([server/server_paxos.hh]), [ServerTypes]
      ([include/server.hh], [include/event.hh]) and [PaxosTypes]
      ([paxos/paxos.hh]).
    - [server/serverimpl.cc], path names: [Names] ([checkName],
      [getParentName]).
    - [server/serverdb.cc] over [server/sqlstmt.cc], the node database:
      [ServerDB].  The state is the rows of the two tables, in row order, and
      whether a transaction is open; a statement is the text the source
      prints, with operands truncated as [printf] and SQLite do.
      [DirContent] relates the bar-separated contents of directories to lists
      of names, [Tree] is the specification (a name space as a finite map),
      [ServerDBWf] the invariant [db_wf] and the equations of the SQL layer,
      [ServerDBRefine] the refinement of [Tree], [ServerDBProps] its
      consequences and the cases that fall outside it.
    - [server/serverimpl.cc], the handlers of [api_v1_server]: [ServerLogic],
      over the interface [DbApi] (what the handlers ask of their member [db],
      a class with one method per call).  The state has the two tables of open
      handles, a heap of [FileHandler] objects with use after free recorded,
      the waiting lock calls, and the replies and events sent.  [LogicInv] has
      the invariant [fd_inv] of the tables, [LogicSpec] the branches of each
      handler, [LogicAnswers] the accounting of replies, [LogicProps] the
      theorems over whole runs and the flaws.
    - [server/serverdb_paxos.cc] and [server/serverdb_backstore.cc], the
      database behind Paxos: [Backstore] marshals a call, gives it to the class
      [PaxosUser] and unmarshals the result; it is an instance of [DbApi].
      [BackstoreRefine] proves that two rounds of marshaling change nothing.
    - [paxos], the replica group: [Paxos] has the processes with their
      [ReplicaState], [ReplicaClientSet] and backing store, the execution of a
      command ([ExecuteReplicateEngine]), the election ([ChangeViewEngine]) and
      the handlers of [paxos_v1] and [paxos_client_v1].  What [replicate] gives
      at its end without a [return] is a parameter (class [OffEnd]: some result,
      or the end of the process).  [PaxosProps] proves replication and elections, [PaxosDb] puts [Backstore] on a group.
    - [xdrpp/xdrpp], remote calls: [RpcMsg] has the message headers
      ([rpc_msg.x], [rpc_msg.cc]), [Rpc] the two sides of a synchronous call
      ([srpc.h], [srpc.cc]; [server.h], [server.cc]) over a record
      [rpc_interface], the generated interface of a program, whose values for
      the four interfaces of the repository are in [Interfaces].  [PaxosRpc]
      puts the calls between replicas on it.
    - [xdrpp/xdrpp/msgsock.cc]: [MsgSock], the cutting of the bytes of a
      non-blocking socket into messages and the queue of messages to write.
      What the kernel answers to the system calls is part of the state.
    - [xdrpp/xdrpp/socket.h], [xdrpp/xdrpp/socket.cc]: [Sockets], connecting,
      listening and rpcbind over a kernel, with the calls of [srpc.cc] on a
      descriptor, their failures included; [SocketsProps] follows the open
      descriptors.  The other files take a connection as given.
    - [xdrpp/xdrpp/pollset.h], [xdrpp/xdrpp/pollset.cc]: [Pollset], the event
      loop of servers and clients with its callbacks for descriptors and
      timeouts; [PollsetProps] proves its invariant and what a round does.
      [Wakeups] has the callbacks that other threads inject ([pollset_plus]),
      [Signals] the signal handlers and their callbacks, both as interleaved
      steps in which callbacks may throw; [SignalsProps] proves what the
      handling of signals keeps.
    - [server/chubby_server.h], [server/chubby_server.cc]: [ChubbyServer], the
      connections of the server, their sessions, the dispatch of requests and
      the writing of replies and events, over any services; [ChubbyApp] puts
      the handlers of [ServerLogic] on it and has the steps of the process
      ([srv_step]); [ChubbyProps] has runs of it.  [LogicErrors] proves that
      the handlers throw nothing.
    - The configuration file: [Config] has its three readers, the constructor
      of [ReplicaState] ([paxos/replica_state.cc]), [GetServicePort]
      ([server/server.cc]) and the constructor of [chubby_client], over
      [std::getline] and [std::stoi], and the splitting of addresses
      ([paxos/helper.cc]).
    - [server/chubby_client.h], [server/chubby_client.cc], the connection of a
      client: [ChubbyClient].  Each turn of its three threads (callers, reader,
      callbacks) is a definition; the network is the class [ChubbyNet].
      [ClientProps] has what a connection guarantees and the runs where it
      fails.
    - [libclient/client.cc]: [ClientLib], the numbers of handles and the
      operations of [Client] over the class [ChubbyCalls].
    - [shell/shell.cc], the shell: [Shell] has its commands, the cutting of a
      line into arguments and the loops of the prompt and of scripts over
      [std::istream::getline]; [ShellProps] relates them to lines and words.
    - The layers in one system: [EndToEnd] joins the connection of a client and
      a server process by two streams of bytes, which a parameter cuts into
      segments; the readers of [MsgSock] stand on both ends.
    - Programs over the library: [Programs] has processes with a main thread
      and a thread of callbacks, each a sequence of library calls and local
      steps, over one server; a run is any interleaving of calls, replies,
      events and local steps.  [Numbers] has the conversions between numbers
      and text.  [Barrier] is [apps/double_barrier.cc]; [BarrierSpec] is a
      barrier as an abstract machine with its invariant, [BarrierServer] what
      the handlers do for a barrier, over a database that answers as [Tree]
      does (class [TreeStore] of [TreeStore]) and with [CloseSpec] for
      [fileClose], [BarrierRel] and [BarrierProps] the simulation of the
      program by the machine, [BarrierSafe] the results.  [LeaderElect] is
      [apps/leader_elect.cc]; [LeaderServer] has what the handlers do for a lock
      that is tried and never released, also when a session ends, [LeaderRel]
      what the code and the state of a process tell of its role, [LeaderProps]
      the invariant of all processes and the server, [LeaderHonest] which names
      the processes announce, [LeaderSafe] the results.
      [Membership] is [apps/group_membership.cc] with [Tokenize] of
      [apps/common.h], [MembershipProps] what it shows and sample runs.  [Runs]
      has what the sample runs share.
    - [xdrpp/xdrpp/iniparse.cc], [xdrpp/xdrpp/iniparse.h]: [IniParse], over the
      searches of [StdString]; a callback is a computation over the error flag,
      [cerr] and the variables of the program.  [IniProps] has a writer for such
      files and what is read of them.
    - [xdrpp/xdrpp/printer.cc], [xdrpp/xdrpp/printer.h]: [Printer], over the tree
      of what an archive is given of a value; [PrinterProps] has the layout.
    - [WireSafety] puts the laws of the codecs together for the messages of all
      protocols.
    Stateful code is written in the monad [M] below: a computation over a
    state returns, throws an exception with the state reached, stops the
    process in a failed [assert], or never returns.  A component that runs
    inside a larger state is lifted with [zoom].

    ** What the theorems show

    - The name space.  [PaxosDb.replicated_db_refines_tree]: a call on a group
      with a leader whose replicas agree, and which survive the missing [return]
      of [replicate], answers like [Tree] and leaves the replicas in agreement on
      the tree that results, for the calls that the database and the protocol can
      carry ([op_ok], [op_u32], [reply_fits]).  It rests on
      refinements of the same form for one database
      ([ServerDBRefine.server_db_refines_tree]), for one backing store behind
      marshaling ([BackstoreRefine.paxos_db_refines_tree]) and on replication
      ([PaxosProps.replicas_follow_leader]).  Locks are exclusive until they
      are reset, instance numbers are not reused, a read returns the last
      update ([ServerDBProps]).
    - The group.  An election leaves one leader, of the highest view
      ([PaxosProps.election_unique_leader]); a follower refuses commands.
    - The server logic.  The handle tables stay consistent under every handler
      ([LogicProps.handle_tables_consistent]); every call is answered exactly
      once or waits in a queue ([LogicAnswers.calls_accounted]), with a result of
      the type of its procedure ([LogicTypes.replies_typed]); each lock and
      content handler does what its branch of the database call says
      ([LogicSpec]); a new leader rebuilds the tables from the database.
    - Marshaling.  Reading a message of any protocol of the repository never
      leaves it, whatever its bytes ([WireSafety.messages_decoded_safely]); every
      value that fits the wire format is recovered ([Xdr.xdr_msg_roundtrip]).
    - Remote calls.  A call through client, wire and server is a call of the
      method, when the reply comes in one segment ([Rpc.rpc_transparent]); a server answers every other message as
      RFC 5531 says ([Rpc.route_spec]); the calls of the replica group are
      such calls ([PaxosRpc.call_replicate_rpc]).
    - Streams.  The reader is the inverse of the framing however the bytes are
      cut ([MsgSock.input_stream]), and the writer writes the messages in
      order whatever the kernel takes ([MsgSock.output_stream]).
    - The server process.  Sessions, sockets and handles stay consistent in
      every reachable state ([ChubbyApp.sessions_consistent]), but for entries
      with descriptor 0; a request on a connection runs its handler, and its
      replies follow those sent before where no event goes
      ([ChubbyApp.request_served]), no exception leaves a handler
      ([LogicErrors.handlers_never_throw]).
    - The event loop.  A round leaves its tables consistent when callbacks
      return and leave the timeouts that are due alone
      ([PollsetProps.poll_consistent]), runs the callbacks that are due when they
      leave the set alone ([PollsetProps.poll_runs_ready]), sleeps no longer than
      it may ([PollsetProps.next_timeout_spec]); no callback of another thread is
      lost, unless one throws before it ([Wakeups.no_lost_wakeup]), and no signal
      is, unless two of its handlers overlap, the pipe is full or a callback
      throws before others ([SignalsProps.no_lost_signal]).
    - Sockets.  No path leaks a descriptor ([SocketsProps.descriptors_kept]),
      [tcp_connect] takes the first address that accepts, when there are sockets
      of every family ([SocketsProps.connects_in_order]), and a port survives the universal
      address of rpcbind ([SocketsProps.uaddr_roundtrip]).
    - The client.  A call returns its own reply whatever events arrive around
      it ([ClientProps.call_gets_reply]), events reach their callbacks in order
      ([ClientProps.callbacks_in_order]), the search for a server ends when
      there is one to find ([ClientProps.connects_to_leader]), numbers of
      handles are not reused ([ClientLib.handle_numbers]), and servers, group
      and clients read the same addresses from the configuration file
      ([Config.config_readers_agree]).
    - The whole stack.  A call of the library returns what the handler of the
      server answered, and leaves the connection ready for the next one
      ([EndToEnd.library_call_served]).
    - Names.  [checkName] accepts exactly the paths of the reference grammar
      and [getParentName] drops the last component.
    - A program.  The double barrier of [apps] keeps its promise in every
      interleaving ([BarrierSafe.barrier_safe]), with or without the lock it
      takes; because of the flaw of the lock, two processes may hang in it
      ([BarrierSafe.barrier_hangs]).
    - The shell.  A script runs its lines in order, and ends unless a line is
      longer than the buffer ([ShellProps.script_reads_lines]); a command with
      its arguments makes its call ([ShellProps.shell_commands]).
    - Another program.  The leader election of [apps] has at most one leader
      among the processes that live, whenever processes end, and does not stay
      without one; the leader announces itself, or a name that it has found
      ([LeaderSafe.leader_elected]): its unprotected variable lets the second
      happen ([LeaderSafe.leader_mistaken]).
    - A third one.  The group membership of [apps] shows the files of the group
      directory, each once ([MembershipProps.membership_shown]); the list it
      keeps can stay behind the directory ([MembershipProps.membership_stale]).
    - Files and texts of xdrpp.  What is written to an .ini file is read back
      ([IniProps.ini_sets_variables]), the words of its values too except behind a
      backslash ([IniProps.argv_words]); the printer of XDR values follows a
      layout for values without empty parts ([PrinterProps.printer_layout]) and its strings can be read back.
    - Flaws, each a run of the code ending in a state it should not reach:
      a lock handed over inside [release] can be held twice, a session without
      the lock can release it, [fileClose] of a handle that waits for its lock
      does not end, handles are read after they were freed, an update of a
      directory destroys its list of children, a statement that fails leaves
      its transaction open, instance numbers are cut to 31 or 32 bits, a group
      split by the network has two leaders, a replica that missed commands can
      become leader, a replica that fails stops the leader; the end of a
      session leaves its waiting calls behind and writes to descriptor 0, an
      event can split a reply, a socket whose first write blocks is stuck, a
      reply that arrives in two segments fails, an acquire that is sent again
      leaves a reply too many, after which every call of the client fails; a
      signal whose handlers overlap, or that finds the pipe full, is lost for
      ever; a callback that throws keeps other signals waiting, and lets
      injected callbacks be written behind the end of a vector; the end of
      [replicate] without a result may stop a replica
      ([PaxosProps.missing_return_stops_replica]); [tcp_connect_rpc] gives up at the first address that refuses.

    ** Bounds

    [close] is called again at most [patience] times, as often as the kernel may
    answer [EINTR] in a row ([k_close]).  The padding loops of [xdr_put] and
    [xdr_get] run on fuel 3, since at most three bytes pad a string to a multiple of four.  The loop over the lines of
    the configuration file takes as many turns as the file has characters, and
    [read_servers_fuel] proves that more change nothing.  The client looks for
    a server in at most [rounds] rounds over its list, and the search that is
    not over then is [Diverge]; one round is enough when some server accepts
    ([connects_to_leader]).  No other definition needs
    fuel but the loops of the shell, which get one turn more than the input has
    characters ([script_reads_lines]): loops run over a list, and a loop of the
    source that does not end is the outcome [Diverge].  Messages are shorter than 2^32 bytes, lengths and
    instance numbers of the replication protocol have 32 bits, instance numbers
    of the database 64 bits of which SQL statements carry 31 ([%d]).  The
    bound [operand_max] keeps every statement below SQLite's limit of
    1,000,000,000 bytes.

    ** What is not modelled

    - What a compiler makes of the ends of [reply] and [send]
      ([server/chubby_server.h]), which lack a [return]: they are taken to
      return, and their results are not used.
    - The SQLite engine: statements of the source have the meaning of SQL on
      the two tables, any other text is given to the parameter [Sqlite].
    - System calls: files, time, the threads themselves; of sockets,
      only what the calls on them may answer.
      Remote calls of the group run one after another; what happens between
      two calls is a change of the network or of the running processes, chosen
      by an oracle.  The locks inside [ReplicaState] are therefore not
      contended in the model.
    - The XDR compiler (its output is modelled), tracing, floating-point
      numbers in .ini files, and test programs.
    - In a run of [Programs] the connections stay open until their process
      ends and the server stays the leader; what happens when they do not is in
      [ClientProps].

    ** What could follow

    - [server/sqlstmt.cc] as a state machine: prepare, step and finalize as
      calls of their own instead of statements with the meaning of SQL.
    - The threads of the replica group, interleaved inside a call, with the
      locks of [ReplicaState].
    ** This file

    It is required by every other file.  It fixes the machine integers of the
    source (unsigned 32- and 64-bit values as [Z] with the wrap-around written
    out), the relation between [std::string] values and byte sequences, and
    the effect monad [M] with its postconditions [sat]. *)

From Stdlib Require Export ZArith Lia Ascii.
From stdpp Require Import sorting.
From stdpp Require Export base gmap strings list numbers.

#[global] Set Default Goal Selector "1".
#[global] Open Scope Z_scope.
Global Open Scope list_scope.

Declare Scope chubby_scope.
Delimit Scope chubby_scope with chubby.
Global Open Scope chubby_scope.

(** ** Machine integers *)

(** Conversion to [std::uint32_t]. *)
Definition wrap32 (z : Z) : Z := z `mod` 2 ^ 32.
(** Conversion to [std::uint64_t]. *)
Definition wrap64 (z : Z) : Z := z `mod` 2 ^ 64.
(** Conversion to a 32-bit [int] (two's complement). *)
Definition sint32 (z : Z) : Z := (z + 2 ^ 31) `mod` 2 ^ 32 - 2 ^ 31.

Definition u32 (z : Z) : Prop := 0 <= z < 2 ^ 32.
Definition u64 (z : Z) : Prop := 0 <= z < 2 ^ 64.

#[global] Instance u32_dec z : Decision (u32 z).
Proof. unfold u32. apply _. Defined.
#[global] Instance u64_dec z : Decision (u64 z).
Proof. unfold u64. apply _. Defined.

Lemma wrap32_small z : u32 z -> wrap32 z = z.
Proof. intros H. apply Z.mod_small, H. Qed.
Lemma wrap64_small z : u64 z -> wrap64 z = z.
Proof. intros H. apply Z.mod_small, H. Qed.
Lemma wrap32_u32 z : u32 (wrap32 z).
Proof. apply Z.mod_pos_bound. lia. Qed.
Lemma wrap64_u64 z : u64 (wrap64 z).
Proof. apply Z.mod_pos_bound. lia. Qed.
Lemma sint32_small z : - 2 ^ 31 <= z < 2 ^ 31 -> sint32 z = z.
Proof. intros H. unfold sint32. rewrite Z.mod_small by lia. lia. Qed.
Lemma u32_u64 z : u32 z -> u64 z.
Proof. unfold u32, u64. lia. Qed.

Create HintDb chubby.
Create Rewrite HintDb chubby_rw.
#[export] Hint Resolve wrap32_u32 wrap64_u64 u32_u64 : chubby.
#[export] Hint Rewrite wrap32_small wrap64_small sint32_small using (unfold u32, u64 in *; lia) : chubby_rw.

(** ** Strings and bytes *)

Abbreviation bytes := (list ascii).

(** The bytes of a [std::string]. *)
Definition str_bytes (s : string) : bytes := String.list_ascii_of_string s.
Definition bytes_str (b : bytes) : string := String.string_of_list_ascii b.

Lemma bytes_str_bytes s : bytes_str (str_bytes s) = s.
Proof. apply String.string_of_list_ascii_of_string. Qed.
Lemma str_bytes_str b : str_bytes (bytes_str b) = b.
Proof. apply String.list_ascii_of_string_of_list_ascii. Qed.
Lemma str_bytes_length s : length (str_bytes s) = String.length s.
Proof. induction s as [|a s IH]; simpl; congruence. Qed.
Lemma str_bytes_inj s t : str_bytes s = str_bytes t -> s = t.
Proof. intros H. rewrite <-(bytes_str_bytes s), <-(bytes_str_bytes t). congruence. Qed.
Lemma str_bytes_app s t : str_bytes (s +:+ t) = str_bytes s ++ str_bytes t.
Proof. induction s as [|a s IH]; [done|]. simpl. f_equal. apply IH. Qed.

#[export] Hint Rewrite bytes_str_bytes str_bytes_str : chubby_rw.

(** The numeric value of a byte, and the byte of a number. *)
Definition byte_val (a : ascii) : Z := Z.of_N (N_of_ascii a).
Definition byte_of (z : Z) : ascii := ascii_of_N (Z.to_N (z `mod` 256)).

Lemma byte_val_range a : 0 <= byte_val a < 256.
Proof.
  unfold byte_val. pose proof (N_ascii_bounded a). lia.
Qed.
Lemma byte_val_of z : byte_val (byte_of z) = z `mod` 256.
Proof.
  unfold byte_val, byte_of. pose proof (Z.mod_pos_bound z 256).
  rewrite N_ascii_embedding by lia. lia.
Qed.

(** ** Ordered maps *)

(** The iteration over a [std::map], in the order of its keys. *)
Definition key_le {V} (p q : Z * V) : Prop := p.1 <= q.1.
#[export] Instance key_le_dec {V} (p q : Z * V) : Decision (key_le p q).
Proof. unfold key_le. apply _. Defined.
Definition in_order {V} (m : gmap Z V) : list (Z * V) := merge_sort key_le (map_to_list m).

Lemma elem_of_in_order {V} (m : gmap Z V) k v : (k, v) ∈ in_order m <-> m !! k = Some v.
Proof. unfold in_order. rewrite merge_sort_Permutation. apply elem_of_map_to_list. Qed.

(** ** Effects of the stateful code *)

(** The C++ exceptions that cross a function boundary of the model. *)
Inductive error_category := generic_category | system_category | gai_category.
Inductive exn :=
| exn_xdr                      (* xdr_runtime_error and its subclasses *)
| exn_wrong_union              (* xdr_wrong_union, a std::logic_error *)
| exn_runtime (what : string)  (* std::runtime_error *)
| exn_system (cat : error_category) (code : Z) (what : string)  (* std::system_error *)
| exn_sql                      (* sqlerr_t, sqldone_t *)
| exn_client (code : Z)        (* ClientException *)
| exn_logic (what : string).   (* any other std::logic_error *)

#[global] Instance error_category_eq_dec : EqDecision error_category.
Proof. solve_decision. Defined.
#[global] Instance exn_eq_dec : EqDecision exn.
Proof. solve_decision. Defined.

Inductive outcome (S A : Type) :=
| Ret (a : A) (s : S)      (* normal return *)
| Throw (e : exn) (s : S)  (* exception leaves the function *)
| Abort                    (* failed assert: the process stops *)
| Diverge.                 (* the function never returns *)
Arguments Ret {S A} a s.
Arguments Throw {S A} e s.
Arguments Abort {S A}.
Arguments Diverge {S A}.

(** A computation of the source over a state [S]. *)
Definition M (S A : Type) : Type := S -> outcome S A.

#[global] Instance M_ret {S} : MRet (M S) := fun A a s => Ret a s.
#[global] Instance M_bind {S} : MBind (M S) := fun A B k m s =>
  match m s with
  | Ret a s' => k a s'
  | Throw e s' => Throw e s'
  | Abort => Abort
  | Diverge => Diverge
  end.

Section effects.
Context {S : Type}.

Definition gets {A} (f : S -> A) : M S A := fun s => Ret (f s) s.
Definition modify (f : S -> S) : M S unit := fun s => Ret tt (f s).
Definition throw {A} (e : exn) : M S A := fun s => Throw e s.
Definition abort {A} : M S A := fun _ => Abort.
(** [assert(b)] *)
Definition cassert (b : bool) : M S unit := if b then mret tt else abort.
(** [try { m } catch (std::exception &e) { h }]: every exception of the model
    derives from [std::exception]. *)
Definition try_catch {A} (m : M S A) (h : exn -> M S A) : M S A := fun s =>
  match m s with Throw e s' => h e s' | r => r end.
Definition when (b : bool) (m : M S unit) : M S unit := if b then m else mret tt.
End effects.

(** A range-based [for] loop. *)
Fixpoint for_each {S A} (l : list A) (body : A -> M S unit) : M S unit :=
  match l with
  | [] => mret tt
  | x :: l => body x ;; for_each l body
  end.

(** Running a computation over a part of the state. *)
Definition zoom {S T A} (get : T -> S) (put : S -> T -> T) (m : M S A) : M T A := fun t =>
  match m (get t) with
  | Ret a s => Ret a (put s t)
  | Throw e s => Throw e (put s t)
  | Abort => Abort
  | Diverge => Diverge
  end.

Section laws.
Context {S : Type}.

Lemma bind_ret_l {A B} (a : A) (k : A -> M S B) s : (mret a ≫= k) s = k a s.
Proof. done. Qed.
Lemma bind_assoc {A B C} (m : M S A) (k : A -> M S B) (h : B -> M S C) s :
  ((m ≫= k) ≫= h) s = (m ≫= (fun a => k a ≫= h)) s.
Proof. unfold mbind, M_bind. by destruct (m s). Qed.
Lemma bind_Ret {A B} (m : M S A) (k : A -> M S B) s a s' :
  m s = Ret a s' -> (m ≫= k) s = k a s'.
Proof. intros H. unfold mbind, M_bind. by rewrite H. Qed.
Lemma bind_Ret_inv {A B} (m : M S A) (k : A -> M S B) s b s' :
  (m ≫= k) s = Ret b s' -> exists a s1, m s = Ret a s1 /\ k a s1 = Ret b s'.
Proof. unfold mbind, M_bind. destruct (m s); naive_solver. Qed.
End laws.

(** ** Outcomes that satisfy a postcondition

    [sat o Q E]: if [o] returns, the value and state satisfy [Q]; if it throws,
    the exception and state satisfy [E].  A failed assertion or a loop that
    never ends satisfies every postcondition. *)
Definition sat {S A} (o : outcome S A) (Q : A -> S -> Prop) (E : exn -> S -> Prop) : Prop :=
  match o with
  | Ret a s => Q a s
  | Throw e s => E e s
  | Abort | Diverge => True
  end.

Section sat.
Context {S : Type}.

Lemma sat_bind {A B} (m : M S A) (k : A -> M S B) s Q E :
  sat (m s) (fun a s' => sat (k a s') Q E) E -> sat ((m ≫= k) s) Q E.
Proof. unfold mbind, M_bind. by destruct (m s). Qed.
Lemma sat_mono {A} (o : outcome S A) (Q Q' : A -> S -> Prop) (E E' : exn -> S -> Prop) :
  sat o Q E -> (forall a s, Q a s -> Q' a s) -> (forall e s, E e s -> E' e s) -> sat o Q' E'.
Proof. destruct o; simpl; auto. Qed.
Lemma sat_try {A} (m : M S A) (h : exn -> M S A) s Q E :
  sat (m s) Q (fun e s' => sat (h e s') Q E) -> sat (try_catch m h s) Q E.
Proof. unfold try_catch. by destruct (m s). Qed.
Lemma sat_for_each {A} (I : S -> Prop) (l : list A) (body : A -> M S unit) E s :
  I s -> (forall x s, x ∈ l -> I s -> sat (body x s) (fun _ => I) E) ->
  sat (for_each l body s) (fun _ => I) E.
Proof.
  revert s. induction l as [|x l IH]; intros s Hs Hb; [done|]. simpl. apply sat_bind.
  eapply sat_mono; [apply Hb; [set_solver|done]| |done]. intros [] s' Hs'. apply IH; [done|].
  intros y s'' Hy. apply Hb. set_solver.
Qed.
Lemma sat_zoom {T A} (get : T -> S) (put : S -> T -> T) (m : M S A) t Q E :
  sat (m (get t)) (fun a s => Q a (put s t)) (fun e s => E e (put s t)) ->
  sat (zoom get put m t) Q E.
Proof. unfold zoom. by destruct (m (get t)). Qed.
End sat.

(** Linear arithmetic with [div] and [mod] by constants. *)
Ltac mod_lia := Z.div_mod_to_equations; lia.
