(* ===== verification/Numbers.v ===== *)
(** * Numbers in texts

    The conversions of the standard library that the programs use: [std::stoi],
    [std::stoul], [strtol] and [std::to_string].  [std::to_string] of a number
    that is not negative is stdpp's [pretty]. *)

From stdpp Require Import pretty.
From S2P Require Import Prelude.

Definition is_space (c : ascii) : bool :=
  Ascii.eqb c " " || ((9 <=? byte_val c) && (byte_val c <=? 13)).
Definition is_digit (c : ascii) : bool := (48 <=? byte_val c) && (byte_val c <=? 57).

Fixpoint skip_spaces (b : bytes) : bytes :=
  match b with c :: b' => if is_space c then skip_spaces b' else b | [] => [] end.
Fixpoint digits (n : Z) (b : bytes) : Z :=
  match b with
  | c :: b => if is_digit c then digits (10 * n + (byte_val c - 48)) b else n
  | [] => n
  end.

(** A sign, and what follows it. *)
Definition cut_sign (b : bytes) : bool * bytes :=
  match b with
  | c :: b' => if Ascii.eqb c "-" then (true, b') else if Ascii.eqb c "+" then (false, b') else (false, b)
  | [] => (false, [])
  end.

(** The sign and the digits behind the spaces; [None] when there is no digit. *)
Definition parse_int (b : bytes) : option (bool * Z) :=
  let '(negative, b) := cut_sign (skip_spaces b) in
  match b with
  | c :: _ => if is_digit c then Some (negative, digits 0 b) else None
  | [] => None
  end.

Definition signed (p : bool * Z) : Z := if p.1 then - p.2 else p.2.

(** [std::stoi]: [None] when it throws. *)
Definition stoi (b : bytes) : option Z :=
  p ← parse_int b;
  if (- 2 ^ 31 <=? signed p) && (signed p <? 2 ^ 31) then Some (signed p) else None.

(** [std::stoul] for a [long] of 64 bits: a minus sign negates the result modulo
    2^64; [None] when it throws. *)
Definition stoul (b : bytes) : option Z :=
  p ← parse_int b;
  if p.2 <? 2 ^ 64 then Some (wrap64 (signed p)) else None.

(** [strtol] for a [long] of 64 bits: 0 without digits, the nearest limit for a
    number out of range. *)
Definition strtol (b : bytes) : Z :=
  match parse_int b with
  | Some p => Z.max (- 2 ^ 63) (Z.min (2 ^ 63 - 1) (signed p))
  | None => 0
  end.

Example conversions_sample :
  stoi (str_bytes " -12x") = Some (-12) /\ stoi (str_bytes "x") = None /\ stoi (str_bytes "2147483648") = None /\
  stoul (str_bytes "-1") = Some (2 ^ 64 - 1) /\ strtol (str_bytes "99999999999999999999") = 2 ^ 63 - 1 /\
  strtol (str_bytes "") = 0 /\ stoul (str_bytes "+7") = Some 7.
Proof. by vm_compute. Qed.

(** ** A number that is written is read back *)

Definition to_string (n : Z) : string := pretty n.

Lemma digit_char (d : N) : (d < 10)%N ->
  is_digit (pretty_N_char d) = true /\ byte_val (pretty_N_char d) = 48 + Z.of_N d.
Proof.
  intros Hd. do 10 (destruct (decide (d = 0)%N) as [->|]; [by vm_compute|]).
  assert (d = 1 \/ d = 2 \/ d = 3 \/ d = 4 \/ d = 5 \/ d = 6 \/ d = 7 \/ d = 8 \/ d = 9)%N as Hc by lia.
  by repeat destruct Hc as [->|Hc]; [..|subst]; vm_compute.
Qed.

(** The digits that [pretty] puts in front of a text. *)
Lemma pretty_go_digits (x : N) s : exists ds,
  str_bytes (pretty_N_go x s) = ds ++ str_bytes s /\ Forall (fun c => is_digit c = true) ds /\
  (forall m b, digits m (ds ++ b) = digits (m * 10 ^ Z.of_nat (length ds) + Z.of_N x) b) /\
  (forall k : nat, (x < 10 ^ N.of_nat k)%N -> (length ds <= k)%nat) /\ (ds = [] <-> x = 0%N).
Proof.
  revert s. induction (N.lt_wf_0 x) as [x _ IH]; intros s. destruct (decide (x = 0)%N) as [->|Hx].
  { exists []. rewrite pretty_N_go_0. split_and!; [done|constructor| |cbn; lia|done]. intros m b. cbn. f_equal. lia. }
  rewrite pretty_N_go_step by lia.
  destruct (IH (x `div` 10)%N) with (s := String (pretty_N_char (x `mod` 10)) s) as (ds & E & Hf & Hd & Hl & _).
  { apply N.div_lt; lia. }
  pose proof (N.mod_lt x 10 ltac:(lia)) as Hm. destruct (digit_char _ Hm) as [Hc Hv].
  exists (ds ++ [pretty_N_char (x `mod` 10)]). rewrite E. split_and!.
  - by rewrite <-app_assoc.
  - apply Forall_app. split; [done|]. by constructor.
  - intros m b. rewrite <-app_assoc, Hd. cbn [app digits]. rewrite Hc, Hv, length_app. cbn [length]. f_equal.
    replace (Z.of_nat (length ds + 1)) with (Z.of_nat (length ds) + 1) by lia.
    rewrite Z.pow_add_r by lia. pose proof (N.div_mod x 10 ltac:(lia)). lia.
  - intros [|k] Hk; [cbn in Hk; lia|]. rewrite length_app. cbn. enough (length ds <= k)%nat by lia. apply Hl.
    apply N.Div0.div_lt_upper_bound. replace (N.of_nat (S k)) with (N.succ (N.of_nat k)) in Hk by lia.
    by rewrite N.pow_succ_r' in Hk.
  - split; [intros H; by destruct ds|lia].
Qed.

Lemma pretty_digits (x : N) : exists ds, str_bytes (pretty x) = ds /\ ds <> [] /\
  Forall (fun c => is_digit c = true) ds /\ (forall b, digits 0 (ds ++ b) = digits (Z.of_N x) b) /\
  (forall k : nat, (x < 10 ^ N.of_nat (S k))%N -> (length ds <= S k)%nat).
Proof.
  unfold pretty, pretty_N. case_decide as Hx.
  - subst. exists ["0"%char]. split_and!; [done|done|by constructor|done|cbn; lia].
  - destruct (pretty_go_digits x "") as (ds & E & Hf & Hd & Hl & Hne). exists ds. rewrite E, app_nil_r.
    split_and!; [done|by rewrite Hne|done| |intros k; apply Hl]. intros b. rewrite Hd. f_equal.
Qed.

Lemma digit_not_space c : is_digit c = true -> is_space c = false /\ c <> "-"%char /\ c <> "+"%char.
Proof.
  unfold is_digit, is_space. intros [H1%Z.leb_le H2%Z.leb_le]%andb_true_iff.
  split_and!; [|by intros ->|by intros ->].
  destruct (Ascii.eqb_spec c " "); [by subst|]. cbn. apply andb_false_iff. right. apply Z.leb_gt. lia.
Qed.

Lemma to_string_N n : 0 <= n -> to_string n = pretty (Z.to_N n).
Proof. intros Hn. unfold to_string, pretty, pretty_Z. destruct n as [|p|p]; [done|done|lia]. Qed.

Lemma parse_to_string_app n b : 0 <= n -> parse_int (str_bytes (to_string n) ++ b) = Some (false, digits n b).
Proof.
  intros Hn. rewrite to_string_N by done.
  destruct (pretty_digits (Z.to_N n)) as (ds & -> & Hne & Hf & Hd & _). unfold parse_int.
  specialize (Hd b). rewrite Z2N.id in Hd by done.
  destruct ds as [|c ds]; [done|]. apply list.Forall_cons in Hf as [Hc _].
  destruct (digit_not_space c Hc) as (Hs & H1 & H2). cbn [skip_spaces app]. rewrite Hs.
  cbn [cut_sign]. destruct (Ascii.eqb_spec c "-"); [done|]. destruct (Ascii.eqb_spec c "+"); [done|].
  rewrite Hc. by rewrite <-Hd.
Qed.
Lemma parse_to_string n : 0 <= n -> parse_int (str_bytes (to_string n)) = Some (false, n).
Proof. intros Hn. rewrite <-(app_nil_r (str_bytes _)). by rewrite parse_to_string_app. Qed.

Lemma stoul_to_string n : u64 n -> stoul (str_bytes (to_string n)) = Some n.
Proof.
  intros Hn. unfold stoul. rewrite parse_to_string by apply Hn. cbn.
  unfold u64 in Hn. destruct (Z.ltb_spec n (2 ^ 64)); [|lia]. by rewrite wrap64_small.
Qed.
Lemma strtol_to_string n : 0 <= n < 2 ^ 63 -> strtol (str_bytes (to_string n)) = n.
Proof. intros Hn. unfold strtol. rewrite parse_to_string by lia. unfold signed. cbn [fst snd]. lia. Qed.

Lemma to_string_inj m n : to_string m = to_string n -> m = n.
Proof. unfold to_string. by intros E%(inj pretty). Qed.
Lemma to_string_not_empty n : 0 <= n -> to_string n <> "".
Proof. intros Hn E. pose proof (parse_to_string n Hn) as H. by rewrite E in H. Qed.

(** The text of a number: digits, and few of them. *)
Lemma to_string_digits n : u64 n ->
  Forall (fun c => is_digit c = true) (str_bytes (to_string n)) /\ (String.length (to_string n) <= 20)%nat.
Proof.
  unfold u64. intros Hn. rewrite to_string_N by lia. destruct (pretty_digits (Z.to_N n)) as (ds & E & _ & Hf & _ & Hl).
  rewrite <-str_bytes_length, E. split; [done|]. apply (Hl 19%nat). cbn. lia.
Qed.
