(* ===== verification/Endian.v ===== *)
(** * Byte order: [xdrpp/endian.h] and the numeric mixins of [xdrpp/marshal.h]

    The marshaler writes through a [std::uint32_t*].  A word store puts the
    bytes of the word in the machine's order; [marshal_swap] (little-endian
    machines) byteswaps the value first, [marshal_noswap] (big-endian machines)
    does not.  The file defines both over explicit machine stores and shows
    that each produces the big-endian order of RFC 4506. *)

From S2P Require Import Prelude.

(** ** Bits of bytes and words *)

Lemma bits_small b i : 0 <= b < 256 -> 8 <= i -> Z.testbit b i = false.
Proof.
  intros Hb Hi. destruct (decide (b = 0)) as [->|]; [apply Z.testbit_0_l|].
  apply Z.bits_above_log2; [lia|]. apply Z.log2_lt_pow2; [lia|].
  assert (2 ^ 8 <= 2 ^ i) by (apply Z.pow_le_mono_r; lia). lia.
Qed.

Lemma land_ff00 z i : 0 <= i ->
  Z.testbit (Z.land z 0xff00) i = if decide (8 <= i < 16) then Z.testbit z i else false.
Proof.
  intros Hi. rewrite Z.land_spec. change 0xff00 with (Z.shiftl (Z.ones 8) 8).
  rewrite Z.shiftl_spec by lia. case_decide.
  - rewrite Z.ones_spec_low by lia. by rewrite andb_true_r.
  - destruct (decide (i < 8)).
    + rewrite (Z.testbit_neg_r _ (i - 8)) by lia. by rewrite andb_false_r.
    + rewrite Z.ones_spec_high by lia. by rewrite andb_false_r.
Qed.

(** Computes [Z.testbit e i] through the operators of [e], for an index whose
    range [lia] can decide. *)
Ltac bit_norm := repeat (match goal with
  | |- context [Z.testbit ?x ?i] =>
      first [ rewrite (Z.testbit_neg_r x i) by lia | rewrite (bits_small x i) by lia
      | lazymatch x with
        | Z.lor ?a ?b => rewrite (Z.lor_spec a b i)
        | Z.land ?a 0xff00 => rewrite (land_ff00 a i) by lia;
            first [rewrite decide_True by lia | rewrite decide_False by lia]
        | Z.shiftl ?a ?n => rewrite (Z.shiftl_spec a n i) by lia
        | Z.shiftr ?a ?n => rewrite (Z.shiftr_spec a n i) by lia
        | ?a `mod` 256 => change (a `mod` 256) with (a `mod` 2 ^ 8)
        | ?a `mod` 2 ^ ?n =>
            first [ rewrite (Z.mod_pow2_bits_low a n i) by lia
                  | rewrite (Z.mod_pow2_bits_high a n i) by lia ]
        end ]
  end; rewrite ?orb_false_l, ?orb_false_r).

(** Splits the bit index of an equation on 32-bit words by byte. *)
Ltac bit_eq :=
  apply Z.bits_inj'; let i := fresh "i" in intros i ?;
  assert (i < 8 \/ 8 <= i < 16 \/ 16 <= i < 24 \/ 24 <= i < 32 \/ 32 <= i)
    as [?|[?|[?|[?|?]]]] by lia;
  bit_norm; first [done | f_equal; lia].

(** ** Source definitions *)

(** [swap32(v)] on [uint32_t]. *)
Definition swap32 (v : Z) : Z :=
  Z.lor (Z.lor (Z.lor (wrap32 (Z.shiftl v 24)) (wrap32 (Z.shiftl (Z.land v 0xff00) 8)))
    (Z.land (Z.shiftr v 8) 0xff00)) (Z.shiftr v 24).

(** [swap64(v)] on [uint64_t]. *)
Definition swap64 (v : Z) : Z :=
  Z.lor (wrap64 (Z.shiftl (swap32 (wrap32 v)) 32)) (swap32 (wrap32 (Z.shiftr v 32))).

(** A 32-bit word made of four bytes, least significant first. *)
Definition word_of (b0 b1 b2 b3 : Z) : Z :=
  Z.lor b0 (Z.lor (Z.shiftl b1 8) (Z.lor (Z.shiftl b2 16) (Z.shiftl b3 24))).

(** The bytes a word store leaves in memory, and the word a load reads. *)
Definition store_le (v : Z) : bytes :=
  [byte_of v; byte_of (Z.shiftr v 8); byte_of (Z.shiftr v 16); byte_of (Z.shiftr v 24)].
Definition store_be (v : Z) : bytes :=
  [byte_of (Z.shiftr v 24); byte_of (Z.shiftr v 16); byte_of (Z.shiftr v 8); byte_of v].
Definition load_le (b0 b1 b2 b3 : ascii) : Z :=
  word_of (byte_val b0) (byte_val b1) (byte_val b2) (byte_val b3).
Definition load_be (b0 b1 b2 b3 : ascii) : Z := load_le b3 b2 b1 b0.

(** [marshal_swap] on a little-endian machine: the bytes [put32] and [put64]
    append at [p], and the values [get32] and [get64] read.  [put64] writes
    the two halves of the [u64conv] union, whose index 1 is the high word. *)
Definition swap_put32 (v : Z) : bytes := store_le (swap32 v).
Definition swap_put64 (v : Z) : bytes :=
  swap_put32 (Z.shiftr v 32) ++ swap_put32 (wrap32 v).
Definition swap_get32 (b0 b1 b2 b3 : ascii) : Z := swap32 (load_le b0 b1 b2 b3).
Definition swap_get64 (b0 b1 b2 b3 b4 b5 b6 b7 : ascii) : Z :=
  Z.lor (Z.shiftl (swap_get32 b0 b1 b2 b3) 32) (swap_get32 b4 b5 b6 b7).

(** [marshal_noswap] on a big-endian machine, where index 0 of the union is
    the high word. *)
Definition noswap_put32 (v : Z) : bytes := store_be v.
Definition noswap_put64 (v : Z) : bytes :=
  noswap_put32 (Z.shiftr v 32) ++ noswap_put32 (wrap32 v).
Definition noswap_get32 (b0 b1 b2 b3 : ascii) : Z := load_be b0 b1 b2 b3.

(** ** The RFC 4506 encoding of integers, as a specification *)

Definition be32 (v : Z) : bytes :=
  [byte_of (v / 2 ^ 24); byte_of (v / 2 ^ 16); byte_of (v / 2 ^ 8); byte_of v].
Definition be64 (v : Z) : bytes := be32 (v / 2 ^ 32) ++ be32 (v `mod` 2 ^ 32).

(** ** Lemmas *)

Lemma word_of_u32 b0 b1 b2 b3 :
  0 <= b0 < 256 -> 0 <= b1 < 256 -> 0 <= b2 < 256 -> 0 <= b3 < 256 ->
  u32 (word_of b0 b1 b2 b3).
Proof.
  intros. replace (word_of b0 b1 b2 b3) with (wrap32 (word_of b0 b1 b2 b3)).
  { apply wrap32_u32. }
  unfold wrap32, word_of. bit_eq.
Qed.

Lemma swap32_word b0 b1 b2 b3 :
  0 <= b0 < 256 -> 0 <= b1 < 256 -> 0 <= b2 < 256 -> 0 <= b3 < 256 ->
  swap32 (word_of b0 b1 b2 b3) = word_of b3 b2 b1 b0.
Proof. intros. unfold swap32, word_of, wrap32. bit_eq. Qed.

Lemma u32_word v : u32 v ->
  v = word_of (v `mod` 256) (Z.shiftr v 8 `mod` 256) (Z.shiftr v 16 `mod` 256)
        (Z.shiftr v 24 `mod` 256).
Proof.
  intros Hv. rewrite <-(wrap32_small v Hv) at 1. unfold wrap32, word_of.
  bit_eq.
Qed.

(** Every 32-bit value is a word of four bytes. *)
Lemma u32_bytes v : u32 v -> exists b0 b1 b2 b3,
  (0 <= b0 < 256 /\ 0 <= b1 < 256 /\ 0 <= b2 < 256 /\ 0 <= b3 < 256) /\ v = word_of b0 b1 b2 b3.
Proof.
  intros Hv. do 4 eexists. split; [|exact (u32_word v Hv)].
  repeat split; apply Z.mod_pos_bound; lia.
Qed.

Lemma byte_of_mod z w : z `mod` 256 = w `mod` 256 -> byte_of z = byte_of w.
Proof. unfold byte_of. by intros ->. Qed.

Lemma store_le_word b0 b1 b2 b3 :
  0 <= b0 < 256 -> 0 <= b1 < 256 -> 0 <= b2 < 256 -> 0 <= b3 < 256 ->
  store_le (word_of b0 b1 b2 b3) = [byte_of b0; byte_of b1; byte_of b2; byte_of b3].
Proof.
  intros. unfold store_le, word_of.
  repeat (apply (f_equal2 cons); [apply byte_of_mod; bit_eq|]). done.
Qed.

Lemma store_be_word v : u32 v -> store_be v = be32 v.
Proof. intros _. unfold store_be, be32. by rewrite !Z.shiftr_div_pow2 by lia. Qed.

Lemma store_be_rev v : store_be v = reverse (store_le v).
Proof. done. Qed.


Lemma load_store_le v : u32 v ->
  exists b0 b1 b2 b3, store_le v = [b0; b1; b2; b3] /\ load_le b0 b1 b2 b3 = v.
Proof.
  intros (b0 & b1 & b2 & b3 & Hb & ->)%u32_bytes. do 4 eexists. split; [apply store_le_word; tauto|].
  unfold load_le. rewrite !byte_val_of. by rewrite !Z.mod_small by lia.
Qed.

(** [swap32] is an involution on 32-bit words. *)
Lemma swap32_invol v : u32 v -> swap32 (swap32 v) = v.
Proof.
  intros (b0 & b1 & b2 & b3 & Hb & ->)%u32_bytes. rewrite !swap32_word by tauto. done.
Qed.

Lemma swap32_u32 v : u32 v -> u32 (swap32 v).
Proof.
  intros (b0 & b1 & b2 & b3 & Hb & ->)%u32_bytes. rewrite swap32_word by tauto.
  apply word_of_u32; tauto.
Qed.

Lemma swap_put32_be v : u32 v -> swap_put32 v = be32 v.
Proof.
  intros Hv. rewrite <-store_be_word, store_be_rev by done. unfold swap_put32.
  destruct (u32_bytes v Hv) as (b0 & b1 & b2 & b3 & Hb & ->).
  rewrite swap32_word by tauto. rewrite !store_le_word by tauto. done.
Qed.

Lemma shiftr_u64 v : u64 v -> u32 (Z.shiftr v 32).
Proof.
  unfold u64, u32. intros Hv. rewrite Z.shiftr_div_pow2 by lia.
  split; [apply Z.div_pos; lia|apply Z.div_lt_upper_bound; lia].
Qed.

Lemma swap_put64_be v : u64 v -> swap_put64 v = be64 v.
Proof.
  intros Hv. unfold swap_put64, be64.
  rewrite !swap_put32_be by eauto using shiftr_u64 with chubby.
  by rewrite Z.shiftr_div_pow2 by lia.
Qed.

Lemma swap_get32_u32 b0 b1 b2 b3 : u32 (swap_get32 b0 b1 b2 b3).
Proof.
  apply swap32_u32, word_of_u32; apply byte_val_range.
Qed.

Lemma swap_get32_load b0 b1 b2 b3 : swap_get32 b0 b1 b2 b3 = load_be b0 b1 b2 b3.
Proof. unfold swap_get32, load_be, load_le. by rewrite swap32_word by apply byte_val_range. Qed.

Lemma swap_get32_put v : u32 v ->
  exists b0 b1 b2 b3, be32 v = [b0; b1; b2; b3] /\ swap_get32 b0 b1 b2 b3 = v.
Proof.
  intros Hv. destruct (load_store_le (swap32 v)) as (b0 & b1 & b2 & b3 & Hs & Hl);
    [by apply swap32_u32|].
  exists b0, b1, b2, b3. rewrite <-swap_put32_be by done. split; [done|].
  unfold swap_get32. rewrite Hl. by apply swap32_invol.
Qed.

Lemma lor_join k h l : 0 <= k -> 0 <= l < 2 ^ k -> Z.lor (Z.shiftl h k) l = h * 2 ^ k + l.
Proof.
  intros Hk Hl. rewrite <-Z.shiftl_mul_pow2 by lia. symmetry. apply Z.add_nocarry_lor.
  apply Z.bits_inj'. intros i Hi. rewrite Z.land_spec, Z.shiftl_spec, Z.bits_0 by lia.
  destruct (decide (i < k)).
  - by rewrite (Z.testbit_neg_r _ (i - k)) by lia.
  - rewrite <-(Z.mod_small l (2 ^ k) Hl). by rewrite Z.mod_pow2_bits_high, andb_false_r by lia.
Qed.
Lemma word64_join h l : u32 l -> Z.lor (Z.shiftl h 32) l = h * 2 ^ 32 + l.
Proof. apply lor_join. lia. Qed.

Lemma swap_get64_put v : u64 v ->
  exists b0 b1 b2 b3 b4 b5 b6 b7,
    be64 v = [b0; b1; b2; b3; b4; b5; b6; b7] /\ swap_get64 b0 b1 b2 b3 b4 b5 b6 b7 = v.
Proof.
  intros Hv.
  destruct (swap_get32_put (v / 2 ^ 32)) as (b0 & b1 & b2 & b3 & Hh & Hgh).
  { rewrite <-Z.shiftr_div_pow2 by lia. by apply shiftr_u64. }
  destruct (swap_get32_put (v `mod` 2 ^ 32)) as (b4 & b5 & b6 & b7 & Hl & Hgl).
  { apply wrap32_u32. }
  exists b0, b1, b2, b3, b4, b5, b6, b7. split.
  { unfold be64. by rewrite Hh, Hl. }
  unfold swap_get64. rewrite word64_join by apply swap_get32_u32. rewrite Hgh, Hgl.
  pose proof (Z.div_mod v (2 ^ 32)). lia.
Qed.

Lemma swap_get64_u64 b0 b1 b2 b3 b4 b5 b6 b7 : u64 (swap_get64 b0 b1 b2 b3 b4 b5 b6 b7).
Proof.
  unfold swap_get64. rewrite word64_join by apply swap_get32_u32.
  pose proof (swap_get32_u32 b0 b1 b2 b3). pose proof (swap_get32_u32 b4 b5 b6 b7).
  unfold u32, u64 in *. lia.
Qed.


(** The big-endian build writes the same bytes and reads the same values. *)
Lemma noswap_put32_be v : u32 v -> noswap_put32 v = be32 v.
Proof. apply store_be_word. Qed.
Lemma noswap_put64_be v : u64 v -> noswap_put64 v = be64 v.
Proof.
  intros Hv. unfold noswap_put64, be64.
  rewrite !noswap_put32_be by eauto using shiftr_u64 with chubby.
  by rewrite Z.shiftr_div_pow2 by lia.
Qed.

(** Both numeric mixins implement the byte order of RFC 4506: what
    [marshal_swap] stores on a little-endian machine and what [marshal_noswap]
    stores on a big-endian one is the big-endian encoding of the value, for
    32- and 64-bit values, and the reader of either build recovers a 32-bit
    value from the bytes the other wrote. *)
Lemma marshal_byte_order v :
  (u32 v -> swap_put32 v = be32 v /\ noswap_put32 v = be32 v) /\
  (u64 v -> swap_put64 v = be64 v /\ noswap_put64 v = be64 v) /\
  (u32 v -> exists b0 b1 b2 b3, noswap_put32 v = [b0; b1; b2; b3] /\
              swap_get32 b0 b1 b2 b3 = v /\ noswap_get32 b0 b1 b2 b3 = v).
Proof.
  split_and!.
  - auto using swap_put32_be, noswap_put32_be.
  - auto using swap_put64_be, noswap_put64_be.
  - intros Hv. destruct (swap_get32_put v Hv) as (b0 & b1 & b2 & b3 & Hb & Hg).
    exists b0, b1, b2, b3. rewrite noswap_put32_be by done. split; [done|]. split; [done|].
    unfold noswap_get32. by rewrite <-swap_get32_load.
Qed.

Lemma marshal_byte_order_witness :
  swap_put32 0x01020304 = store_be 0x01020304 /\ swap_put32 0x01020304 = be32 0x01020304.
Proof.
  split; [reflexivity|]. apply (marshal_byte_order 0x01020304). unfold u32; lia.
Defined.
