(* ===== verification/Xdr.v ===== *)
(** * XDR marshaling: [xdrpp/marshal.h], [xdrpp/marshal.cc], [xdrpp/types.h]

    [xdr_put] and [xdr_get] as computations over the part of a message buffer
    between [p_] and [e_].  An access past [e_] is the outcome [XOob]; the
    theorems show that it never happens on a buffer whose size is a multiple
    of four, that [xdr_to_msg] never fails on a value that fits the wire
    format, and that [xdr_from_msg] recovers the value.

    The class [Xdr] is what [xdr_traits<T>] offers ([serial_size], [save],
    [load]); [XdrLaws] is what its clients rely on.  The tactic [solve_xdr]
    discharges the laws of a struct from those of its fields. *)

From S2P Require Import Prelude Endian.

(** ** Buffers and results *)

Inductive xdr_error :=
| xdr_overflow | xdr_bad_message_size | xdr_bad_discriminant | xdr_should_be_zero.

#[global] Instance xdr_error_eq_dec : EqDecision xdr_error.
Proof. solve_decision. Defined.

Inductive xres (A : Type) :=
| XOk (a : A)
| XErr (e : xdr_error)
| XOob.  (* memory access outside the message buffer *)
Arguments XOk {A} a.
Arguments XErr {A} e.
Arguments XOob {A}.

#[global] Instance xres_ret : MRet xres := @XOk.
#[global] Instance xres_bind : MBind xres := fun A B k m =>
  match m with XOk a => k a | XErr e => XErr e | XOob => XOob end.

(** The reader: the bytes from [p_] to [e_]. *)
Definition get (A : Type) : Type := bytes -> xres (A * bytes).

#[global] Instance get_ret : MRet get := fun A a b => XOk (a, b).
#[global] Instance get_bind : MBind get := fun A B k m b =>
  match m b with XOk (a, b') => k a b' | XErr e => XErr e | XOob => XOob end.

Definition get_fail {A} (e : xdr_error) : get A := fun _ => XErr e.

(** The writer: the bytes before [p_] and the number of bytes from [p_] to [e_]. *)
Record wbuf := WBuf { w_out : bytes; w_room : Z }.

Definition put : Type := wbuf -> xres wbuf.
Definition put_seq (p q : put) : put := fun w => p w ≫= q.
Infix ">;>" := put_seq (at level 60, right associativity) : chubby_scope.

(** ** [xdr_generic_put] and [xdr_generic_get] *)

(** A store of [bs] at [p_], with no check of its own. *)
Definition put_raw (bs : bytes) : put := fun w =>
  if Z.of_nat (length bs) <=? w_room w
  then XOk (WBuf (w_out w ++ bs) (w_room w - Z.of_nat (length bs))) else XOob.

Definition put32 (v : Z) : put := put_raw (swap_put32 v).
Definition put64 (v : Z) : put := put_raw (swap_put64 v).

(** [void check(std::size_t n) const] of the writer. *)
Definition put_check (n : Z) : put := fun w =>
  if w_room w <? n then XErr xdr_overflow else XOk w.

(** [while (len & 3) { ++len; *p++ = '\0'; }] *)
Fixpoint put_pad (fuel : nat) (len : Z) : put := fun w =>
  if Z.land len 3 =? 0 then XOk w else
  match fuel with
  | O => XOob
  | S fuel => put_raw ["000"%char] w ≫= put_pad fuel (len + 1)
  end.

(** [marshal_base::put_bytes] *)
Definition put_bytes (buf : bytes) : put :=
  put_raw buf >;> put_pad 3 (Z.of_nat (length buf)).

Definition get_raw (n : nat) : get bytes := fun b =>
  if (n <=? length b)%nat then XOk (take n b, drop n b) else XOob.

Definition get32 : get Z := fun b =>
  match b with
  | b0 :: b1 :: b2 :: b3 :: b' => XOk (swap_get32 b0 b1 b2 b3, b')
  | _ => XOob
  end.
Definition get64 : get Z := fun b =>
  match b with
  | b0 :: b1 :: b2 :: b3 :: b4 :: b5 :: b6 :: b7 :: b' =>
      XOk (swap_get64 b0 b1 b2 b3 b4 b5 b6 b7, b')
  | _ => XOob
  end.

(** [void check(std::uint32_t n) const] of the reader. *)
Definition get_check (n : Z) : get unit := fun b =>
  if Z.of_nat (length b) <? n then XErr xdr_overflow else XOk (tt, b).

(** [while (len & 3) { ++len; if (\*p++ != '\0') throw xdr_should_be_zero; }] *)
Fixpoint get_pad (fuel : nat) (len : Z) : get unit := fun b =>
  if Z.land len 3 =? 0 then XOk (tt, b) else
  match fuel with
  | O => XOob
  | S fuel =>
      match b with
      | [] => XOob
      | c :: b => if byte_val c =? 0 then get_pad fuel (len + 1) b else XErr xdr_should_be_zero
      end
  end.

(** [marshal_base::get_bytes] *)
Definition get_bytes (len : Z) : get bytes :=
  buf ← get_raw (Z.to_nat len);
  get_pad 3 len ;;
  mret buf.

(** ** The traits class *)

Class Xdr (A : Type) := {
  (** The values the wire format can carry. *)
  xdr_valid : A -> Prop;
  (** [xdr_traits<A>::serial_size] *)
  serial_size : A -> Z;
  (** [archive(xdr_put&, a)] and [archive(xdr_get&, a)] *)
  save : A -> put;
  load : get A;
  (** The RFC 4506 encoding, a specification. *)
  wire : A -> bytes;
}.

Definition aligned (n : Z) : Prop := n `mod` 4 = 0.
Definition blen (b : bytes) : Z := Z.of_nat (length b).

(** The sizes of the messages the RPC layer allocates ([message_t::alloc]
    asserts [size < 0x80000000]) and the reader accepts. *)
Definition frame (n : Z) : Prop := aligned n /\ n < 2 ^ 31.

(** [p] stores exactly [bs], or reports an overflow. *)
Definition Saves (p : put) (bs : bytes) : Prop :=
  aligned (blen bs) /\
  forall w, 0 <= w_room w -> aligned (w_room w) ->
    p w = if w_room w <? blen bs then XErr xdr_overflow
          else XOk (WBuf (w_out w ++ bs) (w_room w - blen bs)).

(** [g] reads [a] from [bs]. *)
Definition Loads {A} (g : get A) (a : A) (bs : bytes) : Prop :=
  forall rest, g (bs ++ rest) = XOk (a, rest).

(** The result of a read of [b] stays inside it, and a value that is returned
    satisfies [P] and leaves a well-sized rest of the buffer. *)
Definition inside {A} (P : A -> Prop) (b : bytes) (x : xres (A * bytes)) : Prop :=
  match x with
  | XOk (a, r) => P a /\ frame (blen r) /\ exists c, b = c ++ r
  | XErr _ => True
  | XOob => False
  end.
Definition Safe {A} (g : get A) (P : A -> Prop) : Prop :=
  forall b, frame (blen b) -> inside P b (g b).

Class XdrLaws (A : Type) `{!Xdr A} := {
  wire_size a : xdr_valid a -> serial_size a = blen (wire a);
  save_wire a : xdr_valid a -> Saves (save a) (wire a);
  load_wire a : xdr_valid a -> Loads load a (wire a);
  load_safe : Safe load xdr_valid;
}.

(** ** Composition *)

Lemma aligned_add a b : aligned a -> aligned b -> aligned (a + b).
Proof. unfold aligned. mod_lia. Qed.
Lemma aligned_sub a b : aligned a -> aligned b -> aligned (a - b).
Proof. unfold aligned. mod_lia. Qed.
Lemma blen_app a b : blen (a ++ b) = blen a + blen b.
Proof. unfold blen. rewrite length_app. lia. Qed.
Lemma blen_nonneg b : 0 <= blen b.
Proof. unfold blen. lia. Qed.


Lemma saves_nil : Saves XOk [].
Proof.
  split; [done|]. intros [out room] H0 Ha. change (blen []) with 0. simpl in *.
  rewrite app_nil_r, Z.sub_0_r. by destruct (Z.ltb_spec room 0); [lia|].
Qed.

Lemma saves_seq p q bp bq : Saves p bp -> Saves q bq -> Saves (p >;> q) (bp ++ bq).
Proof.
  intros [Ap Hp] [Aq Hq]. split; [rewrite blen_app; by apply aligned_add|].
  intros w Hw Ha. pose proof (blen_nonneg bq). unfold put_seq. rewrite Hp by done. rewrite blen_app.
  destruct (Z.ltb_spec (w_room w) (blen bp)); simpl.
  { destruct (Z.ltb_spec (w_room w) (blen bp + blen bq)); [done|lia]. }
  rewrite Hq; simpl; [|lia|by apply aligned_sub].
  destruct (Z.ltb_spec (w_room w - blen bp) (blen bq)),
    (Z.ltb_spec (w_room w) (blen bp + blen bq)); try lia; [done|].
  rewrite <-app_assoc. do 2 f_equal. lia.
Qed.

Lemma loads_ret {A} (a : A) : Loads (mret a) a [].
Proof. done. Qed.

Lemma loads_bind {A B} (g : get A) (k : A -> get B) a b ba bb :
  Loads g a ba -> Loads (k a) b bb -> Loads (g ≫= k) b (ba ++ bb).
Proof.
  intros Hg Hk rest. unfold mbind, get_bind. rewrite <-app_assoc, Hg. apply Hk.
Qed.

Lemma safe_ret {A} (a : A) (P : A -> Prop) : P a -> Safe (mret a) P.
Proof. intros Ha b Hb. simpl. split_and!; [done..|]. by exists []. Qed.

Lemma safe_fail {A} e (P : A -> Prop) : Safe (get_fail e) P.
Proof. by intros b Hb. Qed.

Lemma inside_bind {A B} (x : xres (A * bytes)) (k : A -> get B) P Q b :
  inside P b x -> (forall a, P a -> Safe (k a) Q) ->
  inside Q b (match x with XOk (a, r) => k a r | XErr e => XErr e | XOob => XOob end).
Proof.
  intros Hg Hk. destruct x as [[a r]|e|]; [|done..]. destruct Hg as (Pa & Hr & c & ->).
  specialize (Hk a Pa r Hr). destruct (k a r) as [[a' r']|e|]; [|done..].
  destruct Hk as (Qa & Hr' & c' & ->). split_and!; [done..|]. exists (c ++ c'). by rewrite app_assoc.
Qed.

Lemma safe_bind {A B} (g : get A) (k : A -> get B) P Q :
  Safe g P -> (forall a, P a -> Safe (k a) Q) -> Safe (g ≫= k) Q.
Proof. intros Hg Hk b Hb. eapply inside_bind; eauto. Qed.

Lemma safe_weaken {A} (g : get A) (P Q : A -> Prop) :
  Safe g P -> (forall a, P a -> Q a) -> Safe g Q.
Proof.
  intros Hg H b Hb. specialize (Hg b Hb). destruct (g b) as [[a r]|e|]; [|done..].
  destruct Hg as (? & ? & ?). split_and!; auto.
Qed.

Create HintDb xdr.
#[export] Hint Resolve saves_nil loads_ret : xdr.
#[export] Hint Resolve wire_size save_wire load_wire load_safe : xdr.

(** ** Integers *)

Lemma put_raw_ok bs w : blen bs <= w_room w ->
  put_raw bs w = XOk (WBuf (w_out w ++ bs) (w_room w - blen bs)).
Proof. intros H. unfold put_raw, blen in *. by destruct (Z.leb_spec (Z.of_nat (length bs)) (w_room w)); [|lia]. Qed.

Lemma saves_checked_raw bs : aligned (blen bs) -> Saves (put_check (blen bs) >;> put_raw bs) bs.
Proof.
  intros Ha. split; [done|]. intros w Hw Haw. unfold put_seq, put_check.
  destruct (Z.ltb_spec (w_room w) (blen bs)); simpl; [done|]. by apply put_raw_ok.
Qed.

(** [operator()(T t)] for the 32- and 64-bit types. *)
Definition save_u32 (v : Z) : put := put_check 4 >;> put32 v.
Definition load_u32 : get Z := get_check 4 ;; get32.
Definition save_u64 (v : Z) : put := put_check 8 >;> put64 v.
Definition load_u64 : get Z := get_check 8 ;; get64.

Lemma save_u32_ok v : u32 v -> Saves (save_u32 v) (be32 v).
Proof.
  intros Hv. unfold save_u32, put32. rewrite swap_put32_be by done.
  by apply (saves_checked_raw (be32 v)).
Qed.
Lemma save_u64_ok v : u64 v -> Saves (save_u64 v) (be64 v).
Proof.
  intros Hv. unfold save_u64, put64. rewrite swap_put64_be by done.
  by apply (saves_checked_raw (be64 v)).
Qed.

Lemma get_check_ok n b : n <= blen b -> get_check n b = XOk (tt, b).
Proof. intros H. unfold get_check, blen in *. by destruct (Z.ltb_spec (Z.of_nat (length b)) n); [lia|]. Qed.

Lemma load_u32_ok v : u32 v -> Loads load_u32 v (be32 v).
Proof.
  intros Hv rest. unfold load_u32, mbind, get_bind.
  rewrite get_check_ok by (rewrite blen_app; pose proof (blen_nonneg rest); unfold blen at 1; simpl; lia).
  destruct (swap_get32_put v Hv) as (b0 & b1 & b2 & b3 & -> & Hg). simpl. by rewrite Hg.
Qed.
Lemma load_u64_ok v : u64 v -> Loads load_u64 v (be64 v).
Proof.
  intros Hv rest. unfold load_u64, mbind, get_bind.
  rewrite get_check_ok by (rewrite blen_app; pose proof (blen_nonneg rest); unfold blen at 1; simpl; lia).
  destruct (swap_get64_put v Hv) as (b0 & b1 & b2 & b3 & b4 & b5 & b6 & b7 & -> & Hg).
  simpl. by rewrite Hg.
Qed.

Lemma inside_check n {A} (k : get A) P b :
  (n <= blen b -> inside P b (k b)) -> inside P b ((get_check n ;; k) b).
Proof.
  intros Hk. unfold mbind, get_bind, get_check, blen in *.
  destruct (Z.ltb_spec (Z.of_nat (length b)) n); [done|]. by apply Hk.
Qed.

Lemma inside_get32 b : frame (blen b) -> 4 <= blen b ->
  inside (fun v => u32 v) b (get32 b).
Proof.
  intros Ha Hn. unfold frame, blen in *.
  destruct b as [|b0 [|b1 [|b2 [|b3 b]]]]; simpl in *; try lia.
  split_and!; [apply swap_get32_u32|unfold frame, blen, aligned in *; mod_lia|by exists [b0; b1; b2; b3]].
Qed.

Lemma safe_u32 : Safe load_u32 u32.
Proof. intros b Hb. apply inside_check. by apply inside_get32. Qed.

Lemma safe_u64 : Safe load_u64 u64.
Proof.
  intros b Hb. apply inside_check. intros Hn. unfold frame, blen in *.
  destruct b as [|b0 [|b1 [|b2 [|b3 [|b4 [|b5 [|b6 [|b7 b]]]]]]]]; simpl in *; try lia.
  split_and!; [apply swap_get64_u64|unfold frame, blen, aligned in *; mod_lia|
    by exists [b0; b1; b2; b3; b4; b5; b6; b7]].
Qed.

#[export] Hint Resolve save_u32_ok save_u64_ok load_u32_ok load_u64_ok safe_u32 safe_u64 : xdr.

(** ** Strings and opaque data *)

Definition XDR_MAX_LEN : Z := 0xfffffffc.

(** [operator()(const T &t)] for [is_bytes] types of variable length. *)
Definition save_bytes (buf : bytes) : put :=
  put_check (4 + blen buf) >;> put32 (wrap32 (blen buf)) >;> put_bytes buf.

(** [operator()(T &t)] for [xstring]: [std::string::resize] checks no bound. *)
Definition load_string : get string :=
  get_check 4 ;;
  size ← get32;
  get_check size ;;
  buf ← get_bytes size;
  mret (bytes_str buf).

(** [operator()(T &t)] for [opaque_vec]: [xvector::resize] is bounded. *)
Definition load_opaque : get bytes :=
  get_check 4 ;;
  size ← get32;
  get_check size ;;
  if XDR_MAX_LEN <? size then get_fail xdr_overflow else get_bytes size.

(** [serial_size] of [xstring] and [opaque_vec]:
    [(std::size_t(a.size()) + std::size_t(7)) & ~std::size_t(3)] *)
Definition bytes_serial_size (n : Z) : Z := Z.land (n + 7) (2 ^ 64 - 4).

(** The zero bytes that complete [n] bytes to a multiple of four. *)
Definition pad_len (n : Z) : Z := (- n) `mod` 4.
Definition pad (n : Z) : bytes := replicate (Z.to_nat (pad_len n)) "000"%char.
Definition wire_bytes (buf : bytes) : bytes := be32 (blen buf) ++ buf ++ pad (blen buf).

Lemma pad_len_range n : 0 <= pad_len n < 4.
Proof. apply Z.mod_pos_bound. lia. Qed.
Lemma blen_pad n : blen (pad n) = pad_len n.
Proof. pose proof (pad_len_range n). unfold blen, pad. rewrite length_replicate. lia. Qed.
Lemma blen_wire_bytes buf : blen (wire_bytes buf) = 4 + blen buf + pad_len (blen buf).
Proof.
  unfold wire_bytes. rewrite !blen_app, blen_pad. change (blen (be32 _)) with 4. lia.
Qed.
Lemma aligned_wire_bytes buf : aligned (blen (wire_bytes buf)).
Proof. rewrite blen_wire_bytes. unfold aligned, pad_len. mod_lia. Qed.

Lemma land_3 n : Z.land n 3 = n `mod` 4.
Proof. change 3 with (Z.ones 2). by rewrite Z.land_ones by lia. Qed.

Lemma pad_len_step n : n `mod` 4 <> 0 -> pad_len n = 1 + pad_len (n + 1).
Proof. unfold pad_len. mod_lia. Qed.

Lemma pad_len_0 n : n `mod` 4 = 0 <-> pad_len n = 0.
Proof. unfold pad_len. mod_lia. Qed.

Lemma pad_cons n : n `mod` 4 <> 0 -> pad n = "000"%char :: pad (n + 1).
Proof.
  intros H. pose proof (pad_len_range (n + 1)). unfold pad. rewrite pad_len_step by done.
  by rewrite Z2Nat.inj_add by lia.
Qed.

Lemma pad_nil n : n `mod` 4 = 0 -> pad n = [].
Proof. intros H%pad_len_0. unfold pad. by rewrite H. Qed.

Lemma put_pad_ok fuel n w : pad_len n <= Z.of_nat fuel -> pad_len n <= w_room w ->
  put_pad fuel n w = XOk (WBuf (w_out w ++ pad n) (w_room w - pad_len n)).
Proof.
  revert n w. induction fuel as [|fuel IH]; intros n w Hf Hr; pose proof (pad_len_range n); simpl;
    rewrite land_3; destruct (Z.eqb_spec (n `mod` 4) 0) as [Hn|Hn];
    try (rewrite (pad_nil n Hn); apply pad_len_0 in Hn; rewrite Hn, app_nil_r, Z.sub_0_r;
         by destruct w).
  - rewrite pad_len_0 in Hn. lia.
  - pose proof (pad_len_step n Hn). pose proof (pad_len_range (n + 1)).
    rewrite put_raw_ok by (unfold blen; simpl; lia). simpl.
    rewrite IH by (unfold blen; simpl; lia). simpl. rewrite (pad_cons n), <-app_assoc by done.
    do 2 f_equal. unfold blen; simpl. lia.
Qed.

#[local] Arguments put_pad : simpl never.

Lemma put_bytes_ok buf w : blen buf + pad_len (blen buf) <= w_room w ->
  put_bytes buf w =
    XOk (WBuf (w_out w ++ buf ++ pad (blen buf)) (w_room w - (blen buf + pad_len (blen buf)))).
Proof.
  intros Hr. pose proof (pad_len_range (blen buf)). unfold put_bytes, put_seq.
  rewrite put_raw_ok by lia. simpl. change (Z.of_nat (length buf)) with (blen buf).
  rewrite put_pad_ok by (simpl; lia). simpl. rewrite <-app_assoc. do 2 f_equal. lia.
Qed.

Lemma save_bytes_ok buf : blen buf <= XDR_MAX_LEN -> Saves (save_bytes buf) (wire_bytes buf).
Proof.
  intros Hm. split; [apply aligned_wire_bytes|]. intros w Hw Ha.
  pose proof (pad_len_range (blen buf)). pose proof (blen_nonneg buf).
  unfold save_bytes, put_seq, put_check. rewrite blen_wire_bytes.
  assert (w_room w < 4 + blen buf <-> w_room w < 4 + blen buf + pad_len (blen buf)) as Hiff.
  { unfold aligned, pad_len in *. mod_lia. }
  destruct (Z.ltb_spec (w_room w) (4 + blen buf)),
    (Z.ltb_spec (w_room w) (4 + blen buf + pad_len (blen buf))); try lia; simpl; [done|].
  rewrite wrap32_small by (unfold u32, XDR_MAX_LEN in *; lia).
  unfold put32. rewrite swap_put32_be by (unfold u32, XDR_MAX_LEN in *; lia).
  rewrite put_raw_ok by (change (blen (be32 _)) with 4; lia). simpl.
  rewrite put_bytes_ok by (simpl; change (blen (be32 _)) with 4; lia). simpl.
  unfold wire_bytes. rewrite <-app_assoc. do 2 f_equal.
  change (blen (be32 _)) with 4. lia.
Qed.

Lemma get_raw_ok buf rest : get_raw (length buf) (buf ++ rest) = XOk (buf, rest).
Proof.
  unfold get_raw. rewrite length_app.
  destruct (Nat.leb_spec (length buf) (length buf + length rest)); [|lia].
  by rewrite take_app_length, drop_app_length.
Qed.

Lemma get_pad_ok fuel n rest : pad_len n <= Z.of_nat fuel ->
  get_pad fuel n (pad n ++ rest) = XOk (tt, rest).
Proof.
  revert n. induction fuel as [|fuel IH]; intros n Hf; pose proof (pad_len_range n); simpl;
    rewrite land_3; destruct (Z.eqb_spec (n `mod` 4) 0) as [Hn|Hn];
    try (by rewrite (pad_nil n Hn)).
  - rewrite pad_len_0 in Hn. lia.
  - rewrite (pad_cons n Hn). simpl. pose proof (pad_len_step n Hn). apply IH. lia.
Qed.

Lemma get_pad_safe fuel n b : pad_len n <= Z.of_nat fuel -> pad_len n <= blen b ->
  match get_pad fuel n b with
  | XOk (_, r) => exists c, b = c ++ r /\ blen c = pad_len n
  | XErr _ => True
  | XOob => False
  end.
Proof.
  revert n b. induction fuel as [|fuel IH]; intros n b Hf Hb; pose proof (pad_len_range n);
    cbn [get_pad]; rewrite land_3; destruct (Z.eqb_spec (n `mod` 4) 0) as [Hn|Hn];
    try (exists []; apply pad_len_0 in Hn; done).
  - rewrite pad_len_0 in Hn. lia.
  - pose proof (pad_len_step n Hn). pose proof (pad_len_range (n + 1)).
    destruct b as [|c b]; [unfold blen in Hb; simpl in Hb; lia|].
    destruct (Z.eqb_spec (byte_val c) 0); [|done].
    specialize (IH (n + 1) b). unfold blen in *. simpl in Hb.
    destruct (get_pad fuel (n + 1) b) as [[u r]|err|]; [|done|apply IH; lia].
    destruct IH as (d & -> & Hd); [lia..|]. exists (c :: d). split; [done|]. simpl. lia.
Qed.

#[local] Arguments get_pad : simpl never.

Lemma get_bytes_ok buf rest :
  get_bytes (blen buf) (buf ++ pad (blen buf) ++ rest) = XOk (buf, rest).
Proof.
  unfold get_bytes, mbind, get_bind. unfold blen at 1. rewrite Nat2Z.id, get_raw_ok.
  rewrite get_pad_ok; [done|]. pose proof (pad_len_range (blen buf)). lia.
Qed.

(** Reading a counted byte string leaves the check of the count and the copy. *)
Lemma load_counted {A} buf rest (k : Z -> get A) : u32 (blen buf) ->
  (get_check 4 ;; size ← get32; get_check size ;; k size) (wire_bytes buf ++ rest) =
  k (blen buf) (buf ++ pad (blen buf) ++ rest).
Proof.
  intros Hu. unfold wire_bytes, mbind, get_bind. rewrite <-!app_assoc.
  rewrite get_check_ok by (rewrite blen_app; pose proof (blen_nonneg (buf ++ pad (blen buf) ++ rest));
    change (blen (be32 _)) with 4; lia).
  destruct (swap_get32_put (blen buf) Hu) as (b0 & b1 & b2 & b3 & -> & Hg). simpl. rewrite Hg.
  rewrite get_check_ok; [done|]. rewrite blen_app. pose proof (blen_nonneg (pad (blen buf) ++ rest)). lia.
Qed.

Lemma load_string_ok s : blen (str_bytes s) <= XDR_MAX_LEN ->
  Loads load_string s (wire_bytes (str_bytes s)).
Proof.
  intros Hm rest. pose proof (blen_nonneg (str_bytes s)). unfold load_string.
  rewrite load_counted by (unfold u32, XDR_MAX_LEN in *; lia).
  unfold mbind, get_bind. rewrite get_bytes_ok. simpl. by rewrite bytes_str_bytes.
Qed.

Lemma load_opaque_ok buf : blen buf <= XDR_MAX_LEN -> Loads load_opaque buf (wire_bytes buf).
Proof.
  intros Hm rest. pose proof (blen_nonneg buf). unfold load_opaque.
  rewrite load_counted by (unfold u32, XDR_MAX_LEN in *; lia).
  destruct (Z.ltb_spec XDR_MAX_LEN (blen buf)); [lia|]. apply get_bytes_ok.
Qed.

(** [& ~std::size_t(3)] rounds down to a multiple of four. *)
Lemma land_round x : 0 <= x < 2 ^ 64 -> Z.land x (2 ^ 64 - 4) = 4 * (x / 4).
Proof.
  intros Hx. change (2 ^ 64 - 4) with (Z.ldiff (Z.ones 64) (Z.ones 2)).
  assert (forall a b c, Z.land a (Z.ldiff b c) = Z.ldiff (Z.land a b) c) as Hld.
  { intros a b c. apply Z.bits_inj'. intros i Hi.
    rewrite Z.ldiff_spec, !Z.land_spec, Z.ldiff_spec. by rewrite andb_assoc. }
  rewrite Hld, Z.land_ones, Z.ldiff_ones_r, Z.mod_small by lia.
  rewrite Z.shiftl_mul_pow2, Z.shiftr_div_pow2 by lia. change (2 ^ 2) with 4. lia.
Qed.

Lemma bytes_serial_size_ok n : 0 <= n <= XDR_MAX_LEN ->
  bytes_serial_size n = 4 + n + pad_len n.
Proof.
  unfold XDR_MAX_LEN. intros Hn. unfold bytes_serial_size. rewrite land_round by lia. unfold pad_len. mod_lia.
Qed.

Lemma bytes_wire_size buf : blen buf <= XDR_MAX_LEN ->
  bytes_serial_size (blen buf) = blen (wire_bytes buf).
Proof.
  intros H. pose proof (blen_nonneg buf).
  rewrite blen_wire_bytes, bytes_serial_size_ok by lia. lia.
Qed.

Lemma get_bytes_safe n b : 0 <= n <= blen b -> frame (blen b) ->
  inside (fun buf => blen buf = n) b (get_bytes n b).
Proof.
  intros Hn [Ha Hs]. unfold get_bytes, get_raw, mbind, get_bind.
  destruct (Nat.leb_spec (Z.to_nat n) (length b)) as [Hl|Hl]; [|unfold blen in Hn; lia].
  assert (blen (drop (Z.to_nat n) b) = blen b - n) as Hd.
  { unfold blen. rewrite length_drop. unfold blen in Hn. lia. }
  pose proof (pad_len_range n).
  pose proof (get_pad_safe 3 n (drop (Z.to_nat n) b)) as Hp.
  destruct (get_pad 3 n (drop (Z.to_nat n) b)) as [[u r]|e|]; [|done|].
  2: { apply Hp; unfold aligned, pad_len in *; mod_lia. }
  destruct Hp as (c & Hc & Hlen); [lia|rewrite Hd; unfold aligned, pad_len in *; mod_lia|].
  cbn. split_and!.
  - unfold blen. rewrite length_take. unfold blen in Hn. lia.
  - rewrite Hc, blen_app, Hlen in Hd. unfold frame, aligned, pad_len in *. mod_lia.
  - exists (take (Z.to_nat n) b ++ c). rewrite <-app_assoc, <-Hc. by rewrite take_drop.
Qed.

Lemma safe_counted {A} (k : Z -> get A) P :
  (forall n b, 0 <= n <= blen b -> frame (blen b) -> inside P b (k n b)) ->
  Safe (get_check 4 ;; size ← get32; get_check size ;; k size) P.
Proof.
  intros Hk b Hb. apply inside_check. intros Hn.
  eapply inside_bind; [by apply inside_get32|]. intros n Hu b' Hb'.
  apply inside_check. intros Hn'. apply Hk; [unfold u32 in *; lia|done].
Qed.

Definition str_valid (s : string) : Prop := blen (str_bytes s) <= XDR_MAX_LEN.
Definition opaque_valid (b : bytes) : Prop := blen b <= XDR_MAX_LEN.

Lemma safe_string : Safe load_string str_valid.
Proof.
  apply (safe_counted (fun size => buf ← get_bytes size; mret (bytes_str buf))).
  intros n b Hn Hb. eapply inside_bind; [by apply get_bytes_safe|].
  intros buf Hl. apply safe_ret. unfold str_valid. rewrite str_bytes_str, Hl.
  unfold frame, XDR_MAX_LEN in *. lia.
Qed.

Lemma safe_opaque : Safe load_opaque opaque_valid.
Proof.
  apply (safe_counted (fun size =>
    if XDR_MAX_LEN <? size then get_fail xdr_overflow else get_bytes size)).
  intros n b Hn Hb. destruct (Z.ltb_spec XDR_MAX_LEN n); [done|].
  pose proof (get_bytes_safe n b Hn Hb) as Hg. destruct (get_bytes n b) as [[buf r]|e|]; [|done..].
  destruct Hg as (Hl & ? & ?). split_and!; [|done..]. unfold opaque_valid. lia.
Qed.

#[export] Instance xdr_string : Xdr string := {|
  xdr_valid := str_valid;
  serial_size s := bytes_serial_size (blen (str_bytes s));
  save s := save_bytes (str_bytes s);
  load := load_string;
  wire s := wire_bytes (str_bytes s);
|}.
#[export] Instance xdr_string_laws : XdrLaws string.
Proof.
  split; simpl; intros.
  - by apply bytes_wire_size.
  - by apply save_bytes_ok.
  - by apply load_string_ok.
  - apply safe_string.
Qed.

#[export] Instance xdr_opaque : Xdr bytes := {|
  xdr_valid := opaque_valid;
  serial_size b := bytes_serial_size (blen b);
  save := save_bytes;
  load := load_opaque;
  wire := wire_bytes;
|}.
#[export] Instance xdr_opaque_laws : XdrLaws bytes.
Proof.
  split; simpl; intros.
  - by apply bytes_wire_size.
  - by apply save_bytes_ok.
  - by apply load_opaque_ok.
  - apply safe_opaque.
Qed.

(** ** Booleans: [from_uint] accepts every non-zero word *)

Definition bool_to_uint (b : bool) : Z := if b then 1 else 0.
Definition bool_from_uint (u : Z) : bool := negb (u =? 0).

#[export] Instance xdr_bool : Xdr bool := {|
  xdr_valid _ := True;
  serial_size _ := 4;
  save b := save_u32 (bool_to_uint b);
  load := u ← load_u32; mret (bool_from_uint u);
  wire b := be32 (bool_to_uint b);
|}.
#[export] Instance xdr_bool_laws : XdrLaws bool.
Proof.
  split; simpl; intros.
  - done.
  - apply save_u32_ok. by destruct a.
  - intros rest. unfold mbind, get_bind. rewrite load_u32_ok by (by destruct a). by destruct a.
  - eapply safe_bind; [apply safe_u32|]. intros u _. by apply safe_ret.
Qed.

(** ** [xvector<T>]: [xdr_container_base<T, true>] *)

Section vector.
Context {A : Type} `{!Xdr A, !XdrLaws A}.

Fixpoint save_elems (l : list A) : put :=
  match l with [] => XOk | a :: l => save a >;> save_elems l end.
Fixpoint load_elems (n : nat) : get (list A) :=
  match n with
  | O => mret []
  | S n => a ← load; l ← load_elems n; mret (a :: l)
  end.
Fixpoint elems_size (l : list A) : Z :=
  match l with [] => 0 | a :: l => serial_size a + elems_size l end.
Fixpoint wire_elems (l : list A) : bytes :=
  match l with [] => [] | a :: l => wire a ++ wire_elems l end.

(** [t.check_size(n)] is the only bound: [extend_at(i)] has [i < n]. *)
Definition load_vector : get (list A) :=
  n ← load_u32;
  if XDR_MAX_LEN <? n then get_fail xdr_overflow else load_elems (Z.to_nat n).

Definition vector_valid (l : list A) : Prop :=
  Z.of_nat (length l) <= XDR_MAX_LEN /\ Forall xdr_valid l.

#[export] Instance xdr_vector : Xdr (list A) | 10 := {|
  xdr_valid := vector_valid;
  serial_size l := 4 + elems_size l;
  save l := save_u32 (wrap32 (Z.of_nat (length l))) >;> save_elems l;
  load := load_vector;
  wire l := be32 (Z.of_nat (length l)) ++ wire_elems l;
|}.

Lemma elems_wire_size l : Forall xdr_valid l -> elems_size l = blen (wire_elems l).
Proof.
  induction 1 as [|a l Ha Hl IH]; [done|]. cbn. rewrite blen_app, IH. by rewrite wire_size.
Qed.
Lemma save_elems_ok l : Forall xdr_valid l -> Saves (save_elems l) (wire_elems l).
Proof. induction 1; cbn; eauto using saves_nil, saves_seq, save_wire. Qed.
Lemma load_elems_ok l : Forall xdr_valid l -> Loads (load_elems (length l)) l (wire_elems l).
Proof.
  induction 1 as [|a l Ha Hl IH]; cbn; [apply loads_ret|].
  eapply loads_bind; [by apply load_wire|]. rewrite <-(app_nil_r (wire_elems l)).
  eapply loads_bind; [apply IH|apply loads_ret].
Qed.
Lemma safe_elems n : Safe (load_elems n) (fun l => length l = n /\ Forall xdr_valid l).
Proof.
  induction n as [|n IH]; cbn; [by apply safe_ret|].
  eapply safe_bind; [apply load_safe|]. intros a Ha.
  eapply safe_bind; [apply IH|]. intros l [Hl Hv]. apply safe_ret. simpl. auto.
Qed.

#[export] Instance xdr_vector_laws : XdrLaws (list A) | 10.
Proof.
  split; cbn [xdr_valid serial_size save load wire xdr_vector].
  - intros l [Hn Hv]. rewrite blen_app, elems_wire_size by done. done.
  - intros l [Hn Hv]. rewrite wrap32_small by (unfold u32, XDR_MAX_LEN in *; lia).
    apply saves_seq; [apply save_u32_ok; unfold u32, XDR_MAX_LEN in *; lia|by apply save_elems_ok].
  - intros l [Hn Hv]. eapply loads_bind; [apply load_u32_ok; unfold u32, XDR_MAX_LEN in *; lia|].
    destruct (Z.ltb_spec XDR_MAX_LEN (Z.of_nat (length l))); [lia|].
    rewrite Nat2Z.id. by apply load_elems_ok.
  - eapply safe_bind; [apply safe_u32|]. intros n Hn.
    destruct (Z.ltb_spec XDR_MAX_LEN n); [apply safe_fail|].
    eapply safe_weaken; [apply safe_elems|]. intros l [Hl Hv]. split; [|done].
    rewrite Hl. unfold u32 in *. lia.
Qed.
End vector.

(** ** Structs

    The [save] of a generated struct archives its fields in order and its
    [load] reads them back in order; [solve_xdr] proves the laws field by
    field. *)

#[export] Hint Extern 1 (Saves (_ >;> _) (_ ++ _)) => apply saves_seq : xdr.
#[export] Hint Extern 1 (Loads (_ ≫= _) _ (_ ++ _)) => eapply loads_bind : xdr.

Lemma loads_bind_last {A B} (g : get A) (k : A -> get B) a b bs :
  Loads g a bs -> Loads (k a) b [] -> Loads (g ≫= k) b bs.
Proof. intros Hg Hk. rewrite <-(app_nil_r bs). eapply loads_bind; eauto. Qed.

Lemma blen_be32 v : blen (be32 v) = 4.
Proof. done. Qed.
Lemma blen_be64 v : blen (be64 v) = 8.
Proof. done. Qed.
Lemma blen_nil : blen [] = 0.
Proof. done. Qed.

Create Rewrite HintDb xdr_size.
#[export] Hint Rewrite blen_app blen_be32 blen_be64 blen_nil : xdr_size.

Ltac solve_size :=
  autorewrite with xdr_size; repeat (rewrite wire_size by tauto); lia.

Ltac solve_save := repeat first
  [ tauto
  | lazymatch goal with
    | |- Saves (_ >;> _) _ => apply saves_seq
    | |- Saves (save_u32 _) _ => apply save_u32_ok
    | |- Saves (save_u64 _) _ => apply save_u64_ok
    | |- Saves (save _) _ => apply save_wire
    | |- Saves XOk _ => apply saves_nil
    end ].

Ltac solve_loads := repeat first
  [ tauto
  | lazymatch goal with
    | |- Loads (_ ≫= _) _ (_ ++ _) => eapply loads_bind
    | |- Loads (_ ≫= _) _ _ => eapply loads_bind_last
    | |- Loads load_u32 _ _ => apply load_u32_ok
    | |- Loads load_u64 _ _ => apply load_u64_ok
    | |- Loads load _ _ => apply load_wire
    | |- Loads (mret _) _ _ => apply loads_ret
    end ].

Ltac solve_conj := first [assumption | exact I | split; solve_conj].

Ltac solve_safe := repeat first
  [ apply safe_fail
  | apply safe_ret; cbv beta; solve_conj
  | eapply safe_bind; [first [apply safe_u32 | apply safe_u64 | apply load_safe]|intros ? ?] ].

(** The laws of a struct. *)
Tactic Notation "solve_xdr" reference(I) :=
  split; [intros [] Hv|intros [] Hv|intros [] Hv|];
  cbn [I xdr_valid serial_size save load wire] in *;
  [solve_size|solve_save|solve_loads|solve_safe].

(** The laws of a union: the discriminant of each case is a constant, so the
    [switch] of [load] is decided by computation. *)
Ltac solve_disc := first [tauto | cbn; unfold u32 in *; lia].

Ltac solve_switch := repeat
  lazymatch goal with
  | |- Loads (if ?a =? ?b then _ else _) _ _ =>
      first [ rewrite (proj2 (Z.eqb_eq a b)) by (cbn; lia)
            | rewrite (proj2 (Z.eqb_neq a b)) by (cbn; lia) ]
  | |- Safe (if ?a =? ?b then _ else _) _ => destruct (Z.eqb_spec a b)
  end.

Tactic Notation "solve_xdr_union" reference(I) :=
  split; [intros [] Hv|intros [] Hv|intros [] Hv|];
  cbn [I xdr_valid serial_size save load wire] in *;
  lazymatch goal with
  | |- Saves _ _ => apply saves_seq; [apply save_u32_ok; solve_disc|solve_save]
  | |- Loads _ _ _ =>
      eapply loads_bind; [apply load_u32_ok; solve_disc|solve_switch; solve_loads]
  | |- Safe _ _ =>
      eapply safe_bind; [apply safe_u32|intros ? ?; solve_switch; solve_safe]
  | |- _ => solve_size
  end.

(** The laws of a union discriminated by a [bool]. *)
Tactic Notation "solve_xdr_bool_union" reference(I) reference(disc) :=
  split; [intros [] Hv|intros [] Hv|intros [] Hv|];
  cbn [I xdr_valid serial_size save load wire] in *;
  lazymatch goal with
  | |- Saves _ _ => apply saves_seq; [by apply save_wire|solve_save]
  | |- Loads _ _ _ => eapply loads_bind; [by apply load_wire|cbn [disc]; solve_loads]
  | |- Safe _ _ => eapply safe_bind; [apply load_safe|intros [] ?; solve_safe]
  | |- _ => rewrite blen_app, <-wire_size, <-wire_size by done; done
  end.

(** ** Messages *)

Inductive msg_res (A : Type) :=
| MOk (a : A) | MThrow (e : xdr_error) | MAbort | MOob.
Arguments MOk {A} a.
Arguments MThrow {A} e.
Arguments MAbort {A}.
Arguments MOob {A}.

(** [message_t]: the four length bytes and the data. *)
Record message := Message { m_len : bytes; m_data : bytes }.
Definition raw_data (m : message) : bytes := m_len m ++ m_data m.

(** [message_t::alloc(size)] stores [swap32le(size | 0x80000000)] before a
    buffer of [size] bytes; [None] is the failed assertion [size < 0x80000000]. *)
Definition alloc_len (size : Z) : option bytes :=
  if size <? 0x80000000 then Some (swap_put32 (Z.lor size 0x80000000)) else None.

Section messages.
Context {A : Type} `{!Xdr A}.

(** [xdr_to_msg(a)]: allocate [xdr_size(a)] bytes, archive, assert that the
    buffer was filled. *)
Definition xdr_to_msg (a : A) : msg_res message :=
  match alloc_len (serial_size a) with
  | None => MAbort
  | Some len =>
      if negb (Z.land (serial_size a) 3 =? 0) then MAbort else
      match save a (WBuf [] (serial_size a)) with
      | XOk w => if w_room w =? 0 then MOk (Message len (w_out w)) else MAbort
      | XErr e => MThrow e
      | XOob => MOob
      end
  end.

(** [xdr_from_msg(m, a)] *)
Definition xdr_from_msg (data : bytes) : msg_res A :=
  if negb (Z.land (blen data) 3 =? 0) then MThrow xdr_bad_message_size else
  match load data with
  | XOk (a, []) => MOk a
  | XOk (_, _ :: _) => MThrow xdr_bad_message_size
  | XErr e => MThrow e
  | XOob => MOob
  end.

Context `{!XdrLaws A}.

Lemma wire_aligned a : xdr_valid a -> aligned (blen (wire a)).
Proof. intros Ha. by destruct (save_wire a Ha). Qed.

Lemma xdr_to_msg_ok a : xdr_valid a -> blen (wire a) < 2 ^ 31 ->
  xdr_to_msg a = MOk (Message (swap_put32 (Z.lor (blen (wire a)) 0x80000000)) (wire a)).
Proof.
  intros Ha Hlt. pose proof (blen_nonneg (wire a)). pose proof (wire_aligned a Ha) as Hal.
  unfold xdr_to_msg, alloc_len. rewrite wire_size by done.
  destruct (Z.ltb_spec (blen (wire a)) 0x80000000); [|lia].
  rewrite land_3, Hal. simpl. destruct (save_wire a Ha) as [_ ->]; [|done..]. simpl.
  rewrite Z.ltb_irrefl, Z.sub_diag. done.
Qed.

Lemma xdr_from_msg_wire a : xdr_valid a -> xdr_from_msg (wire a) = MOk a.
Proof.
  intros Ha. unfold xdr_from_msg. rewrite land_3, wire_aligned by done. simpl.
  rewrite <-(app_nil_r (wire a)). by rewrite load_wire by done.
Qed.

(** C38: a value that fits the wire format survives [xdr_to_msg] followed by
    [xdr_from_msg]: marshaling raises no assertion, overflows no buffer and
    unmarshaling returns the value. *)
Theorem xdr_msg_roundtrip a : xdr_valid a -> blen (wire a) < 2 ^ 31 ->
  exists m, xdr_to_msg a = MOk m /\ xdr_from_msg (m_data m) = MOk a.
Proof.
  intros Ha Hlt. eexists. split; [by apply xdr_to_msg_ok|]. by apply xdr_from_msg_wire.
Qed.

(** The decoder on a message: it never reads outside the buffer, fails no
    assertion, and accepts only a valid value that takes the whole message. *)
Definition decodes_safely (data : bytes) : Prop :=
  xdr_from_msg data <> MOob /\ xdr_from_msg data <> MAbort /\
  forall a, xdr_from_msg data = MOk a -> xdr_valid a /\ blen data `mod` 4 = 0 /\ load data = XOk (a, []).

Lemma laws_safe data : blen data < 2 ^ 31 -> decodes_safely data.
Proof.
  intros Hlt. unfold decodes_safely, xdr_from_msg. rewrite land_3.
  destruct (Z.eqb_spec (blen data `mod` 4) 0) as [Hal|]; [|done]. simpl.
  pose proof (load_safe data (conj Hal Hlt)) as Hs.
  destruct (load data) as [[a [|c r]]|e|]; [|done..].
  destruct Hs as [Hv _]. split_and!; [done..|]. by intros a' [= <-].
Qed.
End messages.

(** Marshaling inside a computation. *)
Definition of_msg {S A} (r : msg_res A) : M S A :=
  match r with
  | MOk a => mret a
  | MThrow _ => throw exn_xdr
  | MAbort | MOob => abort  (* MOob never happens: [laws_safe] *)
  end.
