(* ===== verification/RpcMsg.v ===== *)
(** * RPC messages: [xdrpp/rpc_msg.x], [xdrpp/rpc_msg.cc]

    The message header of RFC 5531 as the XDR compiler lays it out (an enum is
    an unchecked 32-bit word, a union its discriminant and an arm), with its
    codec, the error replies that a server puts into a header
    ([rpc_mkerr]) and the check of a reply by the client ([check_call_hdr]). *)

From S2P Require Import Prelude Endian Xdr.

(** ** Opaque data with a bound: [opaque_vec<N>] *)

Section bounded.
Context (N : Z).

Definition load_opaque_max : get bytes :=
  get_check 4 ;;
  size ← get32;
  get_check size ;;
  if N <? size then get_fail xdr_overflow else get_bytes size.

Lemma safe_opaque_max : Safe load_opaque_max (fun b => blen b <= N).
Proof.
  apply (safe_counted (fun size => if N <? size then get_fail xdr_overflow else get_bytes size)).
  intros n b Hn Hb. destruct (Z.ltb_spec N n); [done|].
  pose proof (get_bytes_safe n b Hn Hb) as Hg. destruct (get_bytes n b) as [[buf r]|e|]; [|done..].
  destruct Hg as (Hl & ? & ?). split_and!; [lia|done..].
Qed.

Lemma load_opaque_max_ok b : N <= XDR_MAX_LEN -> blen b <= N -> Loads load_opaque_max b (wire_bytes b).
Proof.
  intros HN Hb rest. pose proof (blen_nonneg b). unfold load_opaque_max.
  rewrite load_counted by (unfold u32, XDR_MAX_LEN in *; lia).
  destruct (Z.ltb_spec N (blen b)); [lia|]. apply get_bytes_ok.
Qed.
End bounded.

(** ** Enumerations *)

(** [auth_flavor], [accept_stat], [reject_stat] and [auth_stat] *)
Definition AUTH_NONE : Z := 0.
Definition SUCCESS : Z := 0.
Definition PROG_UNAVAIL : Z := 1.
Definition PROG_MISMATCH : Z := 2.
Definition PROC_UNAVAIL : Z := 3.
Definition GARBAGE_ARGS : Z := 4.
Definition RPC_MISMATCH : Z := 0.
Definition AUTH_ERROR : Z := 1.
Definition AUTH_FAILED : Z := 7.

(** ** Headers *)

Record opaque_auth := mkopaque_auth { oa_flavor : Z; oa_body : bytes }.

#[export] Instance xdr_opaque_auth : Xdr opaque_auth := {|
  xdr_valid o := u32 (oa_flavor o) /\ blen (oa_body o) <= 400;
  serial_size o := 4 + bytes_serial_size (blen (oa_body o));
  save o := save_u32 (oa_flavor o) >;> save_bytes (oa_body o);
  load := x0 ← load_u32; x1 ← load_opaque_max 400; mret (mkopaque_auth x0 x1);
  wire o := be32 (oa_flavor o) ++ wire_bytes (oa_body o);
|}.
#[export] Instance xdr_opaque_auth_laws : XdrLaws opaque_auth.
Proof.
  assert (400 <= XDR_MAX_LEN) by (unfold XDR_MAX_LEN; lia).
  split; [intros [f b] [Hf Hb]|intros [f b] [Hf Hb]|intros [f b] [Hf Hb]|];
    cbn [xdr_opaque_auth xdr_valid serial_size save load wire oa_flavor oa_body] in *.
  - rewrite bytes_wire_size by lia. by rewrite blen_app.
  - apply saves_seq; [by apply save_u32_ok|apply save_bytes_ok; lia].
  - eapply loads_bind; [by apply load_u32_ok|].
    eapply loads_bind_last; [by apply load_opaque_max_ok|apply loads_ret].
  - eapply safe_bind; [apply safe_u32|]. intros f Hf.
    eapply safe_bind; [apply safe_opaque_max|]. intros b Hb. by apply safe_ret.
Qed.

Record call_body := mkcall_body {
  cb_rpcvers : Z;
  cb_prog : Z;
  cb_vers : Z;
  cb_proc : Z;
  cb_cred : opaque_auth;
  cb_verf : opaque_auth;
}.

#[export] Instance xdr_call_body : Xdr call_body := {|
  xdr_valid o := u32 (cb_rpcvers o) /\ u32 (cb_prog o) /\ u32 (cb_vers o) /\ u32 (cb_proc o) /\ xdr_valid (cb_cred o) /\ xdr_valid (cb_verf o);
  serial_size o := 4 + 4 + 4 + 4 + serial_size (cb_cred o) + serial_size (cb_verf o);
  save o := save_u32 (cb_rpcvers o) >;> save_u32 (cb_prog o) >;> save_u32 (cb_vers o) >;> save_u32 (cb_proc o) >;> save (cb_cred o) >;> save (cb_verf o);
  load :=
    x0 ← load_u32;
    x1 ← load_u32;
    x2 ← load_u32;
    x3 ← load_u32;
    x4 ← load;
    x5 ← load;
    mret (mkcall_body x0 x1 x2 x3 x4 x5);
  wire o := be32 (cb_rpcvers o) ++ be32 (cb_prog o) ++ be32 (cb_vers o) ++ be32 (cb_proc o) ++ wire (cb_cred o) ++ wire (cb_verf o);
|}.
#[export] Instance xdr_call_body_laws : XdrLaws call_body.
Proof. solve_xdr xdr_call_body. Qed.

(** [accepted_reply::reply_data]: [results] has no bytes of its own. *)
Inductive reply_data :=
| RD_results
| RD_mismatch_info (low high : Z)
| RD_void (d : Z).

Definition rd_stat (o : reply_data) : Z :=
  match o with
  | RD_results => 0
  | RD_mismatch_info _ _ => 2
  | RD_void d => d
  end.

#[export] Instance xdr_reply_data : Xdr reply_data := {|
  xdr_valid o :=
    match o with
    | RD_results => True
    | RD_mismatch_info low high => u32 low /\ u32 high
    | RD_void d => u32 d /\ d <> 0 /\ d <> 2
    end;
  serial_size o := 4 + match o with RD_mismatch_info _ _ => 4 + 4 | _ => 0 end;
  save o := save_u32 (rd_stat o) >;>
    match o with
    | RD_mismatch_info low high => save_u32 low >;> save_u32 high
    | _ => XOk
    end;
  load :=
    which ← load_u32;
    if which =? 0 then mret RD_results else
    if which =? 2 then low ← load_u32; high ← load_u32; mret (RD_mismatch_info low high) else
    mret (RD_void which);
  wire o := be32 (rd_stat o) ++
    match o with
    | RD_mismatch_info low high => be32 low ++ be32 high
    | _ => []
    end;
|}.
#[export] Instance xdr_reply_data_laws : XdrLaws reply_data.
Proof. solve_xdr_union xdr_reply_data. Qed.

Record accepted_reply := mkaccepted_reply { acr_verf : opaque_auth; acr_reply_data : reply_data }.

#[export] Instance xdr_accepted_reply : Xdr accepted_reply := {|
  xdr_valid o := xdr_valid (acr_verf o) /\ xdr_valid (acr_reply_data o);
  serial_size o := serial_size (acr_verf o) + serial_size (acr_reply_data o);
  save o := save (acr_verf o) >;> save (acr_reply_data o);
  load := x0 ← load; x1 ← load; mret (mkaccepted_reply x0 x1);
  wire o := wire (acr_verf o) ++ wire (acr_reply_data o);
|}.
#[export] Instance xdr_accepted_reply_laws : XdrLaws accepted_reply.
Proof. solve_xdr xdr_accepted_reply. Qed.

Inductive rejected_reply :=
| RR_mismatch_info (low high : Z)
| RR_rj_why (why : Z).

Definition rr_stat (o : rejected_reply) : Z :=
  match o with RR_mismatch_info _ _ => 0 | RR_rj_why _ => 1 end.

#[export] Instance xdr_rejected_reply : Xdr rejected_reply := {|
  xdr_valid o :=
    match o with
    | RR_mismatch_info low high => u32 low /\ u32 high
    | RR_rj_why why => u32 why
    end;
  serial_size o := 4 + match o with RR_mismatch_info _ _ => 4 + 4 | RR_rj_why _ => 4 end;
  save o := save_u32 (rr_stat o) >;>
    match o with
    | RR_mismatch_info low high => save_u32 low >;> save_u32 high
    | RR_rj_why why => save_u32 why
    end;
  load :=
    which ← load_u32;
    if which =? 0 then low ← load_u32; high ← load_u32; mret (RR_mismatch_info low high) else
    if which =? 1 then why ← load_u32; mret (RR_rj_why why) else
    get_fail xdr_bad_discriminant;
  wire o := be32 (rr_stat o) ++
    match o with
    | RR_mismatch_info low high => be32 low ++ be32 high
    | RR_rj_why why => be32 why
    end;
|}.
#[export] Instance xdr_rejected_reply_laws : XdrLaws rejected_reply.
Proof. solve_xdr_union xdr_rejected_reply. Qed.

(** [reply_body] *)
Inductive reply_body :=
| MSG_ACCEPTED (areply : accepted_reply)
| MSG_DENIED (rreply : rejected_reply).

Definition rb_stat (o : reply_body) : Z :=
  match o with MSG_ACCEPTED _ => 0 | MSG_DENIED _ => 1 end.

#[export] Instance xdr_reply_body : Xdr reply_body := {|
  xdr_valid o :=
    match o with MSG_ACCEPTED x => xdr_valid x | MSG_DENIED x => xdr_valid x end;
  serial_size o := 4 +
    match o with MSG_ACCEPTED x => serial_size x | MSG_DENIED x => serial_size x end;
  save o := save_u32 (rb_stat o) >;>
    match o with MSG_ACCEPTED x => save x | MSG_DENIED x => save x end;
  load :=
    which ← load_u32;
    if which =? 0 then x ← load; mret (MSG_ACCEPTED x) else
    if which =? 1 then x ← load; mret (MSG_DENIED x) else
    get_fail xdr_bad_discriminant;
  wire o := be32 (rb_stat o) ++
    match o with MSG_ACCEPTED x => wire x | MSG_DENIED x => wire x end;
|}.
#[export] Instance xdr_reply_body_laws : XdrLaws reply_body.
Proof. solve_xdr_union xdr_reply_body. Qed.

(** [rpc_msg::body] *)
Inductive rpc_body :=
| CALL (cbody : call_body)
| REPLY (rbody : reply_body).

Definition rpc_mtype (o : rpc_body) : Z :=
  match o with CALL _ => 0 | REPLY _ => 1 end.

#[export] Instance xdr_rpc_body : Xdr rpc_body := {|
  xdr_valid o := match o with CALL x => xdr_valid x | REPLY x => xdr_valid x end;
  serial_size o := 4 + match o with CALL x => serial_size x | REPLY x => serial_size x end;
  save o := save_u32 (rpc_mtype o) >;> match o with CALL x => save x | REPLY x => save x end;
  load :=
    which ← load_u32;
    if which =? 0 then x ← load; mret (CALL x) else
    if which =? 1 then x ← load; mret (REPLY x) else
    get_fail xdr_bad_discriminant;
  wire o := be32 (rpc_mtype o) ++ match o with CALL x => wire x | REPLY x => wire x end;
|}.
#[export] Instance xdr_rpc_body_laws : XdrLaws rpc_body.
Proof. solve_xdr_union xdr_rpc_body. Qed.

Record rpc_msg := mkrpc_msg { xid : Z; body : rpc_body }.

#[export] Instance xdr_rpc_msg : Xdr rpc_msg := {|
  xdr_valid o := u32 (xid o) /\ xdr_valid (body o);
  serial_size o := 4 + serial_size (body o);
  save o := save_u32 (xid o) >;> save (body o);
  load := x0 ← load_u32; x1 ← load; mret (mkrpc_msg x0 x1);
  wire o := be32 (xid o) ++ wire (body o);
|}.
#[export] Instance xdr_rpc_msg_laws : XdrLaws rpc_msg.
Proof. solve_xdr xdr_rpc_msg. Qed.

(** ** Headers followed by a body: [xdr_argpack_size], [xdr_argpack_archive] *)

#[export] Instance xdr_argpack {A B} `{!Xdr A, !Xdr B} : Xdr (A * B) := {|
  xdr_valid o := xdr_valid o.1 /\ xdr_valid o.2;
  serial_size o := serial_size o.1 + serial_size o.2;
  save o := save o.1 >;> save o.2;
  load := x0 ← load; x1 ← load; mret (x0, x1);
  wire o := wire o.1 ++ wire o.2;
|}.
#[export] Instance xdr_argpack_laws {A B} `{!Xdr A, !Xdr B, !XdrLaws A, !XdrLaws B} : XdrLaws (A * B).
Proof. solve_xdr xdr_argpack. Qed.

(** [xdr_void] *)
#[export] Instance xdr_void : Xdr unit := {|
  xdr_valid _ := True;
  serial_size _ := 0;
  save _ := XOk;
  load := mret tt;
  wire _ := [];
|}.
#[export] Instance xdr_void_laws : XdrLaws unit.
Proof. solve_xdr xdr_void. Qed.

(** [int]: [to_uint] and [from_uint] of a signed integer. *)
#[export] Instance xdr_int : Xdr Z := {|
  xdr_valid v := - 2 ^ 31 <= v < 2 ^ 31;
  serial_size _ := 4;
  save v := save_u32 (wrap32 v);
  load := u ← load_u32; mret (sint32 u);
  wire v := be32 (wrap32 v);
|}.
#[export] Instance xdr_int_laws : XdrLaws Z.
Proof.
  split; cbn [xdr_int xdr_valid serial_size save load wire].
  - done.
  - intros v _. apply save_u32_ok, wrap32_u32.
  - intros v Hv. eapply loads_bind_last; [apply load_u32_ok, wrap32_u32|].
    replace (sint32 (wrap32 v)) with v; [apply loads_ret|].
    unfold sint32, wrap32. mod_lia.
  - eapply safe_bind; [apply safe_u32|]. intros u _. apply safe_ret.
    unfold sint32. mod_lia.
Qed.

(** ** Members of a header, modified in place

    A discriminant setter builds a new arm only when the field number changes;
    otherwise the union, its discriminant included, stays as it is. *)

Definition no_auth : opaque_auth := mkopaque_auth AUTH_NONE [].
Definition new_call : call_body := mkcall_body 0 0 0 0 no_auth no_auth.
Definition new_areply : accepted_reply := mkaccepted_reply no_auth RD_results.

(** [body.mtype(CALL)], [body.mtype(REPLY)] and [rbody().stat(MSG_ACCEPTED)] *)
Definition as_call (b : rpc_body) : call_body :=
  match b with CALL c => c | REPLY _ => new_call end.
Definition as_reply (b : rpc_body) : reply_body :=
  match b with REPLY r => r | CALL _ => MSG_ACCEPTED new_areply end.
Definition as_accepted (r : reply_body) : accepted_reply :=
  match r with MSG_ACCEPTED a => a | MSG_DENIED _ => new_areply end.

(** [reply_data.stat(stat)] *)
Definition set_stat (stat : Z) (o : reply_data) : reply_data :=
  match o with
  | RD_results => if stat =? 0 then o else if stat =? 2 then RD_mismatch_info 0 0 else RD_void stat
  | RD_mismatch_info _ _ => if stat =? 2 then o else if stat =? 0 then RD_results else RD_void stat
  | RD_void _ => if stat =? 0 then RD_results else if stat =? 2 then RD_mismatch_info 0 0 else o
  end.

Definition set_accepted (stat : Z) (m : rpc_msg) : rpc_msg :=
  let a := as_accepted (as_reply (body m)) in
  mkrpc_msg (xid m)
    (REPLY (MSG_ACCEPTED (mkaccepted_reply (acr_verf a) (set_stat stat (acr_reply_data a))))).

(** ** [rpc_mkerr] *)

(** [rpc_mkerr(m, accept_stat)] *)
Definition rpc_mkerr (m : rpc_msg) (stat : Z) : rpc_msg := set_accepted stat m.

(** [rpc_mkerr(m, reject_stat)], for the two values of [reject_stat] *)
Definition rpc_mkrej (m : rpc_msg) (stat : Z) : rpc_msg :=
  mkrpc_msg (xid m)
    (REPLY (MSG_DENIED (if stat =? RPC_MISMATCH then RR_mismatch_info 2 2 else RR_rj_why AUTH_FAILED))).

(** [rpc_mkerr(hdr, PROG_MISMATCH)] followed by the assignments of [low] and
    [high] in [dispatch]. *)
Definition rpc_mismatch (m : rpc_msg) (low high : Z) : rpc_msg :=
  mkrpc_msg (xid m)
    (REPLY (MSG_ACCEPTED (mkaccepted_reply (acr_verf (as_accepted (as_reply (body m))))
       (RD_mismatch_info low high)))).

(** The header of a successful reply. *)
Definition reply_hdr (x : Z) : rpc_msg := set_accepted SUCCESS (mkrpc_msg x (CALL new_call)).

(** [prepare_call], with the value of [xid_counter] after its increment *)
Definition prepare_call (counter prog vers proc : Z) (hdr : rpc_msg) : rpc_msg :=
  let c := as_call (body hdr) in
  mkrpc_msg counter (CALL (mkcall_body 2 prog vers proc (cb_cred c) (cb_verf c))).

(** ** [check_call_hdr] *)

(** [xdr_runtime_error], and [xdr_call_error] by its [type_]. *)
Inductive call_error :=
| CallGarbage (what : string)
| ACCEPT_STAT (stat : Z)
| AUTH_STAT (stat : Z)
| REJECT_STAT (stat : Z).

(** [None] is a normal return. *)
Definition check_call_hdr (hdr : rpc_msg) : option call_error :=
  match body hdr with
  | CALL _ => Some (CallGarbage "call received when reply expected")
  | REPLY (MSG_ACCEPTED a) =>
      if rd_stat (acr_reply_data a) =? SUCCESS then None
      else Some (ACCEPT_STAT (rd_stat (acr_reply_data a)))
  | REPLY (MSG_DENIED r) =>
      match r with
      | RR_rj_why why => Some (AUTH_STAT why)
      | RR_mismatch_info _ _ => Some (REJECT_STAT (rr_stat r))
      end
  end.

Definition rpc_errmsg_accept (ev : Z) : string :=
  if ev =? 0 then "RPC executed successfully" else
  if ev =? 1 then "remote hasn't exported program" else
  if ev =? 2 then "remote can't support version #" else
  if ev =? 3 then "program can't support procedure" else
  if ev =? 4 then "procedure can't decode params" else
  if ev =? 5 then "RPC system error" else
  "unknown accept_stat error".

Definition rpc_errmsg_auth (ev : Z) : string :=
  if ev =? 0 then "success" else
  if ev =? 1 then "bad credential (seal broken)" else
  if ev =? 2 then "client must begin new session" else
  if ev =? 3 then "bad verifier (seal broken)" else
  if ev =? 4 then "verifier expired or replayed" else
  if ev =? 5 then "rejected for security reasons" else
  if ev =? 6 then "bogus response verifier" else
  if ev =? 7 then "reason unknown" else
  if ev =? 8 then "kerberos generic error" else
  if ev =? 9 then "time of credential expired" else
  if ev =? 10 then "problem with ticket file" else
  if ev =? 11 then "can't decode authenticator" else
  if ev =? 12 then "wrong net address in ticket" else
  if ev =? 13 then "no credentials for user" else
  if ev =? 14 then "problem with context" else
  "auth_stat error".

Definition rpc_errmsg_reject (ev : Z) : string :=
  if ev =? 0 then "rpcvers field mismatch" else
  if ev =? 1 then rpc_errmsg_auth AUTH_FAILED else
  "unknown reject_stat status".

(** [what()] of the exception *)
Definition call_error_what (e : call_error) : string :=
  match e with
  | CallGarbage what => what
  | ACCEPT_STAT ev => rpc_errmsg_accept ev
  | AUTH_STAT ev => rpc_errmsg_auth ev
  | REJECT_STAT ev => rpc_errmsg_reject ev
  end.
