(* ===== verification/Rpc.v ===== *)
(** * Remote calls: [xdrpp/server.h], [xdrpp/server.cc], [xdrpp/srpc.cc]

    The server side ([rpc_server_base::dispatch] over [synchronous_server]),
    the client side ([synchronous_client_base::invoke] over a stream), and the
    interfaces that the XDR compiler generates for them ([rpc_interface]).
    [Section transparency] shows that a call through the two sides is a call
    of the server's method. *)

From S2P Require Import Prelude Endian Xdr RpcMsg.

(** ** Interfaces

    A generated struct such as [api_v1]: its numbers, its procedures with
    their types, and the [switch] of [call_dispatch]. *)
Record rpc_interface := RpcInterface {
  program : Z;
  version : Z;
  proc_t : Type;
  proc : proc_t -> Z;
  dispatched : Z -> option proc_t;
  arg_wire_type : proc_t -> Type;
  res_wire_type : proc_t -> Type;
  arg_xdr p : Xdr (arg_wire_type p);
  res_xdr p : Xdr (res_wire_type p);
  arg_laws p : XdrLaws (arg_wire_type p);
  res_laws p : XdrLaws (res_wire_type p);
  dispatched_proc p : dispatched (proc p) = Some p;
  program_u32 : u32 program;
  version_u32 : u32 version;
  proc_u32 p : u32 (proc p);
}.
#[export] Existing Instances arg_xdr res_xdr arg_laws res_laws.

(** [archive(g, arg); if (g.p_ != g.e_) throw xdr_bad_message_size(...);] *)
Definition load_all {S A} `{!Xdr A} (g : bytes) : M S A :=
  match load g with
  | XOk (a, []) => mret a
  | XOk (_, _ :: _) | XErr _ => throw exn_xdr
  | XOob => abort  (* does not happen: [load_safe] *)
  end.

(** What a client does with the reply to the call [x]: it reads and checks the
    header, compares the transaction number and reads the result. *)
Definition accept_reply {S A} `{!Xdr A} (x : Z) (m : bytes) : M S A :=
  if negb (Z.land (blen m) 3 =? 0) then throw exn_xdr else
  match load m with
  | XErr _ => throw exn_xdr
  | XOob => abort
  | XOk (rhdr, g) =>
      match check_call_hdr rhdr with
      | Some _ => throw exn_xdr
      | None => if negb (xid rhdr =? x) then throw exn_xdr else load_all g
      end
  end.

(** ** Finding the service of a message

    The part that [rpc_server_base::dispatch] and
    [chubby_server::asynchronized_dispatch] have in common: the header is read
    and the tables are searched. *)

(** [cbegin()->first] and [crbegin()->first] of a map that is not empty. *)
Definition first_key {V} (m : gmap Z V) : Z :=
  match (map_to_list m).*1 with [] => 0 | k :: l => foldr Z.min k l end.
Definition last_key {V} (m : gmap Z V) : Z :=
  match (map_to_list m).*1 with [] => 0 | k :: l => foldr Z.max k l end.

Inductive routed (V : Type) :=
| RThrow                                     (* xdr_runtime_error *)
| ROob                                       (* a read outside the message *)
| RRefuse (reply : rpc_msg)                  (* an error reply *)
| RServe (v : V) (hdr : rpc_msg) (g : bytes). (* the service, the header, the rest *)
Arguments RThrow {V}.
Arguments ROob {V}.
Arguments RRefuse {V} reply.
Arguments RServe {V} v hdr g.

Definition route {V} (servers_ : gmap Z (gmap Z V)) (m : bytes) : routed V :=
  if negb (Z.land (blen m) 3 =? 0) then RThrow else
  match load m with
  | XErr _ => RThrow
  | XOob => ROob
  | XOk (hdr, g) =>
      match body hdr with
      | REPLY _ => RThrow
      | CALL c =>
          if negb (cb_rpcvers c =? 2) then RRefuse (rpc_mkrej hdr RPC_MISMATCH) else
          match servers_ !! cb_prog c with
          | None => RRefuse (rpc_mkerr hdr PROG_UNAVAIL)
          | Some prog =>
              match prog !! cb_vers c with
              | None => RRefuse (rpc_mismatch hdr (first_key prog) (last_key prog))
              | Some vers => RServe vers hdr g
              end
          end
      end
  end.

(** ** The server *)

Section server.
Context {S : Type}.

(** [service_base]: the method [process]; [None] is [nullptr]. *)
Definition service : Type := rpc_msg -> bytes -> M S (option message).

Definition answer (m : M S message) : M S (option message) := r ← m; mret (Some r).

Section synchronous.
Context (I : rpc_interface) (server_ : forall p, arg_wire_type I p -> M S (res_wire_type I p)).

(** [synchronous_server::dispatch<P>].  A [void] result is the empty struct. *)
Definition sync_dispatch (p : proc_t I) (g : bytes) (rhdr : rpc_msg) : M S message :=
  arg ← load_all g;
  res ← server_ p arg;
  of_msg (xdr_to_msg (rhdr, res)).

(** [synchronous_server::process] *)
Definition process : service := fun chdr g =>
  match body chdr with
  | REPLY _ => mret None
  | CALL c =>
      if negb ((cb_rpcvers c =? 2) && (cb_prog c =? program I) && (cb_vers c =? version I))
      then mret None else
      let rhdr := reply_hdr (xid chdr) in
      match dispatched I (cb_proc c) with
      | Some p => answer (sync_dispatch p g rhdr)
      | None => answer (of_msg (xdr_to_msg (set_accepted PROC_UNAVAIL rhdr)))
      end
  end.
End synchronous.

(** [rpc_server_base::servers_] *)
Abbreviation services := (gmap Z (gmap Z service)).

(** [register_service_base]: [servers_[s->prog_][s->vers_].reset(s)] *)
Definition register_service_base (prog vers : Z) (s : service) (servers_ : services) : services :=
  <[prog := <[vers := s]> (default ∅ (servers_ !! prog))]> servers_.

(** [catch (const xdr_runtime_error &e)] *)
Definition catch_xdr {A} (m h : M S A) : M S A :=
  try_catch m (fun e => match e with exn_xdr => h | _ => throw e end).

(** [rpc_server_base::dispatch] *)
Definition dispatch (servers_ : services) (m : bytes) : M S (option message) :=
  match route servers_ m with
  | RThrow => throw exn_xdr
  | ROob => abort
  | RRefuse r => answer (of_msg (xdr_to_msg r))
  | RServe vers hdr g =>
      catch_xdr (vers hdr g) (answer (of_msg (xdr_to_msg (rpc_mkerr hdr GARBAGE_ARGS))))
  end.

(** [rpc_tcp_listener::receive_cb]: the message that is put on the socket, or
    [None] when the connection is closed.  Putting [nullptr] on it crashes. *)
Definition receive_cb (servers_ : services) (mp : option bytes) : M S (option message) :=
  match mp with
  | None => mret None
  | Some m => catch_xdr (r ← dispatch servers_ m; match r with Some r => mret (Some r) | None => abort end) (mret None)
  end.
End server.
Arguments service S : clear implicits.
Abbreviation services S := (gmap Z (gmap Z (service S))).

(** ** The client

    The stream socket of a client, connected to a server whose methods run
    over [S]: the counter [xid_counter], the segments that have arrived and
    were not read, whether the connection is open, and the state of the
    server, [None] when its process has ended. *)
Record conn (S : Type) := Conn {
  xid_counter : Z;
  inbox : list bytes;
  is_open : bool;
  peer : option S;
}.
Arguments Conn {S}.
Arguments xid_counter {S}.
Arguments inbox {S}.
Arguments is_open {S}.
Arguments peer {S}.

Section client.
Context {S : Type} (servers_ : services S).
(** The segments in which the bytes of a reply arrive. *)
Context (segments : bytes -> list bytes).
Abbreviation Op := (M (conn S)).

(** [read] on a blocking socket: it returns what has arrived, at most [n]
    bytes, none at the end of the stream, and waits for ever when nothing
    arrives. *)
Definition fd_read (n : Z) : Op bytes := fun k =>
  if n =? 0 then Ret [] k else
  match inbox k with
  | [] => if is_open k then Diverge else Ret [] k
  | seg :: rest =>
      if blen seg <=? n
      then Ret seg (Conn (xid_counter k) rest (is_open k) (peer k))
      else Ret (take (Z.to_nat n) seg)
             (Conn (xid_counter k) (drop (Z.to_nat n) seg :: rest) (is_open k) (peer k))
  end.

Definition read_message : Op bytes :=
  len ← fd_read 4;
  let n := blen len in
  if n <? 4 then throw exn_xdr else
  if negb (Z.land n 3 =? 0) then throw exn_xdr else
  if 0x80000000 <=? n then throw exn_xdr else
  match len with
  | [b0; b1; b2; b3] =>
      let len := swap_get32 b0 b1 b2 b3 in
      if Z.land len 0x80000000 =? 0 then throw exn_xdr else
      let len := Z.land len 0x7fffffff in
      m ← fd_read len;
      if negb (blen m =? len) then throw exn_xdr else mret m
  | _ => abort
  end.

(** [write_message] to a [rpc_tcp_listener], whose answer to the message is
    then on its way.  Writing on a closed connection fails. *)
Definition write_message (m : message) : Op unit := fun k =>
  if negb (is_open k) then Throw exn_xdr k else
  match peer k with
  | None => Ret tt k
  | Some s =>
      match receive_cb servers_ (Some (m_data m)) s with
      | Ret (Some r) s' => Ret tt (Conn (xid_counter k) (inbox k ++ segments (raw_data r)) true (Some s'))
      | Ret None s' => Ret tt (Conn (xid_counter k) (inbox k) false (Some s'))
      | Throw _ _ | Abort => Ret tt (Conn (xid_counter k) (inbox k) false None)
      | Diverge => Ret tt (Conn (xid_counter k) (inbox k) true None)
      end
  end.

(** [prepare_call<P>(hdr)] *)
Definition next_call (I : rpc_interface) (p : proc_t I) : Op rpc_msg := fun k =>
  let x := wrap32 (xid_counter k + 1) in
  Ret (prepare_call x (program I) (version I) (proc I p) (mkrpc_msg 0 (CALL new_call)))
    (Conn x (inbox k) (is_open k) (peer k)).

(** [synchronous_client_base::invoke<P>(a)] *)
Definition invoke (I : rpc_interface) (p : proc_t I) (a : arg_wire_type I p) : Op (res_wire_type I p) :=
  hdr ← next_call I p;
  request ← of_msg (xdr_to_msg (hdr, a));
  write_message request ;;
  m ← read_message;
  accept_reply (xid hdr) m.
End client.

(** ** Calls that succeed *)

Lemma of_msg_ok {S A} `{!Xdr A, !XdrLaws A} (a : A) (s : S) : xdr_valid a -> blen (wire a) < 2 ^ 31 ->
  of_msg (xdr_to_msg a) s = Ret (Message (swap_put32 (Z.lor (blen (wire a)) 0x80000000)) (wire a)) s.
Proof. intros Ha Hl. by rewrite xdr_to_msg_ok. Qed.

Lemma load_all_wire {S A} `{!Xdr A, !XdrLaws A} (a : A) (s : S) : xdr_valid a ->
  load_all (wire a) s = Ret a s.
Proof.
  intros Ha. unfold load_all. rewrite <-(app_nil_r (wire a)). by rewrite load_wire by done.
Qed.

(** The length word of a message of [n] bytes. *)
Lemma length_word n : 0 <= n < 2 ^ 31 ->
  Z.land (Z.lor n 0x80000000) 0x80000000 <> 0 /\ Z.land (Z.lor n 0x80000000) 0x7fffffff = n /\
  u32 (Z.lor n 0x80000000).
Proof.
  intros Hn. assert (Z.lor n 0x80000000 = n + 0x80000000) as ->.
  { rewrite <-Z.add_lor_land, (Z.land_comm n).
    replace (Z.land 0x80000000 n) with 0; [lia|]. symmetry. apply Z.bits_inj'. intros i Hi.
    rewrite Z.land_spec, Z.bits_0. change 0x80000000 with (2 ^ 31). rewrite Z.pow2_bits_eqb by lia.
    destruct (Z.eqb_spec 31 i) as [<-|]; [|done]. rewrite andb_true_l.
    destruct (Z.eq_dec n 0) as [->|]; [done|]. apply Z.bits_above_log2; [lia|].
    apply Z.log2_lt_pow2; lia. }
  change 0x7fffffff with (Z.ones 31). rewrite Z.land_ones by lia. split_and!.
  - assert (Z.testbit (n + 0x80000000) 31 = true) as Hb.
    { apply Z.testbit_true; [lia|]. change 0x80000000 with (1 * 2 ^ 31).
      by rewrite Z.div_add, Z.div_small by lia. }
    intros H. apply (f_equal (fun z => Z.testbit z 31)) in H.
    by rewrite Z.land_spec, Hb in H.
  - change 0x80000000 with (1 * 2 ^ 31). rewrite Z.mod_add by lia. apply Z.mod_small. lia.
  - unfold u32. lia.
Qed.

Section read.
Context {S : Type}.
Implicit Types k : conn S.

Lemma fd_read_part n k seg rest : 0 < n < blen seg -> inbox k = seg :: rest ->
  fd_read n k = Ret (take (Z.to_nat n) seg)
    (Conn (xid_counter k) (drop (Z.to_nat n) seg :: rest) (is_open k) (peer k)).
Proof.
  intros Hn Hk. unfold fd_read. destruct (Z.eqb_spec n 0); [lia|]. rewrite Hk.
  by destruct (Z.leb_spec (blen seg) n); [lia|].
Qed.
Lemma fd_read_whole k seg rest : 0 < blen seg -> inbox k = seg :: rest ->
  fd_read (blen seg) k = Ret seg (Conn (xid_counter k) rest (is_open k) (peer k)).
Proof.
  intros Hn Hk. unfold fd_read. destruct (Z.eqb_spec (blen seg) 0); [lia|]. rewrite Hk.
  by destruct (Z.leb_spec (blen seg) (blen seg)); [|lia].
Qed.

Lemma read_message_whole k data : 0 < blen data < 2 ^ 31 ->
  inbox k = [swap_put32 (Z.lor (blen data) 0x80000000) ++ data] ->
  read_message k = Ret data (Conn (xid_counter k) [] (is_open k) (peer k)).
Proof.
  intros Hd Hk. destruct (length_word (blen data)) as (H1 & H2 & H3); [lia|].
  destruct (swap_get32_put _ H3) as (b0 & b1 & b2 & b3 & Hp & Hg).
  rewrite swap_put32_be, Hp in Hk by done. simpl in Hk.
  assert (0 < 4 < blen (b0 :: b1 :: b2 :: b3 :: data)) as H4 by (unfold blen in *; simpl; lia).
  unfold read_message. rewrite (bind_Ret _ _ _ _ _ (fd_read_part 4 k _ _ H4 Hk)).
  change (Z.to_nat 4) with 4%nat. cbn [take drop]. rewrite take_0, drop_0. change (blen [b0; b1; b2; b3]) with 4.
  change (4 <? 4) with false. change (negb (Z.land 4 3 =? 0)) with false.
  change (0x80000000 <=? 4) with false. cbv beta iota zeta.
  rewrite Hg. destruct (Z.eqb_spec (Z.land (Z.lor (blen data) 0x80000000) 0x80000000) 0); [done|].
  rewrite H2. erewrite bind_Ret by (apply fd_read_whole; [lia|done]).
  by rewrite Z.eqb_refl.
Qed.
End read.

(** ** A remote call is a call

    An interface [I] whose methods are [server_], registered at the listener;
    replies arrive in one segment. *)

Definition framed (b : bytes) : message := Message (swap_put32 (Z.lor (blen b) 0x80000000)) b.

(** The header of a call. *)
Definition call_hdr (I : rpc_interface) (p : proc_t I) (x : Z) : rpc_msg :=
  prepare_call x (program I) (version I) (proc I p) (mkrpc_msg 0 (CALL new_call)).

Lemma call_hdr_valid I p x : u32 x -> xdr_valid (call_hdr I p x) /\ blen (wire (call_hdr I p x)) = 40.
Proof.
  intros Hx. split; [|done].
  pose proof (program_u32 I). pose proof (version_u32 I). pose proof (proc_u32 I p).
  by cbn; split_and!.
Qed.

Lemma route_call {V} (servers_ : gmap Z (gmap Z V)) I p (a : arg_wire_type I p) x prog v :
  u32 x -> xdr_valid a -> servers_ !! program I = Some prog -> prog !! version I = Some v ->
  route servers_ (wire (call_hdr I p x, a)) = RServe v (call_hdr I p x) (wire a).
Proof.
  intros Hx Ha Hprog Hvers. destruct (call_hdr_valid I p x Hx) as [Hv Hl].
  assert (xdr_valid (call_hdr I p x, a)) as Hva by done.
  unfold route. rewrite land_3, (wire_aligned _ Hva). cbn [negb Z.eqb].
  change (wire (call_hdr I p x, a)) with (wire (call_hdr I p x) ++ wire a).
  rewrite load_wire by done. cbn [body call_hdr prepare_call cb_rpcvers cb_prog cb_vers].
  by rewrite Z.eqb_refl, Hprog, Hvers.
Qed.

Lemma reply_hdr_valid x : u32 x -> xdr_valid (reply_hdr x) /\ blen (wire (reply_hdr x)) = 24.
Proof. intros Hx. by cbn; split_and!. Qed.

Lemma accept_reply_wire {S A} `{!Xdr A, !XdrLaws A} x (r : A) (s : S) : u32 x -> xdr_valid r ->
  accept_reply x (wire (reply_hdr x, r)) s = Ret r s.
Proof.
  intros Hx Hv. destruct (reply_hdr_valid x Hx) as [Hv' _].
  assert (xdr_valid (reply_hdr x, r)) as Hvr by done.
  unfold accept_reply. rewrite land_3, (wire_aligned _ Hvr). cbn [negb Z.eqb].
  change (wire (reply_hdr x, r)) with (wire (reply_hdr x) ++ wire r). rewrite load_wire by done.
  change (check_call_hdr (reply_hdr x)) with (@None call_error). cbn [xid reply_hdr set_accepted].
  rewrite Z.eqb_refl. by apply load_all_wire.
Qed.

Section transparency.
Context {S : Type} (I : rpc_interface) (server_ : forall p, arg_wire_type I p -> M S (res_wire_type I p)).

(** A call whose request and reply are messages. *)
Definition sendable_call (p : proc_t I) (a : arg_wire_type I p) (s : S) : Prop :=
  xdr_valid a /\ blen (wire a) + 40 < 2 ^ 31 /\
  forall r s', server_ p a s = Ret r s' -> xdr_valid r /\ blen (wire r) + 24 < 2 ^ 31.

Lemma sync_dispatch_run p a x s : u32 x -> sendable_call p a s ->
  sync_dispatch I server_ p (wire a) (reply_hdr x) s =
    match server_ p a s with
    | Ret r s' => Ret (framed (wire (reply_hdr x, r))) s'
    | Throw e s' => Throw e s'
    | Abort => Abort
    | Diverge => Diverge
    end.
Proof.
  intros Hx (Ha & _ & Hr). unfold sync_dispatch.
  rewrite (bind_Ret _ _ _ _ _ (load_all_wire a s Ha)). unfold mbind at 1, M_bind at 1.
  destruct (server_ p a s) as [r s'|e s'| |] eqn:E; [|done..].
  destruct (Hr r s' eq_refl) as [Hv Hl]. destruct (reply_hdr_valid x Hx) as [Hv' Hl'].
  rewrite of_msg_ok; [done|by split|]. cbn [wire xdr_argpack fst snd]. rewrite blen_app. lia.
Qed.

Context (servers_ : services S) (prog : gmap Z (service S)).
Context (Hprog : servers_ !! program I = Some prog).
Context (Hvers : prog !! version I = Some (process I server_)).

Lemma dispatch_run p a x s : u32 x -> sendable_call p a s ->
  dispatch servers_ (wire (call_hdr I p x, a)) s =
    match server_ p a s with
    | Ret r s' => Ret (Some (framed (wire (reply_hdr x, r)))) s'
    | Throw exn_xdr s' => Ret (Some (framed (wire (set_accepted GARBAGE_ARGS (reply_hdr x))))) s'
    | Throw e s' => Throw e s'
    | Abort => Abort
    | Diverge => Diverge
    end.
Proof.
  intros Hx Hs. unfold dispatch. erewrite route_call; [|done|apply Hs|done..].
  unfold catch_xdr, try_catch, process. cbn [body call_hdr prepare_call cb_rpcvers cb_prog cb_vers cb_proc xid].
  rewrite !Z.eqb_refl, dispatched_proc. cbn [negb andb]. unfold answer, mbind, M_bind.
  rewrite sync_dispatch_run by done.
  destruct (server_ p a s) as [r s'|[]| |]; try done.
  by rewrite of_msg_ok by done.
Qed.

Lemma receive_run p a x s : u32 x -> sendable_call p a s ->
  receive_cb servers_ (Some (wire (call_hdr I p x, a))) s =
    match server_ p a s with
    | Ret r s' => Ret (Some (framed (wire (reply_hdr x, r)))) s'
    | Throw exn_xdr s' => Ret (Some (framed (wire (set_accepted GARBAGE_ARGS (reply_hdr x))))) s'
    | Throw e s' => Throw e s'
    | Abort => Abort
    | Diverge => Diverge
    end.
Proof.
  intros Hx Hs. unfold receive_cb, catch_xdr, try_catch, mbind, M_bind. rewrite dispatch_run by done.
  by destruct (server_ p a s) as [|[]| |].
Qed.

Context (segments : bytes -> list bytes).
Context (whole : forall b, segments b = [b]).

(** The client's side of a call, after the listener has answered with [b]. *)
Definition finish {A} `{!Xdr A} (x : Z) : M (conn S) A :=
  m ← read_message;
  accept_reply x m.

Lemma invoke_run p a x0 s : sendable_call p a s ->
  let x := wrap32 (x0 + 1) in
  invoke servers_ segments I p a (Conn x0 [] true (Some s)) =
    match server_ p a s with
    | Ret r s' => finish x (Conn x [raw_data (framed (wire (reply_hdr x, r)))] true (Some s'))
    | Throw exn_xdr s' =>
        finish x (Conn x [raw_data (framed (wire (set_accepted GARBAGE_ARGS (reply_hdr x))))] true (Some s'))
    | Throw _ _ | Abort => finish x (Conn x [] false None)
    | Diverge => finish x (Conn x [] true None)
    end.
Proof.
  intros Hs x. pose proof (wrap32_u32 (x0 + 1)) as Hx. fold x in Hx.
  destruct (call_hdr_valid I p x Hx) as [Hv Hl].
  assert (xdr_valid (call_hdr I p x, a)) as Hva by (split; [done|apply Hs]).
  assert (blen (wire (call_hdr I p x, a)) < 2 ^ 31) as Hlt.
  { destruct Hs as (_ & ? & _). cbn [wire xdr_argpack fst snd]. rewrite blen_app. lia. }
  set (k := Conn x [] true (Some s)).
  unfold invoke. rewrite (bind_Ret (next_call I p) _ (Conn x0 [] true (Some s)) (call_hdr I p x) k eq_refl).
  rewrite (bind_Ret _ _ _ _ _ (of_msg_ok (call_hdr I p x, a) k Hva Hlt)).
  subst k. unfold mbind at 1, M_bind at 1. unfold write_message. cbn [is_open peer negb m_data].
  rewrite receive_run by done.
  change (xid (call_hdr I p x)) with x.
  destruct (server_ p a s) as [r s'|[]| |]; cbn [xid_counter inbox app]; rewrite ?whole; reflexivity.
Qed.

Lemma finish_load {A} `{!Xdr A} x data o : 0 < blen data < 2 ^ 31 ->
  (finish x : M (conn S) A) (Conn x [raw_data (framed data)] true o) = accept_reply x data (Conn x [] true o).
Proof.
  intros Hd. unfold finish.
  by rewrite (bind_Ret _ _ _ _ _ (read_message_whole (Conn x [raw_data (framed data)] true o) data Hd eq_refl)).
Qed.

Lemma finish_reply p (r : res_wire_type I p) x o : u32 x -> xdr_valid r -> blen (wire r) + 24 < 2 ^ 31 ->
  finish x (Conn x [raw_data (framed (wire (reply_hdr x, r)))] true o : conn S) = Ret r (Conn x [] true o).
Proof.
  intros Hx Hv Hl. destruct (reply_hdr_valid x Hx) as [Hv' Hl']. pose proof (blen_nonneg (wire r)).
  rewrite finish_load by (cbn [wire xdr_argpack fst snd]; rewrite blen_app; lia). by apply accept_reply_wire.
Qed.

Lemma invoke_method p a x0 s : sendable_call p a s ->
  let x := wrap32 (x0 + 1) in
  invoke servers_ segments I p a (Conn x0 [] true (Some s)) =
    match server_ p a s with
    | Ret r s' => Ret r (Conn x [] true (Some s'))
    | Throw exn_xdr s' => Throw exn_xdr (Conn x [] true (Some s'))
    | Throw _ _ | Abort => Throw exn_xdr (Conn x [] false None)
    | Diverge => Diverge
    end.
Proof.
  intros Hs x. rewrite invoke_run by done. fold x. pose proof (wrap32_u32 (x0 + 1)) as Hx.
  destruct Hs as (_ & _ & Hr). destruct (server_ p a s) as [r s'|[]| |]; try reflexivity.
  destruct (Hr r s' eq_refl). by apply finish_reply.
Qed.
End transparency.


(** ** Messages that are refused *)

#[local] Instance ge_preorder : PreOrder Z.ge.
Proof. split; intros ?; lia. Qed.

Lemma fold_extreme (f : Z -> Z -> Z) (R : relation Z) `{!PreOrder R} k l :
  (forall a b, (f a b = a \/ f a b = b) /\ R (f a b) a /\ R (f a b) b) ->
  foldr f k l ∈ k :: l /\ forall j, j ∈ k :: l -> R (foldr f k l) j.
Proof.
  intros Hf. induction l as [|a l [IH1 IH2]]; cbn.
  { split; [by left|]. intros j. rewrite list_elem_of_singleton. by intros ->. }
  destruct (Hf a (foldr f k l)) as (Hc & H1 & H2). split.
  - apply elem_of_cons in IH1. destruct Hc as [-> | ->]; rewrite !elem_of_cons; tauto.
  - intros j. rewrite !elem_of_cons. intros [Hj|[->|Hj]]; [|done|].
    all: etrans; [exact H2|]; apply IH2; rewrite elem_of_cons; tauto.
Qed.

Lemma elem_of_keys {V} (m : gmap Z V) k : k ∈ (map_to_list m).*1 <-> is_Some (m !! k).
Proof.
  rewrite list_elem_of_fmap. split.
  - intros ([k' v] & -> & H%elem_of_map_to_list). by exists v.
  - intros [v Hv]. exists (k, v). split; [done|]. by apply elem_of_map_to_list.
Qed.

(** [low] and [high] are the versions between which all others lie. *)
Lemma key_range {V} (m : gmap Z V) : m <> ∅ ->
  is_Some (m !! first_key m) /\ is_Some (m !! last_key m) /\
  forall k, is_Some (m !! k) -> first_key m <= k <= last_key m.
Proof.
  intros Hm. setoid_rewrite <-elem_of_keys. unfold first_key, last_key.
  destruct (map_to_list m).*1 as [|k l] eqn:E.
  { destruct Hm. apply fmap_nil_inv in E. by apply map_to_list_empty_iff in E. }
  destruct (fold_extreme Z.min Z.le k l) as [Hl1 Hl2]; [lia|].
  destruct (fold_extreme Z.max Z.ge k l) as [Hm1 Hm2]; [lia|].
  split_and!; [done..|]. intros j Hj. specialize (Hl2 j Hj). specialize (Hm2 j Hj). lia.
Qed.

(** What the header of a call says, and what the answer to it is. *)
Definition refusal {V} (servers_ : gmap Z (gmap Z V)) (c : call_body) (b : rpc_body) : Prop :=
  (cb_rpcvers c <> 2 /\ b = REPLY (MSG_DENIED (RR_mismatch_info 2 2))) \/
  (cb_rpcvers c = 2 /\ servers_ !! cb_prog c = None /\
   b = REPLY (MSG_ACCEPTED (mkaccepted_reply no_auth (RD_void PROG_UNAVAIL)))) \/
  (cb_rpcvers c = 2 /\ exists prog low high, servers_ !! cb_prog c = Some prog /\
   prog !! cb_vers c = None /\ is_Some (prog !! low) /\ is_Some (prog !! high) /\
   (forall k, is_Some (prog !! k) -> low <= k <= high) /\
   b = REPLY (MSG_ACCEPTED (mkaccepted_reply no_auth (RD_mismatch_info low high)))).

Definition header_of (m : bytes) : option (rpc_msg * bytes) :=
  if Z.land (blen m) 3 =? 0 then match load m with XOk p => Some p | _ => None end else None.

(** C27: what a server does with an arbitrary message.  It never reads outside
    the message.  A message without a readable call header is an
    [xdr_runtime_error]; a call with another RPC version, for a program or a
    version that is not registered is refused with its own transaction number
    and the status of RFC 5531, the range of versions being that of the table;
    any other call reaches the service registered for it. *)
Theorem route_spec {V} (servers_ : gmap Z (gmap Z V)) m :
  blen m < 2 ^ 31 -> map_Forall (fun _ prog => prog <> ∅) servers_ ->
  match route servers_ m with
  | ROob => False
  | RThrow => header_of m = None \/ exists hdr g r, header_of m = Some (hdr, g) /\ body hdr = REPLY r
  | RRefuse reply => exists hdr g c, header_of m = Some (hdr, g) /\ body hdr = CALL c /\
      xid reply = xid hdr /\ refusal servers_ c (body reply)
  | RServe v hdr g => header_of m = Some (hdr, g) /\
      exists c prog, body hdr = CALL c /\ cb_rpcvers c = 2 /\
      servers_ !! cb_prog c = Some prog /\ prog !! cb_vers c = Some v
  end.
Proof.
  intros Hl Hne. unfold route, header_of. destruct (Z.eqb_spec (Z.land (blen m) 3) 0) as [Ha|]; [|by left].
  cbn [negb]. rewrite land_3 in Ha. pose proof (load_safe (A := rpc_msg) m (conj Ha Hl)) as Hs.
  destruct (load m) as [[hdr g]|e|]; [|by left|done].
  destruct (body hdr) as [c|r] eqn:Hb; [|right; by exists hdr, g, r].
  destruct (Z.eqb_spec (cb_rpcvers c) 2) as [Hv|Hv]; cbn [negb].
  2: { exists hdr, g, c. split_and!; [done..|]. by left. }
  destruct (servers_ !! cb_prog c) as [prog|] eqn:Hp.
  2: { exists hdr, g, c. unfold rpc_mkerr, set_accepted. rewrite Hb. split_and!; [done..|]. right. by left. }
  destruct (prog !! cb_vers c) as [v|] eqn:Hvs; [by split; [|exists c, prog]|].
  exists hdr, g, c. unfold rpc_mismatch. rewrite Hb. split_and!; [done..|]. right. right. split; [done|].
  destruct (key_range prog) as (? & ? & ?); [by apply (Hne (cb_prog c))|].
  exists prog, (first_key prog), (last_key prog). by split_and!.
Qed.

(** ** A reply that arrives in pieces *)

(** [read_message] reads the length and the data once each: when the first
    segment ends inside the data, the rest is left unread and the call fails. *)
Lemma split_reply_fails {S} x data seg rest more o (s : option S) :
  0 < blen data < 2 ^ 31 -> seg ++ rest = raw_data (framed data) -> 4 < blen seg -> rest <> [] ->
  read_message (Conn x (seg :: more) o s) = Throw exn_xdr (Conn x more o s).
Proof.
  intros Hd Hseg H4 Hr. destruct (length_word (blen data)) as (H1 & H2 & H3); [lia|].
  destruct (swap_get32_put _ H3) as (b0 & b1 & b2 & b3 & Hp & Hg).
  unfold raw_data, framed, m_len, m_data in Hseg. rewrite swap_put32_be, Hp in Hseg by done.
  destruct seg as [|c0 [|c1 [|c2 [|c3 seg]]]]; try (unfold blen in H4; simpl in H4; lia).
  injection Hseg as -> -> -> -> Hseg.
  assert (0 < 4 < blen (b0 :: b1 :: b2 :: b3 :: seg)) as H4' by lia.
  unfold read_message. rewrite (bind_Ret _ _ _ _ _ (fd_read_part 4 (Conn x (_ :: more) o s) _ _ H4' eq_refl)).
  change (Z.to_nat 4) with 4%nat. cbn [take drop]. rewrite take_0, drop_0.
  change (blen [b0; b1; b2; b3]) with 4. change (4 <? 4) with false.
  change (negb (Z.land 4 3 =? 0)) with false. change (0x80000000 <=? 4) with false. cbv beta iota zeta.
  rewrite Hg. destruct (Z.eqb_spec (Z.land (Z.lor (blen data) 0x80000000) 0x80000000) 0); [done|].
  rewrite H2. assert (blen seg < blen data) as Hlt.
  { rewrite <-Hseg, blen_app. destruct rest; [done|]. unfold blen. simpl. lia. }
  assert (0 < blen seg) as Hs by (unfold blen in *; simpl in *; lia).
  unfold mbind, M_bind, fd_read. cbn [inbox xid_counter is_open peer].
  destruct (Z.eqb_spec (blen data) 0); [lia|]. destruct (Z.leb_spec (blen seg) (blen data)); [|lia].
  by destruct (Z.eqb_spec (blen seg) (blen data)); [lia|].
Qed.

Lemma route_served {V} (servers_ : gmap Z (gmap Z V)) m :
  match route servers_ m with
  | RServe v _ _ => exists p n prog, servers_ !! p = Some prog /\ prog !! n = Some v
  | _ => True
  end.
Proof.
  unfold route. destruct (negb _); [done|]. destruct (load m) as [[hdr g]| |]; [|done..].
  destruct (body hdr) as [c|]; [|done]. destruct (negb _); [done|].
  destruct (servers_ !! cb_prog c) as [prog|] eqn:Hp; [|done].
  destruct (prog !! cb_vers c) as [v|] eqn:Hv; [|done]. by exists (cb_prog c), (cb_vers c), prog.
Qed.
