(* ===== verification/MsgSock.v ===== *)
(** * Delimited messages on a stream: [xdrpp/msgsock.cc]

    [msg_sock] cuts the bytes of a non-blocking socket into messages and calls
    [rcb_] for each, and queues the messages that are put on it.  The two
    directions share no data and are modelled apart, [Reader] and [Writer].
    What the kernel answers to the next system calls is a list in the state;
    the calls of [rcb_] and the bytes written are recorded. *)

From S2P Require Import Prelude Endian Xdr Rpc.

(** Overwriting a buffer at [pos]. *)
Definition splice (pos : nat) (bs buf : bytes) : bytes :=
  take pos buf ++ bs ++ drop (pos + length bs) buf.

(** ** Input *)

(** What [read] and [readv] find: bytes that have arrived, the end of the
    stream, an error, or nothing ([EAGAIN]). *)
Inductive arrival := Arrived (bs : bytes) | Eof | IoError | Again.

(** One call for at most [n] bytes. *)
Definition sys_read (n : nat) (a : list arrival) : arrival * list arrival :=
  match a with
  | [] => (Again, [])
  | Arrived bs :: a =>
      if (length bs <=? n)%nat then (Arrived bs, a)
      else (Arrived (take n bs), Arrived (drop n bs) :: a)
  | Eof :: _ => (Eof, a)
  | r :: a => (r, a)
  end.

(** The members of [msg_sock] used by [input], the state [user] that [rcb_]
    works on, the answers of the kernel and the calls of [rcb_] so far;
    [polled] tells whether [input] is registered for the descriptor. *)
Record Reader (T : Type) := mkReader {
  maxmsglen_ : Z;
  nextlen_ : bytes;
  rdmsg_ : option bytes;
  rdpos_ : nat;
  destroyed_ : bool;
  polled : bool;
  user : T;
  arrivals : list arrival;
  received : list (option bytes);
}.
Arguments mkReader {T}.
Arguments maxmsglen_ {T}.
Arguments nextlen_ {T}.
Arguments rdmsg_ {T}.
Arguments rdpos_ {T}.
Arguments destroyed_ {T}.
Arguments polled {T}.
Arguments user {T}.
Arguments arrivals {T}.
Arguments received {T}.

Section input.
Context {T : Type}.
(** [rcb_]: a message, or [None] for [nullptr]; the result tells whether the
    callback deletes the socket. *)
Context (rcb_ : option bytes -> T -> T * bool).
Implicit Types s : Reader T.

Definition set_buffers (nextlen : bytes) (rdmsg : option bytes) (rdpos : nat) s : Reader T :=
  mkReader (maxmsglen_ s) nextlen rdmsg rdpos (destroyed_ s) (polled s) (user s) (arrivals s) (received s).
Definition set_arrivals (a : list arrival) s : Reader T :=
  mkReader (maxmsglen_ s) (nextlen_ s) (rdmsg_ s) (rdpos_ s) (destroyed_ s) (polled s) (user s) a (received s).
Definition set_polled (b : bool) s : Reader T :=
  mkReader (maxmsglen_ s) (nextlen_ s) (rdmsg_ s) (rdpos_ s) (destroyed_ s) b (user s) (arrivals s) (received s).

Definition call_rcb (m : option bytes) s : Reader T :=
  let (u, deleted) := rcb_ m (user s) in
  mkReader (maxmsglen_ s) (nextlen_ s) (rdmsg_ s) (rdpos_ s) (destroyed_ s || deleted) (polled s) u
    (arrivals s) (received s ++ [m]).

(** [nextlen()]: the four bytes in network order. *)
Definition nextlen s : Z :=
  match nextlen_ s with [b0; b1; b2; b3] => swap_get32 b0 b1 b2 b3 | _ => 0 end.

(** The end of the loop body, from the test of [rdmsg_] on; the result tells
    whether the loop goes on. *)
Definition start_message s : Reader T * bool :=
  match rdmsg_ s with
  | Some _ => (s, false)
  | None =>
      if (rdpos_ s <? 4)%nat then (s, false) else
      let len := nextlen s in
      if Z.land len 0x80000000 =? 0 then (call_rcb None s, false) else
      let len := Z.land len 0x7fffffff in
      if len =? 0 then (call_rcb (Some []) (set_buffers (nextlen_ s) None 0 s), true) else
      if len <=? maxmsglen_ s
      then (set_buffers (nextlen_ s) (Some (replicate (Z.to_nat len) "000"%char)) 0 s, true)
      else (call_rcb None (set_polled false s), true)
  end.

(** One turn of the loop. *)
Definition turn s : Reader T * bool :=
  match rdmsg_ s with
  | Some buf =>
      let room := (length buf - rdpos_ s)%nat in
      let (r, a) := sys_read (room + 4) (arrivals s) in
      let s := set_arrivals a s in
      match r with
      | Again => (s, false)
      | Eof | IoError | Arrived [] => (call_rcb None s, false)
      | Arrived bs =>
          let buf' := splice (rdpos_ s) (take room bs) buf in
          let lens := splice 0 (drop room bs) (nextlen_ s) in
          let pos := (rdpos_ s + length bs)%nat in
          if (length buf <=? pos)%nat then
            let s := call_rcb (Some buf') (set_buffers lens None (pos - length buf) s) in
            if destroyed_ s then (s, false) else start_message s
          else start_message (set_buffers lens (Some buf') pos s)
      end
  | None =>
      if (rdpos_ s <? 4)%nat then
        let (r, a) := sys_read (4 - rdpos_ s) (arrivals s) in
        let s := set_arrivals a s in
        match r with
        | Again => (s, false)
        | Eof | IoError | Arrived [] => (call_rcb None s, false)
        | Arrived bs =>
            start_message
              (set_buffers (splice (rdpos_ s) bs (nextlen_ s)) None (rdpos_ s + length bs) s)
        end
      else start_message s
  end.

(** [for (int i = 0; i < 3 && !*destroyed; i++)] *)
Fixpoint turns (i : nat) s : Reader T :=
  match i with
  | O => s
  | S i => if destroyed_ s then s else
      let (s, go) := turn s in if go then turns i s else s
  end.
Definition input s : Reader T := turns 3 s.
End input.

(** ** Output *)

(** What [writev] answers: a number of bytes, [EAGAIN], or an error. *)
Inductive written := Wrote (n : nat) | WAgain | WError.

(** The members used by [putmsg] and [output]; [write_cb] tells whether
    [output] is registered for the descriptor, [answers] is what the kernel
    answers next and [stream] what was written so far. *)
Record Writer := mkWriter {
  wqueue_ : list bytes;
  wsize_ : Z;
  wstart_ : nat;
  wfail_ : bool;
  write_cb : bool;
  answers : list written;
  stream : bytes;
}.

(** The [iovec]s of at most eight messages, the first without the bytes that
    were written before. *)
Definition iov (w : Writer) : bytes := drop (wstart_ w) (concat (take 8 (wqueue_ w))).

(** [pop_wbytes] on the queue: the loop that drops written messages.  [None]
    is [front()] of an empty queue. *)
Fixpoint pop_messages (n : nat) (q : list bytes) : option (list bytes * nat) :=
  if (n =? 0)%nat then Some (q, 0%nat) else
  match q with
  | [] => None
  | m :: q' => if (length m <=? n)%nat then pop_messages (n - length m) q' else Some (q, n)
  end.

(** [None] is the failed assertion [n <= wsize_]. *)
Definition pop_wbytes (n : nat) (w : Writer) : option Writer :=
  if (n =? 0)%nat then Some w else
  if wsize_ w <? Z.of_nat n then None else
  let size := wsize_ w - Z.of_nat n in
  match wqueue_ w with
  | [] => None
  | m :: q =>
      let frontbytes := (length m - wstart_ w)%nat in
      if (n <? frontbytes)%nat
      then Some (mkWriter (m :: q) size (wstart_ w + n) (wfail_ w) (write_cb w) (answers w) (stream w))
      else
        match pop_messages (n - frontbytes) q with
        | None => None
        | Some (q', start) => Some (mkWriter q' size start (wfail_ w) (write_cb w) (answers w) (stream w))
        end
  end.

Definition set_write_cb (b : bool) (w : Writer) : Writer :=
  mkWriter (wqueue_ w) (wsize_ w) (wstart_ w) (wfail_ w) b (answers w) (stream w).

Definition write_failed (w : Writer) : Writer :=
  mkWriter [] 0 0 true (write_cb w) (answers w) (stream w).

(** [writev] writes at most what it is given. *)
Definition sys_writev (bs : bytes) (a : list written) : written * list written :=
  match a with
  | [] => (WAgain, [])
  | Wrote n :: a => (Wrote (n `min` length bs), a)
  | r :: a => (r, a)
  end.

Definition output (cbset : bool) (w : Writer) : option Writer :=
  let bs := iov w in
  let (r, a) := sys_writev bs (answers w) in
  let w := mkWriter (wqueue_ w) (wsize_ w) (wstart_ w) (wfail_ w) (write_cb w) a (stream w) in
  match r with
  | WAgain => Some w
  | WError | Wrote O => Some (write_failed w)
  | Wrote n =>
      let w := mkWriter (wqueue_ w) (wsize_ w) (wstart_ w) (wfail_ w) (write_cb w) a
                 (stream w ++ take n bs) in
      w ← pop_wbytes n w;
      Some (if negb (wsize_ w =? 0) && negb cbset then set_write_cb true w
            else if (wsize_ w =? 0) && cbset then set_write_cb false w else w)
  end.

Definition putmsg (m : message) (w : Writer) : option Writer :=
  if wfail_ w then Some w else
  let was_empty := wsize_ w =? 0 in
  let raw := raw_data m in
  let w := mkWriter (wqueue_ w ++ [raw]) (wsize_ w + Z.of_nat (length raw)) (wstart_ w)
             (wfail_ w) (write_cb w) (answers w) (stream w) in
  if was_empty then output false w else Some w.

(** ** The bytes written are the messages put, in order *)

(** The queue after [n] of its bytes: its start is inside the first message. *)
Definition starts_in (q : list bytes) (start : nat) : Prop :=
  match q with [] => start = 0%nat | m :: _ => (start < length m)%nat end.

Definition no_empty (q : list bytes) : Prop := Forall (fun m => m <> []) q.

Lemma pop_messages_ok n q : no_empty q -> (n <= length (concat q))%nat ->
  exists q' start, pop_messages n q = Some (q', start) /\ no_empty q' /\ starts_in q' start /\
    drop start (concat q') = drop n (concat q).
Proof.
  intros Hq. revert n. induction Hq as [|m q Hm Hq IH]; intros n Hn; cbn in Hn.
  - assert (n = 0%nat) as -> by lia. exists [], 0%nat. split_and!; [done|by constructor|done|done].
  - cbn. destruct (Nat.eqb_spec n 0) as [->|]; [|destruct (Nat.leb_spec (length m) n) as [Hl|Hl]].
    + exists (m :: q), 0%nat. split_and!; [done|by constructor| |done]. destruct m; [done|cbn; lia].
    + rewrite length_app in Hn. destruct (IH (n - length m)%nat) as (q' & st & -> & ? & ? & Hd); [lia|].
      exists q', st. split_and!; [done..|]. by rewrite Hd, drop_app_ge by lia.
    + exists (m :: q), n. split_and!; [done|by constructor|done|done].
Qed.

(** The bytes that wait. *)
Definition waiting (w : Writer) : bytes := drop (wstart_ w) (concat (wqueue_ w)).

Definition writer_ok (w : Writer) : Prop :=
  no_empty (wqueue_ w) /\ starts_in (wqueue_ w) (wstart_ w) /\ wsize_ w = blen (waiting w).

Lemma waiting_nil w : writer_ok w -> waiting w = [] -> wqueue_ w = [].
Proof.
  intros (Hq & Hs & _) Hw. unfold waiting in Hw. destruct (wqueue_ w) as [|m q]; [done|].
  apply (f_equal length) in Hw. rewrite length_drop in Hw. cbn in *. rewrite length_app in Hw. lia.
Qed.

Lemma pop_wbytes_ok n w : writer_ok w -> (n <= length (waiting w))%nat ->
  exists w', pop_wbytes n w = Some w' /\ writer_ok w' /\ waiting w' = drop n (waiting w) /\
    wfail_ w' = wfail_ w /\ write_cb w' = write_cb w /\ answers w' = answers w /\ stream w' = stream w.
Proof.
  intros (Hq & Hs & Hsz) Hn. unfold pop_wbytes. destruct (Nat.eqb_spec n 0) as [->|Hn0].
  { exists w. by split_and!. }
  rewrite Hsz. destruct (Z.ltb_spec (blen (waiting w)) (Z.of_nat n)); [unfold blen in *; lia|].
  pose proof Hn as Hn'. unfold waiting in Hn' |- *. rewrite length_drop in Hn'.
  destruct (wqueue_ w) as [|m q] eqn:Eq; cbn in Hn'; [lia|]. rewrite length_app in Hn'. cbn in Hs.
  apply Forall_cons_1 in Hq as [Hm Hq]. destruct (Nat.ltb_spec n (length m - wstart_ w)).
  - eexists. split; [done|]. unfold writer_ok, waiting. cbn. split_and!; try done.
    + by constructor.
    + lia.
    + unfold blen. rewrite !length_drop, !length_app. lia.
    + by rewrite drop_drop.
  - destruct (pop_messages_ok (n - (length m - wstart_ w)) q Hq) as (q' & st & -> & ? & ? & Hd); [lia|].
    eexists. split; [done|]. unfold writer_ok, waiting. cbn. rewrite Hd. split_and!; try done.
    + unfold blen. rewrite !length_drop, !length_app. lia.
    + rewrite drop_drop, drop_app_ge by lia. f_equal. lia.
Qed.

Lemma iov_prefix w : starts_in (wqueue_ w) (wstart_ w) -> exists r, waiting w = iov w ++ r.
Proof.
  intros Hs. unfold waiting, iov. exists (concat (drop 8 (wqueue_ w))).
  rewrite <-(take_drop 8 (wqueue_ w)) at 1. rewrite concat_app. apply drop_app_le.
  destruct (wqueue_ w) as [|m q]; cbn in *; [lia|]. rewrite length_app. lia.
Qed.

(** [put]: the bytes of the messages put so far. *)
Definition writes (put : bytes) (w : Writer) : Prop :=
  if wfail_ w then wqueue_ w = [] /\ wsize_ w = 0 /\ wstart_ w = 0%nat /\ stream w `prefix_of` put
  else writer_ok w /\ stream w ++ waiting w = put.

Lemma output_ok cbset put w : writes put w -> exists w', output cbset w = Some w' /\ writes put w'.
Proof.
  intros Hw. assert (exists r, put = stream w ++ r) as [r Hr].
  { unfold writes in Hw. destruct (wfail_ w); [by destruct Hw as (_ & _ & _ & ?)|]. destruct Hw. by eexists. }
  assert (writes put (write_failed w)) as Hf by (repeat split; by exists r).
  unfold output. destruct (answers w) as [|[n| |] a]; cbn [sys_writev].
  - by eexists.
  - destruct (n `min` length (iov w))%nat as [|k] eqn:En; [by eexists|]. rewrite <-En.
    unfold writes in Hw. destruct (wfail_ w) eqn:Ef.
    { destruct Hw as (Hq & _ & Hst & _). unfold iov in En. rewrite Hq, Hst, Nat.min_0_r in En. done. }
    clear k En. destruct Hw as [Hok Hput]. destruct (iov_prefix w) as [rest Hrest]; [apply Hok|].
    set (w1 := mkWriter _ _ _ _ _ _ _).
    destruct (pop_wbytes_ok (n `min` length (iov w)) w1) as (w' & -> & Hok' & Hw' & Hf' & Hc' & Ha' & Hs').
    { exact Hok. }
    { change (waiting w1) with (waiting w). rewrite Hrest, length_app. lia. }
    eexists. split; [done|].
    assert (writes put w') as Hgoal.
    { unfold writes. rewrite Hf'. change (wfail_ w1) with false. split; [done|].
      rewrite Hw', Hs'. change (waiting w1) with (waiting w). cbn [w1 stream].
      rewrite <-Hput, Hrest, <-app_assoc. rewrite drop_app_le by lia. f_equal. by rewrite app_assoc, take_drop. }
    destruct (_ && _); [done|]. by destruct (_ && _).
  - by eexists.
  - by eexists.
Qed.

Lemma putmsg_ok m put w : m_len m <> [] -> writes put w ->
  exists w', putmsg m w = Some w' /\ writes (put ++ raw_data m) w'.
Proof.
  intros Hm Hw. unfold putmsg, writes in Hw |- *. destruct (wfail_ w) eqn:Ef.
  { exists w. split; [done|]. rewrite Ef. destruct Hw as (? & ? & ? & ?). split_and!; [done..|].
    by apply prefix_app_r. }
  set (w1 := mkWriter _ _ _ _ _ _ _).
  assert (writes (put ++ raw_data m) w1) as Hw1.
  { change (writer_ok w1 /\ stream w ++ waiting w1 = put ++ raw_data m). destruct Hw as [(Hq & Hs & Hz) Hput].
    assert (waiting w1 = waiting w ++ raw_data m) as Hwt.
    { unfold waiting. cbn. rewrite concat_app. cbn. rewrite app_nil_r. apply drop_app_le.
      destruct (wqueue_ w); cbn in *; [lia|]. rewrite length_app. lia. }
    assert (raw_data m <> []) as Hr by (unfold raw_data; by destruct (m_len m)).
    rewrite Hwt, app_assoc, Hput. split; [|done]. split_and!.
    - apply Forall_app. split; [done|]. by constructor.
    - cbn. destruct (wqueue_ w); cbn in *; [|done]. rewrite Hs. by destruct (raw_data m); [|cbn; lia].
    - rewrite Hwt, blen_app. cbn. rewrite Hz. done. }
  destruct (wsize_ w =? 0); [by apply output_ok|]. by exists w1.
Qed.

(** What happens to a socket: a message is put on it, or the descriptor
    becomes writable. *)
Inductive write_event := Put (m : message) | Writable.

Definition write_step (e : write_event) (w : Writer) : option Writer :=
  match e with
  | Put m => putmsg m w
  | Writable => if write_cb w then output true w else Some w
  end.
Definition write_run (es : list write_event) (w : Writer) : option Writer :=
  foldl (fun w e => w ≫= write_step e) (Some w) es.

Definition put_bytes_of (es : list write_event) : bytes :=
  concat ((fun e => match e with Put m => raw_data m | Writable => [] end) <$> es).

(** A new socket, whose [writev] calls will be answered by [a]. *)
Definition new_writer (a : list written) : Writer := mkWriter [] 0 0 false false a [].

Definition is_message (e : write_event) : Prop :=
  match e with Put m => m_len m <> [] | Writable => True end.

Lemma write_step_ok e put w : is_message e -> writes put w ->
  exists w', write_step e w = Some w' /\
    writes (put ++ match e with Put m => raw_data m | Writable => [] end) w'.
Proof.
  intros He Hw. destruct e as [m|]; [by apply putmsg_ok|]. rewrite app_nil_r. cbn.
  destruct (write_cb w); [by apply output_ok|by exists w].
Qed.

Lemma write_run_ok es put w : writes put w -> Forall is_message es ->
  exists w', write_run es w = Some w' /\ writes (put ++ put_bytes_of es) w'.
Proof.
  intros Hw Hes. revert put w Hw. induction Hes as [|e es He Hes IH]; intros put w Hw.
  { exists w. split; [done|]. by rewrite app_nil_r. }
  destruct (write_step_ok e put w He Hw) as (w1 & H1 & Hw1).
  unfold write_run. cbn. rewrite H1. destruct (IH _ _ Hw1) as (w' & H2 & Hw'). exists w'. split; [exact H2|].
  unfold put_bytes_of in *. cbn. by rewrite app_assoc.
Qed.

(** C13: whatever the kernel answers, and whenever messages are put and the
    descriptor is writable, no assertion of [pop_wbytes] fails and the bytes
    written are those of the messages in the order in which they were put,
    none lost, repeated or cut short: what was written is a beginning of them
    and, unless the connection failed, the queue holds the rest and [wsize_]
    its size. *)
Theorem output_stream es a : Forall is_message es ->
  exists w, write_run es (new_writer a) = Some w /\ stream w `prefix_of` put_bytes_of es /\
    (wfail_ w = false -> stream w ++ waiting w = put_bytes_of es /\ wsize_ w = blen (waiting w)).
Proof.
  intros Hes. destruct (write_run_ok es [] (new_writer a)) as (w & Hr & Hw); [|done|].
  { split; [|done]. split_and!; [by constructor|done|done]. }
  exists w. split; [done|]. unfold writes in Hw. destruct (wfail_ w).
  - by destruct Hw as (_ & _ & _ & ?).
  - destruct Hw as [(_ & _ & Hz) Hp]. cbn in Hp. rewrite <-Hp. split; [by eexists|done].
Qed.

(** A socket with bytes that wait and no registration of [output]. *)
Definition stuck (put : bytes) (w : Writer) : Prop :=
  write_cb w = false /\ wfail_ w = false /\ stream w = [] /\ put <> [] /\
  concat (wqueue_ w) = put /\ wstart_ w = 0%nat /\ wsize_ w = blen put.

Lemma stuck_run es put w : Forall is_message es -> stuck put w ->
  exists w', write_run es w = Some w' /\ stuck (put ++ put_bytes_of es) w'.
Proof.
  intros Hes. revert put w. induction Hes as [|e es He Hes IH]; intros put w Hw.
  { exists w. split; [done|]. by rewrite app_nil_r. }
  assert (exists w1, write_step e w = Some w1 /\
    stuck (put ++ match e with Put m => raw_data m | Writable => [] end) w1) as (w1 & H1 & Hw1).
  { destruct Hw as (Hc & Hf & Hs & Hp & Hq & Hst & Hz). destruct e as [m|]; cbn.
    - unfold putmsg. rewrite Hf, Hz. destruct (Z.eqb_spec (blen put) 0) as [H0|].
      { by destruct put; [|unfold blen in H0; cbn in H0; lia]. }
      eexists. split; [done|]. unfold stuck. cbn. split_and!; try done.
      + by destruct put.
      + rewrite concat_app, Hq. cbn. by rewrite app_nil_r.
      + by rewrite blen_app.
    - rewrite Hc, app_nil_r. by exists w. }
  unfold write_run. cbn. rewrite H1. destruct (IH _ _ Hw1) as (w' & H2 & Hw'). exists w'. split; [exact H2|].
  unfold put_bytes_of in *. cbn. by rewrite app_assoc.
Qed.

(** A socket whose first write would block is never written again:
    [output] returns without registering itself, [putmsg] calls it only on an
    empty queue, and no event of the descriptor does. *)
Lemma blocked_socket_is_stuck m es a : m_len m <> [] -> Forall is_message es ->
  exists w, write_run (Put m :: es) (new_writer (WAgain :: a)) = Some w /\
    stream w = [] /\ wfail_ w = false /\ waiting w = put_bytes_of (Put m :: es).
Proof.
  intros Hm Hes. set (w1 := mkWriter [raw_data m] (blen (raw_data m)) 0 false false a []).
  destruct (stuck_run es (raw_data m) w1 Hes) as (w & Hr & _ & Hf & Hs & _ & Hq & Hst & _).
  { unfold stuck, w1. cbn. split_and!; try done; [|apply app_nil_r].
    unfold raw_data. by destruct (m_len m). }
  exists w. split_and!; [exact Hr|done|done|]. unfold waiting. by rewrite Hst, Hq.
Qed.

(** ** The messages received are the messages sent *)

Lemma take_splice pos bs buf : (pos <= length buf)%nat ->
  take (pos + length bs) (splice pos bs buf) = take pos buf ++ bs.
Proof.
  intros H. unfold splice. rewrite app_assoc. apply take_app_length'. rewrite length_app, length_take. lia.
Qed.
Lemma length_splice pos bs buf : (pos + length bs <= length buf)%nat ->
  length (splice pos bs buf) = length buf.
Proof. intros H. unfold splice. rewrite !length_app, length_take, length_drop. lia. Qed.

(** The stream that carries the messages [ms]. *)
Definition frame_of (m : bytes) : bytes := raw_data (framed m).
Definition frames (ms : list bytes) : bytes := concat (frame_of <$> ms).

Definition len_word (n : Z) : bytes := swap_put32 (Z.lor n 0x80000000).

Lemma frames_cons m ms : frames (m :: ms) = len_word (blen m) ++ m ++ frames ms.
Proof. change (frames (m :: ms)) with (frame_of m ++ frames ms). by rewrite app_assoc. Qed.

Lemma len_word_get n : 0 <= n < 2 ^ 31 -> exists b0 b1 b2 b3,
  len_word n = [b0; b1; b2; b3] /\ swap_get32 b0 b1 b2 b3 = Z.lor n 0x80000000.
Proof.
  intros Hn. destruct (length_word n Hn) as (_ & _ & H3). unfold len_word.
  rewrite swap_put32_be by done. by apply swap_get32_put.
Qed.

Lemma sys_read_seg n seg segs : (0 < n)%nat -> Forall (fun bs => bs <> []) (seg :: segs) ->
  exists bs segs', sys_read n (Arrived <$> (seg :: segs)) = (Arrived bs, Arrived <$> segs') /\
    bs <> [] /\ (length bs <= n)%nat /\ bs ++ concat segs' = seg ++ concat segs /\
    Forall (fun bs => bs <> []) segs'.
Proof.
  intros Hn [Hs Hss]%Forall_cons_1. cbn. destruct (Nat.leb_spec (length seg) n).
  - by exists seg, segs.
  - exists (take n seg), (drop n seg :: segs). split_and!; try done.
    + destruct n; [lia|]. by destruct seg.
    + rewrite length_take. lia.
    + cbn. by rewrite app_assoc, take_drop.
    + constructor; [|done]. intros Hd%(f_equal length). rewrite length_drop in Hd. cbn in Hd. lia.
Qed.

Section stream.
Context {T : Type} (rcb_ : option bytes -> T -> T * bool).
Context (keeps : forall m u, (rcb_ m u).2 = false).
Context (max : Z) (ms : list bytes).
Context (Hms : Forall (fun m => blen m <= max /\ blen m < 2 ^ 31) ms).
Implicit Types s : Reader T.

(** The bytes of the current message or length word that were read. *)
Definition held s : bytes :=
  match rdmsg_ s with
  | Some buf => len_word (blen buf) ++ take (rdpos_ s) buf
  | None => take (rdpos_ s) (nextlen_ s)
  end.

(** The messages [done] were delivered and [todo] are to come: their bytes
    were read in part and are in flight for the rest. *)
Definition reading (limit : nat) (done todo : list bytes) (segs : list bytes) s : Prop :=
  ms = done ++ todo /\ received s = Some <$> done /\ destroyed_ s = false /\
  maxmsglen_ s = max /\ length (nextlen_ s) = 4%nat /\
  arrivals s = Arrived <$> segs /\ Forall (fun bs => bs <> []) segs /\
  held s ++ concat segs = frames todo /\
  match rdmsg_ s with
  | Some buf => (rdpos_ s < length buf)%nat /\
      exists m todo', todo = m :: todo' /\ length buf = length m
  | None => (rdpos_ s <= limit)%nat
  end.

(** Between two turns a length word is never complete. *)
Definition receiving (segs : list bytes) s : Prop := exists done todo, reading 3 done todo segs s.

Lemma call_rcb_fields m s :
  let s' := call_rcb rcb_ m s in
  received s' = received s ++ [m] /\ destroyed_ s' = destroyed_ s /\ maxmsglen_ s' = maxmsglen_ s /\
  nextlen_ s' = nextlen_ s /\ rdmsg_ s' = rdmsg_ s /\ rdpos_ s' = rdpos_ s /\ arrivals s' = arrivals s.
Proof.
  unfold call_rcb. pose proof (keeps m (user s)) as Hk. destruct (rcb_ m (user s)) as [u b].
  cbn in *. subst b. by rewrite orb_false_r.
Qed.

Lemma frames_head todo bs rest : length bs = 4%nat -> bs ++ rest = frames todo ->
  exists m todo', todo = m :: todo' /\ bs = len_word (blen m) /\ rest = m ++ frames todo'.
Proof.
  intros Hb Hf. destruct todo as [|m todo'].
  { apply (f_equal length) in Hf. rewrite length_app in Hf. cbn in Hf. lia. }
  exists m, todo'. split; [done|]. rewrite frames_cons in Hf. by apply app_inj_1 in Hf as [-> ->].
Qed.

(** [start_message] on a state whose length word may be complete. *)
Lemma start_message_reads done todo segs s : reading 4 done todo segs s ->
  receiving segs (start_message rcb_ s).1.
Proof.
  intros (He & Hr & Hd & Hm & Hn & Ha & Hf & Hh & Hb). unfold start_message.
  destruct (rdmsg_ s) as [buf|] eqn:Eb.
  { exists done, todo. cbn [fst]. unfold reading. rewrite Eb. by destruct Hb; split_and!. }
  destruct (Nat.ltb_spec (rdpos_ s) 4).
  { exists done, todo. cbn [fst]. unfold reading. rewrite Eb. split_and!; try done. lia. }
  assert (rdpos_ s = 4%nat) as Hp by lia. unfold held in Hh. rewrite Eb, Hp, take_ge in Hh by lia.
  destruct (frames_head _ _ _ Hn Hh) as (m & todo' & -> & Hw & Hrest).
  assert (blen m <= max /\ blen m < 2 ^ 31) as [Hmax Hlt].
  { rewrite He in Hms. apply Forall_app in Hms as [_ Hms']. by apply Forall_cons_1 in Hms' as [? _]. }
  pose proof (blen_nonneg m). destruct (length_word (blen m)) as (H1 & H2 & _); [lia|].
  destruct (len_word_get (blen m)) as (b0 & b1 & b2 & b3 & Hl & Hg); [lia|].
  unfold nextlen. rewrite Hw, Hl, Hg, H2. destruct (Z.eqb_spec (Z.land (Z.lor (blen m) 0x80000000) 0x80000000) 0); [done|].
  destruct (Z.eqb_spec (blen m) 0) as [Hz|Hz].
  - exists (done ++ [m]), todo'. cbn [fst].
    destruct (call_rcb_fields (Some []) (set_buffers [b0; b1; b2; b3] None 0 s)) as (E1 & E2 & E3 & E4 & E5 & E6 & E7).
    assert (m = []) as -> by (destruct m; [done|unfold blen in Hz; cbn in Hz; lia]).
    unfold reading, held. rewrite E1, E2, E3, E4, E5, E6, E7. cbn. rewrite Hr, fmap_app, <-app_assoc.
    split_and!; try done. lia.
  - rewrite Hm. destruct (Z.leb_spec (blen m) max); [|lia].
    exists done, (m :: todo'). unfold reading, held. cbn -[frames len_word blen].
    assert (length (replicate (Z.to_nat (blen m)) "000"%char) = length m) as Hlen.
    { rewrite length_replicate. unfold blen. lia. }
    split_and!; try done.
    + rewrite Hrest, frames_cons, take_0, app_nil_r. unfold blen at 1. by rewrite Hlen.
    + rewrite Hlen. unfold blen in Hz. destruct m; cbn in *; lia.
    + by exists m, todo'.
Qed.

Lemma relax segs s done todo : reading 3 done todo segs s -> reading 4 done todo segs s.
Proof.
  unfold reading. intros (? & ? & ? & ? & ? & ? & ? & ? & Hb). destruct (rdmsg_ s); split_and!; try done; apply Hb || lia.
Qed.

(** A turn with bytes in flight reads some of them. *)
Lemma turn_reads seg segs s : receiving (seg :: segs) s ->
  exists segs', receiving segs' (turn rcb_ s).1 /\
    (length (concat segs') < length (concat (seg :: segs)))%nat.
Proof.
  intros (done & todo & He & Hr & Hd & Hm & Hn & Ha & Hf & Hh & Hb). unfold turn.
  destruct (rdmsg_ s) as [buf|] eqn:Eb; unfold held in Hh; rewrite Eb in Hh.
  - destruct Hb as (Hp & m & todo' & -> & Hl). rewrite frames_cons in Hh.
    replace (blen buf) with (blen m) in Hh by (unfold blen; lia). rewrite <-app_assoc in Hh.
    apply app_inv_head in Hh. set (room := (length buf - rdpos_ s)%nat).
    rewrite Ha. destruct (sys_read_seg (room + 4) seg segs) as (bs & segs' & -> & Hbs & Hbl & Hcat & Hf');
      [lia|done|]. change (concat (seg :: segs)) with (seg ++ concat segs) in *. rewrite <-Hcat in *.
    assert (length (concat segs') < length (bs ++ concat segs'))%nat as Hlt.
    { rewrite length_app. destruct bs; [done|cbn; lia]. }
    destruct bs as [|b bs']; [done|]. set (bs := b :: bs') in *.
    cbn [set_arrivals rdmsg_ rdpos_ nextlen_].
    destruct (Nat.leb_spec (length buf) (rdpos_ s + length bs)) as [Hle|Hle].
    + (* the message is complete *)
      assert (splice (rdpos_ s) (take room bs) buf = take (rdpos_ s) buf ++ take room bs) as Hsp.
      { unfold splice. rewrite (drop_ge buf), app_nil_r; [done|]. rewrite length_take. lia. }
      assert (take (rdpos_ s) buf ++ take room bs = m /\ drop room bs ++ concat segs' = frames todo') as [Hmsg Hrest].
      { apply app_inj_1; [rewrite length_app, !length_take; lia|].
        rewrite <-app_assoc, (app_assoc (take room bs)), take_drop. done. }
      rewrite Hsp, Hmsg.
      set (s1 := set_buffers _ _ _ _).
      destruct (call_rcb_fields (Some m) s1) as (E1 & E2 & E3 & E4 & E5 & E6 & E7).
      rewrite E2. change (destroyed_ s1) with (destroyed_ s). rewrite Hd.
      exists segs'. split; [|done]. apply (start_message_reads (done ++ [m]) todo').
      unfold reading, held. rewrite E1, E2, E3, E4, E5, E6, E7. cbn [s1 set_buffers set_arrivals rdmsg_ rdpos_ nextlen_ arrivals
        destroyed_ maxmsglen_ received]. rewrite Hr, fmap_app, <-app_assoc.
      assert (rdpos_ s + length bs - length buf = 0 + length (drop room bs))%nat as -> by (rewrite length_drop; lia).
      rewrite take_splice by lia. split_and!; try done.
      * rewrite length_splice; [done|]. rewrite length_drop, Hn. lia.
      * rewrite length_drop. lia.
    + (* more to come *)
      exists segs'. split; [|done]. apply (start_message_reads done (m :: todo')).
      assert (take room bs = bs) as -> by (apply take_ge; lia).
      assert (drop room bs = []) as -> by (apply drop_ge; lia).
      unfold reading, held. cbn [set_buffers set_arrivals rdmsg_ rdpos_ nextlen_ arrivals destroyed_ maxmsglen_ received].
      rewrite take_splice by lia.
      assert (length (splice (rdpos_ s) bs buf) = length buf) as Hls by (apply length_splice; lia).
      split_and!; try done; [by rewrite frames_cons, <-Hh; unfold blen; rewrite Hls, Hl, <-!app_assoc|lia|].
      exists m, todo'. by rewrite Hls.
  - destruct (Nat.ltb_spec (rdpos_ s) 4); [|lia]. rewrite Ha.
    destruct (sys_read_seg (4 - rdpos_ s) seg segs) as (bs & segs' & -> & Hbs & Hbl & Hcat & Hf');
      [lia|done|]. change (concat (seg :: segs)) with (seg ++ concat segs) in *. rewrite <-Hcat in *.
    assert (length (concat segs') < length (bs ++ concat segs'))%nat as Hlt.
    { rewrite length_app. destruct bs; [done|cbn; lia]. }
    destruct bs as [|b bs']; [done|]. set (bs := b :: bs') in *.
    exists segs'. split; [|done]. apply (start_message_reads done todo).
    unfold reading, held. cbn [set_buffers set_arrivals rdmsg_ rdpos_ nextlen_ arrivals destroyed_ maxmsglen_ received].
    rewrite take_splice by lia. split_and!; try done; [by rewrite length_splice by lia|by rewrite <-app_assoc|lia].
Qed.

Lemma turn_idle s : receiving [] s -> receiving [] (turn rcb_ s).1.
Proof.
  intros (done & todo & He & Hr & Hd & Hm & Hn & Ha & Hf & Hh & Hb).
  assert (turn rcb_ s = (set_arrivals [] s, false)) as ->.
  { unfold turn. rewrite Ha. destruct (rdmsg_ s); [done|].
    by destruct (Nat.ltb_spec (rdpos_ s) 4); [|lia]. }
  by exists done, todo.
Qed.

Lemma turns_read n segs s : receiving segs s ->
  exists segs', receiving segs' (turns rcb_ n s) /\ (length (concat segs') <= length (concat segs))%nat /\
    (n <> 0%nat -> segs <> [] -> (length (concat segs') < length (concat segs))%nat).
Proof.
  revert segs s. induction n as [|n IH]; intros segs s Hs; [by exists segs|]. cbn.
  assert (destroyed_ s = false) as -> by (by destruct Hs as (? & ? & _ & _ & ? & _)).
  assert (exists segs1, receiving segs1 (turn rcb_ s).1 /\ (length (concat segs1) <= length (concat segs))%nat /\
    (segs <> [] -> (length (concat segs1) < length (concat segs))%nat)) as (segs1 & H1 & Hle & Hlt).
  { destruct segs as [|seg segs]; [exists []; by split_and!; [apply turn_idle|..]|].
    destruct (turn_reads seg segs s Hs) as (segs1 & ? & ?). exists segs1. split_and!; [done|lia|done]. }
  destruct (turn rcb_ s) as [s1 []]; cbn in *.
  - destruct (IH segs1 s1 H1) as (segs' & ? & ? & _). exists segs'. split_and!; [done|lia|].
    intros _ Hne. specialize (Hlt Hne). lia.
  - exists segs1. by split_and!.
Qed.

(** Nothing in flight: every message was delivered. *)
Lemma receiving_all s : receiving [] s -> received s = Some <$> ms.
Proof.
  intros (done & todo & He & Hr & _ & _ & Hn & _ & _ & Hh & Hb). rewrite Hr, He.
  destruct todo as [|m todo]; [by rewrite app_nil_r|]. exfalso.
  rewrite frames_cons, app_nil_r in Hh. unfold held in Hh. apply (f_equal length) in Hh.
  assert (length (len_word (blen m)) = 4%nat) as H4 by done.
  destruct (rdmsg_ s) as [buf|].
  - destruct Hb as (Hp & m' & todo' & [= <- <-] & Hl). rewrite !length_app, length_take in Hh.
    assert (length (len_word (blen buf)) = 4%nat) by done. lia.
  - rewrite !length_app, length_take in Hh. lia.
Qed.

(** [k] calls of [input]. *)
Definition polls (k : nat) s : Reader T := Nat.iter k (input rcb_) s.

Lemma polls_read k segs s : receiving segs s ->
  exists segs', receiving segs' (polls k s) /\ (length (concat segs') <= length (concat segs) - k)%nat.
Proof.
  intros Hs. induction k as [|k IH]; [exists segs; split; [done|lia]|].
  destruct IH as (segs1 & H1 & Hl). destruct (turns_read 3 segs1 (polls k s) H1) as (segs' & H' & Hle & Hlt).
  exists segs'. split; [exact H'|]. destruct segs1 as [|seg segs1]; [cbn in *; lia|].
  assert (length (concat segs') < length (concat (seg :: segs1)))%nat by by apply Hlt. lia.
Qed.

(** A new socket, with [segs] on their way. *)
Definition new_reader (lens : bytes) (u : T) (segs : list bytes) : Reader T :=
  mkReader max lens None 0 false true u (Arrived <$> segs) [].

Lemma stream_delivered lens u segs :
  length lens = 4%nat -> Forall (fun bs => bs <> []) segs -> concat segs = frames ms ->
  received (polls (length (frames ms)) (new_reader lens u segs)) = Some <$> ms.
Proof.
  intros Hl Hf Hc. assert (receiving segs (new_reader lens u segs)) as Hs.
  { exists [], ms. unfold reading. cbn -[frames]. split_and!; try done. lia. }
  destruct (polls_read (length (frames ms)) segs _ Hs) as (segs' & H' & Hle).
  rewrite Hc, Nat.sub_diag in Hle. apply receiving_all. destruct segs' as [|seg segs']; [done|].
  destruct H' as (? & ? & _ & _ & _ & _ & _ & _ & Hf' & _). apply Forall_cons_1 in Hf' as [Hne _].
  destruct seg; [done|cbn in Hle; lia].
Qed.

(** C12: the reader is the inverse of the framing.  However the bytes of a
    sequence of messages are cut into segments, the callback gets the messages
    in order, each once and whole: at any time a beginning of the sequence,
    and all of it after as many calls of [input] as there are bytes. *)
Theorem input_stream lens u segs :
  length lens = 4%nat -> Forall (fun bs => bs <> []) segs -> concat segs = frames ms ->
  (forall k, exists n, received (polls k (new_reader lens u segs)) = Some <$> take n ms) /\
  received (polls (length (frames ms)) (new_reader lens u segs)) = Some <$> ms.
Proof.
  intros Hl Hf Hc. assert (receiving segs (new_reader lens u segs)) as Hs.
  { exists [], ms. unfold reading. cbn -[frames]. split_and!; try done. lia. }
  split; [|by apply stream_delivered].
  intros k. destruct (polls_read k segs _ Hs) as (segs' & (done & todo & He & Hr & _) & _).
  exists (length done). rewrite Hr, He. by rewrite take_app_length.
Qed.
End stream.

(** ** The theorems on concrete streams *)

Definition sample_messages : list bytes := [["h"; "e"; "y"; "!"]%char; []; ["o"; "k"; "."; "."]%char].
Definition sample_puts : list write_event :=
  [Put (framed ["h"; "e"; "y"; "!"]%char); Writable; Put (framed ["o"; "k"; "."; "."]%char); Writable; Writable].

Lemma output_stream_witness : Forall is_message sample_puts /\
  exists w, write_run sample_puts (new_writer [Wrote 3; Wrote 9; WAgain; Wrote 100]) = Some w /\
    stream w `prefix_of` put_bytes_of sample_puts.
Proof.
  assert (Forall is_message sample_puts) as H by by repeat constructor. split; [exact H|].
  destruct (output_stream sample_puts [Wrote 3; Wrote 9; WAgain; Wrote 100] H) as (w & Hr & Hp & _).
  exists w. exact (conj Hr Hp).
Defined.

Lemma blocked_socket_is_stuck_witness : exists w,
  write_run (Put (framed ["h"]%char) :: sample_puts) (new_writer [WAgain; Wrote 100; Wrote 100]) = Some w /\
  stream w = [] /\ length (waiting w) = 21%nat.
Proof.
  destruct (blocked_socket_is_stuck (framed ["h"]%char) sample_puts [Wrote 100; Wrote 100])
    as (w & Hr & Hs & _ & Hw); [done|by repeat constructor|].
  exists w. split; [exact Hr|]. split; [exact Hs|]. rewrite Hw. reflexivity.
Defined.

(** A callback that counts the bytes it is given. *)
Definition count_bytes (m : option bytes) (n : nat) : nat * bool :=
  (match m with Some m => n + length m | None => n end, false)%nat.
Definition sample_segments : list bytes :=
  [take 2 (frames sample_messages); take 11 (drop 2 (frames sample_messages)); drop 13 (frames sample_messages)].

Lemma input_stream_witness :
  concat sample_segments = frames sample_messages /\
  received (polls count_bytes 20 (new_reader 1000 ["a"; "b"; "c"; "d"]%char 0%nat sample_segments)) =
    Some <$> sample_messages.
Proof.
  split; [done|].
  refine (proj2 (input_stream count_bytes (fun _ _ => eq_refl) 1000 sample_messages _
    ["a"; "b"; "c"; "d"]%char 0%nat sample_segments eq_refl _ eq_refl)).
  - apply Forall_fold_right. vm_compute. split_and!; done.
  - by repeat constructor.
Defined.
