(* ===== verification/Pollset.v ===== *)
(** * The event loop: [xdrpp/pollset.h], [xdrpp/pollset.cc]

    [pollset] keeps the descriptors of interest twice, in the array that is
    given to [poll(2)] and in a hash map of callbacks, and timeouts in a
    multimap.  Callbacks are names; what a callback does, to the set as well, is
    a parameter.  What the kernel answers is an argument. *)

From S2P Require Import Prelude.

Definition POLLIN : Z := 1.
Definition POLLOUT : Z := 4.
Definition POLLERR : Z := 8.
Definition POLLHUP : Z := 16.
Definition POLLNVAL : Z := 32.

Definition kReadFlag : Z := 0x1.
Definition kWriteFlag : Z := 0x2.
Definition kOnceFlag : Z := 0x4.
(** The values of [op_t]. *)
Definition Read : Z := kReadFlag.
Definition Write : Z := kWriteFlag.
Definition ReadWrite : Z := Z.lor kReadFlag kWriteFlag.
Definition ReadOnce : Z := Z.lor kReadFlag kOnceFlag.
Definition WriteOnce : Z := Z.lor kWriteFlag kOnceFlag.

(** [x & flags] as a condition. *)
Definition any (x flags : Z) : bool := negb (Z.land x flags =? 0).

(** [struct pollfd] *)
Record pollfd := mkPollfd { pf_fd : Z; events : Z; revents : Z }.
Definition set_events (e : Z) (p : pollfd) : pollfd := mkPollfd (pf_fd p) e (revents p).

(** [pollset::fd_state]; an empty [std::function] is [None]. *)
Record fd_state := mkFd { rcb : option Z; wcb : option Z; idx : nat; roneshot : bool; woneshot : bool }.

(** A node of the multimap of timeouts; a [Timeout] is an iterator, which is
    the number of its node. *)
Record timer := mkTimer { due : Z; node : Z; tcb : Z }.

(** The members of [pollset]; [user] is what callbacks work on besides. *)
Record Pollset (U : Type) := mkPs {
  pollfds_ : list pollfd;
  state_ : gmap Z fd_state;
  time_cbs_ : list timer;
  next_node : Z;
  user : U;
}.
Arguments mkPs {U}.
Arguments pollfds_ {U}.
Arguments state_ {U}.
Arguments time_cbs_ {U}.
Arguments next_node {U}.
Arguments user {U}.

Section pollset.
Context {U : Type}.
(** What a callback does. *)
Context (exec : Z -> M (Pollset U) unit).
Implicit Types s : Pollset U.
Abbreviation Op := (M (Pollset U)).

Definition set_fds (l : list pollfd) s : Pollset U := mkPs l (state_ s) (time_cbs_ s) (next_node s) (user s).
Definition set_state (m : gmap Z fd_state) s : Pollset U := mkPs (pollfds_ s) m (time_cbs_ s) (next_node s) (user s).
Definition set_timers (l : list timer) s : Pollset U := mkPs (pollfds_ s) (state_ s) l (next_node s) (user s).
Definition set_node (n : Z) s : Pollset U := mkPs (pollfds_ s) (state_ s) (time_cbs_ s) n (user s).
Definition set_user (u : U) s : Pollset U := mkPs (pollfds_ s) (state_ s) (time_cbs_ s) (next_node s) u.

(** [pollfds_.at(i)] and [state_.at(fd)] *)
Definition pollfd_at (i : nat) : Op pollfd := fun s =>
  match pollfds_ s !! i with Some p => Ret p s | None => Throw (exn_runtime "vector::at") s end.
Definition state_at (fd : Z) : Op fd_state := fun s =>
  match state_ s !! fd with Some f => Ret f s | None => Throw (exn_runtime "unordered_map::at") s end.
Definition put_pollfd (i : nat) (p : pollfd) : Op unit := modify (fun s => set_fds (<[i := p]> (pollfds_ s)) s).
Definition put_state (fd : Z) (f : fd_state) : Op unit := modify (fun s => set_state (<[fd := f]> (state_ s)) s).

(** ** Descriptors *)

(** [fd_cb(fd, op)] *)
Definition fd_cb_remove (fd op : Z) : Op unit :=
  f ← gets (fun s => state_ s !! fd);
  match f with
  | None => mret tt
  | Some f =>
      pfd ← pollfd_at (idx f);
      let rd := any op kReadFlag in
      let wr := any op kWriteFlag in
      let e := if rd then Z.ldiff (events pfd) POLLIN else events pfd in
      let e := if wr then Z.ldiff e POLLOUT else e in
      put_pollfd (idx f) (set_events e pfd) ;;
      put_state fd (mkFd (if rd then None else rcb f) (if wr then None else wcb f) (idx f) (roneshot f) (woneshot f))
  end.

(** [state_[fd]], with its place in [pollfds_] *)
Definition enter_fd (fd : Z) : Op fd_state := fun s =>
  match state_ s !! fd with
  | Some f => Ret f s
  | None =>
      let f := mkFd None None (length (pollfds_ s)) false false in
      Ret f (set_state (<[fd := f]> (state_ s)) (set_fds (pollfds_ s ++ [mkPollfd fd 0 0]) s))
  end.

(** [fd_cb(fd, op, cb)]: [fd_cb_helper] and the assignment to what it returns. *)
Definition fd_cb (fd op : Z) (cb : option Z) : Op unit :=
  f ← enter_fd fd;
  pfdp ← pollfd_at (idx f);
  cassert (pf_fd pfdp =? fd) ;;
  (if any op kReadFlag then
     if any op kWriteFlag then abort (* std::terminate() *) else
     put_pollfd (idx f) (set_events (Z.lor (events pfdp) POLLIN) pfdp) ;;
     put_state fd (mkFd cb (wcb f) (idx f) (any op kOnceFlag) (woneshot f))
   else if any op kWriteFlag then
     put_pollfd (idx f) (set_events (Z.lor (events pfdp) POLLOUT) pfdp) ;;
     put_state fd (mkFd (rcb f) cb (idx f) (roneshot f) (any op kOnceFlag))
   else abort) ;;
  match cb with Some _ => mret tt | None => fd_cb_remove fd op end.

(** [state_.erase(fi)] when [fi] is found; the destructor of [fd_state] asserts
    that no callback is left. *)
Definition erase_state (fd : Z) : Op unit :=
  f ← gets (fun s => state_ s !! fd);
  match f with
  | None => mret tt
  | Some f =>
      cassert (match rcb f, wcb f with None, None => true | _, _ => false end) ;;
      modify (fun s => set_state (delete fd (state_ s)) s)
  end.

Definition pop_back : Op unit := modify (fun s => set_fds (take (length (pollfds_ s) - 1) (pollfds_ s)) s).

(** The first loop of [consolidate]; [n] is the size of [pollfds_]. *)
Fixpoint pop_idle (n : nat) : Op unit :=
  match n with
  | O => mret tt
  | S n =>
      back ← pollfd_at n;
      if events back =? 0 then erase_state (pf_fd back) ;; pop_back ;; pop_idle n else mret tt
  end.

(** The second loop, from [i - 1] down to 0. *)
Fixpoint fill_holes (i : nat) : Op unit :=
  match i with
  | O => mret tt
  | S i =>
      pfd1 ← pollfd_at i;
      if negb (events pfd1 =? 0) then fill_holes i else
      erase_state (pf_fd pfd1) ;;
      n ← gets (fun s => length (pollfds_ s));
      pfd ← pollfd_at (n - 1);
      put_pollfd i pfd ;;
      f ← state_at (pf_fd pfd);
      put_state (pf_fd pfd) (mkFd (rcb f) (wcb f) i (roneshot f) (woneshot f)) ;;
      pop_back ;;
      fill_holes i
  end.

Definition consolidate : Op unit :=
  n ← gets (fun s => length (pollfds_ s));
  pop_idle n ;;
  n ← gets (fun s => length (pollfds_ s));
  if (n <? 2)%nat then mret tt else fill_holes (n - 1).

(** ** Timeouts *)

(** [time_cbs_.emplace(ms, cb)]: behind the nodes that are not later. *)
Fixpoint emplace (t : timer) (l : list timer) : list timer :=
  match l with
  | t' :: l' => if due t' <=? due t then t' :: emplace t l' else t :: l
  | [] => [t]
  end.
Definition timeout_at (ms cb : Z) : Op Z := fun s =>
  let n := next_node s in
  Ret n (set_node (n + 1) (set_timers (emplace (mkTimer ms n cb) (time_cbs_ s)) s)).

Definition find_timer (t : Z) (l : list timer) : option timer := list_find (fun x => node x = t) l ≫= fun p => Some p.2.
Definition erase_timer (t : Z) (l : list timer) : list timer := filter (fun x => node x <> t) l.

(** The new value of the argument, which is [None] for a null [Timeout].  An
    iterator to a node that is gone is not defined: [Abort]. *)
Definition timeout_cancel (t : option Z) : Op (option Z) := fun s =>
  match t with
  | None => Ret None s
  | Some t =>
      match find_timer t (time_cbs_ s) with
      | Some _ => Ret None (set_timers (erase_timer t (time_cbs_ s)) s)
      | None => Abort
      end
  end.

(** The new iterator. *)
Definition timeout_reschedule_at (t ms : Z) : Op Z := fun s =>
  match find_timer t (time_cbs_ s) with
  | Some x =>
      let n := next_node s in
      Ret n (set_node (n + 1) (set_timers (erase_timer t (emplace (mkTimer ms n (tcb x)) (time_cbs_ s))) s))
  | None => Abort
  end.

Definition INT_MAX : Z := 2 ^ 31 - 1.

(** [next_timeout(ms)], the time being [now]. *)
Definition next_timeout (ms now : Z) s : Z :=
  match time_cbs_ s with
  | [] => ms
  | next :: _ =>
      if due next <=? now then 0 else
      let wait := due next - now in
      let wait := if INT_MAX <? wait then INT_MAX else wait in
      if (0 <=? ms) && (ms <=? wait) then ms else wait
  end.

(** The nodes behind node [t]. *)
Fixpoint after (t : Z) (l : list timer) : list timer :=
  match l with
  | [] => []
  | x :: l => if node x =? t then l else after t l
  end.

(** The loop of [run_timeouts] at the iterator [i], for at most [fuel] turns. *)
Fixpoint timeout_loop (fuel : nat) (now : Z) (i : option timer) : Op unit :=
  match i with
  | None => mret tt
  | Some x =>
      if negb (due x <=? now) then mret tt else
      match fuel with
      | O => fun _ => Diverge
      | S fuel =>
          exec (tcb x) ;;
          found ← gets (fun s => find_timer (node x) (time_cbs_ s));
          match found with
          | None => abort
          | Some _ =>
              next ← gets (fun s => head (after (node x) (time_cbs_ s)));
              modify (fun s => set_timers (erase_timer (node x) (time_cbs_ s)) s) ;;
              timeout_loop fuel now next
          end
      end
  end.
Definition run_timeouts (fuel : nat) (now : Z) : Op unit :=
  i ← gets (fun s => head (time_cbs_ s));
  timeout_loop fuel now i.

(** ** One round *)

Definition run_cb (fd : Z) (i : nat) (is_read : bool) : Op unit :=
  pfp ← pollfd_at i;
  fi ← state_at fd;
  match (if is_read then rcb fi else wcb fi) with
  | None => mret tt
  | Some cb =>
      if any (revents pfp) (Z.lor (if is_read then POLLIN else POLLOUT) (Z.lor POLLHUP POLLERR)) then
        when (if is_read then roneshot fi else woneshot fi)
          (put_state fd (if is_read then mkFd None (wcb fi) (idx fi) (roneshot fi) (woneshot fi)
                         else mkFd (rcb fi) None (idx fi) (roneshot fi) (woneshot fi)) ;;
           put_pollfd i (set_events (Z.ldiff (events pfp) (if is_read then POLLIN else POLLOUT)) pfp)) ;;
        exec cb
      else mret tt
  end.

(** The loop of [poll] over [n] more descriptors from [i] on, [r] of which are
    ready. *)
Fixpoint poll_fds (n i : nat) (r : Z) : Op unit :=
  match n with
  | O => mret tt
  | S n =>
      if negb (0 <? r) then mret tt else
      pfp ← pollfd_at i;
      state_at (pf_fd pfp) ;;
      cassert (negb (any (revents pfp) POLLNVAL)) ;;
      run_cb (pf_fd pfp) i true ;;
      run_cb (pf_fd pfp) i false ;;
      poll_fds n (S i) (if revents pfp =? 0 then r else r - 1)
  end.

Definition set_revents (rs : list Z) (l : list pollfd) : list pollfd :=
  zip_with (fun p r => mkPollfd (pf_fd p) (events p) r) l rs.
Definition count_ready (rs : list Z) : Z := Z.of_nat (length (filter (fun r => r <> 0) rs)).

(** What [::poll] answers: the [revents], one for each descriptor, [EINTR] or
    another error; [now] is the time afterwards. *)
Inductive polled := Ready (rs : list Z) | Interrupted | PollError.
Definition poll (fuel : nat) (r : polled) (now : Z) : Op unit :=
  match r with
  | PollError => abort
  | Interrupted => mret tt
  | Ready rs =>
      modify (fun s => set_fds (set_revents rs (pollfds_ s)) s) ;;
      maxpoll ← gets (fun s => length (pollfds_ s));
      poll_fds maxpoll 0 (count_ready rs) ;;
      run_timeouts fuel now ;;
      consolidate
  end.

Definition num_cbs s : nat := length (pollfds_ s) + length (time_cbs_ s).
End pollset.
