(* ===== verification/PollsetProps.v ===== *)
(** * What the event loop guarantees

    The array and the hash map of a [pollset] agree in every state, [poll] runs
    the callbacks of the ready descriptors and of the expired timeouts, each
    once, and never waits past the first timeout. *)

From Stdlib Require Import Sorted.
From S2P Require Import Prelude Pollset.

(** ** The array and the map agree *)

(** The events that the callbacks of a descriptor ask for. *)
Definition mask (f : fd_state) : Z :=
  Z.lor (match rcb f with Some _ => POLLIN | None => 0 end) (match wcb f with Some _ => POLLOUT | None => 0 end).

Record ps_ok {U} (s : Pollset U) : Prop := {
  ok_fd i p : pollfds_ s !! i = Some p -> exists f, state_ s !! pf_fd p = Some f /\ idx f = i /\ events p = mask f;
  ok_state fd f : state_ s !! fd = Some f -> exists p, pollfds_ s !! idx f = Some p /\ pf_fd p = fd;
}.

(** Descriptors stay where they are. *)
Definition fds_grow {U} (s s' : Pollset U) : Prop := forall i p, pollfds_ s !! i = Some p ->
  exists p', pollfds_ s' !! i = Some p' /\ pf_fd p' = pf_fd p /\ revents p' = revents p.

Section ok.
Context {U : Type}.
Implicit Types s : Pollset U.

Lemma fds_grow_refl s : fds_grow s s.
Proof. intros i p Hp. by exists p. Qed.
Lemma fds_grow_trans s1 s2 s3 : fds_grow s1 s2 -> fds_grow s2 s3 -> fds_grow s1 s3.
Proof.
  intros H1 H2 i p Hp. destruct (H1 i p Hp) as (p2 & Hp2 & ? & ?). destruct (H2 i p2 Hp2) as (p3 & ? & ? & ?).
  exists p3. split_and!; [done|congruence..].
Qed.

Lemma mask_zero f : mask f = 0 -> rcb f = None /\ wcb f = None.
Proof. unfold mask. by destruct (rcb f), (wcb f). Qed.

(** One descriptor changes, in both. *)
Lemma ok_update fd f f' p p' s : ps_ok s -> state_ s !! fd = Some f -> pollfds_ s !! idx f = Some p ->
  pf_fd p' = fd -> revents p' = revents p -> idx f' = idx f -> events p' = mask f' ->
  let s' := set_state (<[fd := f']> (state_ s)) (set_fds (<[idx f := p']> (pollfds_ s)) s) in
  ps_ok s' /\ fds_grow s s'.
Proof.
  intros Hs Hf Hp Hfd Hr Hi He s'. destruct (ok_state s Hs fd f Hf) as (q & Hq & Hqf). assert (q = p) as -> by congruence.
  assert (idx f < length (pollfds_ s))%nat as Hlt by by eapply lookup_lt_Some.
  split; [split|].
  - intros i q. cbn. rewrite list_lookup_insert. case_decide as Hd.
    + intros [= <-]. exists f'. destruct Hd as [<- _]. rewrite Hfd, lookup_insert_eq. by split_and!.
    + intros Hq'. destruct (ok_fd s Hs i q Hq') as (g & Hg & Hgi & Hge). exists g.
      rewrite lookup_insert_ne; [by split_and!|]. intros E. apply Hd. split; [|done].
      rewrite <-E in Hg. congruence.
  - intros fd0 g. cbn. rewrite lookup_insert. case_decide as Hd.
    + intros [= <-]. exists p'. rewrite Hi, list_lookup_insert_eq by done. by rewrite Hfd.
    + intros Hg. destruct (ok_state s Hs fd0 g Hg) as (q & Hq1 & Hq2). exists q. split; [|done].
      rewrite list_lookup_insert_ne; [done|]. intros E. rewrite <-E in Hq1. congruence.
  - intros i q Hq'. cbn. rewrite list_lookup_insert. case_decide as Hd; [|by exists q].
    exists p'. destruct Hd as [<- _]. assert (q = p) as -> by congruence. split_and!; congruence.
Qed.

(** A new descriptor, at the end. *)
Lemma enter_ok fd s : ps_ok s -> exists f s', enter_fd fd s = Ret f s' /\ ps_ok s' /\ fds_grow s s' /\
  state_ s' !! fd = Some f /\ time_cbs_ s' = time_cbs_ s /\ next_node s' = next_node s /\ user s' = user s.
Proof.
  intros Hs. unfold enter_fd. destruct (state_ s !! fd) as [f|] eqn:Ef.
  { exists f, s. split_and!; try done. apply fds_grow_refl. }
  eexists _, _. split; [reflexivity|]. cbn. rewrite lookup_insert_eq. split_and!; try done.
  - split.
    + intros i p. cbn. rewrite lookup_app. destruct (pollfds_ s !! i) as [q|] eqn:Eq.
      * intros [= <-]. destruct (ok_fd s Hs i q Eq) as (g & Hg & ? & ?). exists g.
        rewrite lookup_insert_ne; [done|]. congruence.
      * apply lookup_ge_None in Eq. intros Hi%list_lookup_singleton_Some. destruct Hi as [Hi <-]. cbn.
        rewrite lookup_insert_eq. eexists. split_and!; [done| |done]. cbn. lia.
    + intros fd0 g. cbn. rewrite lookup_insert. case_decide as Hd.
      * intros [= <-]. cbn. rewrite lookup_app_r, Nat.sub_diag by done. eexists. split; [reflexivity|]. by cbn.
      * intros Hg. destruct (ok_state s Hs fd0 g Hg) as (q & Hq & ?). exists q.
        by rewrite lookup_app_l by by eapply lookup_lt_Some.
  - intros i p Hp. exists p. cbn. by rewrite lookup_app_l by by eapply lookup_lt_Some.
Qed.
End ok.

(** ** Registering callbacks *)

(** The read or write callback of a descriptor. *)
Definition cb_of {U} (s : Pollset U) (fd : Z) (is_read : bool) : option Z :=
  state_ s !! fd ≫= (if is_read then rcb else wcb).

(** [s'] has the timeouts and the user state of [s]. *)
Definition only_fds {U} (s s' : Pollset U) : Prop :=
  time_cbs_ s' = time_cbs_ s /\ next_node s' = next_node s /\ user s' = user s.

Section register.
Context {U : Type}.
Implicit Types s : Pollset U.

Lemma ldiff_mask (rd wr : bool) f :
  let e := if rd then Z.ldiff (mask f) POLLIN else mask f in
  (if wr then Z.ldiff e POLLOUT else e) =
    mask (mkFd (if rd then None else rcb f) (if wr then None else wcb f) (idx f) (roneshot f) (woneshot f)).
Proof. unfold mask. cbn. by destruct rd, wr, (rcb f), (wcb f). Qed.

Lemma remove_ok fd op s : ps_ok s -> exists s', fd_cb_remove fd op s = Ret tt s' /\ ps_ok s' /\ fds_grow s s' /\
  only_fds s s' /\ forall fd' b, cb_of s' fd' b =
    if bool_decide (fd' = fd) && any op (if b then kReadFlag else kWriteFlag) then None else cb_of s fd' b.
Proof.
  intros Hs. unfold fd_cb_remove. rewrite (bind_Ret (gets _) _ s _ s eq_refl). destruct (state_ s !! fd) as [f|] eqn:Ef.
  2: { exists s. split_and!; try done; [apply fds_grow_refl|]. intros fd' b. case_bool_decide as Hd; [|done]. subst.
       unfold cb_of. rewrite Ef. by destruct (any _ _). }
  destruct (ok_state s Hs fd f Ef) as (p & Hp & Hfd). destruct (ok_fd s Hs _ _ Hp) as (g & Hg & _ & He).
  assert (g = f) as -> by congruence.
  rewrite (bind_Ret (pollfd_at (idx f)) _ s p s) by (unfold pollfd_at; by rewrite Hp).
  set (f' := mkFd _ _ _ _ _). set (p' := set_events _ p).
  destruct (ok_update fd f f' p p' s Hs Ef Hp Hfd eq_refl eq_refl) as [Hok Hgr].
  { subst p' f'. cbn [set_events events]. rewrite He. apply ldiff_mask. }
  eexists. split; [reflexivity|]. split_and!; try done. intros fd' b. unfold cb_of. cbn. rewrite lookup_insert.
  destruct (decide (fd = fd')) as [<-|Hne].
  - rewrite bool_decide_true by done. rewrite Ef. cbn. destruct b; cbn; by destruct (any _ _).
  - by rewrite bool_decide_false by congruence.
Qed.

(** A legal [op] asks for reading or for writing. *)
Definition legal (op : Z) : Prop := any op kWriteFlag = negb (any op kReadFlag).

Lemma fd_cb_ok fd op cb s : legal op -> ps_ok s -> exists s', fd_cb fd op cb s = Ret tt s' /\ ps_ok s' /\ fds_grow s s' /\
  only_fds s s' /\ forall fd' b, cb_of s' fd' b =
    if bool_decide (fd' = fd) && Bool.eqb b (any op kReadFlag) then cb else cb_of s fd' b.
Proof.
  intros Hop Hs. unfold fd_cb.
  destruct (enter_ok fd s Hs) as (f & s1 & H1 & Hs1 & Hg1 & Ef & Ht & Hn & Hu). rewrite (bind_Ret _ _ _ _ _ H1).
  assert (forall fd' b, cb_of s1 fd' b = cb_of s fd' b) as Hcb1.
  { intros fd' b. unfold enter_fd in H1. destruct (state_ s !! fd) as [g|] eqn:Eg; injection H1 as <- <-; [done|].
    unfold cb_of. cbn. rewrite lookup_insert. case_decide as Hd; [|done]. subst. rewrite Eg. by destruct b. }
  destruct (ok_state s1 Hs1 fd f Ef) as (p & Hp & Hfd). destruct (ok_fd s1 Hs1 _ _ Hp) as (g & Hg & _ & He).
  assert (g = f) as -> by congruence.
  rewrite (bind_Ret (pollfd_at (idx f)) _ s1 p s1) by (unfold pollfd_at; by rewrite Hp).
  rewrite Hfd, Z.eqb_refl. erewrite bind_Ret by reflexivity. rewrite Hop. set (rd := any op kReadFlag) in *.
  set (f2 := if rd then mkFd cb (wcb f) (idx f) (any op kOnceFlag) (woneshot f)
             else mkFd (rcb f) cb (idx f) (roneshot f) (any op kOnceFlag)).
  set (p2 := set_events (if rd then Z.lor (events p) POLLIN else Z.lor (events p) POLLOUT) p).
  set (s2 := set_state (<[fd := f2]> (state_ s1)) (set_fds (<[idx f := p2]> (pollfds_ s1)) s1)).
  assert (idx f2 = idx f) as Ei by (by unfold f2; destruct rd).
  erewrite (bind_Ret _ _ s1 tt s2) by (unfold s2, f2, p2; by destruct rd).
  assert (forall fd' b, cb_of s2 fd' b = if bool_decide (fd' = fd) && Bool.eqb b rd then cb else cb_of s fd' b) as Hcb2.
  { intros fd' b. rewrite <-Hcb1. unfold cb_of. cbn. rewrite lookup_insert. destruct (decide (fd = fd')) as [<-|Hne].
    - rewrite bool_decide_true, Ef by done. unfold f2. by destruct rd, b.
    - by rewrite bool_decide_false by congruence. }
  destruct cb as [c|].
  - exists s2. destruct (ok_update fd f f2 p p2 s1 Hs1 Ef Hp Hfd eq_refl Ei) as [Hok2 Hg2].
    { unfold p2, f2, mask. cbn. rewrite He. unfold mask. by destruct rd, (rcb f), (wcb f). }
    split_and!; try done; by eapply fds_grow_trans.
  - (* the entry is removed again *)
    unfold fd_cb_remove. rewrite (bind_Ret (gets _) _ s2 (Some f2) s2) by (unfold gets; cbn; by rewrite lookup_insert_eq).
    rewrite (bind_Ret (pollfd_at _) _ s2 p2 s2).
    2: { unfold pollfd_at. cbn. rewrite Ei, list_lookup_insert_eq by by eapply lookup_lt_Some. done. }
    fold rd. rewrite Hop. fold rd.
    set (f3 := mkFd _ _ _ _ _). set (p3 := set_events _ p2).
    destruct (ok_update fd f f3 p p3 s1 Hs1 Ef Hp Hfd eq_refl) as [Hok3 Hg3].
    { exact Ei. }
    { unfold p3, f3, p2, f2, mask. cbn. rewrite He. unfold mask. by destruct rd, (rcb f), (wcb f). }
    eexists. split; [reflexivity|]. cbn [s2 set_state set_fds pollfds_ state_].
    rewrite Ei, insert_insert_eq, list_insert_insert_eq. split; [exact Hok3|].
    split; [by eapply fds_grow_trans|]. split; [done|]. intros fd' b. pose proof (Hcb2 fd' b) as Hb. unfold cb_of in *.
    cbn in Hb |- *. rewrite <-Hb. rewrite !lookup_insert. destruct (decide (fd = fd')) as [<-|]; [|done].
    unfold f3, f2. by destruct rd, b.
Qed.
End register.

(** ** Consolidation *)

Definition same_cbs {U} (s s' : Pollset U) : Prop := only_fds s s' /\ forall fd b, cb_of s' fd b = cb_of s fd b.

Section consolidate.
Context {U : Type}.
Implicit Types s : Pollset U.

Lemma same_cbs_trans s1 s2 s3 : same_cbs s1 s2 -> same_cbs s2 s3 -> same_cbs s1 s3.
Proof.
  intros [(E1 & E2 & E3) Ha] [(F1 & F2 & F3) Hb]. split; [split_and!; congruence|]. intros. by rewrite Hb.
Qed.

(** Without callbacks the entry of the map can go. *)
Lemma erase_ok i p s : ps_ok s -> pollfds_ s !! i = Some p -> events p = 0 ->
  erase_state (pf_fd p) s = Ret tt (set_state (delete (pf_fd p) (state_ s)) s) /\
  forall fd b, cb_of (set_state (delete (pf_fd p) (state_ s)) s) fd b = cb_of s fd b.
Proof.
  intros Hs Hp He. destruct (ok_fd s Hs i p Hp) as (f & Hf & _ & Hm). rewrite He in Hm. symmetry in Hm.
  apply mask_zero in Hm as [Hr Hw]. split.
  - unfold erase_state. rewrite (bind_Ret (gets _) _ s (Some f) s) by (unfold gets; by rewrite Hf). by rewrite Hr, Hw.
  - intros fd b. unfold cb_of. cbn. destruct (decide (fd = pf_fd p)) as [->|Hne].
    + rewrite lookup_delete_eq, Hf. cbn. by destruct b.
    + by rewrite lookup_delete_ne by done.
Qed.

Lemma positions s i j p q : ps_ok s -> pollfds_ s !! i = Some p -> pollfds_ s !! j = Some q -> pf_fd p = pf_fd q -> i = j.
Proof.
  intros Hs Hp Hq E. destruct (ok_fd s Hs i p Hp) as (f & Hf & ? & _). destruct (ok_fd s Hs j q Hq) as (g & Hg & ? & _).
  congruence.
Qed.

(** The last descriptor, which is idle, goes. *)
Lemma drop_last_ok n p s : ps_ok s -> length (pollfds_ s) = S n -> pollfds_ s !! n = Some p ->
  ps_ok (set_fds (take n (pollfds_ s)) (set_state (delete (pf_fd p) (state_ s)) s)).
Proof.
  intros Hs Hn Hp. split.
  - intros i q. cbn. rewrite lookup_take. case_decide; [|done]. intros Hq. destruct (ok_fd s Hs i q Hq) as (f & Hf & ? & ?).
    exists f. rewrite lookup_delete_ne; [done|]. intros E. pose proof (positions s n i p q Hs Hp Hq E). lia.
  - intros fd f. cbn. rewrite lookup_delete_Some. intros [Hne Hf]. destruct (ok_state s Hs fd f Hf) as (q & Hq & Hfd).
    exists q. rewrite lookup_take. case_decide; [done|]. apply lookup_lt_Some in Hq as Hlt.
    assert (idx f = n) by lia. subst n. congruence.
Qed.

Lemma pop_idle_ok n s : ps_ok s -> length (pollfds_ s) = n -> exists s', pop_idle n s = Ret tt s' /\ ps_ok s' /\
  same_cbs s s' /\ (forall p, pollfds_ s' !! (length (pollfds_ s') - 1)%nat = Some p -> events p <> 0).
Proof.
  revert s. induction n as [|n IH]; intros s Hs Hn.
  { exists s. split_and!; try done. intros p Hp. apply lookup_lt_Some in Hp. lia. }
  cbn [pop_idle]. destruct (lookup_lt_is_Some_2 (pollfds_ s) n) as [p Hp]; [lia|].
  rewrite (bind_Ret (pollfd_at n) _ s p s) by (unfold pollfd_at; by rewrite Hp).
  destruct (Z.eqb_spec (events p) 0) as [He|He].
  - destruct (erase_ok n p s Hs Hp He) as [H1 Hcb]. rewrite (bind_Ret _ _ _ _ _ H1). erewrite bind_Ret by reflexivity.
    cbn [set_state pollfds_]. rewrite Hn. replace (S n - 1)%nat with n by lia.
    destruct (IH (set_fds (take n (pollfds_ s)) (set_state (delete (pf_fd p) (state_ s)) s))) as (s' & Hr & Hs' & Hsame & Hl).
    + by apply drop_last_ok.
    + cbn. rewrite length_take. lia.
    + exists s'. split_and!; try done. eapply same_cbs_trans; [|done]. by split.
  - exists s. split_and!; try done. intros q Hq. rewrite Hn in Hq. replace (S n - 1)%nat with n in Hq by lia. congruence.
Qed.

(** The last descriptor takes the place of an idle one. *)
Lemma move_last_ok i n p q f s : ps_ok s -> length (pollfds_ s) = S n -> (i < n)%nat ->
  pollfds_ s !! i = Some p -> pollfds_ s !! n = Some q -> state_ s !! pf_fd q = Some f ->
  ps_ok (set_fds (take n (<[i := q]> (pollfds_ s)))
    (set_state (<[pf_fd q := mkFd (rcb f) (wcb f) i (roneshot f) (woneshot f)]> (delete (pf_fd p) (state_ s))) s)).
Proof.
  intros Hs Hn Hi Hp Hq Hf. split.
  - intros j r. cbn. rewrite lookup_take. case_decide as Hj; [|done]. rewrite list_lookup_insert. case_decide as Hd.
    + intros [= <-]. rewrite lookup_insert_eq. eexists. split_and!; [done|by destruct Hd|].
      destruct (ok_fd s Hs n q Hq) as (g & Hg & _ & ->). by assert (g = f) as -> by congruence.
    + intros Hr. destruct (ok_fd s Hs j r Hr) as (g & Hg & ? & ?). exists g.
      rewrite lookup_insert_ne, lookup_delete_ne; [done|..].
      * intros E. pose proof (positions s i j p r Hs Hp Hr E) as ->. apply Hd. split; [done|]. lia.
      * intros E. pose proof (positions s n j q r Hs Hq Hr E). lia.
  - intros fd g. cbn. rewrite lookup_insert. case_decide as Hd.
    + intros [= <-]. exists q. cbn. rewrite lookup_take, decide_True by done. rewrite list_lookup_insert_eq by lia. done.
    + rewrite lookup_delete_Some. intros [Hne Hg]. destruct (ok_state s Hs fd g Hg) as (r & Hr & Hfd). exists r.
      apply lookup_lt_Some in Hr as Hlt. assert (idx g <> n) as Hng by (intros E; rewrite E in Hr; congruence).
      assert (idx g <> i) as Hig by (intros E; rewrite E in Hr; congruence).
      rewrite lookup_take, decide_True by lia. by rewrite list_lookup_insert_ne by done.
Qed.

Lemma fill_holes_ok i s : ps_ok s -> (i < length (pollfds_ s))%nat ->
  (forall j p, (i <= j)%nat -> pollfds_ s !! j = Some p -> events p <> 0) ->
  exists s', fill_holes i s = Ret tt s' /\ ps_ok s' /\ same_cbs s s' /\ (forall p, p ∈ pollfds_ s' -> events p <> 0).
Proof.
  revert s. induction i as [|i IH]; intros s Hs Hi Hbusy.
  { exists s. split_and!; try done. intros p [j Hj]%list_elem_of_lookup. apply (Hbusy j); [lia|done]. }
  cbn [fill_holes]. destruct (lookup_lt_is_Some_2 (pollfds_ s) i) as [p Hp]; [lia|].
  rewrite (bind_Ret (pollfd_at i) _ s p s) by (unfold pollfd_at; by rewrite Hp).
  destruct (Z.eqb_spec (events p) 0) as [He|He]; cbn [negb].
  2: { apply IH; [done|lia|]. intros j q Hj Hq. destruct (decide (j = i)) as [->|]; [congruence|]. apply (Hbusy j); [lia|done]. }
  destruct (erase_ok i p s Hs Hp He) as [H1 Hcb]. rewrite (bind_Ret _ _ _ _ _ H1).
  set (s1 := set_state _ s) in *. rewrite (bind_Ret (gets _) _ s1 _ s1 eq_refl).
  destruct (length (pollfds_ s)) as [|n] eqn:En; [lia|].
  assert (length (pollfds_ s1) - 1 = n)%nat as El by (cbn; lia). rewrite El.
  destruct (lookup_lt_is_Some_2 (pollfds_ s) n) as [q Hq]; [lia|].
  rewrite (bind_Ret (pollfd_at n) _ s1 q s1) by (unfold pollfd_at; cbn; by rewrite Hq).
  erewrite bind_Ret by reflexivity. set (s2 := set_fds _ s1).
  destruct (ok_fd s Hs n q Hq) as (f & Hf & _ & _).
  assert (pf_fd q <> pf_fd p) as Hne by (intros E; pose proof (positions s n i q p Hs Hq Hp E); lia).
  rewrite (bind_Ret (state_at (pf_fd q)) _ s2 f s2) by (unfold state_at; cbn; by rewrite lookup_delete_ne, Hf by done).
  erewrite bind_Ret by reflexivity. erewrite bind_Ret by reflexivity.
  cbn [s2 s1 set_state set_fds pollfds_ state_]. rewrite length_insert, En. replace (S n - 1)%nat with n by lia.
  set (s3 := set_fds _ _).
  assert (ps_ok s3) as Hs3 by exact (move_last_ok i n p q f s Hs En ltac:(lia) Hp Hq Hf).
  assert (forall j r, (j < n)%nat -> pollfds_ s3 !! j = Some r -> r = q /\ j = i \/ pollfds_ s !! j = Some r) as Hl.
  { intros j r Hj. cbn. rewrite lookup_take, decide_True by done. rewrite list_lookup_insert. case_decide as Hd; [|by right].
    intros [= <-]. left. by destruct Hd. }
  destruct (IH s3 Hs3) as (s' & Hr & Hs' & Hsame & Hb).
  - cbn. rewrite length_take, length_insert. lia.
  - intros j r Hj Hjr. pose proof (lookup_lt_Some _ _ _ Hjr) as Hlt. cbn in Hlt. rewrite length_take, length_insert in Hlt.
    destruct (Hl j r) as [[-> _]|Hr]; [lia|done|..].
    + apply (Hbusy n); [lia|done].
    + destruct (decide (j = i)) as [->|]; [|apply (Hbusy j); [lia|done]].
      cbn in Hjr. rewrite lookup_take, decide_True, list_lookup_insert_eq in Hjr by lia.
      injection Hjr as <-. apply (Hbusy n); [lia|done].
  - exists s'. split_and!; try done. eapply same_cbs_trans; [|done]. split; [done|]. intros fd b. rewrite <-Hcb.
    unfold cb_of. cbn. rewrite lookup_insert. case_decide as Hd; [|done]. subst. rewrite lookup_delete_ne, Hf by done. by destruct b.
Qed.

(** After consolidation only descriptors with a callback are left. *)
Lemma consolidate_ok s : ps_ok s -> exists s', consolidate s = Ret tt s' /\ ps_ok s' /\ same_cbs s s' /\
  (forall p, p ∈ pollfds_ s' -> events p <> 0).
Proof.
  intros Hs. unfold consolidate. rewrite (bind_Ret (gets _) _ s _ s eq_refl).
  destruct (pop_idle_ok _ s Hs eq_refl) as (s1 & H1 & Hs1 & Hsame & Hlast). rewrite (bind_Ret _ _ _ _ _ H1).
  rewrite (bind_Ret (gets _) _ s1 _ s1 eq_refl). destruct (Nat.ltb_spec (length (pollfds_ s1)) 2) as [Hn|Hn].
  - exists s1. split_and!; try done. intros p [j Hj]%list_elem_of_lookup. apply Hlast.
    pose proof (lookup_lt_Some _ _ _ Hj). by replace (length (pollfds_ s1) - 1)%nat with j by lia.
  - destruct (fill_holes_ok (length (pollfds_ s1) - 1) s1 Hs1) as (s' & Hr & Hs' & Hsame' & Hb); [lia|..].
    + intros j p Hj Hp. pose proof (lookup_lt_Some _ _ _ Hp). apply Hlast. by replace (length (pollfds_ s1) - 1)%nat with j by lia.
    + exists s'. split_and!; try done. by eapply same_cbs_trans.
Qed.
End consolidate.

(** ** Timeouts *)

Definition expired {U} (now : Z) (s : Pollset U) : list timer := filter (fun x => due x <= now) (time_cbs_ s).

(** The multimap is ordered, and iterators are distinct. *)
Record timers_ok {U} (s : Pollset U) : Prop := {
  tm_sorted : StronglySorted (fun x y => due x <= due y) (time_cbs_ s);
  tm_nodup : NoDup (node <$> time_cbs_ s);
  tm_next x : x ∈ time_cbs_ s -> node x < next_node s;
}.

Lemma filter_none {A} (P : A -> Prop) `{!forall x, Decision (P x)} (l : list A) :
  (forall x, x ∈ l -> ~ P x) -> filter P l = [].
Proof.
  intros Hp. induction l as [|x l IH]; [done|]. rewrite filter_cons, decide_False by (apply Hp; by left).
  apply IH. intros y Hy. apply Hp. by right.
Qed.

Lemma sorted_split now l : StronglySorted (fun x y => due x <= due y) l ->
  l = filter (fun x => due x <= now) l ++ filter (fun x => now < due x) l.
Proof.
  induction 1 as [|x l _ IH Hx]; [done|]. rewrite !filter_cons.
  destruct (decide (due x <= now)) as [Hd|Hd].
  - rewrite (decide_False (P := now < due x)) by lia. cbn. by rewrite <-IH.
  - rewrite (decide_True (P := now < due x)) by lia.
    assert (filter (fun x => due x <= now) l = []) as Hn.
    { apply filter_none. intros y Hy. pose proof (proj1 (list.Forall_forall _ _) Hx y Hy). cbn in *. lia. }
    rewrite Hn in IH |- *. cbn in IH |- *. by rewrite <-IH.
Qed.

Section timers.
Context {U : Type}.
Implicit Types s : Pollset U.

Lemma erase_timer_head x l : NoDup (node <$> x :: l) -> erase_timer (node x) (x :: l) = l.
Proof.
  rewrite fmap_cons. intros [Hx Hl]%list.NoDup_cons. unfold erase_timer. rewrite filter_cons, decide_False by congruence.
  clear Hl. induction l as [|y l IH]; [done|]. cbn in Hx. rewrite not_elem_of_cons in Hx. destruct Hx as [Hy Hx].
  rewrite filter_cons, decide_True by congruence. f_equal. by apply IH.
Qed.
Lemma find_timer_head x l : find_timer (node x) (x :: l) = Some x.
Proof. unfold find_timer. cbn. by rewrite decide_True by done. Qed.
Lemma after_head x l : after (node x) (x :: l) = l.
Proof. cbn. by rewrite Z.eqb_refl. Qed.

Lemma timers_tail x l s : timers_ok s -> time_cbs_ s = x :: l -> timers_ok (set_timers l s).
Proof.
  intros [H1 H2 H3] E. rewrite E in *. split; cbn.
  - by inversion H1.
  - by apply list.NoDup_cons in H2 as [_ H2].
  - intros y Hy. apply H3. by right.
Qed.

Lemma emplace_perm t l : emplace t l ≡ₚ t :: l.
Proof.
  induction l as [|y l IH]; cbn; [done|]. destruct (due y <=? due t); [|done]. rewrite IH. apply Permutation_swap.
Qed.
Lemma emplace_elem t l x : x ∈ emplace t l <-> x = t \/ x ∈ l.
Proof. by rewrite emplace_perm, elem_of_cons. Qed.
Lemma emplace_sorted t l : StronglySorted (fun x y => due x <= due y) l -> StronglySorted (fun x y => due x <= due y) (emplace t l).
Proof.
  induction 1 as [|y l Hl IH Hy]; cbn; [by repeat constructor|]. destruct (Z.leb_spec (due y) (due t)).
  - constructor; [done|]. apply list.Forall_forall. intros x [->|Hx]%emplace_elem; [done|].
    by apply (proj1 (list.Forall_forall _ _) Hy).
  - constructor; [by constructor|]. constructor; [lia|]. eapply list.Forall_impl; [exact Hy|]. cbn. lia.
Qed.

(** A timeout that is set is found, and the order is kept. *)
Lemma timeout_at_ok ms c s : timers_ok s -> exists s', timeout_at ms c s = Ret (next_node s) s' /\ timers_ok s' /\
  find_timer (next_node s) (time_cbs_ s') = Some (mkTimer ms (next_node s) c) /\
  (forall now, now < ms -> expired now s' = expired now s) /\
  pollfds_ s' = pollfds_ s /\ state_ s' = state_ s /\ user s' = user s.
Proof.
  intros [H1 H2 H3]. eexists. split; [reflexivity|]. set (t := mkTimer ms (next_node s) c). split_and!; try done.
  - split; cbn.
    + by apply emplace_sorted.
    + rewrite emplace_perm. cbn. constructor; [|done]. intros (x & E & Hx)%list_elem_of_fmap. apply H3 in Hx. lia.
    + intros x [->|Hx]%emplace_elem; [cbn; lia|]. apply H3 in Hx. lia.
  - cbn. assert (forall x, x ∈ time_cbs_ s -> node x <> next_node s) as Hn by (intros x Hx; apply H3 in Hx; lia).
    clear H1 H2 H3. unfold find_timer. induction (time_cbs_ s) as [|y l IH]; cbn.
    + by rewrite decide_True by done.
    + destruct (due y <=? ms); cbn.
      * rewrite decide_False by (apply Hn; by left). specialize (IH ltac:(intros x Hx; apply Hn; by right)).
        destruct (list_find _ (emplace t l)) as [[]|]; [|done]. exact IH.
      * by rewrite decide_True by done.
  - intros now Hnow. clear H1 H2 H3.
    change (filter (fun x => due x <= now) (emplace t (time_cbs_ s)) = filter (fun x => due x <= now) (time_cbs_ s)).
    induction (time_cbs_ s) as [|y l IH]; cbn [emplace].
    + rewrite filter_cons, decide_False by (cbn; lia). done.
    + destruct (due y <=? due t); [|by rewrite (filter_cons _ t), decide_False by (cbn; lia)].
      rewrite !filter_cons. by rewrite IH.
Qed.
End timers.

(** ** Running callbacks *)

Record consistent {U} (s : Pollset U) : Prop := { co_fds : ps_ok s; co_timers : timers_ok s }.

Section run.
Context {U : Type} (exec : Z -> M (Pollset U) unit).
Implicit Types s : Pollset U.

(** What [poll] asks of a callback: it returns, keeps the set consistent, and
    neither cancels a timeout that is due nor adds one. *)
Definition tame (now c : Z) : Prop := forall s, consistent s ->
  exists s', exec c s = Ret tt s' /\ consistent s' /\ fds_grow s s' /\ expired now s' = expired now s.

Lemma expired_first now x l s : timers_ok s -> expired now s = x :: l ->
  time_cbs_ s = x :: l ++ filter (fun y => now < due y) (time_cbs_ s) /\ due x <= now.
Proof.
  intros Hs E. split.
  - rewrite (sorted_split now _ (tm_sorted s Hs)) at 1. unfold expired in E. by rewrite E.
  - assert (x ∈ expired now s) as Hx by (rewrite E; left). unfold expired in Hx.
    by apply list_elem_of_filter in Hx as [Hx _].
Qed.

Lemma expired_tail now x l r s : timers_ok s -> time_cbs_ s = x :: r -> expired now s = x :: l ->
  expired now (set_timers r s) = l.
Proof.
  intros Hs E Ex. destruct (expired_first now x l s Hs Ex) as [_ Hd]. unfold expired in *. rewrite E in Ex.
  rewrite filter_cons, decide_True in Ex by done. injection Ex as Ex. exact Ex.
Qed.

(** The loop runs the timeouts that are due, in their order, each once. *)
Lemma timeout_loop_run now l fuel s : Forall (fun x => tame now (tcb x)) l -> consistent s -> expired now s = l ->
  (length l <= fuel)%nat ->
  exists s', timeout_loop exec fuel now (head (time_cbs_ s)) s = Ret tt s' /\ consistent s' /\ fds_grow s s' /\
    expired now s' = [] /\
    for_each l (fun x => exec (tcb x) ;; modify (fun s => set_timers (erase_timer (node x) (time_cbs_ s)) s)) s = Ret tt s'.
Proof.
  revert fuel s. induction l as [|x l IH]; intros fuel s Ht Hs El Hf.
  { exists s. split; [|split_and!; try done; apply fds_grow_refl]. destruct (time_cbs_ s) as [|y l] eqn:E; [by destruct fuel|].
    cbn [head]. assert (~ due y <= now) as Hd.
    { intros Hd. unfold expired in El. by rewrite E, filter_cons, decide_True in El. }
    destruct fuel; cbn [timeout_loop]; by rewrite (proj2 (Z.leb_gt _ _)) by lia. }
  apply Forall_cons_1 in Ht as [Hx Ht]. destruct (expired_first now x l s (co_timers s Hs) El) as [E Hd].
  destruct fuel as [|fuel]; [cbn in Hf; lia|]. rewrite E. cbn [head timeout_loop].
  rewrite (proj2 (Z.leb_le _ _)) by done. cbn [negb].
  destruct (Hx s Hs) as (s1 & H1 & Hs1 & Hg1 & Ee). rewrite (bind_Ret _ _ _ _ _ H1). rewrite El in Ee.
  destruct (expired_first now x l s1 (co_timers s1 Hs1) Ee) as [E1 _].
  set (r := l ++ _) in E1. rewrite (bind_Ret (gets _) _ s1 (Some x) s1) by (unfold gets; by rewrite E1, find_timer_head).
  rewrite (bind_Ret (gets _) _ s1 (head r) s1) by (unfold gets; by rewrite E1, after_head).
  erewrite bind_Ret by reflexivity.
  assert (erase_timer (node x) (time_cbs_ s1) = r) as Er.
  { rewrite E1. apply erase_timer_head. rewrite <-E1. apply (tm_nodup s1 (co_timers s1 Hs1)). }
  rewrite Er. change (head r) with (head (time_cbs_ (set_timers r s1))).
  destruct (IH fuel (set_timers r s1) Ht) as (s' & Hr & Hs' & Hg' & Ee' & Hl').
  - split; [|by apply (timers_tail x r s1 (co_timers s1 Hs1))]. destruct (co_fds s1 Hs1) as [A B]. by split.
  - by apply (expired_tail now x l r s1 (co_timers s1 Hs1)).
  - cbn in Hf. lia.
  - exists s'. split_and!; try done; [by eapply fds_grow_trans|]. cbn [for_each]. rewrite bind_assoc, (bind_Ret _ _ _ _ _ H1).
    erewrite bind_Ret by reflexivity. by rewrite Er.
Qed.

(** ** One round *)

Lemma consistent_fds s f fd f' p p' : consistent s -> state_ s !! fd = Some f -> pollfds_ s !! idx f = Some p ->
  pf_fd p' = fd -> revents p' = revents p -> idx f' = idx f -> events p' = mask f' ->
  let s' := set_state (<[fd := f']> (state_ s)) (set_fds (<[idx f := p']> (pollfds_ s)) s) in consistent s' /\ fds_grow s s'.
Proof.
  intros [Hs Ht] Hf Hp H1 H2 H3 H4 s'. destruct (ok_update fd f f' p p' s Hs Hf Hp H1 H2 H3 H4) as [Hs' Hg].
  split; [|done]. split; [done|]. by destruct Ht.
Qed.

Lemma run_cb_ok now i p b s : (forall c, tame now c) -> consistent s -> pollfds_ s !! i = Some p ->
  exists s', run_cb exec (pf_fd p) i b s = Ret tt s' /\ consistent s' /\ fds_grow s s' /\ expired now s' = expired now s.
Proof.
  intros Ht Hs Hp. destruct (ok_fd s (co_fds s Hs) i p Hp) as (f & Hf & Hi & He). unfold run_cb.
  rewrite (bind_Ret (pollfd_at i) _ s p s) by (unfold pollfd_at; by rewrite Hp).
  rewrite (bind_Ret (state_at _) _ s f s) by (unfold state_at; by rewrite Hf).
  destruct (if b then rcb f else wcb f) as [c|] eqn:Ec; [|by exists s; split_and!; [..|apply fds_grow_refl|]].
  destruct (any _ _); [|by exists s; split_and!; [..|apply fds_grow_refl|]].
  destruct (if b then roneshot f else woneshot f); cbn [when].
  2: { destruct (Ht c s Hs) as (s' & Hr & ? & ? & ?). exists s'. by rewrite (bind_Ret (mret tt) _ s tt s eq_refl). }
  set (f' := if b then mkFd None (wcb f) (idx f) (roneshot f) (woneshot f) else mkFd (rcb f) None (idx f) (roneshot f) (woneshot f)).
  set (p' := set_events (Z.ldiff (events p) (if b then POLLIN else POLLOUT)) p).
  destruct (consistent_fds s f (pf_fd p) f' p p' Hs Hf) as [Hs1 Hg1]; try done.
  { by rewrite Hi. } { by unfold f'; destruct b. }
  { unfold p', f', mask. cbn. rewrite He. unfold mask. destruct b; by destruct (rcb f), (wcb f). }
  rewrite Hi in Hs1, Hg1. rewrite bind_assoc. erewrite bind_Ret by reflexivity. erewrite bind_Ret by reflexivity.
  destruct (Ht c _ Hs1) as (s' & Hr & Hs' & Hg' & Ee'). exists s'. split; [exact Hr|]. split; [done|].
  split; [by eapply fds_grow_trans|done].
Qed.

Lemma poll_fds_ok now n i r s0 s : (forall c, tame now c) -> consistent s -> fds_grow s0 s ->
  (i + n <= length (pollfds_ s0))%nat -> Forall (fun p => any (revents p) POLLNVAL = false) (pollfds_ s0) ->
  exists s', poll_fds exec n i r s = Ret tt s' /\ consistent s' /\ fds_grow s0 s' /\ expired now s' = expired now s.
Proof.
  intros Ht. revert i r s. induction n as [|n IH]; intros i r s Hs Hg Hn Hv; [by exists s|]. cbn [poll_fds].
  destruct (negb (0 <? r)); [by exists s|].
  destruct (lookup_lt_is_Some_2 (pollfds_ s0) i) as [q Hq]; [lia|]. destruct (Hg i q Hq) as (p & Hp & Efd & Er).
  rewrite (bind_Ret (pollfd_at i) _ s p s) by (unfold pollfd_at; by rewrite Hp).
  destruct (ok_fd s (co_fds s Hs) i p Hp) as (f & Hf & _).
  rewrite (bind_Ret (state_at _) _ s f s) by (unfold state_at; by rewrite Hf).
  rewrite Er, (Forall_lookup_1 _ _ _ _ Hv Hq). erewrite bind_Ret by reflexivity.
  destruct (run_cb_ok now i p true s Ht Hs Hp) as (s1 & H1 & Hs1 & Hg1 & Ee1). rewrite (bind_Ret _ _ _ _ _ H1).
  destruct (Hg1 i p Hp) as (p1 & Hp1 & Efd1 & _). rewrite <-Efd1.
  destruct (run_cb_ok now i p1 false s1 Ht Hs1 Hp1) as (s2 & H2 & Hs2 & Hg2 & Ee2). rewrite (bind_Ret _ _ _ _ _ H2).
  destruct (IH (S i) (if revents q =? 0 then r else r - 1) s2) as (s' & H' & ? & ? & ?); [done| |lia|done|].
  { eapply fds_grow_trans; [exact Hg|]. by eapply fds_grow_trans. }
  exists s'. split_and!; try done. congruence.
Qed.

Lemma revents_ok rs s : consistent s -> length rs = length (pollfds_ s) ->
  consistent (set_fds (set_revents rs (pollfds_ s)) s).
Proof.
  intros [[H1 H2] Ht] Hl. split; [split|by destruct Ht].
  - intros i p. cbn. unfold set_revents. rewrite lookup_zip_with. destruct (pollfds_ s !! i) as [q|] eqn:Eq; [|done]. cbn.
    destruct (rs !! i) as [x|]; [|done]. cbn. intros [= <-]. exact (H1 i q Eq).
  - intros fd f Hf. destruct (H2 fd f Hf) as (p & Hp & Hfd). cbn. unfold set_revents. rewrite lookup_zip_with, Hp. cbn.
    apply lookup_lt_Some in Hp as Hlt. rewrite <-Hl in Hlt. destruct (lookup_lt_is_Some_2 rs _ Hlt) as [x ->]. by eexists.
Qed.

(** C16: a round of the event loop ends and leaves the set consistent, whatever
    descriptors are ready, when [poll] reports no descriptor that is not open
    ([POLLNVAL]) and every callback is [tame]: it returns, leaves the set
    consistent by whatever it adds and removes, and adds or cancels no timeout
    that is due.  Then no index is out of range, no assertion fails, no timeout
    that is due is left, and exactly the descriptors with a callback are kept. *)
Theorem poll_consistent fuel rs now s : (forall c, tame now c) -> consistent s -> length rs = length (pollfds_ s) ->
  Forall (fun r => any r POLLNVAL = false) rs -> (length (expired now s) <= fuel)%nat ->
  exists s', poll exec fuel (Ready rs) now s = Ret tt s' /\ consistent s' /\ expired now s' = [] /\
    forall fd, is_Some (state_ s' !! fd) <-> is_Some (cb_of s' fd true) \/ is_Some (cb_of s' fd false).
Proof.
  intros Ht Hs Hl Hv Hf. unfold poll. erewrite bind_Ret by reflexivity. set (s0 := set_fds _ s).
  assert (consistent s0) as Hs0 by by apply revents_ok.
  rewrite (bind_Ret (gets _) _ s0 _ s0 eq_refl).
  destruct (poll_fds_ok now (length (pollfds_ s0)) 0 (count_ready rs) s0 s0 Ht Hs0 (fds_grow_refl s0)) as (s1 & H1 & Hs1 & Hg1 & Ee1).
  { done. }
  { cbn. unfold set_revents. apply list.Forall_forall. intros p [i Hi]%list_elem_of_lookup.
    apply lookup_zip_with_Some in Hi as (q & r & -> & _ & Hr). cbn. by apply (Forall_lookup_1 _ _ _ _ Hv Hr). }
  rewrite (bind_Ret _ _ _ _ _ H1). unfold run_timeouts. rewrite bind_assoc. rewrite (bind_Ret (gets _) _ s1 _ s1 eq_refl).
  assert (expired now s1 = expired now s) as Ee by (by rewrite Ee1).
  destruct (timeout_loop_run now (expired now s1) fuel s1) as (s2 & H2 & Hs2 & Hg2 & Ee2 & _); [|done|done|by rewrite Ee|].
  { apply list.Forall_forall. intros x _. apply Ht. }
  rewrite (bind_Ret _ _ _ _ _ H2). destruct (consolidate_ok s2 (co_fds s2 Hs2)) as (s3 & H3 & Hs3 & [(Et & En & Eu) Hcb] & Hb).
  exists s3. split; [exact H3|]. split; [|split].
  - split; [done|]. destruct (co_timers s2 Hs2) as [A B C]. split; [by rewrite Et..|]. intros x. rewrite Et, En. apply C.
  - unfold expired. by rewrite Et.
  - intros fd. unfold cb_of. destruct (state_ s3 !! fd) as [f|] eqn:Ef; cbn; [|by split; [intros [??]|intros [[??]|[??]]]].
    split; [intros _|by eexists]. destruct (ok_state s3 Hs3 fd f Ef) as (p & Hp & Hfd). destruct (ok_fd s3 Hs3 _ p Hp) as (g & Hg & _ & He).
    rewrite Hfd in Hg. assert (g = f) as -> by congruence. pose proof (Hb p (list_elem_of_lookup_2 _ _ _ Hp)) as Hne.
    rewrite He in Hne. unfold mask in Hne. destruct (rcb f); [left; by eexists|]. destruct (wcb f); [right; by eexists|done].
Qed.
End run.

(** ** What a round runs *)

(** Whether [revents] calls for the read or the write callback. *)
Definition fires (r : Z) (is_read : bool) : bool := any r (Z.lor (if is_read then POLLIN else POLLOUT) (Z.lor POLLHUP POLLERR)).
Definition option_list {A} (o : option A) : list A := match o with Some a => [a] | None => [] end.

Section local.
Context {U : Type} (act : Z -> U -> U).
Implicit Types s : Pollset U.

(** Callbacks that leave the set alone. *)
Definition local_exec (c : Z) : M (Pollset U) unit := modify (fun s => set_user (act c (user s)) s).
Definition acts (l : list Z) (u : U) : U := fold_left (fun u c => act c u) l u.

Definition oneshot s (fd : Z) (is_read : bool) : bool :=
  match state_ s !! fd with Some f => if is_read then roneshot f else woneshot f | None => false end.

(** The callbacks of one descriptor, reading first. *)
Definition cb_calls s (p : pollfd) (is_read : bool) : list Z :=
  if fires (revents p) is_read then option_list (cb_of s (pf_fd p) is_read) else [].
Definition calls s (p : pollfd) : list Z := cb_calls s p true ++ cb_calls s p false.
Definition fired (l : list pollfd) (fd : Z) (is_read : bool) : bool :=
  existsb (fun p => (pf_fd p =? fd) && fires (revents p) is_read) l.

Lemma acts_app l1 l2 u : acts (l1 ++ l2) u = acts l2 (acts l1 u).
Proof. apply fold_left_app. Qed.

Definition same_timers s s' : Prop := time_cbs_ s' = time_cbs_ s /\ next_node s' = next_node s.

Lemma run_cb_local i p b s : ps_ok s -> pollfds_ s !! i = Some p ->
  exists s', run_cb local_exec (pf_fd p) i b s = Ret tt s' /\ ps_ok s' /\ fds_grow s s' /\ same_timers s s' /\
    user s' = acts (cb_calls s p b) (user s) /\
    (forall fd b', oneshot s' fd b' = oneshot s fd b') /\
    forall fd b', cb_of s' fd b' =
      if bool_decide (fd = pf_fd p) && Bool.eqb b' b && fires (revents p) b && oneshot s fd b then None else cb_of s fd b'.
Proof.
  intros Hs Hp. destruct (ok_fd s Hs i p Hp) as (f & Hf & Hi & He). unfold run_cb, cb_calls, fires.
  rewrite (bind_Ret (pollfd_at i) _ s p s) by (unfold pollfd_at; by rewrite Hp).
  rewrite (bind_Ret (state_at _) _ s f s) by (unfold state_at; by rewrite Hf).
  set (fire := any _ _). assert (cb_of s (pf_fd p) b = if b then rcb f else wcb f) as Ec by (unfold cb_of; rewrite Hf; by destruct b).
  assert (oneshot s (pf_fd p) b = if b then roneshot f else woneshot f) as Eo by (unfold oneshot; by rewrite Hf).
  rewrite Ec. destruct (if b then rcb f else wcb f) as [c|] eqn:Er; cbn [option_list].
  2: { exists s. split_and!; try done; [apply fds_grow_refl|by destruct fire|]. intros fd b'.
       destruct (bool_decide_reflect (fd = pf_fd p)) as [->|]; [|done]. destruct (Bool.eqb b' b) eqn:Eb; [|done].
       apply eqb_prop in Eb as ->. rewrite Ec. by destruct (_ && _). }
  destruct fire.
  2: { exists s. split_and!; try done; [apply fds_grow_refl|]. intros fd b'. by rewrite andb_false_r. }
  destruct (if b then roneshot f else woneshot f) eqn:Es; cbn [when].
  2: { eexists. split; [reflexivity|]. split_and!; try done; [by destruct Hs|..].
       - intros j q Hq. by exists q.
       - intros fd b'. destruct (bool_decide_reflect (fd = pf_fd p)) as [->|]; [|done]. by rewrite Eo, !andb_false_r. }
  set (f' := if b then mkFd None (wcb f) (idx f) (roneshot f) (woneshot f) else mkFd (rcb f) None (idx f) (roneshot f) (woneshot f)).
  set (p' := set_events (Z.ldiff (events p) (if b then POLLIN else POLLOUT)) p).
  destruct (ok_update (pf_fd p) f f' p p' s Hs Hf) as [Hs1 Hg1]; try done.
  { by rewrite Hi. } { by unfold f'; destruct b. }
  { unfold p', f', mask. cbn. rewrite He. unfold mask. destruct b; by destruct (rcb f), (wcb f). }
  rewrite Hi in Hs1, Hg1. rewrite bind_assoc. erewrite bind_Ret by reflexivity. erewrite bind_Ret by reflexivity.
  eexists. split; [reflexivity|]. split_and!; try done.
  - by destruct Hs1.
  - intros fd b'. unfold oneshot. cbn. rewrite lookup_insert. case_decide as Hd; [|done]. subst fd. rewrite Hf.
    unfold f'. by destruct b, b'.
  - intros fd b'. unfold cb_of. cbn. rewrite lookup_insert. destruct (decide (pf_fd p = fd)) as [<-|Hd].
    + rewrite bool_decide_true, Eo by done. rewrite Hf. unfold f'. by destruct b, b'.
    + by rewrite bool_decide_false by congruence.
Qed.

Lemma any_zero x : any 0 x = false.
Proof. done. Qed.

(** The state when the first [i] descriptors were looked at. *)
Definition looked (i : nat) s0 s : Prop := ps_ok s /\ fds_grow s0 s /\ same_timers s0 s /\
  user s = acts (concat (calls s0 <$> take i (pollfds_ s0))) (user s0) /\
  (forall fd b, oneshot s fd b = oneshot s0 fd b) /\
  forall fd b, cb_of s fd b = if fired (take i (pollfds_ s0)) fd b && oneshot s0 fd b then None else cb_of s0 fd b.

Lemma fired_later s0 i q fd b : ps_ok s0 -> pollfds_ s0 !! i = Some q -> fd = pf_fd q -> fired (take i (pollfds_ s0)) fd b = false.
Proof.
  intros Hs Hq ->. unfold fired. apply not_true_iff_false. intros (p & Hp & Hb)%existsb_exists.
  apply list_elem_of_In, list_elem_of_lookup in Hp as [j Hj]. rewrite lookup_take in Hj. case_decide; [|done].
  apply andb_true_iff in Hb as [Hb%Z.eqb_eq _]. pose proof (positions s0 j i p q Hs Hj Hq Hb). lia.
Qed.

Lemma look_at i q s0 s : ps_ok s0 -> looked i s0 s -> pollfds_ s0 !! i = Some q ->
  exists s', (run_cb local_exec (pf_fd q) i true ;; run_cb local_exec (pf_fd q) i false) s = Ret tt s' /\ looked (S i) s0 s'.
Proof.
  intros Hs0 (Hs & Hg & [Ht Hn] & Hu & Ho & Hc) Hq. destruct (Hg i q Hq) as (p & Hp & Efd & Er). rewrite <-Efd.
  destruct (run_cb_local i p true s Hs Hp) as (s1 & H1 & Hs1 & Hg1 & [Ht1 Hn1] & Hu1 & Ho1 & Hc1). rewrite (bind_Ret _ _ _ _ _ H1).
  destruct (Hg1 i p Hp) as (p1 & Hp1 & Efd1 & Er1). rewrite <-Efd1.
  destruct (run_cb_local i p1 false s1 Hs1 Hp1) as (s2 & H2 & Hs2 & Hg2 & [Ht2 Hn2] & Hu2 & Ho2 & Hc2).
  exists s2. split; [exact H2|]. rewrite Efd1, Efd, Er1, Er in *.
  assert (forall b, cb_of s (pf_fd q) b = cb_of s0 (pf_fd q) b) as Eq.
  { intros b. rewrite Hc. by rewrite (fired_later s0 i q _ b Hs0 Hq eq_refl). }
  assert (cb_of s1 (pf_fd q) false = cb_of s0 (pf_fd q) false) as Eq1.
  { rewrite Hc1, <-(Eq false). cbn [Bool.eqb]. by rewrite andb_false_r. }
  unfold looked. rewrite (take_S_r _ _ _ Hq). split_and!; try done; try congruence.
  - eapply fds_grow_trans; [exact Hg|]. by eapply fds_grow_trans.
  - by split; congruence.
  - rewrite Hu2, Hu1, Hu, fmap_app, concat_app. cbn. rewrite app_nil_r. unfold calls. rewrite !acts_app.
    unfold cb_calls. by rewrite Efd1, Efd, Er1, Er, Eq1, Eq.
  - intros fd b. rewrite Hc2, Hc1, Hc, Ho1, !Ho. unfold fired. rewrite existsb_app. cbn. rewrite orb_false_r.
    destruct (bool_decide_reflect (fd = pf_fd q)) as [->|Hne].
    + rewrite Z.eqb_refl. pose proof (fired_later s0 i q _ b Hs0 Hq eq_refl) as Hfl. unfold fired in Hfl. rewrite Hfl.
      destruct b; cbn; destruct (fires (revents q) _), (oneshot s0 (pf_fd q) _); cbn; done.
    + destruct (Z.eqb_spec (pf_fd q) fd); [congruence|]. cbn. by rewrite orb_false_r.
Qed.

Lemma count_ready_nonneg rs : 0 <= count_ready rs.
Proof. unfold count_ready. lia. Qed.
Lemma count_ready_cons r rs : count_ready (r :: rs) = count_ready rs + if r =? 0 then 0 else 1.
Proof.
  unfold count_ready. rewrite filter_cons. destruct (Z.eqb_spec r 0) as [->|].
  - rewrite decide_False by auto. lia.
  - rewrite decide_True by done. cbn [length]. lia.
Qed.
Lemma count_ready_zero rs : count_ready rs = 0 -> Forall (fun r => r = 0) rs.
Proof.
  induction rs as [|r rs IH]; intros H0; [constructor|]. rewrite count_ready_cons in H0.
  pose proof (count_ready_nonneg rs). destruct (Z.eqb_spec r 0); [|lia]. constructor; [done|]. apply IH. lia.
Qed.

(** Nothing is left to do. *)
Lemma looked_rest i s0 s : looked i s0 s -> Forall (fun p => revents p = 0) (drop i (pollfds_ s0)) ->
  looked (length (pollfds_ s0)) s0 s.
Proof.
  intros (Hs & Hg & Ht & Hu & Ho & Hc) Hz. rewrite list.Forall_forall in Hz.
  assert (forall p b, p ∈ drop i (pollfds_ s0) -> fires (revents p) b = false) as Hf.
  { intros p b Hp. unfold fires. by rewrite (Hz p Hp), any_zero. }
  assert (concat (calls s0 <$> drop i (pollfds_ s0)) = []) as Hcalls.
  { clear -Hf. induction (drop i (pollfds_ s0)) as [|p l IH]; [done|]. cbn. unfold calls, cb_calls at 1 2.
    rewrite !Hf by left. cbn. apply IH. intros q b Hq. apply Hf. by right. }
  assert (forall fd b, fired (drop i (pollfds_ s0)) fd b = false) as Hfd.
  { intros fd b. unfold fired. apply not_true_iff_false. intros (p & Hp & Hb)%existsb_exists.
    apply list_elem_of_In in Hp. by rewrite (Hf p b Hp), andb_false_r in Hb. }
  unfold looked. rewrite take_ge by done. rewrite <-(take_drop i (pollfds_ s0)). split_and!; try done.
  - rewrite fmap_app, concat_app, Hcalls, app_nil_r. exact Hu.
  - intros fd b. unfold fired. rewrite existsb_app. specialize (Hfd fd b). unfold fired in Hfd. rewrite Hfd, orb_false_r. apply Hc.
Qed.

Lemma poll_fds_local n i s0 s : ps_ok s0 -> looked i s0 s -> (i + n)%nat = length (pollfds_ s0) ->
  Forall (fun p => any (revents p) POLLNVAL = false) (pollfds_ s0) ->
  exists s', poll_fds local_exec n i (count_ready (revents <$> drop i (pollfds_ s0))) s = Ret tt s' /\
    looked (length (pollfds_ s0)) s0 s'.
Proof.
  intros Hs0. revert i s. induction n as [|n IH]; intros i s Hl Hn Hv.
  { exists s. split; [done|]. by replace (length (pollfds_ s0)) with i by lia. }
  cbn [poll_fds]. destruct (Z.ltb_spec 0 (count_ready (revents <$> drop i (pollfds_ s0)))) as [Hr|Hr]; cbn [negb].
  2: { exists s. split; [done|]. apply (looked_rest i); [done|].
       pose proof (count_ready_nonneg (revents <$> drop i (pollfds_ s0))).
       assert (Forall (fun r => r = 0) (revents <$> drop i (pollfds_ s0))) as Hz by (apply count_ready_zero; lia).
       rewrite Forall_fmap in Hz. exact Hz. }
  destruct (lookup_lt_is_Some_2 (pollfds_ s0) i) as [q Hq]; [lia|]. rewrite (drop_S _ _ _ Hq), fmap_cons, count_ready_cons.
  destruct Hl as (Hs & Hg & Hrest). destruct (Hg i q Hq) as (p & Hp & Efd & Er).
  rewrite (bind_Ret (pollfd_at i) _ s p s) by (unfold pollfd_at; by rewrite Hp).
  destruct (ok_fd s Hs i p Hp) as (f & Hf & _).
  rewrite (bind_Ret (state_at _) _ s f s) by (unfold state_at; by rewrite Hf).
  rewrite Er, (Forall_lookup_1 _ _ _ _ Hv Hq). erewrite bind_Ret by reflexivity. rewrite Efd.
  destruct (look_at i q s0 s Hs0 (conj Hs (conj Hg Hrest)) Hq) as (s1 & H1 & Hl1). rewrite <-bind_assoc.
  rewrite (bind_Ret _ _ _ _ _ H1).
  replace (if revents q =? 0 then _ else _) with (count_ready (revents <$> drop (S i) (pollfds_ s0))) by (destruct (_ =? 0); lia).
  apply IH; [done|lia|done].
Qed.

Lemma local_tame now c : tame local_exec now c.
Proof.
  intros s [Hs Ht]. eexists. split; [reflexivity|]. split_and!; [split; [by destruct Hs|by destruct Ht]| |done].
  intros i p Hp. by exists p.
Qed.

(** The timeouts that are not due stay. *)
Lemma erase_later now t l : (forall y, y ∈ l -> node y = t -> due y <= now) ->
  filter (fun y => now < due y) (erase_timer t l) = filter (fun y => now < due y) l.
Proof.
  intros Hl. unfold erase_timer. induction l as [|y l IH]; [done|]. rewrite !filter_cons.
  assert (filter (fun y => now < due y) (filter (fun x => node x <> t) l) = filter (fun y => now < due y) l) as E.
  { apply IH. intros z Hz. apply Hl. by right. }
  destruct (decide (node y = t)) as [Ht|Ht].
  - rewrite decide_False by auto. assert (due y <= now) by (apply Hl; [left|done]). by rewrite (decide_False (P := now < due y)) by lia.
  - rewrite decide_True by done. rewrite filter_cons. by rewrite E.
Qed.

Lemma run_timers_local now l s s' :
  for_each l (fun x => local_exec (tcb x) ;; modify (fun s => set_timers (erase_timer (node x) (time_cbs_ s)) s)) s = Ret tt s' ->
  (forall y, y ∈ time_cbs_ s -> node y ∈ (node <$> l) -> due y <= now) ->
  user s' = acts (tcb <$> l) (user s) /\ pollfds_ s' = pollfds_ s /\ state_ s' = state_ s /\
  filter (fun y => now < due y) (time_cbs_ s') = filter (fun y => now < due y) (time_cbs_ s).
Proof.
  revert s. induction l as [|x l IH]; intros s; cbn [for_each]; [by intros [= <-] _|].
  rewrite bind_assoc. erewrite bind_Ret by reflexivity. erewrite bind_Ret by reflexivity.
  intros Hr Hd. apply IH in Hr as (Hu & Hp & Hst & Ht).
  - split_and!; [exact Hu|exact Hp|exact Hst|]. rewrite Ht. apply erase_later. intros y Hy E. apply Hd; [done|].
    rewrite fmap_cons, E. left.
  - cbn. intros y [_ Hy]%list_elem_of_filter Hn. apply Hd; [done|]. rewrite fmap_cons. by right.
Qed.

(** C17: when callbacks do not change the set ([local_exec]) and [poll] reports no
    descriptor that is not open, a round runs the callbacks of the ready
    descriptors, reading before writing, and then those of the timeouts that are
    due, in the order of their times, each once and nothing else.  One-shot
    callbacks that ran and timeouts that ran are gone, everything else stays. *)
Theorem poll_runs_ready fuel rs now s : consistent s -> length rs = length (pollfds_ s) ->
  Forall (fun r => any r POLLNVAL = false) rs -> (length (expired now s) <= fuel)%nat ->
  let s0 := set_fds (set_revents rs (pollfds_ s)) s in
  exists s', poll local_exec fuel (Ready rs) now s = Ret tt s' /\
    user s' = acts (concat (calls s0 <$> pollfds_ s0) ++ (tcb <$> expired now s)) (user s) /\
    time_cbs_ s' = filter (fun x => now < due x) (time_cbs_ s) /\
    forall fd b, cb_of s' fd b = if fired (pollfds_ s0) fd b && oneshot s fd b then None else cb_of s fd b.
Proof.
  intros Hs Hl Hv Hf s0. unfold poll. erewrite bind_Ret by reflexivity. fold s0.
  assert (consistent s0) as Hs0 by by apply revents_ok.
  rewrite (bind_Ret (gets _) _ s0 _ s0 eq_refl).
  assert (revents <$> pollfds_ s0 = rs) as Er.
  { cbn. unfold set_revents. clear -Hl. revert Hl. generalize (pollfds_ s). induction rs as [|r rs IH]; intros [|p l]; try done.
    cbn. intros [= E]. f_equal. by apply IH. }
  assert (looked 0 s0 s0) as Hl0.
  { split_and!; [apply Hs0|apply fds_grow_refl|done..]. }
  assert (Forall (fun p => any (revents p) POLLNVAL = false) (pollfds_ s0)) as Hv0.
  { rewrite <-Er in Hv. rewrite Forall_fmap in Hv. exact Hv. }
  destruct (poll_fds_local (length (pollfds_ s0)) 0 s0 s0 (co_fds s0 Hs0) Hl0 eq_refl Hv0) as (s1 & H1 & Hlooked).
  rewrite drop_0, Er in H1. rewrite (bind_Ret _ _ _ _ _ H1). unfold run_timeouts. rewrite bind_assoc.
  rewrite (bind_Ret (gets _) _ s1 _ s1 eq_refl). destruct Hlooked as (Hs1 & _ & [Ht1 Hn1] & Hu1 & _ & Hc1).
  rewrite take_ge in Hu1, Hc1 by done.
  assert (consistent s1) as Hco1.
  { split; [done|]. destruct (co_timers s0 Hs0) as [A B C]. split; [by rewrite Ht1..|]. intros x. rewrite Ht1, Hn1. apply C. }
  assert (expired now s1 = expired now s) as Ee by (unfold expired; by rewrite Ht1).
  destruct (timeout_loop_run local_exec now (expired now s1) fuel s1) as (s2 & H2 & Hs2 & _ & Ee2 & Hfor); [|done|done|by rewrite Ee|].
  { apply list.Forall_forall. intros x _. apply local_tame. }
  rewrite (bind_Ret _ _ _ _ _ H2). destruct (consolidate_ok s2 (co_fds s2 Hs2)) as (s3 & H3 & Hs3 & [(Et & En & Eu) Hcb] & _).
  destruct (run_timers_local now _ _ _ Hfor) as (Hu2 & Hp2 & Hst2 & Htm2).
  { intros y Hy (x & E & Hx)%list_elem_of_fmap. apply list_elem_of_filter in Hx as [Hd Hx].
    assert (y = x) as ->; [|done]. pose proof (tm_nodup s1 (co_timers s1 Hco1)) as Hnd.
    apply list_elem_of_lookup in Hx as [i Hi], Hy as [j Hj].
    assert (j = i) as ->; [|congruence]. eapply NoDup_lookup; [exact Hnd|..]; rewrite list_lookup_fmap.
    - rewrite Hj. cbn. by rewrite E.
    - by rewrite Hi. }
  exists s3. split_and!; [exact H3|..].
  - rewrite Eu, Hu2, Hu1, Ee, acts_app. done.
  - rewrite Et, (sorted_split now _ (tm_sorted s2 (co_timers s2 Hs2))). unfold expired in Ee2. rewrite Ee2. cbn [Datatypes.app].
    by rewrite Htm2, Ht1.
  - intros fd b. rewrite Hcb. unfold cb_of at 1. rewrite Hst2. exact (Hc1 fd b).
Qed.
End local.

(** ** How long a round waits *)

(** C20: [poll] sleeps for at most the time it was given, never past the first
    timeout, not at all when one is due, and no less than it could: until the
    time it was given, the largest [int] or a timeout. *)
Theorem next_timeout_spec {U} ms now (s : Pollset U) : timers_ok s -> ms <= INT_MAX ->
  let t := next_timeout ms now s in
  t <= INT_MAX /\ (0 <= ms -> 0 <= t <= ms) /\
  (forall x, x ∈ time_cbs_ s -> 0 <= t /\ (due x <= now -> t = 0) /\ (now < due x -> now + t <= due x)) /\
  (t = ms \/ t = INT_MAX \/ exists x, x ∈ time_cbs_ s /\ due x <= now + t).
Proof.
  intros [Hs _ _] Hm t. unfold t, next_timeout. destruct (time_cbs_ s) as [|x l].
  { split_and!; [done|lia| |by left]. by intros x ?%elem_of_nil. }
  assert (forall y, y ∈ x :: l -> due x <= due y) as Hx.
  { inversion_clear Hs as [|? ? _ Hf]. intros y [->|Hy]%elem_of_cons; [done|]. by apply (proj1 (list.Forall_forall _ _) Hf). }
  unfold INT_MAX in *. destruct (Z.leb_spec (due x) now).
  - split_and!; [lia|lia| |right; right; exists x; split; [left|lia]]. intros y Hy. specialize (Hx y Hy). lia.
  - destruct (Z.ltb_spec (2 ^ 31 - 1) (due x - now)); destruct (Z.leb_spec 0 ms); cbn [andb];
      [destruct (Z.leb_spec ms (2 ^ 31 - 1))| |destruct (Z.leb_spec ms (due x - now))|];
      (split_and!; [lia|lia|intros y Hy; specialize (Hx y Hy); lia|]); try (by left); try (right; left; lia);
      right; right; exists x; (split; [left|lia]).
Qed.

(** ** A set with three descriptors and three timeouts *)

Section operations.
Context {U : Type}.
Implicit Types s : Pollset U.

Lemma consistent_same s s' : ps_ok s' -> only_fds s s' -> consistent s ->
  consistent s' /\ forall now, expired now s' = expired now s.
Proof.
  intros Hs (Et & En & _) [_ [A B C]]. split; [split; [done|split]|]; rewrite ?Et, ?En; try done.
  intros now. unfold expired. by rewrite Et.
Qed.
Lemma fd_cb_consistent fd op cb s : legal op -> consistent s -> exists s', fd_cb fd op cb s = Ret tt s' /\
  consistent s' /\ fds_grow s s' /\ forall now, expired now s' = expired now s.
Proof.
  intros Hop Hs. destruct (fd_cb_ok fd op cb s Hop (co_fds s Hs)) as (s' & Hr & Hs' & Hg & Ho & _).
  destruct (consistent_same s s' Hs' Ho Hs) as [? ?]. by exists s'.
Qed.
Lemma remove_consistent fd op s : consistent s -> exists s', fd_cb_remove fd op s = Ret tt s' /\
  consistent s' /\ fds_grow s s' /\ forall now, expired now s' = expired now s.
Proof.
  intros Hs. destruct (remove_ok fd op s (co_fds s Hs)) as (s' & Hr & Hs' & Hg & Ho & _).
  destruct (consistent_same s s' Hs' Ho Hs) as [? ?]. by exists s'.
Qed.
Lemma timeout_at_consistent ms c s : consistent s -> exists s', (timeout_at ms c ;; mret tt) s = Ret tt s' /\
  consistent s' /\ fds_grow s s' /\ forall now, now < ms -> expired now s' = expired now s.
Proof.
  intros Hs. destruct (timeout_at_ok ms c s (co_timers s Hs)) as (s' & Hr & Ht & _ & He & Ep & Es & _).
  exists s'. rewrite (bind_Ret _ _ _ _ _ Hr). split_and!; try done.
  - split; [|done]. destruct (co_fds s Hs) as [A B]. split; [intros i p|intros fd f]; rewrite ?Ep, ?Es; [apply A|apply B].
  - intros i p. rewrite Ep. intros Hp. by exists p.
Qed.
End operations.

Definition empty_set : Pollset (list Z) := mkPs [] ∅ [] 0 [].
Definition fill_set : M (Pollset (list Z)) unit :=
  fd_cb 5 Read (Some 1) ;; fd_cb 7 WriteOnce (Some 2) ;; fd_cb 9 Read (Some 3) ;;
  (timeout_at 100 10 ;; mret tt) ;; (timeout_at 50 11 ;; mret tt) ;; (timeout_at 300 12 ;; mret tt).

Lemma empty_consistent : consistent empty_set.
Proof.
  split; split; cbn; try done; try constructor; intros *; rewrite ?lookup_empty; try done. by intros ?%elem_of_nil.
Qed.

(** The set with these callbacks. *)
Lemma filled_set : exists s, fill_set empty_set = Ret tt s /\ consistent s.
Proof.
  unfold fill_set.
  destruct (fd_cb_consistent 5 Read (Some 1) _ eq_refl empty_consistent) as (s1 & H1 & C1 & _). rewrite (bind_Ret _ _ _ _ _ H1).
  destruct (fd_cb_consistent 7 WriteOnce (Some 2) _ eq_refl C1) as (s2 & H2 & C2 & _). rewrite (bind_Ret _ _ _ _ _ H2).
  destruct (fd_cb_consistent 9 Read (Some 3) _ eq_refl C2) as (s3 & H3 & C3 & _). rewrite (bind_Ret _ _ _ _ _ H3).
  destruct (timeout_at_consistent 100 10 _ C3) as (s4 & H4 & C4 & _). rewrite (bind_Ret _ _ _ _ _ H4).
  destruct (timeout_at_consistent 50 11 _ C4) as (s5 & H5 & C5 & _). rewrite (bind_Ret _ _ _ _ _ H5).
  destruct (timeout_at_consistent 300 12 _ C5) as (s6 & H6 & C6 & _). by exists s6.
Qed.

Definition sample_set : Pollset (list Z) := match fill_set empty_set with Ret _ s => s | _ => empty_set end.
Lemma sample_consistent : consistent sample_set.
Proof. unfold sample_set. by destruct filled_set as (s & -> & ?). Qed.

Definition noting (c : Z) (l : list Z) : list Z := l ++ [c].
Lemma poll_runs_ready_witness : exists s',
  poll (local_exec noting) 2 (Ready [POLLIN; POLLOUT; 0]) 200 sample_set = Ret tt s' /\
  user s' = [1; 2; 11; 10] /\ due <$> time_cbs_ s' = [300] /\
  cb_of s' 5 true = Some 1 /\ cb_of s' 7 false = None /\ cb_of s' 9 true = Some 3.
Proof.
  destruct (poll_runs_ready noting 2 [POLLIN; POLLOUT; 0] 200 sample_set sample_consistent) as (s' & Hr & Hu & Ht & Hc).
  - vm_compute. reflexivity.
  - repeat constructor.
  - apply Nat.leb_le. vm_compute. reflexivity.
  - exists s'. split; [exact Hr|]. rewrite Hu, Ht, !Hc. vm_compute. done.
Defined.

(** Callbacks that use the set: the first drops a descriptor that is to come,
    the second adds one, the others set a timeout. *)
Definition busy (c : Z) : M (Pollset (list Z)) unit :=
  if c =? 1 then fd_cb_remove 9 Read else if c =? 2 then fd_cb 11 Read (Some 4) else (timeout_at 1000 c ;; mret tt).
Lemma busy_tame c : tame busy 200 c.
Proof.
  intros s Hs. unfold busy. destruct (c =? 1).
  { destruct (remove_consistent 9 Read s Hs) as (s' & ? & ? & ? & ?). by exists s'. }
  destruct (c =? 2).
  { destruct (fd_cb_consistent 11 Read (Some 4) s eq_refl Hs) as (s' & ? & ? & ? & ?). by exists s'. }
  destruct (timeout_at_consistent 1000 c s Hs) as (s' & ? & ? & ? & He). exists s'. split_and!; try done. by apply He.
Qed.

Lemma poll_consistent_witness : exists s', poll busy 2 (Ready [POLLIN; POLLOUT; POLLIN]) 200 sample_set = Ret tt s' /\
  consistent s' /\ expired 200 s' = [].
Proof.
  destruct (poll_consistent busy 2 [POLLIN; POLLOUT; POLLIN] 200 sample_set busy_tame sample_consistent) as (s' & Hr & Hs' & He & _).
  - vm_compute. reflexivity.
  - repeat constructor.
  - apply Nat.leb_le. vm_compute. reflexivity.
  - exists s'. exact (conj Hr (conj Hs' He)).
Defined.

Lemma next_timeout_spec_witness : next_timeout (-1) 40 sample_set <= INT_MAX /\
  (forall x, x ∈ time_cbs_ sample_set -> 40 < due x -> 40 + next_timeout (-1) 40 sample_set <= due x).
Proof.
  destruct (next_timeout_spec (-1) 40 sample_set (co_timers _ sample_consistent)) as (H1 & _ & H2 & _); [done|].
  split; [exact H1|]. intros x Hx. apply (H2 x Hx).
Defined.

(** A timeout that cancels itself while it runs is erased twice. *)
Definition self_cancelling (c : Z) : M (Pollset (list Z)) unit := timeout_cancel (Some c) ;; mret tt.
Lemma self_cancel_erases_twice : exists s, timeout_at 10 0 empty_set = Ret 0 s /\
  poll self_cancelling 5 (Ready []) 10 s = Abort.
Proof. eexists. split; [reflexivity|]. vm_compute. reflexivity. Qed.
