(* ===== verification/Wakeups.v ===== *)
(** * Callbacks from other threads: [pollset_plus]

    Threads inject callbacks into a [pollset_plus] whose own thread may sleep in
    [poll]; a byte in a pipe wakes it.  The steps of the threads are interleaved
    as the lock [async_cbs_lock_] allows, and a callback is a name.  A callback may
    throw: the exception leaves [poll], and [Polling] is then the next call of
    [poll] of a caller that survives it.  When callbacks are left behind the one
    that throws, [inject_cb_vec] moves them behind the end of a vector, which has
    no defined outcome. *)

From S2P Require Import Prelude.

(** Where the thread of the set is: in [poll], behind the loop that empties the
    pipe, in the loop over the callbacks it took, or in [inject_cb_vec] with
    callbacks to put back. *)
Inductive place := Polling | Drained | Running (cbs : list Z) | Undefined (cbs : list Z).

(** The members of [pollset_plus] used for injected callbacks, the number of
    bytes in the pipe, which holds at most [room], and what was injected and
    what was run so far. *)
Record Plus := mkPlus {
  pipe : nat;
  async_cbs_ : list Z;
  async_pending_ : bool;
  at_ : place;
  injected : list Z;
  ran : list Z;
}.

Section wakeups.
Context (room : nat).
(** The callbacks that throw. *)
Context (throws : Z -> bool).

(** [wake()]; the pipe does not block, and a byte that does not fit is lost. *)
Definition wake (n : nat) : nat := if (n <? room)%nat then S n else n.

(** [inject_cb(cb)], inside the lock. *)
Definition inject_cb (cb : Z) (s : Plus) : Plus :=
  mkPlus (if async_pending_ s then pipe s else wake (pipe s)) (async_cbs_ s ++ [cb]) true (at_ s)
    (injected s ++ [cb]) (ran s).

(** [run_pending_asyncs]: the loop over [read], which ends when the pipe is
    empty, ... *)
Definition drain (s : Plus) : Plus := mkPlus 0 (async_cbs_ s) (async_pending_ s) Drained (injected s) (ran s).
(** ... the section inside the lock, ... *)
Definition take_cbs (s : Plus) : Plus := mkPlus (pipe s) [] false (Running (async_cbs_ s)) (injected s) (ran s).
(** ... and the loop over the callbacks.  When one throws, [~cleanup] calls
    [inject_cb_vec(i+1, cbs.end())]: nothing happens there when no callback is
    left; else [std::move(b, e, async_cbs_.end())] writes outside the vector. *)
Definition inject_cb_vec (cbs : list Z) : place :=
  match cbs with [] => Polling | _ => Undefined cbs end.
Definition run_one (cb : Z) (cbs : list Z) (s : Plus) : Plus :=
  mkPlus (pipe s) (async_cbs_ s) (async_pending_ s) (if throws cb then inject_cb_vec cbs else Running cbs)
    (injected s) (ran s ++ [cb]).
Definition back_to_poll (s : Plus) : Plus :=
  mkPlus (pipe s) (async_cbs_ s) (async_pending_ s) Polling (injected s) (ran s).

(** A step of the thread of the set; [poll] returns when a byte is in the pipe. *)
Definition own_step (s : Plus) : option Plus :=
  match at_ s with
  | Polling => if (pipe s =? 0)%nat then None else Some (drain s)
  | Drained => Some (take_cbs s)
  | Running [] => Some (back_to_poll s)
  | Running (cb :: cbs) => Some (run_one cb cbs s)
  | Undefined _ => None
  end.

Inductive step : Plus -> Plus -> Prop :=
| step_inject cb s : step s (inject_cb cb s)
| step_own s s' : own_step s = Some s' -> step s s'.

Definition new_plus : Plus := mkPlus 0 [] false Polling [] [].

Inductive reach : Plus -> Prop :=
| reach_start : reach new_plus
| reach_next s s' : reach s -> step s s' -> reach s'.

Definition taken (s : Plus) : list Z := match at_ s with Running cbs | Undefined cbs => cbs | _ => [] end.

(** The thread of the set is lost: a callback has thrown before others. *)
Definition misplaced (s : Plus) : Prop :=
  exists cbs l cb, at_ s = Undefined cbs /\ cbs <> [] /\ ran s = l ++ [cb] /\ throws cb = true.

(** The callbacks in order; a callback that waits is announced. *)
Record wake_inv (s : Plus) : Prop := {
  wi_order : injected s = ran s ++ taken s ++ async_cbs_ s;
  wi_pending : async_pending_ s = false -> async_cbs_ s = [];
  wi_awake : async_pending_ s = true -> pipe s <> 0%nat \/ at_ s = Drained;
  wi_misplaced cbs : at_ s = Undefined cbs -> misplaced s;
}.

Lemma wake_nonzero n : (0 < room)%nat -> wake n <> 0%nat.
Proof. unfold wake. destruct (Nat.ltb_spec n room); lia. Qed.

Lemma inject_inv cb s : (0 < room)%nat -> wake_inv s -> wake_inv (inject_cb cb s).
Proof.
  intros Hroom [H1 H2 H3 H4]. split; cbn; [by rewrite H1, !app_assoc|done| |done].
  intros _. destruct (async_pending_ s); [by apply H3|]. left. by apply wake_nonzero.
Qed.

Lemma run_one_inv cb cbs s : at_ s = Running (cb :: cbs) -> wake_inv s -> wake_inv (run_one cb cbs s).
Proof.
  intros Ha [H1 H2 H3 _]. unfold taken in H1. rewrite Ha in H1, H3. unfold run_one. destruct (throws cb) eqn:Et, cbs as [|c cbs].
  all: split; cbn; try done; try (by rewrite H1, <-app_assoc); try (intros Hp; left; by destruct (H3 Hp)).
  intros ? [= <-]. by exists (c :: cbs), (ran s), cb.
Qed.

Lemma step_inv s s' : (0 < room)%nat -> wake_inv s -> step s s' -> wake_inv s'.
Proof.
  intros Hroom Hs Hst. inversion Hst as [cb|? ? Hown]; subst; [by apply inject_inv|].
  unfold own_step in Hown. destruct (at_ s) as [| |[|cb cbs]|] eqn:Ha; [..|done].
  4: injection Hown as <-; by apply run_one_inv.
  all: destruct Hs as [H1 H2 H3 H4]; unfold taken in H1; rewrite Ha in H1, H3; cbn in H1.
  - destruct (Nat.eqb_spec (pipe s) 0); [done|]. injection Hown as <-. split; cbn; [done|done|by right|done].
  - injection Hown as <-. split; cbn; [by rewrite app_nil_r|done|done|done].
  - injection Hown as <-. split; cbn; [done|done| |done]. intros Hp. by destruct (H3 Hp); [left|].
Qed.

Lemma reach_inv s : (0 < room)%nat -> reach s -> wake_inv s.
Proof. intros Hroom. induction 1 as [|s s' _ IH Hst]; [by split|]. by eapply step_inv. Qed.

(** Steps of the thread of the set alone. *)
Fixpoint own_steps (n : nat) (s : Plus) : Plus :=
  match n with
  | O => s
  | S n => match own_step s with Some s' => own_steps n s' | None => s end
  end.

Lemma own_steps_S n s : own_steps (S n) s = match own_step s with Some s' => own_steps n s' | None => s end.
Proof. done. Qed.
Lemma own_steps_add n m s : own_steps (n + m) s = own_steps m (own_steps n s).
Proof.
  revert s. induction n as [|n IH]; intros s; [done|]. cbn. destruct (own_step s) eqn:E; [apply IH|].
  destruct m; [done|]. cbn. by rewrite E.
Qed.

Lemma own_steps_reach n s : reach s -> reach (own_steps n s).
Proof.
  revert s. induction n as [|n IH]; intros s Hr; [done|]. rewrite own_steps_S. destruct (own_step s) eqn:E; [|done].
  apply IH. eapply reach_next; [exact Hr|]. by apply step_own.
Qed.

Lemma own_steps_injected n s : injected (own_steps n s) = injected s.
Proof.
  revert s. induction n as [|n IH]; intros s; [done|]. rewrite own_steps_S. destruct (own_step s) as [s'|] eqn:E; [|done].
  rewrite IH. unfold own_step in E. destruct (at_ s) as [| |[|? ?]|]; [destruct (_ =? _)%nat; [done|]|..]; by simplify_eq.
Qed.

(** The loop over the callbacks ends. *)
Lemma loop_ends cbs s : reach s -> at_ s = Running cbs ->
  exists n, at_ (own_steps n s) = Polling /\ async_cbs_ (own_steps n s) = async_cbs_ s \/ exists l, at_ (own_steps n s) = Undefined l.
Proof.
  revert s. induction cbs as [|cb cbs IH]; intros s Hr Hs.
  - exists 1%nat. left. cbn. unfold own_step. by rewrite Hs.
  - assert (own_step s = Some (run_one cb cbs s)) as Ho by (unfold own_step; by rewrite Hs).
    assert (reach (run_one cb cbs s)) as Hr' by (eapply reach_next; [exact Hr|by apply step_own]).
    destruct (throws cb) eqn:Et.
    + exists 1%nat. cbn. rewrite Ho. unfold run_one. rewrite Et. destruct cbs as [|c l]; [by left|]. right. by exists (c :: l).
    + destruct (IH (run_one cb cbs s)) as [n Hn]; [done|unfold run_one; by rewrite Et|]. exists (S n). by rewrite own_steps_S, Ho.
Qed.

(** From behind the pipe on, a whole round. *)
Lemma round s : reach s -> at_ s = Drained ->
  exists n, at_ (own_steps n s) = Polling /\ async_cbs_ (own_steps n s) = [] \/ exists l, at_ (own_steps n s) = Undefined l.
Proof.
  intros Hr Hs. assert (own_step s = Some (take_cbs s)) as Ho by (unfold own_step; by rewrite Hs).
  destruct (loop_ends (async_cbs_ s) (take_cbs s)) as [n Hn]; [eapply reach_next; [exact Hr|by apply step_own]|done|].
  exists (S n). by rewrite own_steps_S, Ho.
Qed.

(** The thread comes to [poll] with nothing left to run, or is lost. *)
Lemma comes_to_rest s : (0 < room)%nat -> reach s ->
  exists n, at_ (own_steps n s) = Polling /\ async_cbs_ (own_steps n s) = [] \/ exists l, at_ (own_steps n s) = Undefined l.
Proof.
  intros Hroom.
  assert (forall s0, reach s0 -> at_ s0 = Polling ->
    exists n, at_ (own_steps n s0) = Polling /\ async_cbs_ (own_steps n s0) = [] \/ exists l, at_ (own_steps n s0) = Undefined l) as Hpoll.
  { intros s0 Hr Hs. destruct (decide (async_cbs_ s0 = [])) as [E|E]; [exists 0%nat; by left|]. destruct (reach_inv s0 Hroom Hr) as [_ H2 H3 _].
    destruct (async_pending_ s0); [|by specialize (H2 eq_refl)]. destruct (H3 eq_refl) as [Hp|]; [|congruence].
    assert (own_step s0 = Some (drain s0)) as Ho by (unfold own_step; by rewrite Hs, (proj2 (Nat.eqb_neq _ _) Hp)).
    destruct (round (drain s0)) as [n Hn]; [eapply reach_next; [exact Hr|by apply step_own]|done|]. exists (S n). by rewrite own_steps_S, Ho. }
  intros Hr. destruct (at_ s) as [| |cbs|l] eqn:Hs; [by apply Hpoll|by apply round| |by exists 0%nat; right; exists l].
  destruct (loop_ends cbs s Hr Hs) as [n [[Hn _]|Hn]]; [|by exists n; right].
  destruct (Hpoll (own_steps n s)) as [m Hm]; [by apply own_steps_reach|done|]. exists (n + m)%nat. by rewrite own_steps_add.
Qed.

(** C18: no callback is lost or overtaken, unless one throws before others.
    However threads interleave, the callbacks run in the order in which they were
    injected, each once; when one has not run yet the thread of the set does not
    sleep; and from every state its own steps run all of them and end in [poll],
    or end behind a callback that threw while others that were taken with it had
    not run (the undefined write of [inject_cb_vec]).  A callback that throws as
    the last one taken does no harm. *)
Theorem no_lost_wakeup s : (0 < room)%nat -> reach s ->
  ran s `prefix_of` injected s /\
  (at_ s = Polling -> ran s <> injected s -> pipe s <> 0%nat) /\
  exists n, let s' := own_steps n s in at_ s' = Polling /\ ran s' = injected s \/ misplaced s'.
Proof.
  intros Hroom Hr. destruct (reach_inv s Hroom Hr) as [H1 H2 H3 H4]. split; [by rewrite H1; eexists|]. split.
  - intros Hs Hne. unfold taken in H1. rewrite Hs in H1. destruct (async_pending_ s).
    + destruct (H3 eq_refl) as [|E]; [done|congruence].
    + rewrite H2, !app_nil_r in H1 by done. by symmetry in H1.
  - destruct (comes_to_rest s Hroom Hr) as [n Hn]. exists n. destruct (reach_inv _ Hroom (own_steps_reach n s Hr)) as [G1 _ _ G4].
    destruct Hn as [[Ha Hq]|[l Hl]]; [left|right; by eapply G4]. split; [done|].
    unfold taken in G1. rewrite Ha, Hq, !app_nil_r, own_steps_injected in G1. done.
Qed.
End wakeups.

(** Two threads inject while the set runs what was there before; the first and
    the last callback throw. *)
Definition some_throw (cb : Z) : bool := (cb =? 1) || (cb =? 3).
Definition busy_run : Plus :=
  inject_cb 4 3 (own_steps some_throw 3 (inject_cb 4 2 (own_steps some_throw 3 (inject_cb 4 1 new_plus)))).
Lemma busy_reach : reach 4 some_throw busy_run.
Proof.
  unfold busy_run. eapply reach_next; [|apply step_inject]. apply own_steps_reach.
  eapply reach_next; [|apply step_inject]. apply own_steps_reach.
  eapply reach_next; [apply reach_start|apply step_inject].
Qed.

Lemma no_lost_wakeup_witness : injected busy_run = [1; 2; 3] /\ ran busy_run = [1; 2] /\
  (exists n, ran (own_steps some_throw n busy_run) = [1; 2; 3] \/ misplaced some_throw (own_steps some_throw n busy_run)).
Proof.
  split; [reflexivity|]. split; [reflexivity|].
  destruct (no_lost_wakeup 4 some_throw busy_run (Nat.lt_0_succ 3) busy_reach) as (_ & _ & n & Hn). exists n.
  destruct Hn as [[_ Hn]|Hn]; [left; exact Hn|right; exact Hn].
Defined.

(** A callback that throws with another one behind it: that one never runs. *)
Lemma throw_misplaces : own_steps some_throw 4 (inject_cb 4 2 (inject_cb 4 1 new_plus)) =
  mkPlus 0 [] false (Undefined [2]) [1; 2] [1].
Proof. reflexivity. Qed.
