(* ===== verification/ServerPaxosTypes.v ===== *)
(** * Types of the replicated database protocol: [server/server_paxos.hh]

    The structs and unions that carry a database call through Paxos
    ([ServerPaxosParam]) and its result back ([ServerPaxosResult]), each with
    the [save], [load] and [serial_size] of its generated [xdr_traits].  The
    instance numbers of these messages are 32-bit ([unsigned] in the protocol
    file), while the database and the client API use 64 bits. *)

From S2P Require Import Prelude Endian Xdr.

(** ** Calls *)

Inductive CallType :=
| CHECK_AND_CREATE | CHECK_AND_OPEN | CHECK_AND_DELETE | CHECK_AND_READ
| CHECK_AND_UPDATE | TEST_AND_SET_LOCK_OWNER | RESET_LOCK_OWNER | GET_STATES.

#[export] Instance CallType_eq_dec : EqDecision CallType.
Proof. solve_decision. Defined.

Definition CallType_val (c : CallType) : Z :=
  match c with
  | CHECK_AND_CREATE => 0
  | CHECK_AND_OPEN => 1
  | CHECK_AND_DELETE => 2
  | CHECK_AND_READ => 3
  | CHECK_AND_UPDATE => 4
  | TEST_AND_SET_LOCK_OWNER => 5
  | RESET_LOCK_OWNER => 6
  | GET_STATES => 7
  end.

(** ** Structs *)

Record NewMetaData := mkNewMetaData {
  nmd_instance_number : Z;
  nmd_content_generation_number : Z;
  nmd_lock_generation_number : Z;
  nmd_file_content_checksum : Z;
  nmd_is_directory : bool;
}.

#[export] Instance xdr_NewMetaData : Xdr NewMetaData := {|
  xdr_valid o := u64 (nmd_instance_number o) /\ u64 (nmd_content_generation_number o) /\ u64 (nmd_lock_generation_number o) /\ u64 (nmd_file_content_checksum o) /\ xdr_valid (nmd_is_directory o);
  serial_size o := 8 + 8 + 8 + 8 + serial_size (nmd_is_directory o);
  save o := save_u64 (nmd_instance_number o) >;> save_u64 (nmd_content_generation_number o) >;> save_u64 (nmd_lock_generation_number o) >;> save_u64 (nmd_file_content_checksum o) >;> save (nmd_is_directory o);
  load :=
    x0 ← load_u64;
    x1 ← load_u64;
    x2 ← load_u64;
    x3 ← load_u64;
    x4 ← load;
    mret (mkNewMetaData x0 x1 x2 x3 x4);
  wire o := be64 (nmd_instance_number o) ++ be64 (nmd_content_generation_number o) ++ be64 (nmd_lock_generation_number o) ++ be64 (nmd_file_content_checksum o) ++ wire (nmd_is_directory o);
|}.
#[export] Instance xdr_NewMetaData_laws : XdrLaws NewMetaData.
Proof. solve_xdr xdr_NewMetaData. Qed.

Record CheckAndCreateParam := mkCheckAndCreateParam {
  ccp_file_name : string;
  ccp_is_dir : bool;
}.

#[export] Instance xdr_CheckAndCreateParam : Xdr CheckAndCreateParam := {|
  xdr_valid o := xdr_valid (ccp_file_name o) /\ xdr_valid (ccp_is_dir o);
  serial_size o := serial_size (ccp_file_name o) + serial_size (ccp_is_dir o);
  save o := save (ccp_file_name o) >;> save (ccp_is_dir o);
  load :=
    x0 ← load;
    x1 ← load;
    mret (mkCheckAndCreateParam x0 x1);
  wire o := wire (ccp_file_name o) ++ wire (ccp_is_dir o);
|}.
#[export] Instance xdr_CheckAndCreateParam_laws : XdrLaws CheckAndCreateParam.
Proof. solve_xdr xdr_CheckAndCreateParam. Qed.

Record CheckAndCreateResult := mkCheckAndCreateResult {
  ccr_instance_number : Z;
  ccr_success : bool;
}.

#[export] Instance xdr_CheckAndCreateResult : Xdr CheckAndCreateResult := {|
  xdr_valid o := u32 (ccr_instance_number o) /\ xdr_valid (ccr_success o);
  serial_size o := 4 + serial_size (ccr_success o);
  save o := save_u32 (ccr_instance_number o) >;> save (ccr_success o);
  load :=
    x0 ← load_u32;
    x1 ← load;
    mret (mkCheckAndCreateResult x0 x1);
  wire o := be32 (ccr_instance_number o) ++ wire (ccr_success o);
|}.
#[export] Instance xdr_CheckAndCreateResult_laws : XdrLaws CheckAndCreateResult.
Proof. solve_xdr xdr_CheckAndCreateResult. Qed.

Record CheckAndOpenParam := mkCheckAndOpenParam {
  cop_file_name : string;
}.

#[export] Instance xdr_CheckAndOpenParam : Xdr CheckAndOpenParam := {|
  xdr_valid o := xdr_valid (cop_file_name o);
  serial_size o := serial_size (cop_file_name o);
  save o := save (cop_file_name o);
  load :=
    x0 ← load;
    mret (mkCheckAndOpenParam x0);
  wire o := wire (cop_file_name o);
|}.
#[export] Instance xdr_CheckAndOpenParam_laws : XdrLaws CheckAndOpenParam.
Proof. solve_xdr xdr_CheckAndOpenParam. Qed.

Record CheckAndOpenResult := mkCheckAndOpenResult {
  cor_instance_number : Z;
  cor_success : bool;
}.

#[export] Instance xdr_CheckAndOpenResult : Xdr CheckAndOpenResult := {|
  xdr_valid o := u32 (cor_instance_number o) /\ xdr_valid (cor_success o);
  serial_size o := 4 + serial_size (cor_success o);
  save o := save_u32 (cor_instance_number o) >;> save (cor_success o);
  load :=
    x0 ← load_u32;
    x1 ← load;
    mret (mkCheckAndOpenResult x0 x1);
  wire o := be32 (cor_instance_number o) ++ wire (cor_success o);
|}.
#[export] Instance xdr_CheckAndOpenResult_laws : XdrLaws CheckAndOpenResult.
Proof. solve_xdr xdr_CheckAndOpenResult. Qed.

Record CheckAndDeleteParam := mkCheckAndDeleteParam {
  cdp_file_name : string;
  cdp_instance_number : Z;
}.

#[export] Instance xdr_CheckAndDeleteParam : Xdr CheckAndDeleteParam := {|
  xdr_valid o := xdr_valid (cdp_file_name o) /\ u32 (cdp_instance_number o);
  serial_size o := serial_size (cdp_file_name o) + 4;
  save o := save (cdp_file_name o) >;> save_u32 (cdp_instance_number o);
  load :=
    x0 ← load;
    x1 ← load_u32;
    mret (mkCheckAndDeleteParam x0 x1);
  wire o := wire (cdp_file_name o) ++ be32 (cdp_instance_number o);
|}.
#[export] Instance xdr_CheckAndDeleteParam_laws : XdrLaws CheckAndDeleteParam.
Proof. solve_xdr xdr_CheckAndDeleteParam. Qed.

Record CheckAndDeleteResult := mkCheckAndDeleteResult {
  cdr_success : bool;
}.

#[export] Instance xdr_CheckAndDeleteResult : Xdr CheckAndDeleteResult := {|
  xdr_valid o := xdr_valid (cdr_success o);
  serial_size o := serial_size (cdr_success o);
  save o := save (cdr_success o);
  load :=
    x0 ← load;
    mret (mkCheckAndDeleteResult x0);
  wire o := wire (cdr_success o);
|}.
#[export] Instance xdr_CheckAndDeleteResult_laws : XdrLaws CheckAndDeleteResult.
Proof. solve_xdr xdr_CheckAndDeleteResult. Qed.

Record CheckAndReadParam := mkCheckAndReadParam {
  crp_file_name : string;
  crp_instance_number : Z;
}.

#[export] Instance xdr_CheckAndReadParam : Xdr CheckAndReadParam := {|
  xdr_valid o := xdr_valid (crp_file_name o) /\ u32 (crp_instance_number o);
  serial_size o := serial_size (crp_file_name o) + 4;
  save o := save (crp_file_name o) >;> save_u32 (crp_instance_number o);
  load :=
    x0 ← load;
    x1 ← load_u32;
    mret (mkCheckAndReadParam x0 x1);
  wire o := wire (crp_file_name o) ++ be32 (crp_instance_number o);
|}.
#[export] Instance xdr_CheckAndReadParam_laws : XdrLaws CheckAndReadParam.
Proof. solve_xdr xdr_CheckAndReadParam. Qed.

Record CheckAndReadResult := mkCheckAndReadResult {
  crr_content : string;
  crr_meta : NewMetaData;
  crr_success : bool;
}.

#[export] Instance xdr_CheckAndReadResult : Xdr CheckAndReadResult := {|
  xdr_valid o := xdr_valid (crr_content o) /\ xdr_valid (crr_meta o) /\ xdr_valid (crr_success o);
  serial_size o := serial_size (crr_content o) + serial_size (crr_meta o) + serial_size (crr_success o);
  save o := save (crr_content o) >;> save (crr_meta o) >;> save (crr_success o);
  load :=
    x0 ← load;
    x1 ← load;
    x2 ← load;
    mret (mkCheckAndReadResult x0 x1 x2);
  wire o := wire (crr_content o) ++ wire (crr_meta o) ++ wire (crr_success o);
|}.
#[export] Instance xdr_CheckAndReadResult_laws : XdrLaws CheckAndReadResult.
Proof. solve_xdr xdr_CheckAndReadResult. Qed.

Record CheckAndUpdateParam := mkCheckAndUpdateParam {
  cup_file_name : string;
  cup_instance_number : Z;
  cup_content : string;
}.

#[export] Instance xdr_CheckAndUpdateParam : Xdr CheckAndUpdateParam := {|
  xdr_valid o := xdr_valid (cup_file_name o) /\ u32 (cup_instance_number o) /\ xdr_valid (cup_content o);
  serial_size o := serial_size (cup_file_name o) + 4 + serial_size (cup_content o);
  save o := save (cup_file_name o) >;> save_u32 (cup_instance_number o) >;> save (cup_content o);
  load :=
    x0 ← load;
    x1 ← load_u32;
    x2 ← load;
    mret (mkCheckAndUpdateParam x0 x1 x2);
  wire o := wire (cup_file_name o) ++ be32 (cup_instance_number o) ++ wire (cup_content o);
|}.
#[export] Instance xdr_CheckAndUpdateParam_laws : XdrLaws CheckAndUpdateParam.
Proof. solve_xdr xdr_CheckAndUpdateParam. Qed.

Record CheckAndUpdateResult := mkCheckAndUpdateResult {
  cur_success : bool;
}.

#[export] Instance xdr_CheckAndUpdateResult : Xdr CheckAndUpdateResult := {|
  xdr_valid o := xdr_valid (cur_success o);
  serial_size o := serial_size (cur_success o);
  save o := save (cur_success o);
  load :=
    x0 ← load;
    mret (mkCheckAndUpdateResult x0);
  wire o := wire (cur_success o);
|}.
#[export] Instance xdr_CheckAndUpdateResult_laws : XdrLaws CheckAndUpdateResult.
Proof. solve_xdr xdr_CheckAndUpdateResult. Qed.

Record TestAndSetLockOwnerParam := mkTestAndSetLockOwnerParam {
  tsp_file_name : string;
  tsp_instance_number : Z;
  tsp_client_id : string;
}.

#[export] Instance xdr_TestAndSetLockOwnerParam : Xdr TestAndSetLockOwnerParam := {|
  xdr_valid o := xdr_valid (tsp_file_name o) /\ u32 (tsp_instance_number o) /\ xdr_valid (tsp_client_id o);
  serial_size o := serial_size (tsp_file_name o) + 4 + serial_size (tsp_client_id o);
  save o := save (tsp_file_name o) >;> save_u32 (tsp_instance_number o) >;> save (tsp_client_id o);
  load :=
    x0 ← load;
    x1 ← load_u32;
    x2 ← load;
    mret (mkTestAndSetLockOwnerParam x0 x1 x2);
  wire o := wire (tsp_file_name o) ++ be32 (tsp_instance_number o) ++ wire (tsp_client_id o);
|}.
#[export] Instance xdr_TestAndSetLockOwnerParam_laws : XdrLaws TestAndSetLockOwnerParam.
Proof. solve_xdr xdr_TestAndSetLockOwnerParam. Qed.

Record TestAndSetLockOwnerResult := mkTestAndSetLockOwnerResult {
  tsr_success : bool;
}.

#[export] Instance xdr_TestAndSetLockOwnerResult : Xdr TestAndSetLockOwnerResult := {|
  xdr_valid o := xdr_valid (tsr_success o);
  serial_size o := serial_size (tsr_success o);
  save o := save (tsr_success o);
  load :=
    x0 ← load;
    mret (mkTestAndSetLockOwnerResult x0);
  wire o := wire (tsr_success o);
|}.
#[export] Instance xdr_TestAndSetLockOwnerResult_laws : XdrLaws TestAndSetLockOwnerResult.
Proof. solve_xdr xdr_TestAndSetLockOwnerResult. Qed.

Record ResetLockOwnerParam := mkResetLockOwnerParam {
  rlp_file_name : string;
  rlp_instance_number : Z;
}.

#[export] Instance xdr_ResetLockOwnerParam : Xdr ResetLockOwnerParam := {|
  xdr_valid o := xdr_valid (rlp_file_name o) /\ u32 (rlp_instance_number o);
  serial_size o := serial_size (rlp_file_name o) + 4;
  save o := save (rlp_file_name o) >;> save_u32 (rlp_instance_number o);
  load :=
    x0 ← load;
    x1 ← load_u32;
    mret (mkResetLockOwnerParam x0 x1);
  wire o := wire (rlp_file_name o) ++ be32 (rlp_instance_number o);
|}.
#[export] Instance xdr_ResetLockOwnerParam_laws : XdrLaws ResetLockOwnerParam.
Proof. solve_xdr xdr_ResetLockOwnerParam. Qed.

Record ResetLockOwnerResult := mkResetLockOwnerResult {
  rlr_success : bool;
}.

#[export] Instance xdr_ResetLockOwnerResult : Xdr ResetLockOwnerResult := {|
  xdr_valid o := xdr_valid (rlr_success o);
  serial_size o := serial_size (rlr_success o);
  save o := save (rlr_success o);
  load :=
    x0 ← load;
    mret (mkResetLockOwnerResult x0);
  wire o := wire (rlr_success o);
|}.
#[export] Instance xdr_ResetLockOwnerResult_laws : XdrLaws ResetLockOwnerResult.
Proof. solve_xdr xdr_ResetLockOwnerResult. Qed.

Record GetStatesParam := mkGetStatesParam {
  gsp_dumb : bool;
}.

#[export] Instance xdr_GetStatesParam : Xdr GetStatesParam := {|
  xdr_valid o := xdr_valid (gsp_dumb o);
  serial_size o := serial_size (gsp_dumb o);
  save o := save (gsp_dumb o);
  load :=
    x0 ← load;
    mret (mkGetStatesParam x0);
  wire o := wire (gsp_dumb o);
|}.
#[export] Instance xdr_GetStatesParam_laws : XdrLaws GetStatesParam.
Proof. solve_xdr xdr_GetStatesParam. Qed.

Record key_value := mkkey_value {
  kv_key : string;
  kv_value : string;
}.

#[export] Instance xdr_key_value : Xdr key_value := {|
  xdr_valid o := xdr_valid (kv_key o) /\ xdr_valid (kv_value o);
  serial_size o := serial_size (kv_key o) + serial_size (kv_value o);
  save o := save (kv_key o) >;> save (kv_value o);
  load :=
    x0 ← load;
    x1 ← load;
    mret (mkkey_value x0 x1);
  wire o := wire (kv_key o) ++ wire (kv_value o);
|}.
#[export] Instance xdr_key_value_laws : XdrLaws key_value.
Proof. solve_xdr xdr_key_value. Qed.

Record GetStatesResult := mkGetStatesResult {
  gsr_list : list key_value;
}.

#[export] Instance xdr_GetStatesResult : Xdr GetStatesResult := {|
  xdr_valid o := xdr_valid (gsr_list o);
  serial_size o := serial_size (gsr_list o);
  save o := save (gsr_list o);
  load :=
    x0 ← load;
    mret (mkGetStatesResult x0);
  wire o := wire (gsr_list o);
|}.
#[export] Instance xdr_GetStatesResult_laws : XdrLaws GetStatesResult.
Proof. solve_xdr xdr_GetStatesResult. Qed.

(** ** Unions *)

Inductive ServerPaxosParam :=
| PCheckAndCreate (x : CheckAndCreateParam)
| PCheckAndOpen (x : CheckAndOpenParam)
| PCheckAndDelete (x : CheckAndDeleteParam)
| PCheckAndRead (x : CheckAndReadParam)
| PCheckAndUpdate (x : CheckAndUpdateParam)
| PTestAndSetLockOwner (x : TestAndSetLockOwnerParam)
| PResetLockOwner (x : ResetLockOwnerParam)
| PGetStates (x : GetStatesParam).

Definition param_type (o : ServerPaxosParam) : Z :=
  match o with
  | PCheckAndCreate _ => CallType_val CHECK_AND_CREATE
  | PCheckAndOpen _ => CallType_val CHECK_AND_OPEN
  | PCheckAndDelete _ => CallType_val CHECK_AND_DELETE
  | PCheckAndRead _ => CallType_val CHECK_AND_READ
  | PCheckAndUpdate _ => CallType_val CHECK_AND_UPDATE
  | PTestAndSetLockOwner _ => CallType_val TEST_AND_SET_LOCK_OWNER
  | PResetLockOwner _ => CallType_val RESET_LOCK_OWNER
  | PGetStates _ => CallType_val GET_STATES
  end.

#[export] Instance xdr_ServerPaxosParam : Xdr ServerPaxosParam := {|
  xdr_valid o :=
    match o with
    | PCheckAndCreate x => xdr_valid (x)
    | PCheckAndOpen x => xdr_valid (x)
    | PCheckAndDelete x => xdr_valid (x)
    | PCheckAndRead x => xdr_valid (x)
    | PCheckAndUpdate x => xdr_valid (x)
    | PTestAndSetLockOwner x => xdr_valid (x)
    | PResetLockOwner x => xdr_valid (x)
    | PGetStates x => xdr_valid (x)
    end;
  serial_size o := 4 +
    match o with
    | PCheckAndCreate x => serial_size (x)
    | PCheckAndOpen x => serial_size (x)
    | PCheckAndDelete x => serial_size (x)
    | PCheckAndRead x => serial_size (x)
    | PCheckAndUpdate x => serial_size (x)
    | PTestAndSetLockOwner x => serial_size (x)
    | PResetLockOwner x => serial_size (x)
    | PGetStates x => serial_size (x)
    end;
  save o := save_u32 (param_type o) >;>
    match o with
    | PCheckAndCreate x => save (x)
    | PCheckAndOpen x => save (x)
    | PCheckAndDelete x => save (x)
    | PCheckAndRead x => save (x)
    | PCheckAndUpdate x => save (x)
    | PTestAndSetLockOwner x => save (x)
    | PResetLockOwner x => save (x)
    | PGetStates x => save (x)
    end;
  load :=
    which ← load_u32;
    if which =? CallType_val CHECK_AND_CREATE then x ← load; mret (PCheckAndCreate x) else
    if which =? CallType_val CHECK_AND_OPEN then x ← load; mret (PCheckAndOpen x) else
    if which =? CallType_val CHECK_AND_DELETE then x ← load; mret (PCheckAndDelete x) else
    if which =? CallType_val CHECK_AND_READ then x ← load; mret (PCheckAndRead x) else
    if which =? CallType_val CHECK_AND_UPDATE then x ← load; mret (PCheckAndUpdate x) else
    if which =? CallType_val TEST_AND_SET_LOCK_OWNER then x ← load; mret (PTestAndSetLockOwner x) else
    if which =? CallType_val RESET_LOCK_OWNER then x ← load; mret (PResetLockOwner x) else
    if which =? CallType_val GET_STATES then x ← load; mret (PGetStates x) else
    get_fail xdr_bad_discriminant;
  wire o := be32 (param_type o) ++
    match o with
    | PCheckAndCreate x => wire (x)
    | PCheckAndOpen x => wire (x)
    | PCheckAndDelete x => wire (x)
    | PCheckAndRead x => wire (x)
    | PCheckAndUpdate x => wire (x)
    | PTestAndSetLockOwner x => wire (x)
    | PResetLockOwner x => wire (x)
    | PGetStates x => wire (x)
    end;
|}.
#[export] Instance xdr_ServerPaxosParam_laws : XdrLaws ServerPaxosParam.
Proof. solve_xdr_union xdr_ServerPaxosParam. Qed.

(** The accessors: [None] is [xdr_wrong_union]. *)
Definition check_and_create_param (o : ServerPaxosParam) : option CheckAndCreateParam :=
  match o with PCheckAndCreate x => Some x | _ => None end.
Definition check_and_open_param (o : ServerPaxosParam) : option CheckAndOpenParam :=
  match o with PCheckAndOpen x => Some x | _ => None end.
Definition check_and_delete_param (o : ServerPaxosParam) : option CheckAndDeleteParam :=
  match o with PCheckAndDelete x => Some x | _ => None end.
Definition check_and_read_param (o : ServerPaxosParam) : option CheckAndReadParam :=
  match o with PCheckAndRead x => Some x | _ => None end.
Definition check_and_update_param (o : ServerPaxosParam) : option CheckAndUpdateParam :=
  match o with PCheckAndUpdate x => Some x | _ => None end.
Definition test_and_set_lock_owner_param (o : ServerPaxosParam) : option TestAndSetLockOwnerParam :=
  match o with PTestAndSetLockOwner x => Some x | _ => None end.
Definition reset_lock_owner_param (o : ServerPaxosParam) : option ResetLockOwnerParam :=
  match o with PResetLockOwner x => Some x | _ => None end.
Definition get_states_param (o : ServerPaxosParam) : option GetStatesParam :=
  match o with PGetStates x => Some x | _ => None end.

Inductive ServerPaxosResult :=
| RCheckAndCreate (x : CheckAndCreateResult)
| RCheckAndOpen (x : CheckAndOpenResult)
| RCheckAndDelete (x : CheckAndDeleteResult)
| RCheckAndRead (x : CheckAndReadResult)
| RCheckAndUpdate (x : CheckAndUpdateResult)
| RTestAndSetLockOwner (x : TestAndSetLockOwnerResult)
| RResetLockOwner (x : ResetLockOwnerResult)
| RGetStates (x : GetStatesResult).

Definition result_type (o : ServerPaxosResult) : Z :=
  match o with
  | RCheckAndCreate _ => CallType_val CHECK_AND_CREATE
  | RCheckAndOpen _ => CallType_val CHECK_AND_OPEN
  | RCheckAndDelete _ => CallType_val CHECK_AND_DELETE
  | RCheckAndRead _ => CallType_val CHECK_AND_READ
  | RCheckAndUpdate _ => CallType_val CHECK_AND_UPDATE
  | RTestAndSetLockOwner _ => CallType_val TEST_AND_SET_LOCK_OWNER
  | RResetLockOwner _ => CallType_val RESET_LOCK_OWNER
  | RGetStates _ => CallType_val GET_STATES
  end.

#[export] Instance xdr_ServerPaxosResult : Xdr ServerPaxosResult := {|
  xdr_valid o :=
    match o with
    | RCheckAndCreate x => xdr_valid (x)
    | RCheckAndOpen x => xdr_valid (x)
    | RCheckAndDelete x => xdr_valid (x)
    | RCheckAndRead x => xdr_valid (x)
    | RCheckAndUpdate x => xdr_valid (x)
    | RTestAndSetLockOwner x => xdr_valid (x)
    | RResetLockOwner x => xdr_valid (x)
    | RGetStates x => xdr_valid (x)
    end;
  serial_size o := 4 +
    match o with
    | RCheckAndCreate x => serial_size (x)
    | RCheckAndOpen x => serial_size (x)
    | RCheckAndDelete x => serial_size (x)
    | RCheckAndRead x => serial_size (x)
    | RCheckAndUpdate x => serial_size (x)
    | RTestAndSetLockOwner x => serial_size (x)
    | RResetLockOwner x => serial_size (x)
    | RGetStates x => serial_size (x)
    end;
  save o := save_u32 (result_type o) >;>
    match o with
    | RCheckAndCreate x => save (x)
    | RCheckAndOpen x => save (x)
    | RCheckAndDelete x => save (x)
    | RCheckAndRead x => save (x)
    | RCheckAndUpdate x => save (x)
    | RTestAndSetLockOwner x => save (x)
    | RResetLockOwner x => save (x)
    | RGetStates x => save (x)
    end;
  load :=
    which ← load_u32;
    if which =? CallType_val CHECK_AND_CREATE then x ← load; mret (RCheckAndCreate x) else
    if which =? CallType_val CHECK_AND_OPEN then x ← load; mret (RCheckAndOpen x) else
    if which =? CallType_val CHECK_AND_DELETE then x ← load; mret (RCheckAndDelete x) else
    if which =? CallType_val CHECK_AND_READ then x ← load; mret (RCheckAndRead x) else
    if which =? CallType_val CHECK_AND_UPDATE then x ← load; mret (RCheckAndUpdate x) else
    if which =? CallType_val TEST_AND_SET_LOCK_OWNER then x ← load; mret (RTestAndSetLockOwner x) else
    if which =? CallType_val RESET_LOCK_OWNER then x ← load; mret (RResetLockOwner x) else
    if which =? CallType_val GET_STATES then x ← load; mret (RGetStates x) else
    get_fail xdr_bad_discriminant;
  wire o := be32 (result_type o) ++
    match o with
    | RCheckAndCreate x => wire (x)
    | RCheckAndOpen x => wire (x)
    | RCheckAndDelete x => wire (x)
    | RCheckAndRead x => wire (x)
    | RCheckAndUpdate x => wire (x)
    | RTestAndSetLockOwner x => wire (x)
    | RResetLockOwner x => wire (x)
    | RGetStates x => wire (x)
    end;
|}.
#[export] Instance xdr_ServerPaxosResult_laws : XdrLaws ServerPaxosResult.
Proof. solve_xdr_union xdr_ServerPaxosResult. Qed.

(** The accessors: [None] is [xdr_wrong_union]. *)
Definition check_and_create_result (o : ServerPaxosResult) : option CheckAndCreateResult :=
  match o with RCheckAndCreate x => Some x | _ => None end.
Definition check_and_open_result (o : ServerPaxosResult) : option CheckAndOpenResult :=
  match o with RCheckAndOpen x => Some x | _ => None end.
Definition check_and_delete_result (o : ServerPaxosResult) : option CheckAndDeleteResult :=
  match o with RCheckAndDelete x => Some x | _ => None end.
Definition check_and_read_result (o : ServerPaxosResult) : option CheckAndReadResult :=
  match o with RCheckAndRead x => Some x | _ => None end.
Definition check_and_update_result (o : ServerPaxosResult) : option CheckAndUpdateResult :=
  match o with RCheckAndUpdate x => Some x | _ => None end.
Definition test_and_set_lock_owner_result (o : ServerPaxosResult) : option TestAndSetLockOwnerResult :=
  match o with RTestAndSetLockOwner x => Some x | _ => None end.
Definition reset_lock_owner_result (o : ServerPaxosResult) : option ResetLockOwnerResult :=
  match o with RResetLockOwner x => Some x | _ => None end.
Definition get_states_result (o : ServerPaxosResult) : option GetStatesResult :=
  match o with RGetStates x => Some x | _ => None end.


(** ** Messages *)

(** The call that creates [/d/f], and its encoding. *)
Definition sample_param : ServerPaxosParam := PCheckAndCreate (mkCheckAndCreateParam "/d/f" false).

Lemma sample_param_valid : xdr_valid sample_param.
Proof. by vm_compute. Qed.

Lemma xdr_msg_roundtrip_witness : exists m,
  xdr_to_msg sample_param = MOk m /\ xdr_from_msg (m_data m) = MOk sample_param.
Proof. apply (xdr_msg_roundtrip sample_param sample_param_valid). vm_compute. reflexivity. Defined.
