(* ===== verification/ServerTypes.v ===== *)
(** * Types of the client API: [include/server.hh] and [include/event.hh]

    File handles, arguments and results of the RPC interface [api_v1], the
    event message of [handler_v1], the procedure numbers of [api_v1] and the
    dispatch on them. *)

From S2P Require Import Prelude Endian Xdr.

Record MetaData := mkMetaData {
  md_instance_number : Z;
  md_content_generation_number : Z;
  md_lock_generation_number : Z;
  md_file_content_checksum : Z;
  md_is_directory : bool;
}.

#[export] Instance xdr_MetaData : Xdr MetaData := {|
  xdr_valid o := u64 (md_instance_number o) /\ u64 (md_content_generation_number o) /\ u64 (md_lock_generation_number o) /\ u64 (md_file_content_checksum o) /\ xdr_valid (md_is_directory o);
  serial_size o := 8 + 8 + 8 + 8 + serial_size (md_is_directory o);
  save o := save_u64 (md_instance_number o) >;> save_u64 (md_content_generation_number o) >;> save_u64 (md_lock_generation_number o) >;> save_u64 (md_file_content_checksum o) >;> save (md_is_directory o);
  load :=
    x0 ← load_u64;
    x1 ← load_u64;
    x2 ← load_u64;
    x3 ← load_u64;
    x4 ← load;
    mret (mkMetaData x0 x1 x2 x3 x4);
  wire o := be64 (md_instance_number o) ++ be64 (md_content_generation_number o) ++ be64 (md_lock_generation_number o) ++ be64 (md_file_content_checksum o) ++ wire (md_is_directory o);
|}.
#[export] Instance xdr_MetaData_laws : XdrLaws MetaData.
Proof. solve_xdr xdr_MetaData. Qed.

Record FileHandler := mkFileHandler {
  fh_magic_number : Z;
  fh_master_sequence_number : Z;
  fh_file_name : string;
  fh_instance_number : Z;
  fh_write_is_allowed : bool;
}.

#[export] Instance xdr_FileHandler : Xdr FileHandler := {|
  xdr_valid o := u64 (fh_magic_number o) /\ u64 (fh_master_sequence_number o) /\ xdr_valid (fh_file_name o) /\ u64 (fh_instance_number o) /\ xdr_valid (fh_write_is_allowed o);
  serial_size o := 8 + 8 + serial_size (fh_file_name o) + 8 + serial_size (fh_write_is_allowed o);
  save o := save_u64 (fh_magic_number o) >;> save_u64 (fh_master_sequence_number o) >;> save (fh_file_name o) >;> save_u64 (fh_instance_number o) >;> save (fh_write_is_allowed o);
  load :=
    x0 ← load_u64;
    x1 ← load_u64;
    x2 ← load;
    x3 ← load_u64;
    x4 ← load;
    mret (mkFileHandler x0 x1 x2 x3 x4);
  wire o := be64 (fh_magic_number o) ++ be64 (fh_master_sequence_number o) ++ wire (fh_file_name o) ++ be64 (fh_instance_number o) ++ wire (fh_write_is_allowed o);
|}.
#[export] Instance xdr_FileHandler_laws : XdrLaws FileHandler.
Proof. solve_xdr xdr_FileHandler. Qed.

#[export] Instance FileHandler_eq_dec : EqDecision FileHandler.
Proof. solve_decision. Defined.

Record ArgOpen := mkArgOpen {
  ao_name : string;
  ao_mode : Z;
}.

#[export] Instance xdr_ArgOpen : Xdr ArgOpen := {|
  xdr_valid o := xdr_valid (ao_name o) /\ u64 (ao_mode o);
  serial_size o := serial_size (ao_name o) + 8;
  save o := save (ao_name o) >;> save_u64 (ao_mode o);
  load :=
    x0 ← load;
    x1 ← load_u64;
    mret (mkArgOpen x0 x1);
  wire o := wire (ao_name o) ++ be64 (ao_mode o);
|}.
#[export] Instance xdr_ArgOpen_laws : XdrLaws ArgOpen.
Proof. solve_xdr xdr_ArgOpen. Qed.

Record ArgReopen := mkArgReopen {
  ar_fd : FileHandler;
  ar_mode : Z;
}.

#[export] Instance xdr_ArgReopen : Xdr ArgReopen := {|
  xdr_valid o := xdr_valid (ar_fd o) /\ u64 (ar_mode o);
  serial_size o := serial_size (ar_fd o) + 8;
  save o := save (ar_fd o) >;> save_u64 (ar_mode o);
  load :=
    x0 ← load;
    x1 ← load_u64;
    mret (mkArgReopen x0 x1);
  wire o := wire (ar_fd o) ++ be64 (ar_mode o);
|}.
#[export] Instance xdr_ArgReopen_laws : XdrLaws ArgReopen.
Proof. solve_xdr xdr_ArgReopen. Qed.

Record ArgSetContents := mkArgSetContents {
  asc_fd : FileHandler;
  asc_content : string;
}.

#[export] Instance xdr_ArgSetContents : Xdr ArgSetContents := {|
  xdr_valid o := xdr_valid (asc_fd o) /\ xdr_valid (asc_content o);
  serial_size o := serial_size (asc_fd o) + serial_size (asc_content o);
  save o := save (asc_fd o) >;> save (asc_content o);
  load :=
    x0 ← load;
    x1 ← load;
    mret (mkArgSetContents x0 x1);
  wire o := wire (asc_fd o) ++ wire (asc_content o);
|}.
#[export] Instance xdr_ArgSetContents_laws : XdrLaws ArgSetContents.
Proof. solve_xdr xdr_ArgSetContents. Qed.

Record ContentsAndStat := mkContentsAndStat {
  cas_content : string;
  cas_stat : MetaData;
}.

#[export] Instance xdr_ContentsAndStat : Xdr ContentsAndStat := {|
  xdr_valid o := xdr_valid (cas_content o) /\ xdr_valid (cas_stat o);
  serial_size o := serial_size (cas_content o) + serial_size (cas_stat o);
  save o := save (cas_content o) >;> save (cas_stat o);
  load :=
    x0 ← load;
    x1 ← load;
    mret (mkContentsAndStat x0 x1);
  wire o := wire (cas_content o) ++ wire (cas_stat o);
|}.
#[export] Instance xdr_ContentsAndStat_laws : XdrLaws ContentsAndStat.
Proof. solve_xdr xdr_ContentsAndStat. Qed.

Record EventContent := mkEventContent {
  evc_event : Z;
  evc_fname : string;
}.

#[export] Instance xdr_EventContent : Xdr EventContent := {|
  xdr_valid o := u32 (evc_event o) /\ xdr_valid (evc_fname o);
  serial_size o := 4 + serial_size (evc_fname o);
  save o := save_u32 (evc_event o) >;> save (evc_fname o);
  load :=
    x0 ← load_u32;
    x1 ← load;
    mret (mkEventContent x0 x1);
  wire o := be32 (evc_event o) ++ wire (evc_fname o);
|}.
#[export] Instance xdr_EventContent_laws : XdrLaws EventContent.
Proof. solve_xdr xdr_EventContent. Qed.

(** ** Results

    [discriminant] 0 carries the value, 1 an error code, anything else nothing. *)

Inductive RetBool :=
| RB_val (x : bool)
| RB_errCode (x : Z)
| RB_void (d : Z).

Definition rb_discriminant (o : RetBool) : Z :=
  match o with
  | RB_val _ => 0
  | RB_errCode _ => 1
  | RB_void d => d
  end.

#[export] Instance xdr_RetBool : Xdr RetBool := {|
  xdr_valid o :=
    match o with
    | RB_val x => xdr_valid (x)
    | RB_errCode x => u32 (x)
    | RB_void d => u32 d /\ d <> 0 /\ d <> 1
    end;
  serial_size o := 4 +
    match o with
    | RB_val x => serial_size (x)
    | RB_errCode x => 4
    | RB_void d => 0
    end;
  save o := save_u32 (rb_discriminant o) >;>
    match o with
    | RB_val x => save (x)
    | RB_errCode x => save_u32 (x)
    | RB_void d => XOk
    end;
  load :=
    which ← load_u32;
    if which =? 0 then x ← load; mret (RB_val x) else
    if which =? 1 then x ← load_u32; mret (RB_errCode x) else
    mret (RB_void which);
  wire o := be32 (rb_discriminant o) ++
    match o with
    | RB_val x => wire (x)
    | RB_errCode x => be32 (x)
    | RB_void d => []
    end;
|}.
#[export] Instance xdr_RetBool_laws : XdrLaws RetBool.
Proof. solve_xdr_union xdr_RetBool. Qed.

Inductive RetFd :=
| RF_val (x : FileHandler)
| RF_errCode (x : Z)
| RF_void (d : Z).

Definition rf_discriminant (o : RetFd) : Z :=
  match o with
  | RF_val _ => 0
  | RF_errCode _ => 1
  | RF_void d => d
  end.

#[export] Instance xdr_RetFd : Xdr RetFd := {|
  xdr_valid o :=
    match o with
    | RF_val x => xdr_valid (x)
    | RF_errCode x => u32 (x)
    | RF_void d => u32 d /\ d <> 0 /\ d <> 1
    end;
  serial_size o := 4 +
    match o with
    | RF_val x => serial_size (x)
    | RF_errCode x => 4
    | RF_void d => 0
    end;
  save o := save_u32 (rf_discriminant o) >;>
    match o with
    | RF_val x => save (x)
    | RF_errCode x => save_u32 (x)
    | RF_void d => XOk
    end;
  load :=
    which ← load_u32;
    if which =? 0 then x ← load; mret (RF_val x) else
    if which =? 1 then x ← load_u32; mret (RF_errCode x) else
    mret (RF_void which);
  wire o := be32 (rf_discriminant o) ++
    match o with
    | RF_val x => wire (x)
    | RF_errCode x => be32 (x)
    | RF_void d => []
    end;
|}.
#[export] Instance xdr_RetFd_laws : XdrLaws RetFd.
Proof. solve_xdr_union xdr_RetFd. Qed.

Inductive RetContentsAndStat :=
| RC_val (x : ContentsAndStat)
| RC_errCode (x : Z)
| RC_void (d : Z).

Definition rc_discriminant (o : RetContentsAndStat) : Z :=
  match o with
  | RC_val _ => 0
  | RC_errCode _ => 1
  | RC_void d => d
  end.

#[export] Instance xdr_RetContentsAndStat : Xdr RetContentsAndStat := {|
  xdr_valid o :=
    match o with
    | RC_val x => xdr_valid (x)
    | RC_errCode x => u32 (x)
    | RC_void d => u32 d /\ d <> 0 /\ d <> 1
    end;
  serial_size o := 4 +
    match o with
    | RC_val x => serial_size (x)
    | RC_errCode x => 4
    | RC_void d => 0
    end;
  save o := save_u32 (rc_discriminant o) >;>
    match o with
    | RC_val x => save (x)
    | RC_errCode x => save_u32 (x)
    | RC_void d => XOk
    end;
  load :=
    which ← load_u32;
    if which =? 0 then x ← load; mret (RC_val x) else
    if which =? 1 then x ← load_u32; mret (RC_errCode x) else
    mret (RC_void which);
  wire o := be32 (rc_discriminant o) ++
    match o with
    | RC_val x => wire (x)
    | RC_errCode x => be32 (x)
    | RC_void d => []
    end;
|}.
#[export] Instance xdr_RetContentsAndStat_laws : XdrLaws RetContentsAndStat.
Proof. solve_xdr_union xdr_RetContentsAndStat. Qed.

(** ** Procedures of [api_v1] *)

Inductive api_proc :=
| P_fileOpen | P_fileClose | P_fileDelete | P_getContentsAndStat | P_setContents
| P_acquire | P_tryAcquire | P_release | P_startSession | P_fileReopen
| P_increment | P_decrement.

#[export] Instance api_proc_eq_dec : EqDecision api_proc.
Proof. solve_decision. Defined.

Definition api_program : Z := 0x40048086.
Definition api_version : Z := 1.

(** The [proc] constant of each procedure. *)
Definition proc_number (p : api_proc) : Z :=
  match p with
  | P_fileOpen => 1
  | P_fileClose => 2
  | P_fileDelete => 3
  | P_getContentsAndStat => 4
  | P_setContents => 5
  | P_acquire => 6
  | P_tryAcquire => 7
  | P_release => 8
  | P_startSession => 21
  | P_fileReopen => 22
  | P_increment => 991
  | P_decrement => 992
  end.

(** [api_v1::call_dispatch]: the [switch] on the procedure number. *)
Definition call_dispatch (proc : Z) : option api_proc :=
  if proc =? 1 then Some P_fileOpen else
  if proc =? 2 then Some P_fileClose else
  if proc =? 3 then Some P_fileDelete else
  if proc =? 4 then Some P_getContentsAndStat else
  if proc =? 5 then Some P_setContents else
  if proc =? 6 then Some P_acquire else
  if proc =? 7 then Some P_tryAcquire else
  if proc =? 8 then Some P_release else
  if proc =? 21 then Some P_startSession else
  if proc =? 22 then Some P_fileReopen else
  if proc =? 991 then Some P_increment else
  if proc =? 992 then Some P_decrement else
  None.

Lemma call_dispatch_number p : call_dispatch (proc_number p) = Some p.
Proof. by destruct p. Qed.

(** The event constants of [ChubbyEvent]. *)
Definition EV_NOP : Z := 0.
Definition EV_LOCK_CHANGED : Z := 0x100.
Definition EV_CONTENT_MODIFIED : Z := 0x200.
