(* ===== verification/PaxosTypes.v ===== *)
(** * Types of the replica protocol: [paxos/paxos.hh]

    Views, requests and replies exchanged between the replicas.  The three
    messages of the view change that the replicas do not use ([view_change],
    [new_view]) are included with their codecs. *)

From S2P Require Import Prelude Endian Xdr.

Record viewid_t := mkviewid_t {
  vi_counter : Z;
  vi_manager : string;
}.

#[export] Instance xdr_viewid_t : Xdr viewid_t := {|
  xdr_valid o := u64 (vi_counter o) /\ xdr_valid (vi_manager o);
  serial_size o := 8 + serial_size (vi_manager o);
  save o := save_u64 (vi_counter o) >;> save (vi_manager o);
  load :=
    x0 ← load_u64;
    x1 ← load;
    mret (mkviewid_t x0 x1);
  wire o := be64 (vi_counter o) ++ wire (vi_manager o);
|}.
#[export] Instance xdr_viewid_t_laws : XdrLaws viewid_t.
Proof. solve_xdr xdr_viewid_t. Qed.

Record viewstamp_t := mkviewstamp_t {
  vs_vid : viewid_t;
  vs_ts : Z;
}.

#[export] Instance xdr_viewstamp_t : Xdr viewstamp_t := {|
  xdr_valid o := xdr_valid (vs_vid o) /\ u32 (vs_ts o);
  serial_size o := serial_size (vs_vid o) + 4;
  save o := save (vs_vid o) >;> save_u32 (vs_ts o);
  load :=
    x0 ← load;
    x1 ← load_u32;
    mret (mkviewstamp_t x0 x1);
  wire o := wire (vs_vid o) ++ be32 (vs_ts o);
|}.
#[export] Instance xdr_viewstamp_t_laws : XdrLaws viewstamp_t.
Proof. solve_xdr xdr_viewstamp_t. Qed.

Record cohort_t := mkcohort_t {
  co_id : string;
  co_addr : string;
}.

#[export] Instance xdr_cohort_t : Xdr cohort_t := {|
  xdr_valid o := xdr_valid (co_id o) /\ xdr_valid (co_addr o);
  serial_size o := serial_size (co_id o) + serial_size (co_addr o);
  save o := save (co_id o) >;> save (co_addr o);
  load :=
    x0 ← load;
    x1 ← load;
    mret (mkcohort_t x0 x1);
  wire o := wire (co_id o) ++ wire (co_addr o);
|}.
#[export] Instance xdr_cohort_t_laws : XdrLaws cohort_t.
Proof. solve_xdr xdr_cohort_t. Qed.

Record view_t := mkview_t {
  vw_vid : viewid_t;
  vw_primary : cohort_t;
  vw_backups : list cohort_t;
}.

#[export] Instance xdr_view_t : Xdr view_t := {|
  xdr_valid o := xdr_valid (vw_vid o) /\ xdr_valid (vw_primary o) /\ xdr_valid (vw_backups o);
  serial_size o := serial_size (vw_vid o) + serial_size (vw_primary o) + serial_size (vw_backups o);
  save o := save (vw_vid o) >;> save (vw_primary o) >;> save (vw_backups o);
  load :=
    x0 ← load;
    x1 ← load;
    x2 ← load;
    mret (mkview_t x0 x1 x2);
  wire o := wire (vw_vid o) ++ wire (vw_primary o) ++ wire (vw_backups o);
|}.
#[export] Instance xdr_view_t_laws : XdrLaws view_t.
Proof. solve_xdr xdr_view_t. Qed.

Record execute_arg := mkexecute_arg {
  ea_cid : string;
  ea_rid : Z;
  ea_vid : viewid_t;
  ea_request : bytes;
}.

#[export] Instance xdr_execute_arg : Xdr execute_arg := {|
  xdr_valid o := xdr_valid (ea_cid o) /\ u32 (ea_rid o) /\ xdr_valid (ea_vid o) /\ xdr_valid (ea_request o);
  serial_size o := serial_size (ea_cid o) + 4 + serial_size (ea_vid o) + serial_size (ea_request o);
  save o := save (ea_cid o) >;> save_u32 (ea_rid o) >;> save (ea_vid o) >;> save (ea_request o);
  load :=
    x0 ← load;
    x1 ← load_u32;
    x2 ← load;
    x3 ← load;
    mret (mkexecute_arg x0 x1 x2 x3);
  wire o := wire (ea_cid o) ++ be32 (ea_rid o) ++ wire (ea_vid o) ++ wire (ea_request o);
|}.
#[export] Instance xdr_execute_arg_laws : XdrLaws execute_arg.
Proof. solve_xdr xdr_execute_arg. Qed.

Record replicate_arg := mkreplicate_arg {
  ra_vs : viewstamp_t;
  ra_arg : execute_arg;
  ra_committed : viewstamp_t;
}.

#[export] Instance xdr_replicate_arg : Xdr replicate_arg := {|
  xdr_valid o := xdr_valid (ra_vs o) /\ xdr_valid (ra_arg o) /\ xdr_valid (ra_committed o);
  serial_size o := serial_size (ra_vs o) + serial_size (ra_arg o) + serial_size (ra_committed o);
  save o := save (ra_vs o) >;> save (ra_arg o) >;> save (ra_committed o);
  load :=
    x0 ← load;
    x1 ← load;
    x2 ← load;
    mret (mkreplicate_arg x0 x1 x2);
  wire o := wire (ra_vs o) ++ wire (ra_arg o) ++ wire (ra_committed o);
|}.
#[export] Instance xdr_replicate_arg_laws : XdrLaws replicate_arg.
Proof. solve_xdr xdr_replicate_arg. Qed.

Record replicate_res := mkreplicate_res {
  rr_vs : viewstamp_t;
}.

#[export] Instance xdr_replicate_res : Xdr replicate_res := {|
  xdr_valid o := xdr_valid (rr_vs o);
  serial_size o := serial_size (rr_vs o);
  save o := save (rr_vs o);
  load :=
    x0 ← load;
    mret (mkreplicate_res x0);
  wire o := wire (rr_vs o);
|}.
#[export] Instance xdr_replicate_res_laws : XdrLaws replicate_res.
Proof. solve_xdr xdr_replicate_res. Qed.

Record execute_viewinfo := mkexecute_viewinfo {
  ev_vid : viewid_t;
  ev_primary : string;
}.

#[export] Instance xdr_execute_viewinfo : Xdr execute_viewinfo := {|
  xdr_valid o := xdr_valid (ev_vid o) /\ xdr_valid (ev_primary o);
  serial_size o := serial_size (ev_vid o) + serial_size (ev_primary o);
  save o := save (ev_vid o) >;> save (ev_primary o);
  load :=
    x0 ← load;
    x1 ← load;
    mret (mkexecute_viewinfo x0 x1);
  wire o := wire (ev_vid o) ++ wire (ev_primary o);
|}.
#[export] Instance xdr_execute_viewinfo_laws : XdrLaws execute_viewinfo.
Proof. solve_xdr xdr_execute_viewinfo. Qed.

Inductive execute_res :=
| ER_reply (x : bytes)
| ER_viewinfo (x : execute_viewinfo).

Definition er_ok (o : execute_res) : bool :=
  match o with ER_reply _ => true | ER_viewinfo _ => false end.

#[export] Instance xdr_execute_res : Xdr execute_res := {|
  xdr_valid o :=
    match o with ER_reply x => xdr_valid (x) | ER_viewinfo x => xdr_valid (x) end;
  serial_size o := 4 +
    match o with ER_reply x => serial_size (x) | ER_viewinfo x => serial_size (x) end;
  save o := save (er_ok o) >;>
    match o with ER_reply x => save (x) | ER_viewinfo x => save (x) end;
  load :=
    which ← load;
    if (which : bool) then x ← load; mret (ER_reply x) else x ← load; mret (ER_viewinfo x);
  wire o := wire (er_ok o) ++
    match o with ER_reply x => wire (x) | ER_viewinfo x => wire (x) end;
|}.
#[export] Instance xdr_execute_res_laws : XdrLaws execute_res.
Proof. solve_xdr_bool_union xdr_execute_res er_ok. Qed.

Record vc_state := mkvc_state {
  vc_mode : Z;
  vc_view : view_t;
}.

#[export] Instance xdr_vc_state : Xdr vc_state := {|
  xdr_valid o := u32 (vc_mode o) /\ xdr_valid (vc_view o);
  serial_size o := 4 + serial_size (vc_view o);
  save o := save_u32 (vc_mode o) >;> save (vc_view o);
  load :=
    x0 ← load_u32;
    x1 ← load;
    mret (mkvc_state x0 x1);
  wire o := be32 (vc_mode o) ++ wire (vc_view o);
|}.
#[export] Instance xdr_vc_state_laws : XdrLaws vc_state.
Proof. solve_xdr xdr_vc_state. Qed.

Record view_change_arg := mkview_change_arg {
  vca_oldview : view_t;
  vca_newvid : viewid_t;
}.

#[export] Instance xdr_view_change_arg : Xdr view_change_arg := {|
  xdr_valid o := xdr_valid (vca_oldview o) /\ xdr_valid (vca_newvid o);
  serial_size o := serial_size (vca_oldview o) + serial_size (vca_newvid o);
  save o := save (vca_oldview o) >;> save (vca_newvid o);
  load :=
    x0 ← load;
    x1 ← load;
    mret (mkview_change_arg x0 x1);
  wire o := wire (vca_oldview o) ++ wire (vca_newvid o);
|}.
#[export] Instance xdr_view_change_arg_laws : XdrLaws view_change_arg.
Proof. solve_xdr xdr_view_change_arg. Qed.

Record view_change_reject := mkview_change_reject {
  vcr_oldview : view_t;
  vcr_newid : viewid_t;
}.

#[export] Instance xdr_view_change_reject : Xdr view_change_reject := {|
  xdr_valid o := xdr_valid (vcr_oldview o) /\ xdr_valid (vcr_newid o);
  serial_size o := serial_size (vcr_oldview o) + serial_size (vcr_newid o);
  save o := save (vcr_oldview o) >;> save (vcr_newid o);
  load :=
    x0 ← load;
    x1 ← load;
    mret (mkview_change_reject x0 x1);
  wire o := wire (vcr_oldview o) ++ wire (vcr_newid o);
|}.
#[export] Instance xdr_view_change_reject_laws : XdrLaws view_change_reject.
Proof. solve_xdr xdr_view_change_reject. Qed.

Record view_change_accept := mkview_change_accept {
  vcc_myid : string;
  vcc_latest : viewstamp_t;
  vcc_newview : view_t;
}.

#[export] Instance xdr_view_change_accept : Xdr view_change_accept := {|
  xdr_valid o := xdr_valid (vcc_myid o) /\ xdr_valid (vcc_latest o) /\ xdr_valid (vcc_newview o);
  serial_size o := serial_size (vcc_myid o) + serial_size (vcc_latest o) + serial_size (vcc_newview o);
  save o := save (vcc_myid o) >;> save (vcc_latest o) >;> save (vcc_newview o);
  load :=
    x0 ← load;
    x1 ← load;
    x2 ← load;
    mret (mkview_change_accept x0 x1 x2);
  wire o := wire (vcc_myid o) ++ wire (vcc_latest o) ++ wire (vcc_newview o);
|}.
#[export] Instance xdr_view_change_accept_laws : XdrLaws view_change_accept.
Proof. solve_xdr xdr_view_change_accept. Qed.

Inductive view_change_res :=
| VCR_accept (x : view_change_accept)
| VCR_reject (x : view_change_reject).

Definition vcs_accepted (o : view_change_res) : bool :=
  match o with VCR_accept _ => true | VCR_reject _ => false end.

#[export] Instance xdr_view_change_res : Xdr view_change_res := {|
  xdr_valid o :=
    match o with VCR_accept x => xdr_valid (x) | VCR_reject x => xdr_valid (x) end;
  serial_size o := 4 +
    match o with VCR_accept x => serial_size (x) | VCR_reject x => serial_size (x) end;
  save o := save (vcs_accepted o) >;>
    match o with VCR_accept x => save (x) | VCR_reject x => save (x) end;
  load :=
    which ← load;
    if (which : bool) then x ← load; mret (VCR_accept x) else x ← load; mret (VCR_reject x);
  wire o := wire (vcs_accepted o) ++
    match o with VCR_accept x => wire (x) | VCR_reject x => wire (x) end;
|}.
#[export] Instance xdr_view_change_res_laws : XdrLaws view_change_res.
Proof. solve_xdr_bool_union xdr_view_change_res vcs_accepted. Qed.

Record new_view_arg := mknew_view_arg {
  nva_latest : viewstamp_t;
  nva_view : view_t;
}.

#[export] Instance xdr_new_view_arg : Xdr new_view_arg := {|
  xdr_valid o := xdr_valid (nva_latest o) /\ xdr_valid (nva_view o);
  serial_size o := serial_size (nva_latest o) + serial_size (nva_view o);
  save o := save (nva_latest o) >;> save (nva_view o);
  load :=
    x0 ← load;
    x1 ← load;
    mret (mknew_view_arg x0 x1);
  wire o := wire (nva_latest o) ++ wire (nva_view o);
|}.
#[export] Instance xdr_new_view_arg_laws : XdrLaws new_view_arg.
Proof. solve_xdr xdr_new_view_arg. Qed.

Record new_view_res := mknew_view_res {
  nvr_accepted : bool;
}.

#[export] Instance xdr_new_view_res : Xdr new_view_res := {|
  xdr_valid o := xdr_valid (nvr_accepted o);
  serial_size o := serial_size (nvr_accepted o);
  save o := save (nvr_accepted o);
  load :=
    x0 ← load;
    mret (mknew_view_res x0);
  wire o := wire (nvr_accepted o);
|}.
#[export] Instance xdr_new_view_res_laws : XdrLaws new_view_res.
Proof. solve_xdr xdr_new_view_res. Qed.

Record init_view_arg := mkinit_view_arg {
  iva_view : view_t;
}.

#[export] Instance xdr_init_view_arg : Xdr init_view_arg := {|
  xdr_valid o := xdr_valid (iva_view o);
  serial_size o := serial_size (iva_view o);
  save o := save (iva_view o);
  load :=
    x0 ← load;
    mret (mkinit_view_arg x0);
  wire o := wire (iva_view o);
|}.
#[export] Instance xdr_init_view_arg_laws : XdrLaws init_view_arg.
Proof. solve_xdr xdr_init_view_arg. Qed.

Record init_view_res := mkinit_view_res {
  ivr_succeed : bool;
}.

#[export] Instance xdr_init_view_res : Xdr init_view_res := {|
  xdr_valid o := xdr_valid (ivr_succeed o);
  serial_size o := serial_size (ivr_succeed o);
  save o := save (ivr_succeed o);
  load :=
    x0 ← load;
    mret (mkinit_view_res x0);
  wire o := wire (ivr_succeed o);
|}.
#[export] Instance xdr_init_view_res_laws : XdrLaws init_view_res.
Proof. solve_xdr xdr_init_view_res. Qed.

Record init_view_request := mkinit_view_request {
  ivq_newview : view_t;
  ivq_prev : viewstamp_t;
}.

#[export] Instance xdr_init_view_request : Xdr init_view_request := {|
  xdr_valid o := xdr_valid (ivq_newview o) /\ xdr_valid (ivq_prev o);
  serial_size o := serial_size (ivq_newview o) + serial_size (ivq_prev o);
  save o := save (ivq_newview o) >;> save (ivq_prev o);
  load :=
    x0 ← load;
    x1 ← load;
    mret (mkinit_view_request x0 x1);
  wire o := wire (ivq_newview o) ++ wire (ivq_prev o);
|}.
#[export] Instance xdr_init_view_request_laws : XdrLaws init_view_request.
Proof. solve_xdr xdr_init_view_request. Qed.

