(* ===== verification/Interfaces.v ===== *)
(** * The RPC interfaces of the program

    [api_v1] and [handler_v1] of [include/server.hh] and [include/event.hh],
    [paxos_v1] and [paxos_client_v1] of [paxos/paxos.hh], as values of
    [rpc_interface]. *)

From S2P Require Import Prelude Xdr RpcMsg Rpc ServerTypes PaxosTypes.

(** ** The client API *)

Definition api_arg (p : api_proc) : Type :=
  match p with
  | P_fileOpen => ArgOpen
  | P_setContents => ArgSetContents
  | P_startSession => string
  | P_fileReopen => ArgReopen
  | P_increment | P_decrement => Z
  | P_fileClose | P_fileDelete | P_getContentsAndStat | P_acquire | P_tryAcquire | P_release => FileHandler
  end.
Definition api_res (p : api_proc) : Type :=
  match p with
  | P_fileOpen => RetFd
  | P_getContentsAndStat => RetContentsAndStat
  | P_increment | P_decrement => Z
  | _ => RetBool
  end.

Definition api_v1 : rpc_interface.
Proof.
  refine (RpcInterface api_program api_version api_proc proc_number call_dispatch api_arg api_res
    (fun p => match p with
      | P_fileOpen => _ | P_fileClose => _ | P_fileDelete => _ | P_getContentsAndStat => _
      | P_setContents => _ | P_acquire => _ | P_tryAcquire => _ | P_release => _
      | P_startSession => _ | P_fileReopen => _ | P_increment => _ | P_decrement => _ end)
    (fun p => match p with
      | P_fileOpen => _ | P_fileClose => _ | P_fileDelete => _ | P_getContentsAndStat => _
      | P_setContents => _ | P_acquire => _ | P_tryAcquire => _ | P_release => _
      | P_startSession => _ | P_fileReopen => _ | P_increment => _ | P_decrement => _ end)
    _ _ _ _ _ _); cbn [api_arg api_res]; try exact _;
    try (intros []; exact _); done || by intros [].
Defined.

(** ** Events to the clients *)

Inductive event_proc := P_event_callback.

Definition handler_v1 : rpc_interface.
Proof.
  refine (RpcInterface 1074036870 1 event_proc (fun _ => 77)
    (fun proc => if proc =? 77 then Some P_event_callback else None)
    (fun _ => EventContent) (fun _ => unit) _ _ _ _ _ _ _ _); try exact _; done || by intros [].
Defined.

(** ** The replicas *)

Inductive paxos_proc := P_replicate | P_view_change | P_new_view | P_init_view.

Definition paxos_arg (p : paxos_proc) : Type :=
  match p with
  | P_replicate => replicate_arg
  | P_view_change => view_change_arg
  | P_new_view => new_view_arg
  | P_init_view => init_view_arg
  end.
Definition paxos_res (p : paxos_proc) : Type :=
  match p with
  | P_replicate => replicate_res
  | P_view_change => view_change_res
  | P_new_view => new_view_res
  | P_init_view => init_view_res
  end.

Definition paxos_proc_number (p : paxos_proc) : Z :=
  match p with P_replicate => 2 | P_view_change => 101 | P_new_view => 102 | P_init_view => 103 end.

Definition paxos_dispatch (proc : Z) : option paxos_proc :=
  if proc =? 2 then Some P_replicate else
  if proc =? 101 then Some P_view_change else
  if proc =? 102 then Some P_new_view else
  if proc =? 103 then Some P_init_view else
  None.

Definition paxos_v1 : rpc_interface.
Proof.
  refine (RpcInterface 805531765 1 paxos_proc paxos_proc_number paxos_dispatch paxos_arg paxos_res
    (fun p => match p with P_replicate => _ | P_view_change => _ | P_new_view => _ | P_init_view => _ end)
    (fun p => match p with P_replicate => _ | P_view_change => _ | P_new_view => _ | P_init_view => _ end)
    _ _ _ _ _ _); cbn [paxos_arg paxos_res]; try exact _;
    try (intros []; exact _); done || by intros [].
Defined.

Inductive paxos_client_proc := P_execute.

Definition paxos_client_v1 : rpc_interface.
Proof.
  refine (RpcInterface 805531765 2 paxos_client_proc (fun _ => 1)
    (fun proc => if proc =? 1 then Some P_execute else None)
    (fun _ => execute_arg) (fun _ => execute_res) _ _ _ _ _ _ _ _); try exact _; done || by intros [].
Defined.

(** ** The theorems of [Rpc] on the client API *)

(** Methods over a counter: [increment] adds it, [decrement] aborts, the
    others throw. *)
Definition counting (p : api_proc) : api_arg p -> M Z (api_res p) :=
  match p with
  | P_increment => fun a n => Ret (a + n) (n + 1)
  | P_decrement => fun _ => abort
  | _ => fun _ => throw exn_xdr
  end.
Definition counting_listener : services Z :=
  register_service_base (program api_v1) (version api_v1) (process api_v1 counting) ∅.


Lemma route_spec_witness :
  let m := wire (call_hdr handler_v1 P_event_callback 1, mkEventContent 1 "hello") in
  blen m < 2 ^ 31 /\ route counting_listener m <> ROob.
Proof.
  intros m. assert (blen m < 2 ^ 31) as Hm by done. split; [exact Hm|]. intros E.
  assert (map_Forall (fun _ prog => prog <> ∅) counting_listener) as Hne.
  { intros i prog. unfold counting_listener, register_service_base. rewrite lookup_insert_Some.
    intros [[_ <-]|[_ H]]; [|by rewrite lookup_empty in H]. apply insert_non_empty. }
  pose proof (route_spec counting_listener m Hm Hne) as H. by rewrite E in H.
Defined.
