(* ===== verification/ChubbyServer.v ===== *)
(** * The front end of the server: [server/chubby_server.h]

    Sessions and their connections, the dispatch of requests to the services,
    and the replies and events they send.  Every connection has a [msg_sock]
    ([MsgSock.Writer]); events are written to the descriptor directly.  A use
    of a [msg_sock] that is null or deleted stops the process ([Abort]). *)

From S2P Require Import Prelude Endian Xdr RpcMsg Rpc MsgSock ServerTypes PaxosTypes Interfaces.

(** ** State *)

(** A connected [msg_sock]: its descriptor and its output. *)
Record sock := mkSock { sk_fd : Z; sk_out : Writer }.

(** The members of [chubby_server], the live [msg_sock] objects by address
    (0 is [nullptr]), what [send] has written to each descriptor, and the
    state of the service objects. *)
Record Server (A : Type) := mkServer {
  fd_to_sessionid_map_ : gmap Z Z;
  sessionid_to_fd_map_ : gmap Z Z;
  sessionid_to_msgsock_map_ : gmap Z Z;
  sessionid_to_clientid_map_ : gmap Z string;
  session_id_allocator_ : Z;
  xid_send_counter_ : Z;
  socks : gmap Z sock;
  next_sock : Z;
  direct : list (Z * bytes);
  app : A;
}.
Arguments mkServer {A}.
Arguments fd_to_sessionid_map_ {A}.
Arguments sessionid_to_fd_map_ {A}.
Arguments sessionid_to_msgsock_map_ {A}.
Arguments sessionid_to_clientid_map_ {A}.
Arguments session_id_allocator_ {A}.
Arguments xid_send_counter_ {A}.
Arguments socks {A}.
Arguments next_sock {A}.
Arguments direct {A}.
Arguments app {A}.

Section updates.
Context {A : Type}.
Implicit Types s : Server A.
Definition set_maps (f2s s2f s2m : gmap Z Z) (s2c : gmap Z string) s : Server A :=
  mkServer f2s s2f s2m s2c (session_id_allocator_ s) (xid_send_counter_ s) (socks s) (next_sock s) (direct s) (app s).
Definition set_s2f (m : gmap Z Z) s : Server A :=
  set_maps (fd_to_sessionid_map_ s) m (sessionid_to_msgsock_map_ s) (sessionid_to_clientid_map_ s) s.
Definition set_s2m (m : gmap Z Z) s : Server A :=
  set_maps (fd_to_sessionid_map_ s) (sessionid_to_fd_map_ s) m (sessionid_to_clientid_map_ s) s.
Definition set_allocator (n : Z) s : Server A :=
  mkServer (fd_to_sessionid_map_ s) (sessionid_to_fd_map_ s) (sessionid_to_msgsock_map_ s)
    (sessionid_to_clientid_map_ s) n (xid_send_counter_ s) (socks s) (next_sock s) (direct s) (app s).
Definition set_xid (n : Z) s : Server A :=
  mkServer (fd_to_sessionid_map_ s) (sessionid_to_fd_map_ s) (sessionid_to_msgsock_map_ s)
    (sessionid_to_clientid_map_ s) (session_id_allocator_ s) n (socks s) (next_sock s) (direct s) (app s).
Definition set_socks (k : gmap Z sock) (n : Z) s : Server A :=
  mkServer (fd_to_sessionid_map_ s) (sessionid_to_fd_map_ s) (sessionid_to_msgsock_map_ s)
    (sessionid_to_clientid_map_ s) (session_id_allocator_ s) (xid_send_counter_ s) k n (direct s) (app s).
Definition set_direct (d : list (Z * bytes)) s : Server A :=
  mkServer (fd_to_sessionid_map_ s) (sessionid_to_fd_map_ s) (sessionid_to_msgsock_map_ s)
    (sessionid_to_clientid_map_ s) (session_id_allocator_ s) (xid_send_counter_ s) (socks s) (next_sock s) d (app s).
Definition set_app (a : A) s : Server A :=
  mkServer (fd_to_sessionid_map_ s) (sessionid_to_fd_map_ s) (sessionid_to_msgsock_map_ s)
    (sessionid_to_clientid_map_ s) (session_id_allocator_ s) (xid_send_counter_ s) (socks s) (next_sock s) (direct s) a.
End updates.

Section server.
Context {A : Type}.
(** Whether [write] on a descriptor takes all the bytes. *)
Context (write_ok : Z -> bytes -> bool).
Abbreviation Op := (M (Server A)).

(** ** Replies and events *)

(** [ms->putmsg(m)] *)
Definition ms_putmsg (ms : Z) (m : message) : Op unit := fun s =>
  match socks s !! ms with
  | None => Abort
  | Some k =>
      match putmsg m (sk_out k) with
      | None => Abort
      | Some w => Ret tt (set_socks (<[ms := mkSock (sk_fd k) w]> (socks s)) (next_sock s) s)
      end
  end.

(** [sessionid_to_msgsock_map_[session_id]] *)
Definition msgsock_of (session_id : Z) : Op Z := fun s =>
  match sessionid_to_msgsock_map_ s !! session_id with
  | Some ms => Ret ms s
  | None => Ret 0 (set_s2m (<[session_id := 0]> (sessionid_to_msgsock_map_ s)) s)
  end.
(** [sessionid_to_fd_map_[session_id]] *)
Definition fd_of (session_id : Z) : Op Z := fun s =>
  match sessionid_to_fd_map_ s !! session_id with
  | Some fd => Ret fd s
  | None => Ret 0 (set_s2f (<[session_id := 0]> (sessionid_to_fd_map_ s)) s)
  end.

(** [reply].  It is declared [bool] and ends without a [return] behind [putmsg],
    which the standard leaves undefined; no caller uses the result, and here the
    call returns.  The order in which the [msg_sock] and the message are evaluated
    is not specified. *)
Definition srv_reply {R} `{!Xdr R} (session_id xid : Z) (result : R) : Op unit :=
  if xid =? 2 ^ 32 - 1 then mret tt else
  m ← of_msg (xdr_to_msg (reply_hdr xid, result));
  ms ← msgsock_of session_id;
  ms_putmsg ms m.

(** The bytes of a direct [write] follow what the [msg_sock] of the same
    descriptor has written. *)
Definition write_after (fd : Z) (bs : bytes) (k : sock) : sock :=
  let w := sk_out k in
  if sk_fd k =? fd
  then mkSock fd (mkWriter (wqueue_ w) (wsize_ w) (wstart_ w) (wfail_ w) (write_cb w) (answers w) (stream w ++ bs))
  else k.

Definition sys_write (fd : Z) (bs : bytes) : Op unit := fun s =>
  if write_ok fd bs then
    Ret tt (set_direct (direct s ++ [(fd, bs)])
      (set_socks (write_after fd bs <$> socks s) (next_sock s) s))
  else Abort.  (* assert(std::size_t(n) == m->raw_size()) *)

(** [send<P>]; like [reply] it is taken to return behind its last statement. *)
Definition srv_send (I : rpc_interface) (p : proc_t I) (session_id : Z) (arg : arg_wire_type I p) : Op unit :=
  x ← gets (fun s => wrap32 (xid_send_counter_ s + 1));
  modify (set_xid x) ;;
  fd ← fd_of session_id;
  m ← of_msg (xdr_to_msg (call_hdr I p x, arg));
  sys_write fd (raw_data m).

(** ** Services *)

(** [chubby_service_base_interface] *)
Record chubby_service := Service {
  asynchronized_process : rpc_msg -> bytes -> Z -> Z -> Op unit;
  svc_disconnect : Z -> Op unit;
}.

Section service.
Context (I : rpc_interface) (server_ : forall p, arg_wire_type I p -> Z -> Z -> Op unit).

(** [chubby_service_base::dispatch<P>]; the result object is never used. *)
Definition async_dispatch (p : proc_t I) (session_id xid : Z) (g : bytes) : Op unit :=
  arg ← load_all g;
  server_ p arg session_id xid.

(** [chubby_service_base::asynchronized_process] *)
Definition async_process (chdr : rpc_msg) (g : bytes) (session_id ms : Z) : Op unit :=
  match body chdr with
  | REPLY _ => mret tt
  | CALL c =>
      if negb ((cb_rpcvers c =? 2) && (cb_prog c =? program I) && (cb_vers c =? version I))
      then mret tt else
      match dispatched I (cb_proc c) with
      | Some p => async_dispatch p session_id (xid chdr) g
      | None =>
          m ← of_msg (xdr_to_msg (set_accepted PROC_UNAVAIL (reply_hdr (xid chdr))));
          ms_putmsg ms m
      end
  end.
End service.

(** ** Sessions *)

Context (servers_ : gmap Z (gmap Z chubby_service)).

(** [registerSession] *)
Definition registerSession (fd ms : Z) (client_id : string) : Op Z :=
  session_id ← gets (fun s => wrap32 (session_id_allocator_ s + 1));
  modify (set_allocator session_id) ;;
  modify (fun s => set_maps (<[fd := session_id]> (fd_to_sessionid_map_ s))
    (<[session_id := fd]> (sessionid_to_fd_map_ s)) (<[session_id := ms]> (sessionid_to_msgsock_map_ s))
    (<[session_id := client_id]> (sessionid_to_clientid_map_ s)) s) ;;
  mret session_id.

(** [new msg_sock(ps_, fd)], whose [writev] calls will be answered by [a]. *)
Definition new_sock (fd : Z) (a : list written) : Op Z := fun s =>
  Ret (next_sock s) (set_socks (<[next_sock s := mkSock fd (new_writer a)]> (socks s)) (next_sock s + 1) s).

(** [accept_cb] when [accept] returned [fd]. *)
Definition accept_cb (fd : Z) (peer_name : string) (a : list written) : Op Z :=
  ms ← new_sock fd a;
  registerSession fd ms peer_name.

(** [delete ms]: closing a null pointer does nothing. *)
Definition delete_sock (ms : Z) : Op unit :=
  modify (fun s => set_socks (delete ms (socks s)) (next_sock s) s).

(** The services in the order of their programs and versions. *)
Definition all_services : list chubby_service :=
  concat ((fun kv => (in_order kv.2).*2) <$> in_order servers_).

Definition deregisterSession (session_id : Z) : Op unit :=
  fd ← fd_of session_id;
  ms ← msgsock_of session_id;
  delete_sock ms ;;
  modify (fun s => set_maps (delete fd (fd_to_sessionid_map_ s)) (delete session_id (sessionid_to_fd_map_ s))
    (delete session_id (sessionid_to_msgsock_map_ s)) (delete session_id (sessionid_to_clientid_map_ s)) s) ;;
  for_each all_services (fun s => svc_disconnect s session_id).

Definition getClientId (session_id : Z) : Op string :=
  c ← gets (fun s => sessionid_to_clientid_map_ s !! session_id);
  match c with Some c => mret c | None => abort end.

(** ** Requests *)

Definition asynchronized_dispatch (session_id : Z) (mp : bytes) : Op unit :=
  iter_ms ← gets (fun s => sessionid_to_msgsock_map_ s !! session_id);
  match iter_ms with
  | None => mret tt
  | Some ms =>
      let answer r := m ← of_msg (xdr_to_msg (r : rpc_msg)); ms_putmsg ms m in
      match route servers_ mp with
      | RThrow => throw exn_xdr
      | ROob => abort
      | RRefuse r => answer r
      | RServe vers hdr g =>
          catch_xdr (asynchronized_process vers hdr g session_id ms) (answer (rpc_mkerr hdr GARBAGE_ARGS))
      end
  end.

Definition srv_receive_cb (session_id : Z) (mp : option bytes) : Op unit :=
  match mp with
  | None => deregisterSession session_id
  | Some mp => catch_xdr (asynchronized_dispatch session_id mp) (deregisterSession session_id)
  end.
End server.

(** ** The maps of sessions stay consistent *)

(** A session has an entry in each of the four maps, a live [msg_sock] and a
    descriptor, none of them shared; there is no other [msg_sock], and the
    queue of each is what remains to be written.  The entries of other sessions
    in [sessionid_to_fd_map_], which [fd_of] makes, have descriptor 0. *)
Record sessions_ok {A} (s : Server A) : Prop := {
  so_live id ms : sessionid_to_msgsock_map_ s !! id = Some ms ->
    exists fd k, sessionid_to_fd_map_ s !! id = Some fd /\ fd_to_sessionid_map_ s !! fd = Some id /\
      socks s !! ms = Some k /\ sk_fd k = fd /\ is_Some (sessionid_to_clientid_map_ s !! id);
  so_sock ms : is_Some (socks s !! ms) -> 0 < ms < next_sock s /\
    exists id, sessionid_to_msgsock_map_ s !! id = Some ms;
  so_fd fd id : fd_to_sessionid_map_ s !! fd = Some id ->
    sessionid_to_fd_map_ s !! id = Some fd /\ is_Some (sessionid_to_msgsock_map_ s !! id);
  so_client id : is_Some (sessionid_to_clientid_map_ s !! id) -> is_Some (sessionid_to_msgsock_map_ s !! id);
  so_id id : is_Some (sessionid_to_msgsock_map_ s !! id) -> 0 < id <= session_id_allocator_ s;
  so_next : 0 < next_sock s /\ 0 <= session_id_allocator_ s;
  so_out ms k : socks s !! ms = Some k -> exists put, writes put (sk_out k);
  so_rest id fd : sessionid_to_fd_map_ s !! id = Some fd -> is_Some (sessionid_to_msgsock_map_ s !! id) \/ fd = 0;
}.

Section keeps.
Context {A : Type} (P : A -> Prop).
Implicit Types s : Server A.

(** No session was added or removed, and the services keep [P]. *)
Definition same_sessions s0 s : Prop :=
  sessions_ok s /\ sessionid_to_msgsock_map_ s = sessionid_to_msgsock_map_ s0 /\
  session_id_allocator_ s = session_id_allocator_ s0 /\ (P (app s0) -> P (app s)).

Definition keeps {B} (m : M (Server A) B) : Prop :=
  forall s, sessions_ok s -> sat (m s) (fun _ => same_sessions s) (fun _ => same_sessions s).

Lemma same_refl s : sessions_ok s -> same_sessions s s.
Proof. done. Qed.

Lemma keeps_ret {B} (b : B) : keeps (mret b).
Proof. intros s Hs. by apply same_refl. Qed.
Lemma keeps_throw {B} e : keeps (throw e : M _ B).
Proof. intros s Hs. by apply same_refl. Qed.
Lemma keeps_abort {B} : keeps (abort : M _ B).
Proof. by intros s Hs. Qed.
Lemma keeps_gets {B} (f : Server A -> B) : keeps (gets f).
Proof. intros s Hs. by apply same_refl. Qed.
Lemma same_trans s0 s1 s2 : same_sessions s0 s1 -> same_sessions s1 s2 -> same_sessions s0 s2.
Proof. intros (_ & E1 & E2 & H1) (Hs & E3 & E4 & H2). split_and!; [done|congruence|congruence|tauto]. Qed.

Lemma keeps_bind {B C} (m : M (Server A) B) (k : B -> M _ C) :
  keeps m -> (forall b, keeps (k b)) -> keeps (m ≫= k).
Proof.
  intros Hm Hk s Hs. apply sat_bind. eapply sat_mono; [by apply Hm| |done].
  intros b s1 H1. eapply sat_mono; [apply (Hk b s1), H1| |]; intros ? s2; by apply same_trans.
Qed.
Lemma keeps_for_each {B} (l : list B) body : (forall b, keeps (body b)) -> keeps (for_each l body).
Proof. intros Hb. induction l as [|b l IH]; cbn; [apply keeps_ret|]. apply keeps_bind; [apply Hb|]. by intros ?. Qed.
Lemma keeps_try {B} (m : M (Server A) B) h : keeps m -> (forall e, keeps (h e)) -> keeps (try_catch m h).
Proof.
  intros Hm Hh s Hs. apply sat_try. eapply sat_mono; [by apply Hm|done|].
  intros e s1 H1. eapply sat_mono; [apply (Hh e s1), H1| |]; intros ? s2; by apply same_trans.
Qed.
Lemma keeps_catch {B} (m h : M (Server A) B) : keeps m -> keeps h -> keeps (catch_xdr m h).
Proof. intros Hm Hh. apply keeps_try; [done|]. intros []; try apply keeps_throw. done. Qed.
Lemma keeps_of_msg {B} (r : msg_res B) : keeps (of_msg r).
Proof. destruct r; first [apply keeps_ret|apply keeps_throw|apply keeps_abort]. Qed.
Lemma keeps_load_all {B} `{!Xdr B} g : keeps (load_all g : M (Server A) B).
Proof. unfold load_all. destruct (load g) as [[b []]| |]; auto using keeps_ret, keeps_throw, keeps_abort. Qed.

(** A state that differs in the [msg_sock]s only in their output. *)
Lemma ok_socks s k' n d x : sessions_ok s -> n = next_sock s ->
  (forall ms, sk_fd <$> k' !! ms = sk_fd <$> socks s !! ms) ->
  (forall ms k, k' !! ms = Some k -> exists put, writes put (sk_out k)) ->
  same_sessions s (set_direct d (set_xid x (set_socks k' n s))).
Proof.
  intros [H1 H2 H3 H4 H5 H6 H7 H8] -> Hk Ho. split; [|done]. split; cbn; try done.
  - intros id ms Hm. destruct (H1 id ms Hm) as (fd & k & ? & ? & E & Ef & ?).
    specialize (Hk ms). rewrite E in Hk. destruct (k' !! ms) as [k1|] eqn:E1; [|done].
    cbn in Hk. injection Hk as Hk. exists fd, k1. split_and!; [done|done|done|congruence|done].
  - intros ms [k1 E1]. apply H2. specialize (Hk ms). rewrite E1 in Hk. by destruct (socks s !! ms).
Qed.

(** A message that was made by [xdr_to_msg] has a length word. *)
Lemma keeps_make {R} `{!Xdr R} (r : R) (k : message -> M (Server A) unit) :
  (forall m, m_len m <> [] -> keeps (k m)) -> keeps (m ← of_msg (xdr_to_msg r); k m).
Proof.
  intros Hk s Hs. apply sat_bind. assert (forall m, xdr_to_msg r = MOk m -> m_len m <> []) as Hm.
  { unfold xdr_to_msg, alloc_len. intros m. destruct (_ <? _); [|done]. destruct (negb _); [done|].
    destruct (save _ _) as [w| |]; [|done..]. destruct (_ =? _); [|done]. by intros [= <-]. }
  destruct (xdr_to_msg r) as [m| | |]; [|by apply same_refl|done..]. by apply (Hk m (Hm m eq_refl)).
Qed.

Lemma keeps_putmsg ms m : m_len m <> [] -> keeps (ms_putmsg ms m).
Proof.
  intros Hm s Hs. unfold ms_putmsg. destruct (socks s !! ms) as [k|] eqn:E; [|done].
  destruct (so_out s Hs ms k E) as [put Hp]. destruct (putmsg_ok m put _ Hm Hp) as (w & -> & Hw). unfold sat.
  refine (ok_socks s (<[ms := mkSock (sk_fd k) w]> (socks s)) _ (direct s) (xid_send_counter_ s) Hs eq_refl _ _);
    intros ms'; (destruct (decide (ms' = ms)) as [->|]; [rewrite lookup_insert_eq|rewrite lookup_insert_ne by done]).
  - by rewrite E.
  - done.
  - intros k' [= <-]. by eexists.
  - apply (so_out s Hs).
Qed.

Lemma write_after_out fd bs k : (exists put, writes put (sk_out k)) -> exists put, writes put (sk_out (write_after fd bs k)).
Proof.
  intros [put Hw]. unfold write_after. destruct (_ =? _); [|by exists put]. unfold writes in *. cbn.
  destruct (wfail_ (sk_out k)).
  - destruct Hw as (? & ? & ? & ?). by eexists.
  - destruct Hw as [? _]. by eexists.
Qed.

Lemma keeps_write write_ok fd bs : keeps (sys_write write_ok fd bs : M (Server A) unit).
Proof.
  intros s Hs. unfold sys_write. destruct (write_ok fd bs); [|done]. unfold sat.
  refine (ok_socks s (write_after fd bs <$> socks s) _ _ (xid_send_counter_ s) Hs eq_refl _ _);
    intros ms'; rewrite lookup_fmap.
  - destruct (socks s !! ms') as [k|]; [|done]. cbn. unfold write_after. by destruct (Z.eqb_spec (sk_fd k) fd) as [<-|].
  - destruct (socks s !! ms') as [k0|] eqn:E; [|done]. cbn. intros k [= <-].
    by apply write_after_out, (so_out s Hs ms').
Qed.

Lemma keeps_xid x : keeps (modify (set_xid x) : M (Server A) unit).
Proof. intros s Hs. exact (ok_socks s (socks s) _ (direct s) x Hs eq_refl (fun _ => eq_refl) (so_out s Hs)). Qed.

Lemma keeps_fd_of id : keeps (fd_of id : M (Server A) Z).
Proof.
  intros s Hs. unfold fd_of. destruct (_ !! id) as [fd|] eqn:E; [by apply same_refl|]. unfold sat.
  split; [|done]. destruct Hs as [H1 H2 H3 H4 H5 H6 H7 H8]. split; cbn; try done.
  - intros id' ms Hm. destruct (H1 id' ms Hm) as (fd & k & E' & ?). exists fd, k.
    rewrite lookup_insert_ne by congruence. done.
  - intros fd id' Hf. destruct (H3 fd id' Hf) as [E' ?]. rewrite lookup_insert_ne by congruence. done.
  - intros id' fd. rewrite lookup_insert_Some. intros [[_ <-]|[_ Hf]]; [by right|by eapply H8].
Qed.

(** [msgsock_of] on a session without an entry is followed by a crash. *)
Lemma keeps_reply {R} `{!Xdr R} id x (r : R) : keeps (srv_reply id x r : M (Server A) unit).
Proof.
  unfold srv_reply. destruct (x =? 2 ^ 32 - 1); [apply keeps_ret|].
  apply keeps_make. intros m Hm s Hs. unfold mbind, M_bind, msgsock_of.
  destruct (_ !! id) as [ms|]; [by apply keeps_putmsg|]. unfold ms_putmsg. cbn.
  destruct (socks s !! 0) as [k|] eqn:E; [|done].
  destruct (so_sock s Hs 0); [by eexists|lia].
Qed.

Lemma keeps_send write_ok I p id arg : keeps (srv_send write_ok I p id arg : M (Server A) unit).
Proof.
  unfold srv_send. apply keeps_bind; [apply keeps_gets|intros x].
  apply keeps_bind; [apply keeps_xid|intros _]. apply keeps_bind; [apply keeps_fd_of|intros fd].
  apply keeps_bind; [apply keeps_of_msg|intros m]. apply keeps_write.
Qed.
End keeps.

Section sessions.
Context {A : Type} (P : A -> Prop).
Implicit Types s : Server A.

(** A new connection: the kernel returns a descriptor that is not in use. *)
Lemma accept_run fd name a s : sessions_ok s -> fd_to_sessionid_map_ s !! fd = None ->
  session_id_allocator_ s + 1 < 2 ^ 32 ->
  exists s', accept_cb fd name a s = Ret (session_id_allocator_ s + 1) s' /\ sessions_ok s' /\
    sessionid_to_msgsock_map_ s' = <[session_id_allocator_ s + 1 := next_sock s]> (sessionid_to_msgsock_map_ s) /\
    sessionid_to_msgsock_map_ s !! (session_id_allocator_ s + 1) = None /\ app s' = app s.
Proof.
  intros Hs Hfd Halloc. pose proof (so_next s Hs) as [Hn Ha].
  set (id := session_id_allocator_ s + 1). assert (wrap32 id = id) as Hid by (apply wrap32_small; unfold u32; lia).
  assert (sessionid_to_msgsock_map_ s !! id = None) as Hnew.
  { destruct (_ !! id) eqn:E; [|done]. destruct (so_id s Hs id); [by eexists|lia]. }
  assert (socks s !! next_sock s = None) as Hsock.
  { destruct (socks s !! _) eqn:E; [|done]. destruct (so_sock s Hs (next_sock s)); [by eexists|lia]. }
  eexists. split; [unfold accept_cb, new_sock, registerSession, mbind, M_bind; cbn; fold id; by rewrite Hid|].
  split; [|done]. destruct Hs as [H1 H2 H3 H4 H5 H6 H7 H8]. split; cbn.
  - intros id' ms. destruct (decide (id' = id)) as [->|Hne].
    + rewrite lookup_insert_eq. intros [= <-]. exists fd, (mkSock fd (new_writer a)).
      rewrite !lookup_insert_eq. by split_and!.
    + rewrite lookup_insert_ne by done. intros Hm. destruct (H1 id' ms Hm) as (fd' & k & E1 & E2 & E3 & E4 & E5).
      exists fd', k. assert (fd' <> fd) by congruence. assert (ms <> next_sock s) by congruence.
      rewrite !lookup_insert_ne by done. by split_and!.
  - intros ms Hms. destruct (decide (ms = next_sock s)) as [->|Hne].
    + split; [lia|]. exists id. by rewrite lookup_insert_eq.
    + rewrite lookup_insert_ne in Hms by done. destruct (H2 ms Hms) as [? [id' Hid']]. split; [lia|].
      exists id'. by rewrite lookup_insert_ne by congruence.
  - intros fd' id'. destruct (decide (fd' = fd)) as [->|Hne].
    + rewrite lookup_insert_eq. intros [= <-]. rewrite !lookup_insert_eq. by split; [|eexists].
    + rewrite lookup_insert_ne by done. intros Hf. destruct (H3 fd' id' Hf) as [? [ms' Hm]].
      rewrite !lookup_insert_ne by congruence. by split; [|eexists].
  - intros id'. destruct (decide (id' = id)) as [->|Hne]; [by rewrite !lookup_insert_eq; eexists|].
    rewrite !lookup_insert_ne by done. apply H4.
  - intros id'. destruct (decide (id' = id)) as [->|Hne]; [lia|].
    rewrite lookup_insert_ne by done. intros Hm. specialize (H5 id' Hm). lia.
  - lia.
  - intros ms k. destruct (decide (ms = next_sock s)) as [->|].
    + rewrite lookup_insert_eq. intros [= <-]. exists []. split; [|done]. by split_and!; [constructor|..].
    + rewrite lookup_insert_ne by done. apply H7.
  - intros id' fd'. destruct (decide (id' = id)) as [->|Hne]; [rewrite !lookup_insert_eq; left; by eexists|].
    rewrite !lookup_insert_ne by done. apply H8.
Qed.

(** Removing a session: the state in which its services are told. *)
Definition without_session (id fd ms : Z) s : Server A :=
  set_maps (delete fd (fd_to_sessionid_map_ s)) (delete id (sessionid_to_fd_map_ s))
    (delete id (sessionid_to_msgsock_map_ s)) (delete id (sessionid_to_clientid_map_ s))
    (set_socks (delete ms (socks s)) (next_sock s) s).

Lemma without_session_ok id fd ms s : sessions_ok s ->
  sessionid_to_msgsock_map_ s !! id = Some ms -> sessionid_to_fd_map_ s !! id = Some fd ->
  sessions_ok (without_session id fd ms s).
Proof.
  intros [H1 H2 H3 H4 H5 H6 H7 H8] Hm Hf. destruct (H1 id ms Hm) as (fd0 & k & E1 & E2 & E3 & E4 & E5).
  assert (fd0 = fd) as -> by congruence.
  assert (forall id', id' <> id -> forall ms', sessionid_to_msgsock_map_ s !! id' = Some ms' -> ms' <> ms) as Hms.
  { intros id' Hne ms' Hm' ->. destruct (H1 id' ms Hm') as (fd' & k' & ? & ? & ? & ? & ?). congruence. }
  split; cbn.
  - intros id' ms'. rewrite lookup_delete_Some. intros [Hne Hm'].
    destruct (H1 id' ms' Hm') as (fd' & k' & F1 & F2 & F3 & F4 & F5). exists fd', k'.
    assert (fd' <> fd) by congruence. pose proof (Hms id' ltac:(done) ms' Hm').
    rewrite !lookup_delete_ne by done. by split_and!.
  - intros ms' [k' Hk]. rewrite lookup_delete_Some in Hk. destruct Hk as [Hne Hk].
    destruct (H2 ms') as [? [id' Hid']]; [by eexists|]. split; [done|]. exists id'.
    rewrite lookup_delete_ne; [done|]. congruence.
  - intros fd' id'. rewrite lookup_delete_Some. intros [Hne Hf']. destruct (H3 fd' id' Hf') as [F1 [ms' F2]].
    assert (id <> id') by congruence. rewrite !lookup_delete_ne by done. by split; [|eexists].
  - intros id' [c Hc]. rewrite lookup_delete_Some in Hc. destruct Hc as [Hne Hc].
    rewrite lookup_delete_ne by done. apply H4. by eexists.
  - intros id' [ms' Hm']. rewrite lookup_delete_Some in Hm'. destruct Hm' as [_ Hm']. apply H5. by eexists.
  - done.
  - intros ms' k'. rewrite lookup_delete_Some. intros [_ Hk]. by apply (H7 ms').
  - intros id' fd'. rewrite lookup_delete_Some. intros [Hne Hf']. rewrite lookup_delete_ne by done. by apply H8.
Qed.

Context (servers_ : gmap Z (gmap Z (chubby_service (A := A)))).

(** The methods of the services add and remove no session and keep [P]. *)
Definition keeping (v : chubby_service (A := A)) : Prop :=
  (forall hdr g id ms, keeps P (asynchronized_process v hdr g id ms)) /\ forall id, keeps P (svc_disconnect v id).
Context (Hservers : map_Forall (fun _ => map_Forall (fun _ => keeping)) servers_).

Lemma services_keep v : v ∈ all_services servers_ -> keeping v.
Proof.
  unfold all_services. rewrite list_elem_of_In, in_concat. intros (l & Hl & Hv).
  apply list_elem_of_In in Hl. apply list_elem_of_In in Hv. apply list_elem_of_fmap in Hl as ([pr vs] & -> & Hp).
  apply list_elem_of_fmap in Hv as ([vn v'] & -> & Hv). apply elem_of_in_order in Hp, Hv.
  by apply (Hservers pr vs Hp vn v').
Qed.

Lemma deregister_ok id s : sessions_ok s -> is_Some (sessionid_to_msgsock_map_ s !! id) ->
  let Q s' := sessions_ok s' /\ sessionid_to_msgsock_map_ s' = delete id (sessionid_to_msgsock_map_ s) /\
    session_id_allocator_ s' = session_id_allocator_ s /\ (P (app s) -> P (app s')) in
  sat (deregisterSession servers_ id s) (fun _ => Q) (fun _ => Q).
Proof.
  intros Hs [ms Hm]. destruct (so_live s Hs id ms Hm) as (fd & k & Hf & _).
  unfold deregisterSession, fd_of, msgsock_of, delete_sock, modify. unfold mbind, M_bind. rewrite Hf. cbv beta iota.
  rewrite Hm. cbv beta iota. fold (without_session id fd ms s).
  pose proof (without_session_ok id fd ms s Hs Hm Hf) as Hs'.
  assert (sat (for_each (all_services servers_) (fun v => svc_disconnect v id) (without_session id fd ms s))
    (fun _ => same_sessions P (without_session id fd ms s)) (fun _ => same_sessions P (without_session id fd ms s))) as H.
  { assert (forall l, (forall v, v ∈ l -> keeping v) -> keeps P (for_each l (fun v => svc_disconnect v id))) as Hl.
    { intros l. induction l as [|v l IH]; intros Hl; cbn; [apply keeps_ret|].
      apply keeps_bind; [apply Hl; by left|]. intros _. apply IH. intros v' Hv'. apply Hl. by right. }
    apply Hl; [|done]. apply services_keep. }
  eapply sat_mono; [exact H| |]; intros ? s1 (? & E1 & E2 & ?); split_and!; try done; congruence.
Qed.

Lemma keeps_dispatch id m : keeps P (asynchronized_dispatch servers_ id m).
Proof.
  unfold asynchronized_dispatch. apply keeps_bind; [apply keeps_gets|]. intros [ms|]; [|apply keeps_ret].
  assert (forall r : rpc_msg, keeps P (m ← of_msg (xdr_to_msg r); ms_putmsg ms m : M (Server A) unit)) as Ha.
  { intros r. apply keeps_make. intros ? ?. by apply keeps_putmsg. }
  pose proof (route_served servers_ m) as Hr.
  destruct (route servers_ m) as [| |r|v hdr g]; [apply keeps_throw|apply keeps_abort|apply Ha|].
  apply keeps_catch; [|apply Ha]. destruct Hr as (p & n & prog & Hp & Hv). by apply (Hservers p prog Hp n v Hv).
Qed.

(** The callback of a connection keeps the sessions, or removes this one. *)
Lemma receive_ok id m s : sessions_ok s -> is_Some (sessionid_to_msgsock_map_ s !! id) ->
  let Q s' := sessions_ok s' /\ (sessionid_to_msgsock_map_ s' = sessionid_to_msgsock_map_ s \/
    sessionid_to_msgsock_map_ s' = delete id (sessionid_to_msgsock_map_ s)) /\
    session_id_allocator_ s' = session_id_allocator_ s /\ (P (app s) -> P (app s')) in
  sat (srv_receive_cb servers_ id m s) (fun _ => Q) (fun _ => Q).
Proof.
  intros Hs Hid Q. destruct m as [m|]; cbn.
  - apply sat_try. eapply sat_mono; [by apply keeps_dispatch| |]; [intros ? s1 (? & ? & ? & ?); unfold Q; tauto|].
    intros e s1 (Hs1 & E1 & E2 & HP). destruct e; try (unfold Q; cbn; tauto).
    eapply sat_mono; [apply deregister_ok; [done|by rewrite E1]| |];
      intros ? s2 (? & E3 & E4 & ?); unfold Q; rewrite E3, E4, E1, E2; tauto.
  - eapply sat_mono; [by apply deregister_ok| |]; intros ? s2 (? & ? & ? & ?); unfold Q; tauto.
Qed.
End sessions.

(** ** What replies and events do *)

(** The messages put on the connection of a session so far. *)
Definition sent {A} (id : Z) (put : bytes) (s : Server A) : Prop :=
  exists ms k, sessionid_to_msgsock_map_ s !! id = Some ms /\ socks s !! ms = Some k /\ writes put (sk_out k).

(** [s'] is [s] after messages and direct writes: [w] was written directly. *)
Definition front_grows {A} (x : Z) (w : list (Z * bytes)) (s s' : Server A) : Prop :=
  same_sessions (fun _ => True) s s' /\ app s' = app s /\ sessionid_to_fd_map_ s' = sessionid_to_fd_map_ s /\
  xid_send_counter_ s' = x /\ direct s' = direct s ++ w.

Section replies.
Context {A : Type}.
Implicit Types s : Server A.

(** Two sessions share no socket. *)
Lemma socks_disjoint s i j ms : sessions_ok s -> sessionid_to_msgsock_map_ s !! i = Some ms ->
  sessionid_to_msgsock_map_ s !! j = Some ms -> i = j.
Proof.
  intros Hs Hi Hj. destruct (so_live s Hs i ms Hi) as (fd & k & E1 & E2 & E3 & E4 & _).
  destruct (so_live s Hs j ms Hj) as (fd' & k' & F1 & F2 & F3 & F4 & _). congruence.
Qed.

(** A reply of a live session: its bytes follow those put on the connection
    before, and nothing else changes. *)
Lemma srv_reply_run {R} `{!Xdr R, !XdrLaws R} id x (r : R) s :
  sessions_ok s -> is_Some (sessionid_to_msgsock_map_ s !! id) ->
  u32 x -> x <> 2 ^ 32 - 1 -> xdr_valid r -> blen (wire r) + 24 < 2 ^ 31 ->
  exists s', srv_reply id x r s = Ret tt s' /\ front_grows (xid_send_counter_ s) [] s s' /\
    forall i put, sent i put s ->
      sent i (put ++ (if i =? id then frame_of (wire (reply_hdr x) ++ wire r) else [])) s'.
Proof.
  intros Hs [ms Hm] Hx Hx' Hr Hl. destruct (so_live s Hs id ms Hm) as (fd & k & _ & _ & Hk & _).
  destruct (so_out s Hs ms k Hk) as [put0 Hp0]. destruct (reply_hdr_valid x Hx) as [Hv Hvl].
  assert (blen (wire (reply_hdr x, r)) < 2 ^ 31) as Hlt by (cbn [wire xdr_argpack fst snd]; rewrite blen_app; lia).
  assert (xdr_valid (reply_hdr x, r)) as Hvr by by split.
  set (m := framed (wire (reply_hdr x, r))).
  assert (m_len m <> []) as Hne by (intros Hn; discriminate Hn).
  assert (raw_data m = frame_of (wire (reply_hdr x) ++ wire r)) as Hraw by reflexivity.
  assert (of_msg (xdr_to_msg (reply_hdr x, r)) s = Ret m s) as Hmake by exact (of_msg_ok (reply_hdr x, r) s Hvr Hlt).
  clearbody m. rewrite <-Hraw.
  destruct (putmsg_ok m put0 (sk_out k) Hne Hp0) as (w & Hw & _).
  unfold srv_reply. destruct (Z.eqb_spec x (2 ^ 32 - 1)); [done|].
  rewrite (bind_Ret _ _ s m s Hmake).
  rewrite (bind_Ret (msgsock_of id) _ s ms s) by (unfold msgsock_of; by rewrite Hm).
  assert (keeps (fun _ => True) (ms_putmsg ms m : M (Server A) unit)) as Hkeep by by apply keeps_putmsg.
  specialize (Hkeep s Hs). unfold ms_putmsg in *. rewrite Hk, Hw in *.
  eexists. split; [done|]. split; [split_and!; try done; by rewrite app_nil_r|].
  intros i put (ms' & k' & E1 & E2 & E3). exists ms'.
  destruct (Z.eqb_spec i id) as [->|Hi].
  - assert (ms' = ms) as -> by congruence. assert (k' = k) as -> by congruence.
    destruct (putmsg_ok m put (sk_out k) Hne E3) as (w' & Hw' & Hput). assert (w' = w) as -> by congruence.
    exists (mkSock (sk_fd k) w). split; [done|]. cbn. rewrite lookup_insert_eq. by split; [|exact Hput].
  - exists k'. rewrite app_nil_r. split; [done|]. cbn. rewrite lookup_insert_ne; [done|].
    intros ->. by apply Hi, (socks_disjoint s i id ms').
Qed.

(** An event: one direct write on the descriptor of the session, which leaves
    the queues of all connections as they are. *)
Lemma srv_send_run write_ok I p id (arg : arg_wire_type I p) fd s :
  let x := wrap32 (xid_send_counter_ s + 1) in
  let bs := frame_of (wire (call_hdr I p x) ++ wire arg) in
  sessions_ok s -> sessionid_to_fd_map_ s !! id = Some fd -> write_ok fd bs = true ->
  xdr_valid arg -> blen (wire arg) + 40 < 2 ^ 31 ->
  exists s', srv_send write_ok I p id arg s = Ret tt s' /\ front_grows x [(fd, bs)] s s' /\
    forall i put, sessionid_to_fd_map_ s !! i <> Some fd -> sent i put s -> sent i put s'.
Proof.
  intros x bs Hs Hf Hok Ha Hl. change (write_ok fd bs = true) in Hok. pose proof (wrap32_u32 (xid_send_counter_ s + 1)) as Hx. fold x in Hx.
  destruct (call_hdr_valid I p x Hx) as [Hv Hvl].
  assert (blen (wire (call_hdr I p x, arg)) < 2 ^ 31) as Hlt by (cbn [wire xdr_argpack fst snd]; rewrite blen_app; lia).
  assert (xdr_valid (call_hdr I p x, arg)) as Hva by by split.
  assert (raw_data (framed (wire (call_hdr I p x, arg))) = bs) as Hraw by reflexivity. clearbody bs.
  assert (keeps (fun _ : A => True) (srv_send write_ok I p id arg)) as Hkeep by apply keeps_send.
  assert (exists s', srv_send write_ok I p id arg s = Ret tt s' /\
    s' = set_direct (direct s ++ [(fd, bs)]) (set_socks (write_after fd bs <$> socks s) (next_sock s) (set_xid x s)))
    as (s' & Hrun & ->).
  { eexists. split; [|done]. unfold srv_send.
    erewrite bind_Ret by reflexivity. erewrite bind_Ret by reflexivity.
    rewrite (bind_Ret (fd_of id) _ (set_xid x s) fd (set_xid x s)) by (unfold fd_of; cbn; by rewrite Hf).
    rewrite (bind_Ret _ _ (set_xid x s) _ (set_xid x s) (of_msg_ok (call_hdr I p x, arg) _ Hva Hlt)).
    fold (framed (wire (call_hdr I p x, arg))). rewrite Hraw. unfold sys_write. by rewrite Hok. }
  specialize (Hkeep s Hs). rewrite Hrun in Hkeep.
  eexists. split; [exact Hrun|]. split; [by split_and!|].
  intros i put Hi (ms & k & E1 & E2 & E3). exists ms, k. split_and!; [done| |done].
  cbn. rewrite lookup_fmap, E2. cbn. unfold write_after.
  destruct (so_live s Hs i ms E1) as (fd' & k' & F1 & _ & F3 & F4 & _).
  destruct (Z.eqb_spec (sk_fd k) fd); [congruence|done].
Qed.
End replies.
