(* ===== verification/Names.v ===== *)
(** * Node names: [server/serverimpl.cc]

    [checkName] decides which paths the server accepts and [getParentName]
    finds the directory of a path.  Both are proved against a reference view
    of a path as the list of its components. *)

From S2P Require Import Prelude.

(** [key[i]]: a [std::string] ends in a NUL character. *)
Definition char_at (b : bytes) (i : nat) : ascii := default "000"%char (b !! i).

Definition slash : ascii := "/"%char.
Definition is_slash (c : ascii) : bool := Ascii.eqb c slash.

Definition validChars : bytes :=
  str_bytes "_/0123456789abcdefghijklmnopqrstuvwxyzABCDEFGHIJKLMNOPQRSTUVWXYZ".

Definition checkChar (c : ascii) : bool := existsb (Ascii.eqb c) validChars.

(** [key.find("//") != npos] *)
Fixpoint has_double_slash (b : bytes) : bool :=
  match b with
  | c :: (d :: _) as b' => (is_slash c && is_slash d) || has_double_slash b'
  | _ => false
  end.

Definition checkName (key : string) : bool :=
  let b := str_bytes key in
  if negb (is_slash (char_at b 0)) then false else
  if is_slash (char_at b (length b - 1)) then false else
  if negb (forallb checkChar b) then false else
  if has_double_slash b then false else
  true.

(** The position of the last slash after position 0, or 0. *)
Fixpoint last_slash (b : bytes) (pos : nat) : nat :=
  match pos with
  | O => O
  | S pos' => if is_slash (char_at b pos) then pos else last_slash b pos'
  end.

(** [int pos = key.length() - 1] is -1 for the empty key; the loop is then not
    entered and [std::string(key, 0, -1)] is the whole key. *)
Definition getParentName (key : string) : string :=
  let b := str_bytes key in
  match length b with
  | O => key
  | S n =>
      let pos := last_slash b n in
      if (pos =? 0)%nat then "/" else bytes_str (take pos b)
  end.

(** ** Paths as lists of components *)

Fixpoint split_slash (b : bytes) : list bytes :=
  match b with
  | [] => [[]]
  | c :: b =>
      if is_slash c then [] :: split_slash b else
      match split_slash b with
      | [] => [[c]]
      | d :: ds => (c :: d) :: ds
      end
  end.

Definition nonempty (b : bytes) : bool := match b with [] => false | _ => true end.

(** The names the server accepts: a slash and then non-empty components of
    letters, digits and underscores, separated by single slashes. *)
Definition valid_path (key : string) : bool :=
  match str_bytes key with
  | c :: b => is_slash c && forallb nonempty (split_slash b) && forallb (forallb checkChar) (split_slash b)
  | [] => false
  end.

Lemma is_slash_true c : is_slash c = true <-> c = slash.
Proof. apply Ascii.eqb_eq. Qed.

Lemma split_slash_ne b : split_slash b <> [].
Proof. destruct b as [|c b]; [done|]. simpl. by destruct (is_slash c), (split_slash b). Qed.

Definition ends_slash (b : bytes) : bool :=
  match list.last b with Some c => is_slash c | None => false end.
Definition starts_slash (b : bytes) : bool :=
  match b with c :: _ => is_slash c | [] => false end.

Lemma has_double_cons c b :
  has_double_slash (c :: b) = (is_slash c && starts_slash b) || has_double_slash b.
Proof. destruct b as [|d b]; simpl; [by rewrite andb_false_r|done]. Qed.

Lemma ends_slash_cons c b :
  ends_slash (c :: b) = match b with [] => is_slash c | _ => ends_slash b end.
Proof. by destruct b. Qed.

Lemma split_head_nonempty b :
  match split_slash b with d :: _ => nonempty d | [] => false end =
  negb (starts_slash b) && nonempty b.
Proof.
  destruct b as [|c b]; [done|]. simpl. destruct (is_slash c); [done|].
  pose proof (split_slash_ne b). by destruct (split_slash b).
Qed.

(** The components after the first are non-empty exactly when no two slashes
    are adjacent and the path does not end in one. *)
Lemma split_tail_nonempty b :
  forallb nonempty (tail (split_slash b)) = negb (ends_slash b) && negb (has_double_slash b).
Proof.
  induction b as [|c b IH]; [done|].
  rewrite has_double_cons, ends_slash_cons. simpl. destruct (is_slash c) eqn:Hc; simpl.
  - pose proof (split_head_nonempty b) as Hh. pose proof (split_slash_ne b).
    destruct (split_slash b) as [|d ds] eqn:Hs; [done|]. simpl in *. rewrite Hh, IH.
    destruct b as [|e b]; [done|]. simpl. destruct (is_slash e); simpl.
    + by rewrite andb_false_r.
    + done.
  - pose proof (split_slash_ne b). destruct (split_slash b) as [|d ds] eqn:Hs; [done|].
    simpl in *. rewrite IH. by destruct b.
Qed.

Lemma check_slash : checkChar slash = true.
Proof. done. Qed.

Lemma split_chars b : forallb (forallb checkChar) (split_slash b) = forallb checkChar b.
Proof.
  induction b as [|c b IH]; [done|]. cbn [split_slash forallb]. destruct (is_slash c) eqn:Hc.
  - apply is_slash_true in Hc as ->. by rewrite check_slash.
  - pose proof (split_slash_ne b). destruct (split_slash b) as [|d ds]; [done|].
    cbn [forallb] in *. rewrite <-IH. by rewrite andb_assoc.
Qed.

Lemma char_at_last c b : is_slash (char_at (c :: b) (length (c :: b) - 1)) = ends_slash (c :: b).
Proof.
  unfold char_at, ends_slash. rewrite last_lookup. simpl. rewrite Nat.sub_0_r.
  by destruct ((c :: b) !! length b).
Qed.

(** C39: [checkName] accepts exactly the paths made of a leading slash and
    non-empty components of letters, digits and underscores. *)
Theorem checkName_valid_path key : checkName key = valid_path key.
Proof.
  unfold checkName, valid_path. destruct (str_bytes key) as [|c b] eqn:Hk; [done|].
  change (char_at (c :: b) 0) with c. destruct (is_slash c) eqn:Hc; [|done]. simpl negb. cbv iota.
  rewrite char_at_last, ends_slash_cons, has_double_cons, split_chars, Hc.
  pose proof (split_tail_nonempty b) as Ht. pose proof (split_head_nonempty b) as Hh.
  pose proof (split_slash_ne b). destruct (split_slash b) as [|d ds]; [done|]. simpl in *.
  rewrite Ht, Hh. apply is_slash_true in Hc as ->. rewrite check_slash.
  destruct b as [|e b]; [done|]. simpl.
  destruct (ends_slash (e :: b)), (is_slash e), (checkChar e), (forallb checkChar b); simpl;
    rewrite ?andb_true_r, ?andb_false_r; try done; by destruct (has_double_slash (e :: b)).
Qed.

(** ** Parents *)

Lemma last_slash_le b pos : (last_slash b pos <= pos)%nat.
Proof. induction pos as [|pos IH]; simpl; [lia|]. destruct (is_slash _); lia. Qed.

Lemma last_slash_at b pos : last_slash b pos <> O -> is_slash (char_at b (last_slash b pos)) = true.
Proof.
  induction pos as [|pos IH]; simpl; [done|]. by destruct (is_slash (char_at b (S pos))) eqn:H.
Qed.

Lemma last_slash_after b pos i : (last_slash b pos < i <= pos)%nat -> is_slash (char_at b i) = false.
Proof.
  induction pos as [|pos IH]; simpl; [lia|].
  destruct (is_slash (char_at b (S pos))) eqn:H; intros Hi; [lia|].
  destruct (decide (i = S pos)) as [->|]; [done|]. apply IH. lia.
Qed.

Lemma has_double_false b : has_double_slash b = false <->
  forall i, is_slash (char_at b i) = true -> is_slash (char_at b (S i)) = false.
Proof.
  induction b as [|c b IH].
  - split; [|done]. intros _ i H. unfold char_at in H. by rewrite lookup_nil in H.
  - rewrite has_double_cons, orb_false_iff, IH. split.
    + intros [H1 H2] [|i]; [|apply (H2 i)]. unfold char_at. simpl. intros Hc.
      rewrite Hc in H1. by destruct b.
    + intros H. split; [|intros i; apply (H (S i))].
      specialize (H 0%nat). unfold char_at in H. simpl in H. destruct (is_slash c); [|done].
      by destruct b; [|apply H].
Qed.

Lemma char_at_take b n i : (i < n)%nat -> char_at (take n b) i = char_at b i.
Proof. intros H. unfold char_at. by rewrite lookup_take_lt. Qed.

Lemma char_at_ge b i : (length b <= i)%nat -> char_at b i = "000"%char.
Proof. intros H. unfold char_at. by rewrite lookup_ge_None_2. Qed.

(** What [checkName] accepts, position by position. *)
Lemma checkName_spec key : checkName key = true <->
  let b := str_bytes key in
  is_slash (char_at b 0) = true /\ is_slash (char_at b (length b - 1)) = false /\
  forallb checkChar b = true /\ has_double_slash b = false.
Proof.
  unfold checkName. cbv zeta.
  destruct (is_slash (char_at _ 0)), (is_slash (char_at _ (_ - 1))), (forallb _ _),
    (has_double_slash _); simpl; intuition congruence.
Qed.

Lemma checkName_length key : checkName key = true -> (2 <= length (str_bytes key))%nat.
Proof.
  rewrite checkName_spec. cbv zeta. intros (H1 & H2 & _).
  destruct (str_bytes key) as [|c [|d b]]; simpl in *; [done| |lia].
  unfold char_at in *. simpl in *. congruence.
Qed.

Lemma forallb_take {A} (f : A -> bool) n l : forallb f l = true -> forallb f (take n l) = true.
Proof.
  rewrite !forallb_forall. intros H x Hx. apply H.
  apply list_elem_of_In. apply list_elem_of_In in Hx.
  rewrite <-(take_drop n l). set_solver.
Qed.

(** A directory prefix of a valid name is a valid name. *)
Lemma checkName_take key pos : checkName key = true -> (0 < pos < length (str_bytes key))%nat ->
  is_slash (char_at (str_bytes key) pos) = true -> checkName (bytes_str (take pos (str_bytes key))) = true.
Proof.
  rewrite !checkName_spec, str_bytes_str. cbv zeta. intros (H1 & _ & H3 & H4) Hp Hs.
  rewrite has_double_false in H4. rewrite length_take_le by lia. split_and!.
  - by rewrite char_at_take by lia.
  - rewrite char_at_take by lia. destruct (is_slash (char_at _ (pos - 1))) eqn:E; [|done].
    apply H4 in E. replace (S (pos - 1)) with pos in E by lia. congruence.
  - by apply forallb_take.
  - apply has_double_false. intros i Hi. destruct (decide (S i < pos)%nat).
    + rewrite char_at_take in * by lia. auto.
    + by rewrite char_at_ge by (rewrite length_take; lia).
Qed.

Lemma getParentName_pos key : checkName key = true ->
  exists pos, (pos < length (str_bytes key) - 1)%nat /\
    is_slash (char_at (str_bytes key) pos) = true /\
    (forall i, (pos < i)%nat -> is_slash (char_at (str_bytes key) i) = false) /\
    getParentName key = if (pos =? 0)%nat then "/" else bytes_str (take pos (str_bytes key)).
Proof.
  intros Hc. pose proof (checkName_length key Hc). apply checkName_spec in Hc as (H1 & H2 & _ & _).
  set (b := str_bytes key) in *. exists (last_slash b (length b - 1)).
  pose proof (last_slash_le b (length b - 1)).
  assert (is_slash (char_at b (last_slash b (length b - 1))) = true) as Hs.
  { destruct (decide (last_slash b (length b - 1) = O)) as [->|]; [done|by apply last_slash_at]. }
  split_and!.
  - destruct (decide (last_slash b (length b - 1) = length b - 1)%nat) as [E|]; [|lia].
    rewrite E in Hs. congruence.
  - done.
  - intros i Hi. destruct (decide (i <= length b - 1)%nat).
    + apply (last_slash_after b (length b - 1)). lia.
    + by rewrite char_at_ge by lia.
  - unfold getParentName. fold b. destruct (length b) as [|n] eqn:E; [lia|].
    simpl. by rewrite Nat.sub_0_r.
Qed.

(** For a name the server accepts, [getParentName] splits off the last
    component: the parent is the root or again an accepted name, and the name
    is the parent followed by a slash and a non-empty component without one. *)
Lemma getParentName_spec key : checkName key = true ->
  exists comp, comp <> "" /\ Forall (fun c => is_slash c = false) (str_bytes comp) /\
    ((getParentName key = "/" /\ key = "/" +:+ comp) \/
     (checkName (getParentName key) = true /\ key = getParentName key +:+ "/" +:+ comp)).
Proof.
  intros Hc. destruct (getParentName_pos key Hc) as (pos & Hp & Hs & Hafter & ->).
  set (b := str_bytes key) in *. exists (bytes_str (drop (S pos) b)). split_and!.
  - intros E%(f_equal str_bytes%stdpp). rewrite str_bytes_str in E. apply (f_equal length) in E.
    rewrite length_drop in E. simpl in E. lia.
  - rewrite str_bytes_str. apply Forall_lookup. intros i c Hi. rewrite lookup_drop in Hi.
    specialize (Hafter (S pos + i)%nat). unfold char_at in Hafter. rewrite Hi in Hafter.
    apply Hafter. lia.
  - assert (key = bytes_str (take pos b) +:+ "/" +:+ bytes_str (drop (S pos) b)) as Hkey.
    { apply str_bytes_inj. rewrite !str_bytes_app, !str_bytes_str. fold b.
      assert (b !! pos = Some slash) as Hl.
      { unfold char_at in Hs. destruct (b !! pos) eqn:E; simpl in Hs; [|done].
        by apply is_slash_true in Hs as ->. }
      change (str_bytes "/") with [slash]. by rewrite <-(take_drop_middle b pos slash Hl) at 1. }
    destruct (Nat.eqb_spec pos 0) as [->|]; [left|right].
    + split; [done|]. rewrite Hkey at 1. done.
    + split; [|done]. apply checkName_take; [done|fold b; lia|done].
Qed.

Lemma getParentName_spec_witness :
  checkName "/a/b1" = true /\
  exists comp, comp <> "" /\ Forall (fun c => is_slash c = false) (str_bytes comp) /\
    ((getParentName "/a/b1" = "/" /\ "/a/b1" = "/" +:+ comp) \/
     (checkName (getParentName "/a/b1") = true /\ "/a/b1" = getParentName "/a/b1" +:+ "/" +:+ comp)).
Proof. split; [reflexivity|]. apply getParentName_spec. reflexivity. Defined.

(** A parent is strictly shorter, so climbing to the root terminates. *)
Lemma getParentName_shorter key : checkName key = true ->
  (length (str_bytes (getParentName key)) < length (str_bytes key))%nat.
Proof.
  intros Hc. destruct (getParentName_pos key Hc) as (pos & Hp & _ & _ & ->).
  destruct (Nat.eqb_spec pos 0); [change (length (str_bytes "/")) with 1%nat; lia|].
  rewrite str_bytes_str, length_take. lia.
Qed.

Lemma getParentName_valid key : checkName key = true -> getParentName key <> "/" ->
  checkName (getParentName key) = true.
Proof.
  intros Hc Hr. destruct (getParentName_pos key Hc) as (pos & Hp & Hs & _ & E). rewrite E in *.
  destruct (Nat.eqb_spec pos 0); [done|]. apply checkName_take; [done|lia|done].
Qed.
