(* ===== verification/ServerDB.v ===== *)
(** * The node database: [server/serverdb.cc] over [server/sqlstmt.cc]

    The state is the contents of the two SQL tables and whether a transaction
    is open.  A statement is built from the format string of the source with
    [%s] operands truncated at their first NUL ([c_str()]) and [%d] operands
    truncated to [int] (sqlite's [va_arg(ap,int)]).  A statement whose text
    operands stay inside their double-quoted literals has its SQL meaning; any
    other text is handed to the parameter [Sqlite], which stands for the
    vendored SQL engine. *)

From stdpp Require Import pretty.
From S2P Require Import Prelude Names.

(** ** The tables *)

(** A row of [fs], whose primary key [name] is the key of the map. *)
Record FsRow := mkFsRow {
  content : string;
  lock_owner : string;
  instance_number : Z;
  content_generation_number : Z;
  lock_generation_number : Z;
  file_content_checksum : Z;
  is_directory : Z;
}.

#[export] Instance FsRow_eq_dec : EqDecision FsRow.
Proof. solve_decision. Defined.

Record Db := mkDb {
  fs : gmap string FsRow;
  max_instance_number : option Z;  (* the row of kvpairs *)
  in_tx : bool;
}.

Definition NO_OWNER : string := "empty".

(** What [INSERT INTO fs (name, instance_number, is_directory)] leaves to the
    column defaults of [ServerDB::create]. *)
Definition new_row (inst dir : Z) : FsRow := mkFsRow "" NO_OWNER inst 0 0 0 dir.

(** The tables [ServerDB::create] sets up in a new file. *)
Definition create_db : Db := mkDb ∅ (Some 0) false.

(** ** SQL values and columns *)

Inductive column :=
| C_name | C_content | C_lock_owner | C_instance_number | C_content_generation_number
| C_lock_generation_number | C_file_content_checksum | C_is_directory.

Definition column_name (c : column) : string :=
  match c with
  | C_name => "name"
  | C_content => "content"
  | C_lock_owner => "lock_owner"
  | C_instance_number => "instance_number"
  | C_content_generation_number => "content_generation_number"
  | C_lock_generation_number => "lock_generation_number"
  | C_file_content_checksum => "file_content_checksum"
  | C_is_directory => "is_directory"
  end.

Inductive sqlval := SText (s : string) | SInt (z : Z).

Definition column_of (name : string) (r : FsRow) (c : column) : sqlval :=
  match c with
  | C_name => SText name
  | C_content => SText (content r)
  | C_lock_owner => SText (lock_owner r)
  | C_instance_number => SInt (instance_number r)
  | C_content_generation_number => SInt (content_generation_number r)
  | C_lock_generation_number => SInt (lock_generation_number r)
  | C_file_content_checksum => SInt (file_content_checksum r)
  | C_is_directory => SInt (is_directory r)
  end.

(** ** Text operands *)

(** [s.c_str()] as a C string: [s] up to its first NUL. *)
Fixpoint c_str (s : string) : string :=
  match s with
  | String c s => if Ascii.eqb c "000" then "" else String c (c_str s)
  | EmptyString => ""
  end.

Definition dquote : ascii := "034"%char.

Definition to_lower (c : ascii) : ascii :=
  let z := byte_val c in if (65 <=? z) && (z <=? 90) then byte_of (z + 32) else c.

Fixpoint str_lower (s : string) : string :=
  match s with String c s => String (to_lower c) (str_lower s) | EmptyString => "" end.

(** A double-quoted word that names a column is that column, not a literal. *)
Definition fs_identifiers : list string :=
  ["name"; "content"; "lock_owner"; "instance_number"; "content_generation_number";
   "lock_generation_number"; "file_content_checksum"; "is_directory"; "rowid"; "oid"; "_rowid_"].

(** Beyond this length two operands could exceed SQLITE_MAX_SQL_LENGTH, which
    the vendored SQLite sets to a thousand million bytes. *)
Definition operand_max : Z := 400000000.

(** The operand stays a string literal inside its quotes. *)
Definition sql_text_ok (s : string) : bool :=
  negb (existsb (Ascii.eqb dquote) (str_bytes s)) &&
  negb (existsb (String.eqb (str_lower s)) fs_identifiers) &&
  (Z.of_nat (String.length s) <=? operand_max).

(** ** Statements *)

Inductive sql_stmt :=
| SBegin | SCommit
| SInsert (name : string) (inst dir : Z)
| SUpdateMax (v : Z)
| SUpdateContent (content : string) (cgen checksum : Z) (name : string)
| SUpdateLock (owner : string) (lgen : Z) (name : string)
| SResetLock (owner : string) (name : string)
| SDelete (name : string).

Definition quoted (s : string) : string := String dquote (s +:+ String dquote "").

(** The text after [sqlite3_vmprintf]. *)
Definition stmt_text (s : sql_stmt) : string :=
  match s with
  | SBegin => "BEGIN;"
  | SCommit => "COMMIT;"
  | SInsert name inst dir =>
      "INSERT INTO fs (name, instance_number, is_directory) VALUES (" +:+ quoted name +:+ ", "
      +:+ pretty inst +:+ ", " +:+ pretty dir +:+ ");"
  | SUpdateMax v =>
      "UPDATE kvpairs SET value = " +:+ pretty v +:+ " WHERE key = "
      +:+ quoted "max_instance_number" +:+ ";"
  | SUpdateContent c cgen sum name =>
      "UPDATE fs SET content = " +:+ quoted c +:+ ", content_generation_number = "
      +:+ pretty cgen +:+ ", file_content_checksum = " +:+ pretty sum +:+ "  WHERE name = "
      +:+ quoted name +:+ ";"
  | SUpdateLock owner lgen name =>
      "UPDATE fs SET lock_owner = " +:+ quoted owner +:+ ", lock_generation_number = "
      +:+ pretty lgen +:+ " WHERE name = " +:+ quoted name +:+ ";"
  | SResetLock owner name =>
      "UPDATE fs SET lock_owner = " +:+ quoted owner +:+ " WHERE name = " +:+ quoted name +:+ ";"
  | SDelete name => "DELETE FROM fs WHERE name = " +:+ quoted name +:+ ";"
  end.

Definition stmt_operands (s : sql_stmt) : list string :=
  match s with
  | SBegin | SCommit | SUpdateMax _ => []
  | SInsert name _ _ | SDelete name => [name]
  | SUpdateContent c _ _ name => [c; name]
  | SUpdateLock owner _ name | SResetLock owner name => [owner; name]
  end.

(** The text of a query for columns of the node called [name]. *)
Definition select_text (cols : list column) (name : string) : string :=
  "SELECT " +:+ String.concat ", " (column_name <$> cols) +:+ " FROM fs WHERE name = " +:+ quoted name.

(** The engine on texts that are not one of the statements above: the first
    row of a query or an error, and the effect of a command or an error; and
    its conversion of a text value read as an integer. *)
Class Sqlite := {
  raw_query : string -> Db -> option (option (list sqlval));
  raw_exec : string -> Db -> option Db;
  text_to_int : string -> Z;
}.

(** Replacing one field of a row. *)
Definition set_content (c : string) (cgen sum : Z) (r : FsRow) : FsRow :=
  mkFsRow c (lock_owner r) (instance_number r) cgen (lock_generation_number r) sum (is_directory r).
Definition set_lock (owner : string) (lgen : Z) (r : FsRow) : FsRow :=
  mkFsRow (content r) owner (instance_number r) (content_generation_number r) lgen
    (file_content_checksum r) (is_directory r).
Definition set_owner (owner : string) (r : FsRow) : FsRow :=
  set_lock owner (lock_generation_number r) r.

Definition with_fs (f : gmap string FsRow -> gmap string FsRow) (db : Db) : Db :=
  mkDb (f (fs db)) (max_instance_number db) (in_tx db).
Definition with_tx (b : bool) (db : Db) : Db := mkDb (fs db) (max_instance_number db) b.

(** The effect of a statement; [None] is an error code of [sqlite3_exec]. *)
Definition stmt_effect (s : sql_stmt) (db : Db) : option Db :=
  match s with
  | SBegin => if in_tx db then None else Some (with_tx true db)
  | SCommit => if in_tx db then Some (with_tx false db) else None
  | SInsert name inst dir =>
      match fs db !! name with
      | Some _ => None  (* PRIMARY KEY *)
      | None => Some (with_fs <[name := new_row inst dir]> db)
      end
  | SUpdateMax v =>
      Some (mkDb (fs db) (match max_instance_number db with Some _ => Some v | None => None end)
              (in_tx db))
  | SUpdateContent c cgen sum name => Some (with_fs (alter (set_content c cgen sum) name) db)
  | SUpdateLock owner lgen name => Some (with_fs (alter (set_lock owner lgen) name) db)
  | SResetLock owner name => Some (with_fs (alter (set_owner owner) name) db)
  | SDelete name => Some (with_fs (delete name) db)
  end.

Section serverdb.
Context `{!Sqlite} (str_hash : string -> Z).

(** [sqlite3_column_int64] and the bytes of [sqlite3_column_blob]. *)
Definition val_int (v : sqlval) : Z :=
  match v with SInt z => z | SText s => text_to_int s end.
Definition val_str (v : sqlval) : string :=
  match v with SText s => s | SInt z => pretty z end.
Definition col_int (row : list sqlval) (i : nat) : Z := val_int (default (SInt 0) (row !! i)).
Definition col_str (row : list sqlval) (i : nat) : string := val_str (default (SText "") (row !! i)).

(** An [SQLStmt] selecting columns of the node called [name], then [step()]
    and [row()]. *)
Definition query (cols : list column) (name : string) : M Db (option (list sqlval)) := fun db =>
  let n := c_str name in
  if sql_text_ok n then Ret ((fun r => column_of n r <$> cols) <$> fs db !! n) db
  else match raw_query (select_text cols n) db with
       | Some r => Ret r db
       | None => Throw exn_sql db
       end.

(** [ServerDB::sqlexec] *)
Definition sqlexec (s : sql_stmt) : M Db unit := fun db =>
  match (if forallb sql_text_ok (stmt_operands s) then stmt_effect s db
         else raw_exec (stmt_text s) db) with
  | Some db' => Ret tt db'
  | None => Throw (exn_runtime "sqlite3_exec: ") db
  end.

(** ** Directory contents: names, each after a bar *)

Definition bar : ascii := "|"%char.
Definition is_bar (c : ascii) : bool := Ascii.eqb c bar.

Definition dirContentCreate (content node : string) : string := content +:+ "|" +:+ node.

(** Successive [std::getline(ss, token, '|')]: the text between bars; what
    follows the last bar is a token unless it is empty. *)
Fixpoint getline_tokens (b : bytes) : list bytes :=
  match b with
  | [] => []
  | c :: b =>
      if is_bar c then [] :: getline_tokens b else
      match getline_tokens b with
      | [] => [[c]]
      | t :: ts => (c :: t) :: ts
      end
  end.

(** The loop of [dirContentDelete] over the tokens. *)
Fixpoint delete_tokens (node : bytes) (ts : list bytes) (str : bytes) : bytes :=
  match ts with
  | [] => str
  | t :: ts =>
      if negb (nonempty t) then delete_tokens node ts str else
      delete_tokens node ts (if bool_decide (node <> t) then str ++ bar :: t else str)
  end.

Definition dirContentDelete (content node : string) : string :=
  bytes_str (delete_tokens (str_bytes node) (getline_tokens (str_bytes content)) []).

(** ** Operations *)

(** The second component is [*instance_number], when it is written. *)
Definition checkAndCreate (file_name : string) (is_dir : bool) : M Db (bool * option Z) :=
  node ← query [C_name] file_name;
  match node with
  | Some _ => mret (false, None)  (* node exists *)
  | None =>
  let parent_name := getParentName file_name in
  check ←
    (if bool_decide (parent_name = "/") then mret (Some None) else
     par ← query [C_content; C_content_generation_number; C_is_directory] parent_name;
     match par with
     | None => mret None  (* parent node doesn't exist *)
     | Some p =>
         if col_int p 2 =? 0 then mret None  (* parent node is not a directory *)
         else mret (Some (Some (col_str p 0, wrap64 (col_int p 1))))
     end);
  match check with
  | None => mret (false, None)
  | Some parent =>
  kv ← gets max_instance_number;
  match kv with
  | None => abort
  | Some v =>
  let n := wrap64 (wrap64 v + 1) in
  sqlexec SBegin ;;
  sqlexec (SInsert (c_str file_name) (sint32 n) (if is_dir then 1 else 0)) ;;
  sqlexec (SUpdateMax (sint32 n)) ;;
  match parent with
  | None => mret tt
  | Some (parent_content, parent_cn) =>
      let new_parent_c := dirContentCreate parent_content file_name in
      let new_parent_cn := wrap64 (parent_cn + 1) in
      let new_checksum := str_hash new_parent_c in
      sqlexec (SUpdateContent (c_str new_parent_c) (sint32 new_parent_cn) (sint32 new_checksum)
                 (c_str parent_name))
  end ;;
  sqlexec SCommit ;;
  mret (true, Some n)
  end end end.

Definition checkAndOpen (file_name : string) : M Db (bool * option Z) :=
  s ← query [C_instance_number] file_name;
  match s with
  | None => mret (false, None)
  | Some r => mret (true, Some (wrap64 (col_int r 0)))
  end.

Definition checkAndDelete (file_name : string) (inst : Z) : M Db bool :=
  s ← query [C_lock_owner; C_instance_number; C_is_directory; C_content] file_name;
  match s with
  | None => mret false  (* node does not exist *)
  | Some r =>
  if negb (bool_decide (col_str r 0 = NO_OWNER)) then mret false (* lock is held *) else
  if negb (wrap64 (col_int r 1) =? inst) then mret false else
  if negb (col_int r 2 =? 0) && negb (bool_decide (col_str r 3 = "")) then mret false
  else (* dir is empty, or not a directory *)
  let parent_name := getParentName file_name in
  parent ←
    (if bool_decide (parent_name = "/") then mret None else
     par ← query [C_content; C_content_generation_number; C_is_directory] parent_name;
     match par with
     | None => abort
     | Some p =>
         cassert (col_int p 2 =? 1) ;;
         mret (Some (col_str p 0, wrap64 (col_int p 1)))
     end);
  sqlexec SBegin ;;
  sqlexec (SDelete (c_str file_name)) ;;
  match parent with
  | None => mret tt
  | Some (parent_content, parent_cn) =>
      let new_parent_c := dirContentDelete parent_content file_name in
      let new_parent_cn := wrap64 (parent_cn + 1) in
      let new_checksum := str_hash new_parent_c in
      sqlexec (SUpdateContent (c_str new_parent_c) (sint32 new_parent_cn) (sint32 new_checksum)
                 (c_str parent_name))
  end ;;
  sqlexec SCommit ;;
  mret true
  end.

(** The [*content] and [*meta] written by a successful [checkAndRead]. *)
Record read_result := ReadResult {
  r_content : string;
  r_instance_number : Z;
  r_content_generation_number : Z;
  r_lock_generation_number : Z;
  r_file_content_checksum : Z;
  r_is_directory : bool;
}.

Definition checkAndRead (file_name : string) (inst : Z) : M Db (option read_result) :=
  s ← query [C_content; C_instance_number; C_content_generation_number;
             C_lock_generation_number; C_file_content_checksum; C_is_directory] file_name;
  match s with
  | None => mret None
  | Some r =>
  let node_instance_number := wrap64 (col_int r 1) in
  if negb (node_instance_number =? inst) then mret None else
  mret (Some (ReadResult (col_str r 0) node_instance_number (wrap64 (col_int r 2))
                (wrap64 (col_int r 3)) (wrap64 (col_int r 4)) (negb (col_int r 5 =? 0))))
  end.

Definition checkAndUpdate (file_name : string) (inst : Z) (new_content : string) : M Db bool :=
  s ← query [C_instance_number; C_content_generation_number] file_name;
  match s with
  | None => mret false
  | Some r =>
  if negb (wrap64 (col_int r 0) =? inst) then mret false else
  let cgen := wrap64 (wrap64 (col_int r 1) + 1) in
  sqlexec SBegin ;;
  sqlexec (SUpdateContent (c_str new_content) (sint32 cgen) (sint32 (str_hash new_content))
             (c_str file_name)) ;;
  sqlexec SCommit ;;
  mret true
  end.

Definition testAndSetLockOwner (file_name : string) (inst : Z) (client_id : string) : M Db bool :=
  s ← query [C_instance_number; C_lock_owner; C_lock_generation_number] file_name;
  match s with
  | None => mret false
  | Some r =>
  if negb (wrap64 (col_int r 0) =? inst) then mret false else
  if negb (bool_decide (col_str r 1 = NO_OWNER)) then mret false (* lock is held *) else
  let lgen := wrap64 (wrap64 (col_int r 2) + 1) in
  sqlexec SBegin ;;
  sqlexec (SUpdateLock (c_str client_id) (sint32 lgen) (c_str file_name)) ;;
  sqlexec SCommit ;;
  mret true
  end.

Definition resetLockOwner (file_name : string) (inst : Z) : M Db bool :=
  s ← query [C_instance_number] file_name;
  match s with
  | None => mret false
  | Some r =>
  if negb (wrap64 (col_int r 0) =? inst) then mret false else
  sqlexec SBegin ;;
  sqlexec (SResetLock NO_OWNER (c_str file_name)) ;;
  sqlexec SCommit ;;
  mret true
  end.

(** Every node and its owner; SQL leaves the order open, the model takes that
    of [map_to_list]. *)
Definition getStates : M Db (list (string * string)) :=
  gets (fun db => (fun '(name, r) => (name, lock_owner r)) <$> map_to_list (fs db)).
End serverdb.
