(* ===== verification/DirContent.v ===== *)
(** * Directory contents as lists of names

    The content of a directory node is a string: every child preceded by a
    bar.  The file relates [dirContentCreate] and [dirContentDelete] of
    [server/serverdb.cc] to adding and removing an entry of a list. *)

From S2P Require Import Prelude Names ServerDB.

(** The entries of a content: its non-empty tokens, as [dirContentDelete]
    reads them. *)
Definition dir_entries (c : string) : list bytes := filter nonempty (getline_tokens (str_bytes c)).

(** The content that lists [ns]. *)
Fixpoint render (ns : list string) : string :=
  match ns with [] => "" | n :: ns => "|" +:+ n +:+ render ns end.

(** A name that can be an entry. *)
Definition entry_ok (n : string) : Prop :=
  n <> "" /\ Forall (fun c => is_bar c = false) (str_bytes n).


Lemma tokens_bar b : getline_tokens (bar :: b) = [] :: getline_tokens b.
Proof. done. Qed.

Lemma tokens_char c b : is_bar c = false ->
  getline_tokens (c :: b) = match getline_tokens b with [] => [[c]] | t :: ts => (c :: t) :: ts end.
Proof. intros H. simpl. by rewrite H. Qed.

(** A token before a bar. *)
Lemma tokens_entry a b : Forall (fun c => is_bar c = false) a ->
  getline_tokens (a ++ bar :: b) = a :: getline_tokens b.
Proof.
  induction 1 as [|c a Hc Ha IH]; [done|]. simpl app. rewrite tokens_char by done. by rewrite IH.
Qed.

Lemma tokens_last a : a <> [] -> Forall (fun c => is_bar c = false) a -> getline_tokens a = [a].
Proof.
  intros Hne. induction 1 as [|c a Hc Ha IH]; [done|]. rewrite tokens_char by done.
  destruct a as [|d a]; [done|]. by rewrite IH.
Qed.

Lemma tokens_no_bar b : Forall (Forall (fun c => is_bar c = false)) (getline_tokens b).
Proof.
  induction b as [|c b IH]; [constructor|]. simpl. destruct (is_bar c) eqn:Hc.
  - constructor; [constructor|done].
  - destruct (getline_tokens b); inversion IH; subst; repeat constructor; done.
Qed.

(** All segments between bars, the last one included. *)
Fixpoint split_bar (b : bytes) : list bytes :=
  match b with
  | [] => [[]]
  | c :: b =>
      if is_bar c then [] :: split_bar b else
      match split_bar b with [] => [[c]] | t :: ts => (c :: t) :: ts end
  end.

Lemma split_bar_ne b : split_bar b <> [].
Proof. destruct b as [|c b]; [done|]. simpl. by destruct (is_bar c), (split_bar b). Qed.

Lemma tokens_app_bar b d : getline_tokens (b ++ bar :: d) = split_bar b ++ getline_tokens d.
Proof.
  induction b as [|c b IH]; [done|]. simpl. rewrite IH. destruct (is_bar c); [done|].
  pose proof (split_bar_ne b). by destruct (split_bar b).
Qed.

(** [getline] drops an empty last segment. *)
Lemma split_tokens b :
  split_bar b = getline_tokens b \/ split_bar b = getline_tokens b ++ [[]].
Proof.
  induction b as [|c b IH]; [by right|]. simpl. destruct (is_bar c).
  - destruct IH as [->| ->]; [by left|by right].
  - destruct IH as [E|E]; rewrite E; destruct (getline_tokens b); simpl; auto.
Qed.

Lemma entries_app_bar b d :
  filter nonempty (getline_tokens (b ++ bar :: d)) =
  filter nonempty (getline_tokens b) ++ filter nonempty (getline_tokens d).
Proof.
  rewrite tokens_app_bar, list.filter_app. f_equal.
  destruct (split_tokens b) as [->| ->]; [done|]. by rewrite list.filter_app, app_nil_r.
Qed.

(** Removing [node] from the tokens keeps the other entries in order. *)
Lemma delete_tokens_entries node ts str :
  Forall (Forall (fun c => is_bar c = false)) ts ->
  delete_tokens node ts str =
  str ++ mjoin ((fun t => bar :: t) <$> filter (fun t => t <> node) (filter nonempty ts)).
Proof.
  intros Hts. revert str. induction Hts as [|t ts Ht Hts IH]; intros str; simpl.
  { by rewrite app_nil_r. }
  rewrite list.filter_cons. destruct t as [|c t]; simpl; [apply IH|].
  rewrite list.filter_cons. case_bool_decide as Hn; case_decide as Hd; try congruence; rewrite IH; simpl.
  by rewrite <-!app_assoc.
Qed.

Definition token_ok (t : bytes) : Prop := t <> [] /\ Forall (fun c => is_bar c = false) t.

Lemma tokens_joined a ts : token_ok a -> Forall token_ok ts ->
  getline_tokens (a ++ mjoin ((fun t => bar :: t) <$> ts)) = a :: ts.
Proof.
  intros Ha Hts. revert a Ha. induction Hts as [|t ts Ht Hts IH]; intros a [Hne Ha]; simpl.
  - rewrite app_nil_r. by apply tokens_last.
  - rewrite tokens_entry by done. by rewrite IH.
Qed.

Lemma tokens_rendered ts : Forall token_ok ts ->
  filter nonempty (getline_tokens (mjoin ((fun t => bar :: t) <$> ts))) = ts.
Proof.
  intros H. assert (filter nonempty ts = ts) as Hf.
  { clear -H. induction H as [|t ts [Hne Ht] Hts IH]; [done|]. rewrite list.filter_cons, IH.
    by destruct t. }
  destruct H as [|t ts Ht Hts]; [done|]. cbn [fmap list_fmap mjoin list_join app].
  change (list_fmap _ _ (fun t => bar :: t) ts) with ((fun t => bar :: t) <$> ts).
  rewrite tokens_bar. by rewrite tokens_joined.
Qed.

Lemma dir_entries_create content node : entry_ok node ->
  dir_entries (dirContentCreate content node) = dir_entries content ++ [str_bytes node].
Proof.
  intros [Hne Hb]. unfold dir_entries, dirContentCreate.
  rewrite !str_bytes_app. change (str_bytes "|") with [bar]. simpl app.
  rewrite entries_app_bar. f_equal.
  assert (str_bytes node <> []) by (by destruct node).
  rewrite tokens_last by done. by destruct (str_bytes node).
Qed.

Lemma dir_entries_delete content node :
  dir_entries (dirContentDelete content node) =
  filter (fun t => t <> str_bytes node) (dir_entries content).
Proof.
  unfold dir_entries, dirContentDelete.
  rewrite str_bytes_str, delete_tokens_entries by apply tokens_no_bar. simpl.
  apply tokens_rendered. apply list.Forall_forall. intros t Ht.
  apply list_elem_of_filter in Ht as [_ Ht]. apply list_elem_of_filter in Ht as [Hnt Ht].
  pose proof (tokens_no_bar (str_bytes content)) as Hf.
  split; [by destruct t|by eapply list.Forall_forall in Hf].
Qed.

(** Adding a name to a directory content appends it to the entries, and
    deleting one removes exactly the entries equal to it, for any content and
    any name an entry can have. *)
Lemma dir_content_entries content node : entry_ok node ->
  dir_entries (dirContentCreate content node) = dir_entries content ++ [str_bytes node] /\
  dir_entries (dirContentDelete content node) =
    filter (fun t => t <> str_bytes node) (dir_entries content).
Proof. intros H. split; [by apply dir_entries_create|apply dir_entries_delete]. Qed.

Lemma dir_content_entries_witness :
  entry_ok "/dir/a" /\
  dir_entries (dirContentCreate "|/dir/b" "/dir/a") = dir_entries "|/dir/b" ++ [str_bytes "/dir/a"] /\
  dir_entries (dirContentDelete "|/dir/b" "/dir/a") =
    filter (fun t => t <> str_bytes "/dir/a") (dir_entries "|/dir/b").
Proof.
  assert (entry_ok "/dir/a") as H by (split; [done|by repeat constructor]).
  split; [exact H|apply (dir_content_entries "|/dir/b" "/dir/a"); exact H].
Defined.

(** ** Contents that list names *)

Lemma str_bytes_render ns :
  str_bytes (render ns) = mjoin ((fun n => bar :: str_bytes n) <$> ns).
Proof.
  induction ns as [|n ns IH]; [done|]. simpl render. rewrite !str_bytes_app, IH. done.
Qed.

Lemma render_app ns ms : render (ns ++ ms) = render ns +:+ render ms.
Proof.
  apply str_bytes_inj. rewrite str_bytes_app, !str_bytes_render, fmap_app. by rewrite join_app.
Qed.

Lemma render_create ns n : dirContentCreate (render ns) n = render (ns ++ [n]).
Proof.
  rewrite render_app. unfold dirContentCreate. apply str_bytes_inj. simpl render.
  rewrite !str_bytes_app. by rewrite app_nil_r.
Qed.

(** The names a content lists. *)
Definition dir_names (c : string) : list string := bytes_str <$> dir_entries c.

Lemma dir_entries_render ns : Forall entry_ok ns -> dir_entries (render ns) = str_bytes <$> ns.
Proof.
  intros H. unfold dir_entries. rewrite str_bytes_render.
  rewrite <-(tokens_rendered (str_bytes <$> ns)); [by rewrite <-list_fmap_compose|].
  apply Forall_fmap. eapply list.Forall_impl; [exact H|]. intros n [Hne Hb]. split; [|done]. by destruct n.
Qed.

Lemma dir_names_render ns : Forall entry_ok ns -> dir_names (render ns) = ns.
Proof.
  intros H. unfold dir_names. rewrite dir_entries_render by done. rewrite <-list_fmap_compose.
  rewrite <-(list_fmap_id ns) at 2. apply list_fmap_ext. intros _ n _. apply bytes_str_bytes.
Qed.

Lemma render_delete ns n : Forall entry_ok ns ->
  dirContentDelete (render ns) n = render (filter (fun m => m <> n) ns).
Proof.
  intros H. apply str_bytes_inj. unfold dirContentDelete.
  rewrite str_bytes_str, delete_tokens_entries by apply tokens_no_bar. simpl.
  fold (dir_entries (render ns)). rewrite dir_entries_render by done.
  rewrite str_bytes_render. f_equal. clear H. induction ns as [|m ns IH]; [done|].
  rewrite fmap_cons, !list.filter_cons. destruct (decide (m = n)) as [->|Hn].
  - rewrite !decide_False by tauto. done.
  - rewrite !decide_True by (try done; intros E; by apply str_bytes_inj in E).
    by rewrite !fmap_cons, IH.
Qed.

Lemma render_nil ns : render ns = "" <-> ns = [].
Proof. by destruct ns. Qed.

Lemma length_str_app s t : String.length (s +:+ t) = (String.length s + String.length t)%nat.
Proof. by rewrite <-!str_bytes_length, str_bytes_app, length_app. Qed.

Lemma length_create c n :
  String.length (dirContentCreate c n) = (String.length c + 1 + String.length n)%nat.
Proof. unfold dirContentCreate. rewrite !length_str_app. simpl. lia. Qed.

Lemma render_length ns :
  String.length (render ns) = sum_list_with (fun n => S (String.length n)) ns.
Proof. induction ns as [|n ns IH]; [done|]. cbn [render sum_list_with]. rewrite !length_str_app, IH. simpl. lia. Qed.

Lemma render_filter_length P `{!forall n, Decision (P n)} ns :
  (String.length (render (filter P ns)) <= String.length (render ns))%nat.
Proof.
  rewrite !render_length. induction ns as [|n ns IH]; [done|].
  rewrite list.filter_cons. case_decide; simpl; lia.
Qed.
