(* ===== verification/Tree.v ===== *)
(** * The abstract name space the node database implements

    A specification of what [server/serverdb.cc] promises: a tree of files and
    directories, each with its instance number, counters and lock owner, where
    a directory is the list of its children.  [ServerDBRefine] proves that the
    SQL code behaves as this tree. *)

From S2P Require Import Prelude Names ServerDB DirContent.

Inductive kind :=
| File (data : string)
| Dir (children : list string).

Record node := Node {
  n_kind : kind;
  n_owner : option string;   (* the client that holds the lock *)
  n_inst : Z;
  n_cgen : Z;
  n_lgen : Z;
  n_sum : Z;
}.

Record tree := Tree {
  t_nodes : gmap string node;
  t_last : Z;                (* the last instance number given out *)
}.

(** The requests of the backing store, with their arguments. *)
Inductive db_op :=
| OpCreate (f : string) (is_dir : bool)
| OpOpen (f : string)
| OpDelete (f : string) (inst : Z)
| OpRead (f : string) (inst : Z)
| OpUpdate (f : string) (inst : Z) (c : string)
| OpTestAndSet (f : string) (inst : Z) (client : string)
| OpReset (f : string) (inst : Z)
| OpGetStates.

Inductive db_reply :=
| RepBool (b : bool)
| RepInst (r : bool * option Z)
| RepRead (r : option read_result)
| RepStates (l : list (string * string)).

(** A counter column after one more update. *)
Definition bump (z : Z) : Z := sint32 (wrap64 (wrap64 z + 1)).

Definition owner_str (o : option string) : string := default NO_OWNER o.
Definition owner_of (s : string) : option string :=
  if bool_decide (s = NO_OWNER) then None else Some s.

Definition kind_content (k : kind) : string :=
  match k with File d => d | Dir ns => render ns end.
Definition kind_is_dir (k : kind) : bool :=
  match k with File _ => false | Dir _ => true end.

Section tree.
Context (str_hash : string -> Z).

Definition new_node (is_dir : bool) (inst : Z) : node :=
  Node (if is_dir then Dir [] else File "") None inst 0 0 0.

Definition set_kind (k : kind) (n : node) : node :=
  Node k (n_owner n) (n_inst n) (bump (n_cgen n)) (n_lgen n) (sint32 (str_hash (kind_content k))).
Definition set_node_owner (o : option string) (n : node) : node :=
  Node (n_kind n) o (n_inst n) (n_cgen n) (n_lgen n) (n_sum n).
Definition lock_node (o : option string) (n : node) : node :=
  Node (n_kind n) o (n_inst n) (n_cgen n) (bump (n_lgen n)) (n_sum n).

Definition children (n : node) : list string :=
  match n_kind n with Dir ns => ns | File _ => [] end.

(** Applying a change to the children of the parent of [f]. *)
Definition in_parent (f : string) (g : list string -> list string)
    (m : gmap string node) : gmap string node :=
  if bool_decide (getParentName f = "/") then m
  else alter (fun p => set_kind (Dir (g (children p))) p) (getParentName f) m.

(** A directory in which [f] can be made. *)
Definition parent_ok (f : string) (m : gmap string node) : bool :=
  bool_decide (getParentName f = "/") ||
  match m !! getParentName f with Some p => kind_is_dir (n_kind p) | None => false end.

Definition tree_create (f : string) (is_dir : bool) (t : tree) : db_reply * tree :=
  match t_nodes t !! f with
  | Some _ => (RepInst (false, None), t)
  | None =>
      if parent_ok f (t_nodes t) then
        let i := t_last t + 1 in
        (RepInst (true, Some i),
         Tree (in_parent f (fun ns => ns ++ [f]) (<[f := new_node is_dir i]> (t_nodes t))) i)
      else (RepInst (false, None), t)
  end.

Definition tree_open (f : string) (t : tree) : db_reply * tree :=
  (RepInst (match t_nodes t !! f with Some n => (true, Some (n_inst n)) | None => (false, None) end), t).

(** The operations on the node [f] of instance [inst], when [ok] lets them. *)
Definition tree_guarded (f : string) (inst : Z) (ok : node -> bool)
    (g : gmap string node -> gmap string node) (t : tree) : db_reply * tree :=
  match t_nodes t !! f with
  | Some n =>
      if (n_inst n =? inst) && ok n then (RepBool true, Tree (g (t_nodes t)) (t_last t))
      else (RepBool false, t)
  | None => (RepBool false, t)
  end.

Definition unlocked (n : node) : bool := match n_owner n with None => true | Some _ => false end.

Definition tree_read (f : string) (inst : Z) (t : tree) : option read_result :=
  match t_nodes t !! f with
  | Some n =>
      if n_inst n =? inst then
        Some (ReadResult (kind_content (n_kind n)) inst (wrap64 (n_cgen n)) (wrap64 (n_lgen n))
                (wrap64 (n_sum n)) (kind_is_dir (n_kind n)))
      else None
  | None => None
  end.

Definition tree_step (op : db_op) (t : tree) : db_reply * tree :=
  match op with
  | OpCreate f is_dir => tree_create f is_dir t
  | OpOpen f => tree_open f t
  | OpDelete f inst =>
      tree_guarded f inst (fun n => unlocked n && bool_decide (children n = []))
        (fun m => in_parent f (filter (fun m => m <> f)) (delete f m)) t
  | OpRead f inst => (RepRead (tree_read f inst t), t)
  | OpUpdate f inst c => tree_guarded f inst (fun _ => true) (alter (set_kind (File c)) f) t
  | OpTestAndSet f inst client =>
      tree_guarded f inst unlocked (alter (lock_node (owner_of client)) f) t
  | OpReset f inst => tree_guarded f inst (fun _ => true) (alter (set_node_owner None) f) t
  | OpGetStates =>
      (RepStates ((fun '(name, n) => (name, owner_str (n_owner n))) <$> map_to_list (t_nodes t)), t)
  end.

Fixpoint tree_run (ops : list db_op) (t : tree) : list db_reply * tree :=
  match ops with
  | [] => ([], t)
  | op :: ops =>
      let '(r, t1) := tree_step op t in
      let '(rs, t2) := tree_run ops t1 in (r :: rs, t2)
  end.
End tree.
