(* ===== verification/ServerDBWf.v ===== *)
(** * Well-formed databases

    Texts that stay inside their SQL literals, the equations of the SQL layer
    on them, and the invariant [db_wf] of the tables: the rows form a tree of
    directories whose contents list exactly their children. *)

From S2P Require Import Prelude Names ServerDB DirContent Tree.

(** ** Texts with their SQL meaning *)

Definition plain (s : string) : bool := bool_decide (c_str s = s) && sql_text_ok s.

(** The names of the requests that pass [checkName]. *)
Definition name_ok (f : string) : bool :=
  checkName f && (Z.of_nat (String.length f) <=? operand_max).

(** Neither a NUL nor a double quote. *)
Definition clean (c : ascii) : bool := negb (Ascii.eqb c "000") && negb (Ascii.eqb c dquote).

(** No column name starts with this character. *)
Definition marks (c : ascii) : bool :=
  forallb (fun s => match s with String d _ => negb (Ascii.eqb d (to_lower c)) | "" => true end)
    fs_identifiers.

Lemma c_str_clean s : forallb clean (str_bytes s) = true -> c_str s = s.
Proof.
  induction s as [|c s IH]; [done|]. change (str_bytes (String c s)) with (c :: str_bytes s).
  cbn [forallb c_str]. intros [Hc Hs]%andb_true_iff.
  unfold clean in Hc. destruct (Ascii.eqb c "000"); [done|]. by rewrite IH.
Qed.

Lemma no_dquote_clean b : forallb clean b = true -> existsb (Ascii.eqb dquote) b = false.
Proof.
  induction b as [|c b IH]; [done|]. cbn [forallb existsb]. intros [Hc Hb]%andb_true_iff.
  rewrite IH by done. unfold clean in Hc. rewrite Ascii.eqb_sym.
  by destruct (Ascii.eqb c dquote), (Ascii.eqb c "000").
Qed.

Lemma not_identifier c s : marks c = true ->
  existsb (String.eqb (str_lower (String c s))) fs_identifiers = false.
Proof.
  unfold marks. intros Hm. induction fs_identifiers as [|i l IH]; [done|].
  cbn [forallb existsb] in *. apply andb_true_iff in Hm as [Hi Hl]. rewrite IH by done.
  rewrite orb_false_r. destruct i as [|d i]; [done|]. cbn [str_lower String.eqb]. rewrite Ascii.eqb_sym.
  by destruct (Ascii.eqb d (to_lower c)).
Qed.

Lemma plain_marked c s : marks c = true -> forallb clean (str_bytes (String c s)) = true ->
  Z.of_nat (String.length (String c s)) <= operand_max -> plain (String c s) = true.
Proof.
  intros Hm Hc Hl. unfold plain, sql_text_ok. rewrite bool_decide_true by by apply c_str_clean.
  rewrite no_dquote_clean, not_identifier by done. by apply Z.leb_le in Hl as ->.
Qed.

Lemma forallb_impl {A} (f g : A -> bool) l :
  (forall x, f x = true -> g x = true) -> forallb f l = true -> forallb g l = true.
Proof. intros H. rewrite !forallb_forall. auto. Qed.

Lemma checkChar_facts c : checkChar c = true -> clean c = true /\ is_bar c = false.
Proof.
  unfold checkChar. rewrite existsb_exists. intros (d & Hd & ->%Ascii.eqb_eq).
  assert (forallb (fun d => clean d && negb (is_bar d)) validChars = true) as H by reflexivity.
  rewrite forallb_forall in H. specialize (H d Hd). apply andb_true_iff in H as [H1 H2].
  by destruct (is_bar d).
Qed.

Lemma name_ok_facts f : name_ok f = true ->
  checkName f = true /\ Z.of_nat (String.length f) <= operand_max.
Proof. unfold name_ok. rewrite andb_true_iff, Z.leb_le. tauto. Qed.

Lemma checkName_chars f : checkName f = true -> forallb checkChar (str_bytes f) = true.
Proof. rewrite checkName_spec. cbv zeta. tauto. Qed.

Lemma checkName_slash f : checkName f = true -> exists g, f = String slash g.
Proof.
  rewrite checkName_spec. cbv zeta. intros (H & _). destruct f as [|c f]; [done|].
  apply is_slash_true in H. simpl in H. unfold char_at in H. simpl in H. subst. by eexists.
Qed.

Lemma name_plain f : name_ok f = true -> plain f = true.
Proof.
  intros [Hc Hl]%name_ok_facts. destruct (checkName_slash f Hc) as [g ->].
  apply plain_marked; [reflexivity| |done]. eapply forallb_impl; [|by apply checkName_chars].
  intros c H. by apply checkChar_facts.
Qed.

Lemma name_entry f : checkName f = true -> entry_ok f.
Proof.
  intros Hc. split; [by destruct (checkName_slash f Hc) as [g ->]|].
  apply checkName_chars in Hc. rewrite forallb_forall in Hc. apply list.Forall_forall.
  intros c Hin%list_elem_of_In. by apply checkChar_facts, Hc.
Qed.

Lemma getParentName_ne f : checkName f = true -> getParentName f <> f.
Proof. intros Hc E. pose proof (getParentName_shorter f Hc). rewrite E in *. lia. Qed.

Lemma str_length_shorter f : checkName f = true ->
  (String.length (getParentName f) < String.length f)%nat.
Proof. intros Hc. rewrite <-!str_bytes_length. by apply getParentName_shorter. Qed.

Lemma parent_name_ok f : name_ok f = true -> getParentName f <> "/" ->
  name_ok (getParentName f) = true.
Proof.
  intros [Hc Hl]%name_ok_facts Hr. unfold name_ok. rewrite getParentName_valid by done.
  pose proof (str_length_shorter f Hc). apply Z.leb_le. lia.
Qed.

Lemma render_clean ns : Forall (fun n => checkName n = true) ns ->
  forallb clean (str_bytes (render ns)) = true.
Proof.
  rewrite str_bytes_render. induction 1 as [|n ns Hn Hns IH]; [done|].
  cbn. rewrite forallb_app. apply andb_true_iff. split; [|done].
  eapply forallb_impl; [|by apply checkName_chars]. intros c H. by apply checkChar_facts.
Qed.

Lemma render_plain ns : Forall (fun n => checkName n = true) ns ->
  Z.of_nat (String.length (render ns)) <= operand_max -> plain (render ns) = true.
Proof.
  intros Hns Hl. pose proof (render_clean ns Hns) as Hc. destruct ns as [|n ns]; [done|].
  by apply plain_marked.
Qed.

(** ** The SQL layer on such texts *)

Section sql.
Context `{!Sqlite}.

Lemma plain_facts s : plain s = true -> c_str s = s /\ sql_text_ok s = true.
Proof. unfold plain. rewrite andb_true_iff, bool_decide_eq_true. tauto. Qed.

Lemma query_plain cols f db : plain f = true ->
  query cols f db = Ret ((fun r => column_of f r <$> cols) <$> fs db !! f) db.
Proof. intros [Hc Ht]%plain_facts. unfold query. by rewrite Hc, Ht. Qed.

Lemma sqlexec_plain s db : forallb plain (stmt_operands s) = true ->
  sqlexec s db = match stmt_effect s db with
                 | Some db' => Ret tt db'
                 | None => Throw (exn_runtime "sqlite3_exec: ") db
                 end.
Proof.
  intros Hop. unfold sqlexec. replace (forallb sql_text_ok _) with true; [done|].
  symmetry. eapply forallb_impl; [|exact Hop]. intros x Hx. by apply plain_facts.
Qed.

(** One statement between [BEGIN] and [COMMIT]. *)
Lemma txn_alter s g db (A : Type) (x : A) : forallb plain (stmt_operands s) = true ->
  in_tx db = false -> (forall db, stmt_effect s db = Some (with_fs g db)) ->
  (sqlexec SBegin ;; sqlexec s ;; sqlexec SCommit ;; mret x) db = Ret x (with_fs g db).
Proof.
  intros Hp Htx Hs.
  rewrite (bind_Ret _ _ db tt (with_tx true db)) by (rewrite sqlexec_plain by done; simpl; by rewrite Htx).
  rewrite (bind_Ret _ _ _ tt (with_fs g (with_tx true db))) by (rewrite sqlexec_plain by done; by rewrite Hs).
  simpl. destruct db; simpl in *. by subst.
Qed.
End sql.

(** ** The invariant *)

Definition is_dir_row (r : FsRow) : Prop := is_directory r = 1.

(** A directory row lists exactly its children. *)
Definition dir_ok (m : gmap string FsRow) (f : string) (r : FsRow) : Prop :=
  exists ns, content r = render ns /\ Z.of_nat (String.length (content r)) <= operand_max /\
    NoDup ns /\ forall n, n ∈ ns <-> is_Some (m !! n) /\ getParentName n = f.

Record row_ok (last : Z) (m : gmap string FsRow) (f : string) (r : FsRow) : Prop := {
  ro_name : name_ok f = true;
  ro_inst : 1 <= instance_number r <= last;
  ro_kind : is_directory r = 0 \/ is_dir_row r /\ dir_ok m f r;
  ro_parent : getParentName f <> "/" ->
    exists p, m !! getParentName f = Some p /\ is_dir_row p;
}.

Record db_wf (db : Db) : Prop := {
  wf_tx : in_tx db = false;
  wf_last : exists m, max_instance_number db = Some m /\ 0 <= m < 2 ^ 31;
  wf_row f r : fs db !! f = Some r ->
    row_ok (default 0 (max_instance_number db)) (fs db) f r;
  wf_inj f g r s : fs db !! f = Some r -> fs db !! g = Some s ->
    instance_number r = instance_number s -> f = g;
}.

Lemma create_db_wf : db_wf create_db.
Proof.
  split; [done|by exists 0| |]; intros * H; simpl in H; by rewrite lookup_empty in H.
Qed.

(** The abstract tree of a database. *)
Definition node_of (r : FsRow) : node :=
  Node (if is_directory r =? 0 then File (content r) else Dir (dir_names (content r)))
    (owner_of (lock_owner r)) (instance_number r) (content_generation_number r)
    (lock_generation_number r) (file_content_checksum r).

Definition tree_of (db : Db) : tree :=
  Tree (node_of <$> fs db) (default 0 (max_instance_number db)).

(** Updating rows without touching the shape of the tree. *)
Definition same_shape (r s : FsRow) : Prop :=
  instance_number s = instance_number r /\ is_directory s = is_directory r /\
  (is_dir_row r -> content s = content r).

Lemma shape_lookup (m : gmap string FsRow) f g n s : alter g f m !! n = Some s ->
  (forall r, m !! f = Some r -> same_shape r (g r)) ->
  exists r, m !! n = Some r /\ same_shape r s.
Proof.
  intros Hl Hg. rewrite lookup_alter in Hl. case_decide as E; [subst|].
  - destruct (m !! n) eqn:Hm; simplify_eq/=. eauto.
  - exists s. by split.
Qed.

Lemma shape_is_dir (m : gmap string FsRow) f g n : 
  (forall r, m !! f = Some r -> same_shape r (g r)) ->
  (exists p, m !! n = Some p /\ is_dir_row p) -> exists p, alter g f m !! n = Some p /\ is_dir_row p.
Proof.
  intros Hg (p & Hp & Hd). rewrite lookup_alter. case_decide as E; [subst|by eauto].
  rewrite Hp. simpl. destruct (Hg p Hp) as (_ & Hi & _). eexists. split; [done|].
  unfold is_dir_row in *. congruence.
Qed.

Lemma wf_alter db f g : db_wf db ->
  (forall r, fs db !! f = Some r -> same_shape r (g r)) -> db_wf (with_fs (alter g f) db).
Proof.
  intros [Htx Hlast Hrow Hinj] Hg. split; simpl; [done|done| |].
  - intros n s Hs. destruct (shape_lookup _ _ _ _ _ Hs Hg) as (r & Hr & Hi & Hd & Hc).
    destruct (Hrow n r Hr) as [H1 H2 H3 H4]. split.
    + done.
    + by rewrite Hi.
    + destruct H3 as [H3|[H3 (ns & Hr1 & Hr2 & Hr3 & Hr4)]]; [left; congruence|right].
      split; [unfold is_dir_row in *; congruence|]. exists ns. rewrite Hc by done.
      split_and!; try done. intros x. by rewrite Hr4, lookup_alter_is_Some.
    + intros Hp. by apply shape_is_dir; auto.
  - intros n1 n2 s1 s2 Hs1 Hs2 E.
    destruct (shape_lookup _ _ _ _ _ Hs1 Hg) as (r1 & Hr1 & Hi1 & _).
    destruct (shape_lookup _ _ _ _ _ Hs2 Hg) as (r2 & Hr2 & Hi2 & _).
    apply (Hinj n1 n2 r1 r2 Hr1 Hr2). congruence.
Qed.

(** ** Adding and removing a node *)

Definition in_parent_rows (f : string) (g : FsRow -> FsRow) (m : gmap string FsRow) : gmap string FsRow :=
  if bool_decide (getParentName f = "/") then m else alter g (getParentName f) m.

Section child.
Context (db : Db) (f : string) (o : option FsRow) (g : FsRow -> FsRow) (last : Z).
Hypothesis Hwf : db_wf db.
Hypothesis Hf : name_ok f = true.
Hypothesis Hleaf : forall n, is_Some (fs db !! n) -> getParentName n <> f.
Hypothesis Hparent : getParentName f <> "/" ->
  exists p, fs db !! getParentName f = Some p /\ is_dir_row p.
Hypothesis Hnew : forall row, o = Some row ->
  default 0 (max_instance_number db) < instance_number row <= last /\
  (is_directory row = 0 \/ is_directory row = 1) /\ content row = "".
Hypothesis Hlast : default 0 (max_instance_number db) <= last < 2 ^ 31.
Hypothesis Hg : forall p ns, fs db !! getParentName f = Some p -> is_dir_row p ->
  content p = render ns -> NoDup ns ->
  (forall n, n ∈ ns <-> is_Some (fs db !! n) /\ getParentName n = getParentName f) ->
  instance_number (g p) = instance_number p /\ is_directory (g p) = is_directory p /\
  exists ns', content (g p) = render ns' /\ Z.of_nat (String.length (content (g p))) <= operand_max /\
    NoDup ns' /\ forall n, n ∈ ns' <-> if decide (n = f) then is_Some o else n ∈ ns.

Let m' := in_parent_rows f g (partial_alter (fun _ => o) f (fs db)).

Lemma root_no_row : fs db !! "/" = None.
Proof using Hwf.
  destruct (fs db !! "/") as [r|] eqn:Hr; [|done]. destruct (wf_row _ Hwf _ _ Hr) as [Hn _ _ _].
  by apply name_ok_facts in Hn as [? _].
Qed.

Lemma child_lookup n : m' !! n =
  if decide (n = f) then o else if decide (n = getParentName f) then g <$> fs db !! n else fs db !! n.
Proof using Hwf Hf.
  apply name_ok_facts in Hf as [Hc _]. pose proof (getParentName_ne f Hc) as Hne.
  unfold m', in_parent_rows. case_bool_decide as Hr.
  - rewrite Hr. destruct (decide (n = f)) as [->|]; [by rewrite lookup_partial_alter_eq|].
    rewrite lookup_partial_alter_ne by done. destruct (decide (n = "/")) as [->|]; [|done].
    by rewrite root_no_row.
  - destruct (decide (n = f)) as [->|].
    + by rewrite lookup_alter_ne, lookup_partial_alter_eq by done.
    + destruct (decide (n = getParentName f)) as [->|].
      * by rewrite lookup_alter_eq, lookup_partial_alter_ne by done.
      * by rewrite lookup_alter_ne, lookup_partial_alter_ne by done.
Qed.

Lemma child_present n : is_Some (m' !! n) <-> if decide (n = f) then is_Some o else is_Some (fs db !! n).
Proof using Hwf Hf.
  rewrite child_lookup. destruct (decide (n = f)); [done|].
  destruct (decide (n = getParentName f)); [by rewrite fmap_is_Some|done].
Qed.

Lemma parent_dir r : fs db !! getParentName f = Some r -> is_dir_row r.
Proof using Hwf Hparent.
  intros Hr. destruct Hparent as (p & Hp & Hd); [|congruence].
  intros E. rewrite E, root_no_row in Hr. done.
Qed.

Lemma parent_change r : fs db !! getParentName f = Some r ->
  instance_number (g r) = instance_number r /\ is_directory (g r) = is_directory r.
Proof using Hwf Hparent Hg.
  intros Hr. pose proof (parent_dir r Hr) as Hd.
  destruct (wf_row _ Hwf _ _ Hr) as [_ _ [Hz|[_ (ns & Hns & _ & Hnd & Hm)]] _].
  { unfold is_dir_row in Hd. congruence. }
  by destruct (Hg r ns Hr Hd Hns Hnd Hm) as (? & ? & _).
Qed.

(** A surviving row keeps its instance number and kind. *)
Lemma child_old n s : m' !! n = Some s -> n <> f ->
  exists r, fs db !! n = Some r /\ (n <> getParentName f -> s = r) /\
    (n = getParentName f -> s = g r) /\ instance_number s = instance_number r /\
    is_directory s = is_directory r.
Proof using Hwf Hf Hparent Hg.
  pose proof parent_change as Hpc. rewrite child_lookup. intros Hs Hn.
  rewrite decide_False in Hs by done.
  destruct (decide (n = getParentName f)) as [->|]; [|exists s; by split_and!].
  destruct (fs db !! getParentName f) as [r|] eqn:Hr; [|done]. simplify_eq/=.
  destruct (Hpc r eq_refl). exists r. by split_and!.
Qed.

Lemma child_dirs d p : fs db !! d = Some p -> is_dir_row p -> d <> f ->
  exists q, m' !! d = Some q /\ is_dir_row q.
Proof using Hwf Hf Hparent Hg.
  intros Hp Hd Hn. assert (is_Some (m' !! d)) as [q Hq].
  { rewrite child_present, decide_False by done. eauto. }
  exists q. split; [done|]. destruct (child_old d q Hq Hn) as (r & Hr & _ & _ & _ & E).
  unfold is_dir_row in *. congruence.
Qed.

Lemma child_new_row row : o = Some row -> row_ok last m' f row.
Proof using Hwf Hf Hleaf Hparent Hnew Hlast Hg.
  intros Ho. destruct (Hnew row Ho) as (Hi & Hd & Hc). apply name_ok_facts in Hf as Hf'.
  destruct Hf' as [Hcn _]. destruct (wf_last _ Hwf) as (l & Hl & Hb).
  rewrite Hl in *. simpl in *. split; [done|lia| |].
  - destruct Hd as [Hd|Hd]; [by left|right]. split; [done|]. exists []. rewrite Hc.
    split_and!; [done|done|constructor|]. intros n. rewrite child_present. split; [by set_solver|].
    intros [Hn Hp]. exfalso. destruct (decide (n = f)) as [->|]; [by apply (getParentName_ne f Hcn)|].
    by apply (Hleaf n).
  - intros Hr. destruct (Hparent Hr) as (p & Hp & Hpd).
    by apply (child_dirs _ p Hp Hpd), getParentName_ne.
Qed.

Lemma child_old_row n s : m' !! n = Some s -> n <> f -> row_ok last m' n s.
Proof using Hwf Hf Hleaf Hparent Hlast Hg.
  intros Hs Hn. pose proof Hg as Hg'.
  destruct (child_old n s Hs Hn) as (r & Hr & Hother & Hpar & Hi & Hd).
  destruct (wf_row _ Hwf n r Hr) as [H1 H2 H3 H4]. split.
  - done.
  - rewrite Hi. lia.
  - destruct H3 as [H3|[H3 (ns & Hc & Hl & Hnd & Hns)]]; [left; congruence|right].
    split; [unfold is_dir_row in *; congruence|].
    destruct (decide (n = getParentName f)) as [->|Hnp].
    + destruct (Hg' r ns Hr H3 Hc Hnd Hns) as (_ & _ & ns' & Hc' & Hl' & Hnd' & Hns').
      rewrite (Hpar eq_refl). exists ns'. split_and!; try done.
      intros n. rewrite Hns', child_present. destruct (decide (n = f)) as [->|]; [tauto|apply Hns].
    + rewrite (Hother Hnp). exists ns. split_and!; try done.
      intros x. rewrite Hns, child_present. destruct (decide (x = f)) as [->|]; [|done].
      split; [intros [_ E]|intros [_ E]]; by rewrite E in Hnp.
  - intros Hp. destruct (H4 Hp) as (p & Hpl & Hpd). apply (child_dirs _ p Hpl Hpd).
    intros E. apply (Hleaf n); [by eexists|done].
Qed.

Lemma wf_child : db_wf (mkDb m' (Some last) false).
Proof using Hwf Hf Hleaf Hparent Hnew Hlast Hg.
  destruct (wf_last _ Hwf) as (l & Hl & Hb).
  assert (forall n s, m' !! n = Some s -> n <> f ->
    exists r, fs db !! n = Some r /\ instance_number s = instance_number r /\
      instance_number r <= default 0 (max_instance_number db)) as Hold.
  { intros n s Hs Hn. destruct (child_old n s Hs Hn) as (r & Hr & _ & _ & Hi & _).
    exists r. split_and!; [done|done|]. apply (wf_row _ Hwf n r Hr). }
  assert (forall s, m' !! f = Some s -> o = Some s) as Hat.
  { intros s. by rewrite child_lookup, decide_True. }
  split; [done|exists last; simpl; rewrite Hl in Hlast; simpl in Hlast; split; [done|lia]| |];
    cbn [fs max_instance_number default].
  - intros n s Hs. destruct (decide (n = f)) as [->|]; [by apply child_new_row, Hat|by apply child_old_row].
  - intros n1 n2 s1 s2 H1 H2 E. destruct (decide (n1 = f)) as [->|N1], (decide (n2 = f)) as [->|N2].
    + done.
    + destruct (Hold n2 s2 H2 N2) as (r & _ & ? & ?), (Hnew s1 (Hat s1 H1)) as [? _]. lia.
    + destruct (Hold n1 s1 H1 N1) as (r & _ & ? & ?), (Hnew s2 (Hat s2 H2)) as [? _]. lia.
    + destruct (Hold n1 s1 H1 N1) as (r1 & Hr1 & ? & _), (Hold n2 s2 H2 N2) as (r2 & Hr2 & ? & _).
      apply (wf_inj _ Hwf n1 n2 r1 r2 Hr1 Hr2). congruence.
Qed.
End child.
