(* ===== verification/ServerDBRefine.v ===== *)
(** * The node database refines the abstract tree

    Every operation of [server/serverdb.cc], run on a well-formed database with
    texts that stay inside their SQL literals, returns what the operation of
    [Tree] returns, does to the tables what that operation does to the tree,
    and leaves them well formed. *)

From S2P Require Import Prelude Names ServerDB DirContent Tree ServerDBWf.

(** The requests whose texts reach the tables unchanged, within the sizes the
    SQL literals allow, that do not write to a directory. *)
Definition op_ok (op : db_op) (t : tree) : bool :=
  match op with
  | OpCreate f _ =>
      name_ok f && (t_last t <? 2 ^ 31 - 1) &&
      match n_kind <$> t_nodes t !! getParentName f with
      | Some (Dir ns) =>
          Z.of_nat (String.length (render ns)) + Z.of_nat (String.length f) + 1 <=? operand_max
      | _ => true
      end
  | OpOpen f | OpDelete f _ | OpRead f _ | OpReset f _ => name_ok f
  | OpUpdate f _ c =>
      name_ok f && plain c &&
      match n_kind <$> t_nodes t !! f with Some (Dir _) => false | _ => true end
  | OpTestAndSet f _ client => name_ok f && plain client
  | OpGetStates => true
  end.

Section refine.
Context `{sqlite : !Sqlite} (str_hash : string -> Z).

(** A request of the backing store, as it is run on the database. *)
Definition run_op (op : db_op) : M Db db_reply :=
  match op with
  | OpCreate f is_dir => r ← checkAndCreate str_hash f is_dir; mret (RepInst r)
  | OpOpen f => r ← checkAndOpen f; mret (RepInst r)
  | OpDelete f inst => r ← checkAndDelete str_hash f inst; mret (RepBool r)
  | OpRead f inst => r ← checkAndRead f inst; mret (RepRead r)
  | OpUpdate f inst c => r ← checkAndUpdate str_hash f inst c; mret (RepBool r)
  | OpTestAndSet f inst client => r ← testAndSetLockOwner f inst client; mret (RepBool r)
  | OpReset f inst => r ← resetLockOwner f inst; mret (RepBool r)
  | OpGetStates => r ← getStates; mret (RepStates r)
  end.

(** ** Rows and nodes *)

Definition refines (op : db_op) (db : Db) : Prop :=
  exists rep db', run_op op db = Ret rep db' /\ db_wf db' /\
    tree_step str_hash op (tree_of db) = (rep, tree_of db').

Lemma tree_lookup db f : t_nodes (tree_of db) !! f = node_of <$> fs db !! f.
Proof. apply lookup_fmap. Qed.

Lemma row_inst db f r : db_wf db -> fs db !! f = Some r ->
  wrap64 (instance_number r) = instance_number r.
Proof.
  intros Hwf Hr. destruct (wf_row _ Hwf f r Hr) as [_ Hi _ _].
  destruct (wf_last _ Hwf) as (m & Hm & Hb). rewrite Hm in Hi. simpl in Hi.
  apply wrap64_small. unfold u64. lia.
Qed.

Lemma row_dir_names db f r : db_wf db -> fs db !! f = Some r -> is_dir_row r ->
  exists ns, content r = render ns /\ dir_names (content r) = ns /\
    Forall (fun n => checkName n = true) ns /\ NoDup ns /\
    Z.of_nat (String.length (render ns)) <= operand_max /\
    forall n, n ∈ ns <-> is_Some (fs db !! n) /\ getParentName n = f.
Proof.
  intros Hwf Hr Hd. destruct (wf_row _ Hwf f r Hr) as [_ _ [Hk|[_ Hk]] _].
  { unfold is_dir_row in *. congruence. }
  destruct Hk as (ns & Hc & Hl & Hnd & Hns). exists ns.
  assert (Forall (fun n => checkName n = true) ns) as Hok.
  { apply list.Forall_forall. intros n Hin. apply Hns in Hin as [[s Hs] _].
    destruct (wf_row _ Hwf n s Hs) as [Hn _ _ _]. by apply name_ok_facts. }
  rewrite Hc in *. split_and!; try done. apply dir_names_render.
  eapply list.Forall_impl; [exact Hok|]. intros n. apply name_entry.
Qed.

Lemma owner_of_free s : bool_decide (s = NO_OWNER) = match owner_of s with None => true | Some _ => false end.
Proof. unfold owner_of. by case_bool_decide. Qed.

Lemma owner_str_of s : owner_str (owner_of s) = s.
Proof. unfold owner_of. by case_bool_decide. Qed.

Lemma node_content db f r : db_wf db -> fs db !! f = Some r ->
  kind_content (n_kind (node_of r)) = content r.
Proof.
  intros Hwf Hr. unfold node_of. simpl. destruct (Z.eqb_spec (is_directory r) 0); [done|]. simpl.
  destruct (row_dir_names db f r) as (ns & Hc & Hd & _); [done|done| |congruence].
  destruct (wf_row _ Hwf f r Hr) as [_ _ [?|[? _]] _]; done.
Qed.

Lemma node_is_dir r : kind_is_dir (n_kind (node_of r)) = negb (is_directory r =? 0).
Proof. unfold node_of. simpl. by destruct (is_directory r =? 0). Qed.

(** ** Operations that change one row *)

Lemma tree_alter db f g h :
  (forall r, fs db !! f = Some r -> node_of (g r) = h (node_of r)) ->
  tree_of (with_fs (alter g f) db) = Tree (alter h f (t_nodes (tree_of db))) (t_last (tree_of db)).
Proof. intros H. unfold tree_of. simpl. by rewrite (fmap_alter _ g h). Qed.

Lemma open_refines f db : db_wf db -> name_ok f = true -> refines (OpOpen f) db.
Proof.
  intros Hwf Hn. unfold refines. cbn [run_op tree_step]. unfold checkAndOpen, tree_open.
  rewrite tree_lookup. eexists _, db. split_and!; [|done|reflexivity].
  unfold mbind, M_bind. rewrite query_plain by by apply name_plain.
  destruct (fs db !! f) as [r|] eqn:Hr; [|done]. simpl. do 4 f_equal.
  by apply (row_inst db f).
Qed.

Lemma read_runs f inst db : db_wf db -> name_ok f = true ->
  checkAndRead f inst db = Ret (tree_read f inst (tree_of db)) db.
Proof.
  intros Hwf Hn. unfold checkAndRead, tree_read. rewrite tree_lookup.
  unfold mbind, M_bind. rewrite query_plain by by apply name_plain.
  destruct (fs db !! f) as [r|] eqn:Hr; [|done]. cbn [fmap option_fmap option_map].
  change (col_int _ 1) with (instance_number r). rewrite (row_inst db f) by done.
  change (n_inst (node_of r)) with (instance_number r).
  destruct (Z.eqb_spec (instance_number r) inst) as [E|]; [|done].
  rewrite (node_content db f) by done. rewrite E. rewrite (node_is_dir r). reflexivity.
Qed.

Lemma read_refines f inst db : db_wf db -> name_ok f = true -> refines (OpRead f inst) db.
Proof.
  intros Hwf Hn. eexists _, db. split_and!; [|done|reflexivity]. simpl.
  by rewrite (bind_Ret _ _ _ _ _ (read_runs f inst db Hwf Hn)).
Qed.

(** The transaction of an operation that changes the row of [f] with [g]. *)
Lemma txn_refines s f g h db r : db_wf db -> fs db !! f = Some r ->
  forallb plain (stmt_operands s) = true ->
  (forall db, stmt_effect s db = Some (with_fs (alter g f) db)) ->
  same_shape r (g r) -> node_of (g r) = h (node_of r) ->
  exists rep db',
    match (sqlexec SBegin ;; sqlexec s ;; sqlexec SCommit ;; mret true) db with
    | Ret a s' => Ret (RepBool a) s'
    | Throw e s' => Throw e s'
    | Abort => Abort
    | Diverge => Diverge
    end = Ret rep db' /\ db_wf db' /\
    (RepBool true, Tree (alter h f (t_nodes (tree_of db))) (t_last (tree_of db))) = (rep, tree_of db').
Proof.
  intros Hwf Hr Hp Hs Hg Hh. rewrite (txn_alter s (alter g f)) by (try done; by apply Hwf).
  eexists _, _. split_and!; [done| |].
  - apply wf_alter; [done|]. intros r' Hr'. by simplify_eq.
  - f_equal. symmetry. apply tree_alter. intros r' Hr'. by simplify_eq.
Qed.

(** The checks before it: the node exists and has the expected instance. *)
Ltac run_guard Hwf f inst db Hr :=
  rewrite tree_lookup in *; unfold mbind at 1, M_bind at 1; unfold mbind at 1, M_bind at 1;
  rewrite query_plain by (by apply name_plain);
  destruct (fs db !! f) as [?r|] eqn:Hr; [|by eexists _, _];
  cbn [fmap option_fmap option_map];
  match type of Hr with _ = Some ?r =>
    change (n_inst (node_of r)) with (instance_number r);
    change (col_int _ 0) with (instance_number r);
    rewrite (row_inst db f) by done;
    destruct (Z.eqb_spec (instance_number r) inst); [|by eexists _, _]; cbn [negb andb]
  end.

Lemma update_refines f inst c db : db_wf db -> op_ok (OpUpdate f inst c) (tree_of db) = true ->
  refines (OpUpdate f inst c) db.
Proof.
  intros Hwf [[Hn Hc]%andb_true_iff Hf]%andb_true_iff. unfold refines. cbn [run_op tree_step].
  unfold checkAndUpdate, tree_guarded. run_guard Hwf f inst db Hr.
  pose proof (name_plain f Hn) as Hpf.
  destruct (plain_facts c Hc) as [-> _], (plain_facts f Hpf) as [-> _].
  eapply txn_refines; [done|exact Hr|cbn; by rewrite Hc, Hpf|done| |].
  - split_and!; [done|done|]. intros Hd. unfold is_dir_row in Hd. cbn in Hf. by rewrite Hd in Hf.
  - unfold node_of, set_kind. cbn in Hf |- *. by destruct (is_directory r =? 0).
Qed.

Lemma reset_refines f inst db : db_wf db -> name_ok f = true -> refines (OpReset f inst) db.
Proof.
  intros Hwf Hn. unfold refines. cbn [run_op tree_step].
  unfold resetLockOwner, tree_guarded. run_guard Hwf f inst db Hr.
  pose proof (name_plain f Hn) as Hpf. destruct (plain_facts f Hpf) as [-> _].
  eapply txn_refines; [done|exact Hr|cbn; by rewrite Hpf|done|done|done].
Qed.

Lemma lock_refines f inst cl db : db_wf db -> name_ok f = true -> plain cl = true ->
  refines (OpTestAndSet f inst cl) db.
Proof.
  intros Hwf Hn Hc. unfold refines. cbn [run_op tree_step].
  unfold testAndSetLockOwner, tree_guarded. run_guard Hwf f inst db Hr.
  pose proof (name_plain f Hn) as Hpf.
  destruct (plain_facts cl Hc) as [-> _], (plain_facts f Hpf) as [-> _].
  change (col_str _ 1) with (lock_owner r). rewrite owner_of_free.
  change (unlocked (node_of r)) with (match owner_of (lock_owner r) with None => true | Some _ => false end).
  destruct (owner_of (lock_owner r)); [by eexists _, _|].
  eapply txn_refines; [done|exact Hr|cbn; by rewrite Hc, Hpf|done|done|done].
Qed.

Lemma states_refines db : db_wf db -> refines OpGetStates db.
Proof.
  intros Hwf. eexists _, db. split_and!; [reflexivity|done|].
  cbn [tree_step]. do 2 f_equal. unfold tree_of. simpl. rewrite map_to_list_fmap.
  rewrite <-list_fmap_compose. apply list_fmap_ext. intros _ [n r] _. simpl.
  by rewrite owner_str_of.
Qed.

(** ** Creating and deleting nodes *)

(** The new row of the parent of a node that is added or removed. *)
Definition parent_row (change : string -> string) (p : FsRow) : FsRow :=
  set_content (change (content p)) (bump (content_generation_number p))
    (sint32 (str_hash (change (content p)))) p.

Definition created (f : string) (is_dir : bool) (i : Z) (db : Db) : Db :=
  mkDb (in_parent_rows f (parent_row (fun c => dirContentCreate c f))
          (<[f := new_row i (if is_dir then 1 else 0)]> (fs db))) (Some i) false.

Definition deleted (f : string) (db : Db) : Db :=
  mkDb (in_parent_rows f (parent_row (fun c => dirContentDelete c f)) (delete f (fs db)))
    (max_instance_number db) false.

Lemma no_children_of_missing db f : db_wf db -> name_ok f = true -> fs db !! f = None ->
  forall n, is_Some (fs db !! n) -> getParentName n <> f.
Proof.
  intros Hwf Hn Hnone n [r Hr] E. destruct (wf_row _ Hwf n r Hr) as [_ _ _ Hp].
  destruct Hp as (p & Hp & _); [|congruence].
  intros E'. assert (f = "/") as -> by congruence. by apply name_ok_facts in Hn as [? _].
Qed.

Lemma created_wf db f is_dir last : db_wf db -> name_ok f = true -> fs db !! f = None ->
  max_instance_number db = Some last -> last < 2 ^ 31 - 1 ->
  (getParentName f <> "/" -> exists p, fs db !! getParentName f = Some p /\ is_dir_row p /\
     Z.of_nat (String.length (content p)) + Z.of_nat (String.length f) + 1 <= operand_max) ->
  db_wf (created f is_dir (last + 1) db).
Proof.
  intros Hwf Hn Hnone Hl Hb Hp. destruct (wf_last _ Hwf) as (l & Hl' & Hb'). simplify_eq.
  apply (wf_child db f (Some _)); rewrite ?Hl; cbn [default]; try done.
  - by apply no_children_of_missing.
  - intros Hr. destruct (Hp Hr) as (p & ? & ? & _). by exists p.
  - intros row [= <-]. simpl. split_and!; [lia|lia|by destruct is_dir; auto|done].
  - simpl. lia.
  - intros p ns Hpl Hpd Hc Hnd Hns. split_and!; [done|done|].
    exists (ns ++ [f]). simpl. rewrite Hc, render_create. split_and!; [done| | |].
    + rewrite <-render_create, length_create, <-Hc.
      destruct Hp as (q & Hq & _ & Hlen).
      { intros E. rewrite E, (root_no_row db Hwf) in Hpl. done. }
      simplify_eq. lia.
    + apply list.NoDup_app. split_and!; [done| |apply NoDup_singleton].
      intros x Hx ->%list_elem_of_singleton. apply Hns in Hx as [[? Hx] _]. congruence.
    + intros n. rewrite elem_of_app, list_elem_of_singleton.
      destruct (decide (n = f)); [|tauto]. split; [by eexists|by right].
Qed.

Lemma deleted_wf db f r : db_wf db -> name_ok f = true -> fs db !! f = Some r ->
  (is_dir_row r -> content r = "") -> db_wf (deleted f db).
Proof.
  intros Hwf Hn Hr Hempty. destruct (wf_last _ Hwf) as (l & Hl & Hb). unfold deleted. rewrite Hl.
  apply (wf_child db f None); rewrite ?Hl; cbn [default]; try done; [| | |].
  - intros n [s Hs] E. destruct (wf_row _ Hwf n s Hs) as [Hnn _ _ Hp].
    destruct Hp as (p & Hp & Hpd). { intros E'. rewrite <-E, E' in Hn. by apply name_ok_facts in Hn as [? _]. }
    rewrite E in Hp. assert (p = r) as -> by congruence. destruct (row_dir_names db f r) as (ns & Hc & _ & _ & _ & _ & Hns); try done.
    rewrite (Hempty Hpd) in Hc. symmetry in Hc. apply render_nil in Hc as ->.
    assert (n ∈ []) as Hin by (apply Hns; split; [by eexists|done]). set_solver.
  - by apply (wf_row _ Hwf f r Hr).
  - simpl. lia.
  - intros p ns Hpl Hpd Hc Hnd Hns. split_and!; [done|done|].
    destruct (row_dir_names db _ p Hwf Hpl Hpd) as (ns2 & Hc2 & Hd & Hok & _ & Hlen & _).
    assert (ns2 = ns) as ->.
    { rewrite <-Hd, Hc. apply dir_names_render. apply list.Forall_forall. intros n Hin.
      apply Hns in Hin as [[s Hs] _]. apply name_entry.
      destruct (wf_row _ Hwf n s Hs) as [Hnn _ _ _]. by apply name_ok_facts. }
    exists (filter (fun m => m <> f) ns). simpl. rewrite Hc, render_delete.
    2:{ eapply list.Forall_impl; [exact Hok|]. intros n. apply name_entry. }
    split_and!; [done| |by apply list.NoDup_filter|].
    + pose proof (render_filter_length (fun m => m <> f) ns). lia.
    + intros n. rewrite list_elem_of_filter. destruct (decide (n = f)); [|tauto].
      split; [tauto|intros [? ?]; done].
Qed.

Lemma tree_in_parent f g h (m : gmap string FsRow) :
  (forall p, m !! getParentName f = Some p -> getParentName f <> "/" ->
     node_of (g p) = set_kind str_hash (Dir (h (children (node_of p)))) (node_of p)) ->
  node_of <$> in_parent_rows f g m = in_parent str_hash f h (node_of <$> m).
Proof.
  intros H. unfold in_parent_rows, in_parent. case_bool_decide; [done|].
  apply fmap_alter. intros p Hp. by apply H.
Qed.

(** The new content of a parent row, as a list of children. *)
Lemma parent_row_node change h p ns : is_dir_row p -> dir_names (content p) = ns ->
  dir_names (change (content p)) = h ns -> change (content p) = render (h ns) ->
  node_of (parent_row change p) = set_kind str_hash (Dir (h (children (node_of p)))) (node_of p).
Proof.
  intros Hd Hns Hc Hr. unfold node_of, set_kind, children, is_dir_row in *. simpl. rewrite Hd. simpl.
  by rewrite Hns, Hc, Hr.
Qed.

Lemma names_entries ns : Forall (fun n => checkName n = true) ns -> Forall entry_ok ns.
Proof. intros H. eapply list.Forall_impl; [exact H|]. intros n. apply name_entry. Qed.

Lemma created_tree db f is_dir i : db_wf db -> name_ok f = true ->
  (forall p, fs db !! getParentName f = Some p -> is_dir_row p) ->
  tree_of (created f is_dir i db) =
  Tree (in_parent str_hash f (fun ns => ns ++ [f]) (<[f := new_node is_dir i]> (t_nodes (tree_of db)))) i.
Proof.
  intros Hwf Hn Hd. unfold tree_of, created. simpl. f_equal.
  rewrite (tree_in_parent _ _ (fun ns => ns ++ [f])).
  - rewrite fmap_insert. do 2 f_equal. unfold node_of, new_node. by destruct is_dir.
  - apply name_ok_facts in Hn as [Hcn _]. intros p Hp _.
    rewrite lookup_insert_ne in Hp by (by apply not_eq_sym, getParentName_ne).
    destruct (row_dir_names db _ p Hwf Hp (Hd p Hp)) as (ns & Hc & Hns & Hok & _).
    assert (dirContentCreate (content p) f = render (ns ++ [f])) as Hr by by rewrite Hc, render_create.
    eapply (parent_row_node (fun c => dirContentCreate c f) (fun ns => ns ++ [f])); eauto.
    rewrite Hr. apply dir_names_render, names_entries, Forall_app. by repeat constructor.
Qed.

Lemma deleted_tree db f : db_wf db -> name_ok f = true ->
  (forall p, fs db !! getParentName f = Some p -> is_dir_row p) ->
  tree_of (deleted f db) =
  Tree (in_parent str_hash f (filter (fun m => m <> f)) (delete f (t_nodes (tree_of db))))
    (t_last (tree_of db)).
Proof.
  intros Hwf Hn Hd. unfold tree_of, deleted. simpl. f_equal.
  rewrite (tree_in_parent _ _ (filter (fun m => m <> f))); [by rewrite fmap_delete|].
  apply name_ok_facts in Hn as [Hcn _]. intros p Hp _.
  rewrite lookup_delete_ne in Hp by (by apply not_eq_sym, getParentName_ne).
  destruct (row_dir_names db _ p Hwf Hp (Hd p Hp)) as (ns & Hc & Hns & Hok & _).
  assert (dirContentDelete (content p) f = render (filter (fun m => m <> f) ns)) as Hr.
  { rewrite Hc. by apply render_delete, names_entries. }
  eapply (parent_row_node (fun c => dirContentDelete c f) (filter (fun m => m <> f))); eauto.
  rewrite Hr. apply dir_names_render, names_entries, list.Forall_forall.
  intros x [_ Hx]%list_elem_of_filter. by eapply list.Forall_forall in Hok.
Qed.

(** Running a statement of a transaction. *)
Lemma bind_sqlexec {A} s (k : unit -> M Db A) db db' : forallb plain (stmt_operands s) = true ->
  stmt_effect s db = Some db' -> (sqlexec s ≫= k) db = k tt db'.
Proof. intros Hp Hs. apply bind_Ret. by rewrite sqlexec_plain, Hs. Qed.

Lemma bind_query {A} cols f (k : option (list sqlval) -> M Db A) db : plain f = true ->
  (query cols f ≫= k) db = k ((fun r => column_of f r <$> cols) <$> fs db !! f) db.
Proof. intros Hp. apply bind_Ret. by apply query_plain. Qed.

Lemma create_plain db f p : db_wf db -> name_ok f = true ->
  fs db !! getParentName f = Some p -> is_dir_row p ->
  Z.of_nat (String.length (content p)) + Z.of_nat (String.length f) + 1 <= operand_max ->
  plain (dirContentCreate (content p) f) = true.
Proof.
  intros Hwf Hn Hp Hd Hl. destruct (row_dir_names db _ p Hwf Hp Hd) as (ns & Hc & _ & Hok & _).
  pose proof (length_create (content p) f). rewrite Hc, render_create in *. apply render_plain; [|lia].
  apply name_ok_facts in Hn as [Hcn _]. apply Forall_app. by repeat constructor.
Qed.

Lemma delete_plain db f p : db_wf db -> fs db !! getParentName f = Some p -> is_dir_row p ->
  plain (dirContentDelete (content p) f) = true.
Proof.
  intros Hwf Hp Hd. destruct (row_dir_names db _ p Hwf Hp Hd) as (ns & Hc & _ & Hok & _ & Hl & _).
  rewrite Hc, render_delete by by apply names_entries. apply render_plain.
  - apply list.Forall_forall. intros x [_ Hx]%list_elem_of_filter. by eapply list.Forall_forall in Hok.
  - pose proof (render_filter_length (fun m => m <> f) ns). lia.
Qed.

(** A successful creation. *)
Lemma create_runs db f is_dir last : db_wf db -> name_ok f = true -> fs db !! f = None ->
  max_instance_number db = Some last -> last < 2 ^ 31 - 1 ->
  (getParentName f <> "/" -> exists p, fs db !! getParentName f = Some p /\ is_dir_row p /\
     Z.of_nat (String.length (content p)) + Z.of_nat (String.length f) + 1 <= operand_max) ->
  checkAndCreate str_hash f is_dir db = Ret (true, Some (last + 1)) (created f is_dir (last + 1) db).
Proof.
  intros Hwf Hn Hnone Hl Hb Hp. destruct (wf_last _ Hwf) as (l & Hl' & Hb'). simplify_eq.
  pose proof (name_plain f Hn) as Hpf. destruct (plain_facts f Hpf) as [Hcf _].
  unfold checkAndCreate. rewrite bind_query, Hnone by done. cbn [fmap option_fmap option_map].
  assert (wrap64 (wrap64 last + 1) = last + 1) as Hw by (rewrite (wrap64_small last), wrap64_small; unfold u64; lia).
  assert (sint32 (last + 1) = last + 1) as Hw2 by (apply sint32_small; lia).
  unfold created, in_parent_rows. pose proof (wf_tx _ Hwf) as Htx. case_bool_decide as Hr.
  - rewrite bind_ret_l. cbv beta iota. rewrite (bind_Ret _ _ _ (Some last) db) by (unfold gets; by rewrite Hl).
    cbv beta iota. rewrite Hw, Hw2, Hcf.
    rewrite (bind_sqlexec SBegin _ db (with_tx true db)) by (cbn; by rewrite ?Htx).
    erewrite (bind_sqlexec (SInsert _ _ _)) by (cbn; by rewrite ?Hpf, ?Hnone).
    erewrite (bind_sqlexec (SUpdateMax _)) by reflexivity.
    rewrite bind_ret_l. erewrite (bind_sqlexec SCommit) by reflexivity.
    cbn. by rewrite Hl.
  - destruct (Hp Hr) as (p & Hpl & Hpd & Hlen).
    rewrite bind_assoc, bind_query by by apply name_plain, parent_name_ok.
    rewrite Hpl. cbn [fmap option_fmap option_map].
    change (col_int _ 2) with (is_directory p). rewrite Hpd. cbn [Z.eqb].
    change (col_str _ 0) with (content p). change (col_int _ 1) with (content_generation_number p).
    rewrite bind_ret_l. cbv beta iota. rewrite (bind_Ret _ _ _ (Some last) db) by (unfold gets; by rewrite Hl).
    cbv beta iota. rewrite Hw, Hw2, Hcf.
    destruct (plain_facts (getParentName f)) as [-> _]; [by apply name_plain, parent_name_ok|].
    pose proof (create_plain db f p Hwf Hn Hpl Hpd Hlen) as Hpc.
    destruct (plain_facts _ Hpc) as [-> _].
    rewrite (bind_sqlexec SBegin _ db (with_tx true db)) by (cbn; by rewrite ?Htx).
    erewrite (bind_sqlexec (SInsert _ _ _)) by (cbn; by rewrite ?Hpf, ?Hnone).
    erewrite (bind_sqlexec (SUpdateMax _)) by reflexivity.
    erewrite (bind_sqlexec (SUpdateContent _ _ _ _))
      by (cbn; by rewrite ?Hpc, ?(name_plain (getParentName f)) by by apply parent_name_ok).
    erewrite (bind_sqlexec SCommit) by reflexivity. cbn. rewrite Hl.
    unfold with_tx, with_fs. cbn. do 2 f_equal. apply alter_ext. intros q Hq.
    rewrite lookup_insert_ne in Hq by (apply not_eq_sym, getParentName_ne; by apply name_ok_facts).
    by simplify_eq.
Qed.
(** A successful deletion. *)
Lemma delete_runs db f r : db_wf db -> name_ok f = true -> fs db !! f = Some r ->
  lock_owner r = NO_OWNER -> (is_dir_row r -> content r = "") ->
  checkAndDelete str_hash f (instance_number r) db = Ret true (deleted f db).
Proof.
  intros Hwf Hn Hr Ho Hempty. pose proof (name_plain f Hn) as Hpf.
  destruct (plain_facts f Hpf) as [Hcf _]. pose proof (wf_tx _ Hwf) as Htx.
  unfold checkAndDelete. rewrite bind_query, Hr by done. cbn [fmap option_fmap option_map].
  match goal with |- context [list_fmap _ _ (column_of f r) ?cols] =>
    set (row := list_fmap _ _ (column_of f r) cols) end.
  change (col_str row 0) with (lock_owner r). change (col_int row 1) with (instance_number r).
  change (col_int row 2) with (is_directory r). change (col_str row 3) with (content r).
  rewrite Ho, bool_decide_true, (row_inst db f), Z.eqb_refl by done. cbn [negb].
  destruct (wf_row _ Hwf f r Hr) as [_ _ Hk Hp].
  assert (negb (is_directory r =? 0) && negb (bool_decide (content r = "")) = false) as ->.
  { destruct Hk as [-> |[Hd _]]; [done|]. by rewrite (Hempty Hd), andb_false_r. }
  unfold deleted, in_parent_rows. case_bool_decide as Hroot.
  - rewrite bind_ret_l. cbv beta iota. rewrite Hcf.
    rewrite (bind_sqlexec SBegin _ db (with_tx true db)) by (cbn; by rewrite ?Htx).
    erewrite (bind_sqlexec (SDelete _)) by (cbn; by rewrite ?Hpf).
    rewrite bind_ret_l. by erewrite (bind_sqlexec SCommit) by reflexivity.
  - destruct (Hp Hroot) as (p & Hpl & Hpd).
    rewrite bind_assoc, bind_query by by apply name_plain, parent_name_ok.
    rewrite Hpl. cbn [fmap option_fmap option_map].
    change (col_int _ 2) with (is_directory p). rewrite Hpd.
    change (cassert (1 =? 1)) with (mret () : M Db unit). rewrite bind_assoc, bind_ret_l, bind_ret_l.
    change (col_str _ 0) with (content p). change (col_int _ 1) with (content_generation_number p).
    cbv beta iota. rewrite Hcf.
    destruct (plain_facts (getParentName f)) as [-> _]; [by apply name_plain, parent_name_ok|].
    pose proof (delete_plain db f p Hwf Hpl Hpd) as Hpc. destruct (plain_facts _ Hpc) as [-> _].
    rewrite (bind_sqlexec SBegin _ db (with_tx true db)) by (cbn; by rewrite ?Htx).
    erewrite (bind_sqlexec (SDelete _)) by (cbn; by rewrite ?Hpf).
    erewrite (bind_sqlexec (SUpdateContent _ _ _ _))
      by (cbn; by rewrite ?Hpc, ?(name_plain (getParentName f)) by by apply parent_name_ok).
    erewrite (bind_sqlexec SCommit) by reflexivity.
    unfold with_tx, with_fs. cbn. do 2 f_equal. apply alter_ext. intros q Hq.
    rewrite lookup_delete_ne in Hq by (apply not_eq_sym, getParentName_ne; by apply name_ok_facts).
    by simplify_eq.
Qed.
Lemma parent_ok_spec db f : db_wf db ->
  parent_ok f (t_nodes (tree_of db)) = true <->
  (getParentName f <> "/" -> exists p, fs db !! getParentName f = Some p /\ is_dir_row p).
Proof.
  intros Hwf. unfold parent_ok. rewrite tree_lookup. case_bool_decide as Hr; [by split|]. simpl.
  destruct (fs db !! getParentName f) as [p|] eqn:Hp; simpl.
  - destruct (wf_row _ Hwf _ p Hp) as [_ _ Hk _]. unfold is_dir_row. destruct Hk as [Hk|[Hk _]].
    + rewrite Hk. simpl. split; [done|]. intros Hd. destruct (Hd Hr) as (q & Hq & Hqd).
      simplify_eq. congruence.
    + unfold is_dir_row in Hk. rewrite Hk. simpl. split; [by eauto|done].
  - split; [done|]. intros Hd. by destruct (Hd Hr) as (q & Hq & _).
Qed.

Lemma create_rejects db f is_dir : db_wf db -> name_ok f = true -> fs db !! f = None ->
  parent_ok f (t_nodes (tree_of db)) = false -> checkAndCreate str_hash f is_dir db = Ret (false, None) db.
Proof.
  intros Hwf Hn Hnone. unfold parent_ok. rewrite tree_lookup, orb_false_iff. intros [Hr Hp].
  unfold checkAndCreate. rewrite bind_query, Hnone by by apply name_plain.
  cbn [fmap option_fmap option_map]. rewrite Hr. apply bool_decide_eq_false in Hr.
  rewrite bind_assoc, bind_query by by apply name_plain, parent_name_ok.
  destruct (fs db !! getParentName f) as [p|]; [|done]. cbn [fmap option_fmap option_map].
  change (col_int _ 2) with (is_directory p). simpl in Hp. by destruct (is_directory p =? 0).
Qed.

Lemma create_refines f is_dir db : db_wf db -> op_ok (OpCreate f is_dir) (tree_of db) = true ->
  refines (OpCreate f is_dir) db.
Proof.
  intros Hwf [[Hn Hb]%andb_true_iff Hl]%andb_true_iff. destruct (wf_last _ Hwf) as (last & Hlast & _).
  unfold t_last, tree_of in Hb. rewrite Hlast in Hb. apply Z.ltb_lt in Hb.
  unfold refines. cbn [run_op tree_step]. unfold tree_create. rewrite !tree_lookup in *.
  destruct (fs db !! f) as [r|] eqn:Hr.
  { eexists _, db. split_and!; [|done|done]. unfold checkAndCreate.
    rewrite bind_assoc, bind_query, Hr by by apply name_plain. done. }
  cbn [fmap option_fmap option_map]. destruct (parent_ok f _) eqn:Hp.
  - rewrite parent_ok_spec in Hp by done.
    assert (getParentName f <> "/" -> exists p, fs db !! getParentName f = Some p /\ is_dir_row p /\
      Z.of_nat (String.length (content p)) + Z.of_nat (String.length f) + 1 <= operand_max) as Hroom.
    { intros Hroot. destruct (Hp Hroot) as (p & Hpl & Hd). exists p. split_and!; [done|done|].
      rewrite Hpl in Hl. rewrite <-(node_content db _ p Hwf Hpl). simpl in Hl |- *.
      rewrite Hd in *. simpl in *. by apply Z.leb_le in Hl. }
    eexists _, _. split_and!.
    + rewrite (bind_Ret _ _ _ _ _ (create_runs db f is_dir last Hwf Hn Hr Hlast Hb Hroom)). reflexivity.
    + by apply created_wf.
    + rewrite created_tree; [|done|done|].
      { by assert (t_last (tree_of db) = last) as -> by (unfold tree_of; simpl; by rewrite Hlast). }
      intros p Hpl.
      by apply (parent_dir db f).
  - eexists _, db. split_and!; [|done|done].
    by rewrite (bind_Ret _ _ _ _ _ (create_rejects db f is_dir Hwf Hn Hr Hp)).
Qed.

Lemma no_children db f r : db_wf db -> fs db !! f = Some r ->
  bool_decide (children (node_of r) = []) =
  negb (negb (is_directory r =? 0) && negb (bool_decide (content r = ""))).
Proof.
  intros Hwf Hr. unfold children, node_of. simpl. destruct (Z.eqb_spec (is_directory r) 0) as [|Hd]; [done|].
  simpl. rewrite negb_involutive. apply bool_decide_ext.
  destruct (wf_row _ Hwf f r Hr) as [_ _ [?|[Hk _]] _]; [done|].
  destruct (row_dir_names db f r Hwf Hr Hk) as (ns & Hc & Hns & _).
  rewrite Hns, Hc, render_nil. done.
Qed.

Lemma delete_rejects db f inst r : db_wf db -> name_ok f = true -> fs db !! f = Some r ->
  (instance_number r =? inst) && (unlocked (node_of r) && bool_decide (children (node_of r) = [])) = false ->
  checkAndDelete str_hash f inst db = Ret false db.
Proof.
  intros Hwf Hn Hr. rewrite (no_children db f) by done. intros Hg.
  unfold checkAndDelete. rewrite bind_query, Hr by by apply name_plain.
  cbn [fmap option_fmap option_map].
  match goal with |- context [list_fmap _ _ (column_of f r) ?cols] =>
    set (row := list_fmap _ _ (column_of f r) cols) end.
  change (col_str row 0) with (lock_owner r). change (col_int row 1) with (instance_number r).
  change (col_int row 2) with (is_directory r). change (col_str row 3) with (content r).
  rewrite owner_of_free, (row_inst db f) by done. unfold unlocked in Hg. simpl in Hg.
  destruct (owner_of (lock_owner r)); [done|]. simpl in *.
  destruct (instance_number r =? inst); [|done]. simpl in *. apply negb_false_iff in Hg. by rewrite Hg.
Qed.

Lemma delete_refines f inst db : db_wf db -> name_ok f = true -> refines (OpDelete f inst) db.
Proof.
  intros Hwf Hn. unfold refines. cbn [run_op tree_step]. unfold tree_guarded. rewrite tree_lookup.
  destruct (fs db !! f) as [r|] eqn:Hr; cbn [fmap option_fmap option_map].
  2:{ eexists _, db. split_and!; [|done|done]. unfold checkAndDelete.
      rewrite bind_assoc, bind_query, Hr by by apply name_plain. done. }
  change (n_inst (node_of r)) with (instance_number r).
  destruct ((instance_number r =? inst) && _) eqn:Hg.
  - apply andb_true_iff in Hg as [Hi%Z.eqb_eq [Hu Hc]%andb_true_iff]. subst inst.
    rewrite (no_children db f r Hwf Hr) in Hc.
    assert (lock_owner r = NO_OWNER) as Ho.
    { pose proof (owner_of_free (lock_owner r)) as Ho. unfold unlocked, node_of in Hu. simpl in Hu.
      rewrite Hu in Ho. by apply bool_decide_eq_true in Ho. }
    assert (is_dir_row r -> content r = "") as Hempty.
    { intros Hd. rewrite Hd in Hc. simpl in Hc. rewrite negb_involutive in Hc.
      by apply bool_decide_eq_true in Hc. }
    eexists _, _. split_and!.
    + by rewrite (bind_Ret _ _ _ _ _ (delete_runs db f r Hwf Hn Hr Ho Hempty)).
    + by apply (deleted_wf db f r).
    + rewrite deleted_tree; [done|done|done|]. intros p Hpl.
      destruct (wf_row _ Hwf f r Hr) as [_ _ _ Hp]. by apply (parent_dir db f).
  - eexists _, db. split_and!; [|done|done].
    by rewrite (bind_Ret _ _ _ _ _ (delete_rejects db f inst r Hwf Hn Hr Hg)).
Qed.

Lemma op_refines op db : db_wf db -> op_ok op (tree_of db) = true -> refines op db.
Proof.
  intros Hwf Hop. destruct op; [by apply create_refines| | | | | | |by apply states_refines].
  - by apply open_refines.
  - by apply delete_refines.
  - by apply read_refines.
  - by apply update_refines.
  - apply andb_true_iff in Hop as [Hn Hc]. by apply lock_refines.
  - by apply reset_refines.
Qed.

(** ** Runs of requests *)

Fixpoint run_ops (ops : list db_op) : M Db (list db_reply) :=
  match ops with
  | [] => mret []
  | op :: ops => r ← run_op op; rs ← run_ops ops; mret (r :: rs)
  end.

(** Every request of the sequence is admissible when its turn comes. *)
Fixpoint ops_ok (ops : list db_op) (t : tree) : bool :=
  match ops with
  | [] => true
  | op :: ops => op_ok op t && ops_ok ops (tree_step str_hash op t).2
  end.

(** C9: any sequence of admissible requests, run from a well-formed database,
    completes without exception or failed assertion, gives exactly the
    replies of the abstract tree, and ends in a well-formed database that
    represents the resulting tree.  The content of a directory is, as
    [dirContentCreate] and [dirContentDelete] write it, a bar before each of its
    entries; [tests/dir.out] has no bar before the entry that is left after a
    deletion ([deletion_keeps_bars]). *)
Theorem server_db_refines_tree ops db : db_wf db -> ops_ok ops (tree_of db) = true ->
  exists reps db', run_ops ops db = Ret reps db' /\ db_wf db' /\
    tree_run str_hash ops (tree_of db) = (reps, tree_of db').
Proof.
  revert db. induction ops as [|op ops IH]; intros db Hwf Hok; [by exists [], db|].
  simpl in Hok. apply andb_true_iff in Hok as [Hop Hops].
  destruct (op_refines op db Hwf Hop) as (rep & db1 & Hrun & Hwf1 & Hstep).
  rewrite Hstep in Hops. destruct (IH db1 Hwf1 Hops) as (reps & db2 & Hruns & Hwf2 & Hsteps).
  exists (rep :: reps), db2. split_and!; [|done|].
  - simpl. by rewrite (bind_Ret _ _ _ _ _ Hrun), (bind_Ret _ _ _ _ _ Hruns).
  - simpl. by rewrite Hstep, Hsteps.
Qed.
End refine.
