(* ===== verification/ServerDBProps.v ===== *)
(** * What the node database guarantees, and where it fails

    Locks are exclusive until reset, instance numbers are never reused, a read
    returns the last update; and the cases in which the SQL code breaks its own
    invariant: contents written over a directory, statements that fail inside a
    transaction, and instance numbers beyond 31 bits. *)

From Stdlib Require Import Sorted.
From S2P Require Import Prelude Names ServerDB DirContent Tree ServerDBWf ServerDBRefine.

(** An engine that rejects every other statement, for the examples. *)
Definition strict_engine : Sqlite :=
  {| raw_query := fun _ _ => None; raw_exec := fun _ _ => None; text_to_int := fun _ => 0 |}.

(** A sample run: a directory, a file in it, an update and a lock. *)
Definition sample_ops : list db_op :=
  [OpCreate "/d" true; OpCreate "/d/f" false; OpUpdate "/d/f" 2 "hello"; OpTestAndSet "/d/f" 2 "alice";
   OpTestAndSet "/d/f" 2 "bob"; OpDelete "/d/f" 2; OpDelete "/d" 1; OpRead "/d" 1; OpReset "/d/f" 2;
   OpDelete "/d/f" 2; OpDelete "/d" 1; OpGetStates].
Definition sample_hash (s : string) : Z := Z.of_nat (String.length s).

Lemma server_db_refines_tree_witness :
  db_wf create_db /\ ops_ok sample_hash sample_ops (tree_of create_db) = true /\
  exists reps db', run_ops (sqlite := strict_engine) sample_hash sample_ops create_db = Ret reps db' /\
    db_wf db' /\ tree_run sample_hash sample_ops (tree_of create_db) = (reps, tree_of db').
Proof.
  assert (ops_ok sample_hash sample_ops (tree_of create_db) = true) as H by (vm_compute; reflexivity).
  split; [exact create_db_wf|]. split; [exact H|].
  exact (server_db_refines_tree sample_hash sample_ops create_db create_db_wf H).
Defined.

(** The commands of [tests/dir.tst] on the directory [/dir]: behind the deletion
    of [/dir/a] its content is [|/dir/b]. *)
Definition dir_ops : list db_op :=
  [OpCreate "/dir" true; OpCreate "/dir/a" false; OpCreate "/dir/b" false; OpRead "/dir" 1; OpDelete "/dir" 1; OpDelete "/dir/a" 2;
   OpRead "/dir" 1; OpDelete "/dir/b" 3; OpRead "/dir" 1; OpDelete "/dir" 1].
Definition shown_content (r : db_reply) : option string :=
  match r with RepRead (Some x) => Some (r_content x) | _ => None end.
Lemma deletion_keeps_bars :
  match run_ops (sqlite := strict_engine) sample_hash dir_ops create_db with
  | Ret reps _ => omap shown_content reps = ["|/dir/a|/dir/b"; "|/dir/b"; ""] /\
      reps !! 4%nat = Some (RepBool false) /\ reps !! 9%nat = Some (RepBool true)
  | _ => False
  end.
Proof. by vm_compute. Qed.

(** ** Locks *)

Section props.
Context `{sqlite : !Sqlite} (str_hash : string -> Z).

(** The requests that a held lock makes fail. *)
Definition needs_free_lock (f : string) (op : db_op) : Prop :=
  match op with OpTestAndSet g _ _ | OpDelete g _ => g = f | _ => False end.

Definition resets (f : string) (op : db_op) : Prop :=
  match op with OpReset g _ => g = f | _ => False end.

Definition held_by (A f : string) (t : tree) : Prop :=
  exists n, t_nodes t !! f = Some n /\ n_owner n = Some A.

Lemma in_parent_owner f h m g n : m !! g = Some n ->
  exists n', in_parent str_hash f h m !! g = Some n' /\ n_owner n' = n_owner n.
Proof.
  intros Hn. unfold in_parent. case_bool_decide; [by eauto|].
  rewrite lookup_alter. case_decide as E; [|by eauto]. subst. rewrite Hn. by eexists.
Qed.

Lemma alter_owner h (m : gmap string node) g f n : m !! g = Some n ->
  (f = g -> n_owner (h n) = n_owner n) -> exists n', alter h f m !! g = Some n' /\ n_owner n' = n_owner n.
Proof.
  intros Hn Hh. rewrite lookup_alter. case_decide as E; [|by eauto]. subst. rewrite Hn. simpl. eauto.
Qed.

Lemma guarded_owner A f g inst ok h t : held_by A f t ->
  (forall n, t_nodes t !! f = Some n -> f = g -> ok n = true -> exists n', h (t_nodes t) !! f = Some n' /\ n_owner n' = Some A) ->
  (f <> g -> exists n', h (t_nodes t) !! f = Some n' /\ n_owner n' = Some A) ->
  held_by A f (tree_guarded g inst ok h t).2.
Proof.
  intros (n & Hn & Ho) H1 H2. unfold tree_guarded. destruct (t_nodes t !! g) as [m|] eqn:Hm; [|by exists n].
  destruct ((n_inst m =? inst) && ok m) eqn:Hok; [|by exists n].
  apply andb_true_iff in Hok as [_ Hok]. destruct (decide (f = g)) as [->|]; [|by apply H2].
  assert (m = n) as -> by congruence. by apply (H1 n).
Qed.

Lemma guarded_refused A f inst ok h t : held_by A f t ->
  (forall n, n_owner n = Some A -> ok n = false) -> (tree_guarded f inst ok h t).1 = RepBool false.
Proof.
  intros (n & Hn & Ho) Hok. unfold tree_guarded. by rewrite Hn, (Hok n Ho), andb_false_r.
Qed.

Lemma held_not_unlocked A n : n_owner n = Some A -> unlocked n = false.
Proof. intros H. unfold unlocked. by rewrite H. Qed.

(** A step that is no reset of [f] keeps the lock. *)
Lemma held_step A f op t : held_by A f t -> ~ resets f op -> held_by A f (tree_step str_hash op t).2.
Proof.
  intros Hh Hr. pose proof Hh as (n & Hn & Ho). destruct op as [g is_dir| g|g inst|g inst|g inst c|g inst cl|g inst|]; simpl in *.
  - unfold tree_create. destruct (t_nodes t !! g) eqn:Hg; [done|].
    destruct (parent_ok g (t_nodes t)); [|done]. assert (f <> g) by congruence.
    destruct (in_parent_owner g (fun ns => ns ++ [g]) (<[g := new_node is_dir (t_last t + 1)]> (t_nodes t)) f n)
      as (n' & ? & ?); [by rewrite lookup_insert_ne|]. exists n'. split; [done|congruence].
  - done.
  - apply guarded_owner; [done| |].
    + intros n2 Hn2 _ Hok. simplify_eq. by rewrite (held_not_unlocked A) in Hok.
    + intros Hne. destruct (in_parent_owner g (filter (fun m => m <> g)) (delete g (t_nodes t)) f n)
        as (n' & ? & ?); [by rewrite lookup_delete_ne|]. exists n'. split; [done|congruence].
  - done.
  - apply guarded_owner; [done| |]; intros;
      destruct (alter_owner (set_kind str_hash (File c)) (t_nodes t) f g n) as (n' & ? & ?); try done;
      exists n'; (split; [done|congruence]).
  - apply guarded_owner; [done| |].
    + intros n2 Hn2 _ Hok. simplify_eq. by rewrite (held_not_unlocked A) in Hok.
    + intros Hne. exists n. by rewrite lookup_alter_ne.
  - apply guarded_owner; [done| |].
    + intros. subst. done.
    + intros Hne. exists n. by rewrite lookup_alter_ne.
  - done.
Qed.

Lemma held_refuses A f op t : held_by A f t -> needs_free_lock f op ->
  (tree_step str_hash op t).1 = RepBool false.
Proof.
  intros Hh. destruct op; simpl; try done; intros ->; apply (guarded_refused A); try done.
  - intros n Ho. by rewrite (held_not_unlocked A).
  - intros n. apply held_not_unlocked.
Qed.

Lemma held_by_row A f db : held_by A f (tree_of db) <-> A <> NO_OWNER /\ lock_owner <$> fs db !! f = Some A.
Proof.
  unfold held_by. rewrite tree_lookup. destruct (fs db !! f) as [r|]; simpl.
  - unfold node_of, owner_of. split.
    + intros (n & [= <-] & Ho). simpl in Ho. case_bool_decide; by simplify_eq.
    + intros [Hne [= <-]]. eexists. split; [done|]. simpl. by rewrite bool_decide_false.
  - split; [by intros (? & ? & _)|by intros [_ ?]].
Qed.

Lemma lock_holds f inst A db db1 : A <> NO_OWNER ->
  tree_step str_hash (OpTestAndSet f inst A) (tree_of db) = (RepBool true, tree_of db1) ->
  held_by A f (tree_of db1).
Proof.
  intros HA Hstep. simpl in Hstep. unfold tree_guarded in Hstep. rewrite tree_lookup in Hstep.
  destruct (fs db !! f) as [r|] eqn:Hr; simpl in Hstep; [|congruence].
  destruct (andb _ _); [|congruence]. injection Hstep as Hm Hl.
  unfold held_by, tree_of. simpl. rewrite <-Hm, lookup_alter_eq, lookup_fmap, Hr.
  eexists. split; [done|]. simpl. unfold owner_of. by rewrite bool_decide_false.
Qed.

(** C23: once [testAndSetLockOwner] has given the lock of a node to a client,
    then, whatever admissible requests follow, as long as none of them resets
    that lock, the client stays its owner, and every attempt to take the lock
    or to delete the node is refused. *)
Theorem lock_exclusive f inst A db db1 ops : db_wf db -> op_ok (OpTestAndSet f inst A) (tree_of db) = true ->
  A <> NO_OWNER -> testAndSetLockOwner f inst A db = Ret true db1 ->
  ops_ok str_hash ops (tree_of db1) = true -> Forall (fun op => ~ resets f op) ops ->
  exists reps db2, run_ops str_hash ops db1 = Ret reps db2 /\ lock_owner <$> fs db2 !! f = Some A /\
    Forall2 (fun op rep => needs_free_lock f op -> rep = RepBool false) ops reps.
Proof.
  intros Hwf Hop HA Hlock Hok Hnr.
  destruct (op_refines str_hash _ db Hwf Hop) as (rep & db1' & Hrun & Hwf1 & Hstep).
  simpl in Hrun. rewrite (bind_Ret _ _ _ _ _ Hlock) in Hrun. injection Hrun as <- <-.
  pose proof (lock_holds f inst A db db1 HA Hstep) as Hh.
  clear Hlock Hstep Hop Hwf db. revert db1 Hwf1 Hok Hh. induction Hnr as [|op ops Hr Hnr IH]; intros db1 Hwf1 Hok Hh.
  { exists [], db1. split_and!; [done| |constructor]. by apply held_by_row. }
  simpl in Hok. apply andb_true_iff in Hok as [Hop Hops].
  destruct (op_refines str_hash op db1 Hwf1 Hop) as (rep & db2 & Hrun & Hwf2 & Hstep).
  pose proof (held_step A f op _ Hh Hr) as Hh2. pose proof (held_refuses A f op _ Hh) as Href.
  rewrite Hstep in *. destruct (IH db2 Hwf2 Hops Hh2) as (reps & db3 & Hruns & Ho & Hf).
  exists (rep :: reps), db3. split_and!; [|done|by constructor].
  simpl. by rewrite (bind_Ret _ _ _ _ _ Hrun), (bind_Ret _ _ _ _ _ Hruns).
Qed.

(** ** Instance numbers *)

(** The instance numbers handed out by the successful creations. *)
Fixpoint created_instances (reps : list db_reply) : list Z :=
  match reps with
  | [] => []
  | RepInst (true, Some i) :: reps => i :: created_instances reps
  | _ :: reps => created_instances reps
  end.

Definition is_create (op : db_op) : bool := match op with OpCreate _ _ => true | _ => false end.

(** The replies of the creation requests. *)
Definition create_replies (ops : list db_op) (reps : list db_reply) : list db_reply :=
  (filter (fun p => is_create p.1) (zip ops reps)).*2.

Lemma tree_step_last op t : match tree_step str_hash op t with
  | (rep, t') => if is_create op then
      created_instances [rep] = [] /\ t_last t' = t_last t \/
      created_instances [rep] = [t_last t'] /\ t_last t' = t_last t + 1
    else t_last t' = t_last t end.
Proof.
  destruct op; simpl; try done; unfold tree_create, tree_guarded;
    repeat case_match; simplify_eq/=; auto.
Qed.

(** The instance numbers given out by successful creations, over any
    sequence of admissible requests, are strictly increasing and larger than
    every number given out before, so none is ever reused, not even for a
    name that was deleted and created again. *)
Lemma instance_numbers_fresh ops db : db_wf db -> ops_ok str_hash ops (tree_of db) = true ->
  exists reps db', run_ops str_hash ops db = Ret reps db' /\
    StronglySorted Z.lt
      (default 0 (max_instance_number db) :: created_instances (create_replies ops reps)).
Proof.
  revert db. induction ops as [|op ops IH]; intros db Hwf Hok.
  { exists [], db. split; [done|]. by repeat constructor. }
  simpl in Hok. apply andb_true_iff in Hok as [Hop Hops].
  destruct (op_refines str_hash op db Hwf Hop) as (rep & db1 & Hrun & Hwf1 & Hstep).
  pose proof (tree_step_last op (tree_of db)) as Hlast. rewrite Hstep in *.
  destruct (IH db1 Hwf1 Hops) as (reps & db2 & Hruns & Hs). exists (rep :: reps), db2. split.
  { simpl. by rewrite (bind_Ret _ _ _ _ _ Hrun), (bind_Ret _ _ _ _ _ Hruns). }
  unfold create_replies in *. simpl. rewrite list.filter_cons. simpl in Hlast.
  case_decide as Hd; simpl in Hd; destruct (is_create op); try done; [|by rewrite <-Hlast].
  cbn [fmap list_fmap snd]. destruct Hlast as [[Hc Hl]|[Hc Hl]].
  - rewrite <-Hl. by destruct rep as [|[[] []]| |].
  - destruct rep as [|[[] []]| |]; simplify_eq/=. constructor; [done|]. constructor; [lia|].
    apply StronglySorted_inv in Hs as [_ Hs]. eapply list.Forall_impl; [exact Hs|]. simpl. lia.
Qed.

(** ** Contents *)

(** What a read shows of the row [r] after an update to [c]. *)
Definition updated_reading (r : FsRow) (inst : Z) (c : string) : read_result :=
  ReadResult c inst (wrap64 (bump (content_generation_number r)))
    (wrap64 (lock_generation_number r)) (wrap64 (sint32 (str_hash c))) false.

(** After a successful [checkAndUpdate] the node reads back the new
    content, with its generation number one higher and the checksum of the
    new content, while every other node reads as before. *)
Lemma update_then_read f inst c db db' r : db_wf db -> op_ok (OpUpdate f inst c) (tree_of db) = true ->
  fs db !! f = Some r -> checkAndUpdate str_hash f inst c db = Ret true db' ->
  checkAndRead f inst db' = Ret (Some (updated_reading r inst c)) db' /\
  forall g i, g <> f -> name_ok g = true -> exists res,
    checkAndRead g i db = Ret res db /\ checkAndRead g i db' = Ret res db'.
Proof.
  intros Hwf Hop Hr Hrun. destruct (op_refines str_hash _ db Hwf Hop) as (rep & db1 & Hrun1 & Hwf1 & Hstep).
  simpl in Hrun1. rewrite (bind_Ret _ _ _ _ _ Hrun) in Hrun1. injection Hrun1 as <- <-.
  simpl in Hstep. unfold tree_guarded in Hstep. rewrite tree_lookup, Hr in Hstep.
  cbn [fmap option_fmap option_map] in Hstep. rewrite andb_true_r in Hstep.
  destruct (Z.eqb_spec (n_inst (node_of r)) inst) as [Hi|]; [|congruence]. injection Hstep as Hm Hl.
  simpl in Hop. apply andb_true_iff in Hop as [[Hn _]%andb_true_iff _]. split.
  - rewrite read_runs by done. f_equal. unfold tree_read, tree_of. cbn [t_nodes].
    rewrite <-Hm, lookup_alter_eq, lookup_fmap, Hr. cbn [fmap option_fmap option_map set_kind n_inst].
    by rewrite Hi, Z.eqb_refl.
  - intros g i Hg Hgn. exists (tree_read g i (tree_of db)). split; [by apply read_runs|].
    rewrite read_runs by done. f_equal. unfold tree_read, tree_of. cbn [t_nodes].
    by rewrite <-Hm, lookup_alter_ne.
Qed.

(** ** Failures inside a transaction *)

(** The requests that write. *)
Definition writes (op : db_op) : bool :=
  match op with
  | OpCreate _ _ | OpDelete _ _ | OpUpdate _ _ _ | OpTestAndSet _ _ _ | OpReset _ _ => true
  | OpOpen _ | OpRead _ _ | OpGetStates => false
  end.

Lemma begin_open {A} db (k : unit -> M Db A) : in_tx db = true ->
  (sqlexec SBegin ≫= k) db = Throw (exn_runtime "sqlite3_exec: ") db.
Proof. intros H. unfold mbind, M_bind, sqlexec. simpl. by rewrite H. Qed.

(** Started in a state with an open transaction, a request leaves the tables
    as they are, and no writing request reports success. *)
Definition blocked {A} (bad : A -> Prop) (m : M Db A) (db : Db) : Prop :=
  match m db with
  | Ret a db' => db' = db /\ ~ bad a
  | Throw _ db' => db' = db
  | Abort => True
  | Diverge => False
  end.

Lemma blocked_query {A} bad cols f (k : option (list sqlval) -> M Db A) db :
  (forall res, blocked bad (k res) db) -> blocked bad (query cols f ≫= k) db.
Proof.
  intros Hk. unfold blocked, mbind, M_bind, query. destruct (sql_text_ok _); [apply Hk|].
  destruct (raw_query _ _); [apply Hk|done].
Qed.

Lemma blocked_begin {A} bad (k : unit -> M Db A) db : in_tx db = true ->
  blocked bad (sqlexec SBegin ≫= k) db.
Proof. intros H. unfold blocked. by rewrite begin_open. Qed.

Lemma blocked_ret {A} (bad : A -> Prop) a db : ~ bad a -> blocked bad (mret a) db.
Proof. by split. Qed.

Lemma blocked_map {A B} bad (m : M Db A) (g : A -> B) db :
  blocked (fun a => bad (g a)) m db -> blocked bad (a ← m; mret (g a)) db.
Proof. unfold blocked, mbind, M_bind. by destruct (m db). Qed.

Definition success (rep : db_reply) : Prop :=
  rep = RepBool true \/ exists i, rep = RepInst (true, i).

Lemma blocked_assoc {A B C} bad (m : M Db A) (h : A -> M Db B) (k : B -> M Db C) db :
  blocked bad (a ← m; (h a ≫= k)) db -> blocked bad ((m ≫= h) ≫= k) db.
Proof. unfold blocked. by rewrite bind_assoc. Qed.

Lemma blocked_ret_bind {A B} bad (a : A) (k : A -> M Db B) db :
  blocked bad (k a) db -> blocked bad (mret a ≫= k) db.
Proof. done. Qed.

Lemma blocked_gets {A B} bad (g : Db -> A) (k : A -> M Db B) db :
  blocked bad (k (g db)) db -> blocked bad (gets g ≫= k) db.
Proof. done. Qed.

Ltac blocked_steps :=
  repeat (intros; cbv beta zeta;
    lazymatch goal with
    | |- blocked _ (query _ _ ≫= _) _ => apply blocked_query
    | |- blocked _ (sqlexec SBegin ≫= _) _ => by apply blocked_begin
    | |- blocked _ (gets _ ≫= _) _ => apply blocked_gets
    | |- blocked _ (mret _ ≫= _) _ => apply blocked_ret_bind
    | |- blocked _ ((_ ≫= _) ≫= _) _ => apply blocked_assoc
    | |- blocked _ (mret _) _ => apply blocked_ret; intros [? [?|[? ?]]]; congruence
    | |- blocked _ abort _ => done
    | |- blocked _ (abort ≫= _) _ => done
    | |- blocked _ (match ?x with _ => _ end) _ => destruct x
    | |- blocked _ ((match ?x with _ => _ end) ≫= _) _ => destruct x
    | |- blocked _ (cassert ?b ≫= _) _ => unfold cassert
    end).

Lemma open_transaction_blocks op db : in_tx db = true ->
  blocked (fun rep => writes op = true /\ success rep) (run_op str_hash op) db.
Proof.
  intros Htx. destruct op; cbn [run_op writes]; apply blocked_map;
    unfold checkAndCreate, checkAndOpen, checkAndDelete, checkAndRead, checkAndUpdate,
      testAndSetLockOwner, resetLockOwner; try (blocked_steps; fail).
  split; [done|by intros [? _]].
Qed.

(** When the SQL engine refuses the [UPDATE] that carries the new content
    (the content is pasted into a double-quoted literal, so a content with a
    double quote changes the statement), [checkAndUpdate] throws with its
    transaction still open; the tables are unchanged, and from then on every
    writing request fails or throws and changes nothing: nothing ever rolls
    the transaction back. *)
Lemma failed_update_wedges f inst c db r : db_wf db -> name_ok f = true ->
  fs db !! f = Some r -> instance_number r = inst -> sql_text_ok (c_str c) = false ->
  (forall sum db', raw_exec (stmt_text (SUpdateContent (c_str c) (bump (content_generation_number r)) sum f)) db' = None) ->
  exists db', checkAndUpdate str_hash f inst c db = Throw (exn_runtime "sqlite3_exec: ") db' /\
    fs db' = fs db /\ in_tx db' = true /\
    forall op, blocked (fun rep => writes op = true /\ success rep) (run_op str_hash op) db'.
Proof.
  intros Hwf Hn Hr Hi Hc Hraw. exists (with_tx true db). split_and!; [|done|done|].
  - unfold checkAndUpdate. rewrite bind_query, Hr by by apply name_plain.
    cbn [fmap option_fmap option_map]. change (col_int _ 0) with (instance_number r).
    change (col_int _ 1) with (content_generation_number r).
    rewrite (row_inst db f), Hi, Z.eqb_refl by done. cbn [negb].
    rewrite (bind_sqlexec SBegin _ db (with_tx true db)) by (cbn; by rewrite ?(wf_tx _ Hwf)).
    destruct (plain_facts f (name_plain f Hn)) as [-> _].
    unfold mbind, M_bind, sqlexec. cbn [stmt_operands forallb]. rewrite Hc. cbn [andb].
    fold (bump (content_generation_number r)). by rewrite Hraw.
  - intros op. by apply open_transaction_blocks.
Qed.

(** A directory, a file in it, an update of the directory and its deletion. *)
Definition orphaning_ops : list db_op :=
  [OpCreate "/a" true; OpCreate "/a/b" false; OpUpdate "/a" 1 ""; OpDelete "/a" 1].

(** [checkAndUpdate] does not look at [is_directory].  Writing to a
    directory erases its list of children, so that the directory can then be
    deleted although it is not empty, after which deleting one of its
    children hits the assertion that the parent exists and stops the
    server. *)
Lemma update_breaks_directories :
  run_ops str_hash orphaning_ops create_db =
  Ret [RepInst (true, Some 1); RepInst (true, Some 2); RepBool true; RepBool true]
    (mkDb {["/a/b" := new_row 2 0]} (Some 2) false) /\
  run_ops str_hash (orphaning_ops ++ [OpDelete "/a/b" 2]) create_db = Abort.
Proof. split; vm_compute; reflexivity. Qed.

(** The last instance number that [%d] keeps. *)
Definition last_instance : Z := 2 ^ 31 - 1.

(** The number of the 2^31-th creation does not fit the [%d] of the
    statement: [checkAndCreate] returns 2^31 but stores -2^31, so the handle
    it returned does not match the node it created. *)
Lemma instance_number_wraps f is_dir db : in_tx db = false -> name_ok f = true ->
  getParentName f = "/" -> fs db !! f = None -> max_instance_number db = Some last_instance ->
  exists db', checkAndCreate str_hash f is_dir db = Ret (true, Some (2 ^ 31)) db' /\
    checkAndOpen f db' = Ret (true, Some (2 ^ 64 - 2 ^ 31)) db' /\
    checkAndRead f (2 ^ 31) db' = Ret None db' /\ max_instance_number db' = Some (- 2 ^ 31).
Proof.
  unfold last_instance. intros Htx Hn Hroot Hnone Hm. pose proof (name_plain f Hn) as Hpf.
  destruct (plain_facts f Hpf) as [Hcf _].
  exists (mkDb (<[f := new_row (- 2 ^ 31) (if is_dir then 1 else 0)]> (fs db)) (Some (- 2 ^ 31)) false).
  split_and!.
  - unfold checkAndCreate. rewrite bind_query, Hnone by done. cbn [fmap option_fmap option_map].
    rewrite bool_decide_true by done. rewrite bind_ret_l. cbv beta iota.
    rewrite (bind_Ret _ _ _ _ db (eq_refl : gets max_instance_number db = _)), Hm. cbv beta iota.
    change (wrap64 (wrap64 (2 ^ 31 - 1) + 1)) with (2 ^ 31). change (sint32 (2 ^ 31)) with (- 2 ^ 31).
    rewrite Hcf, (bind_sqlexec SBegin _ db (with_tx true db)) by (cbn; by rewrite ?Htx).
    erewrite (bind_sqlexec (SInsert _ _ _)) by (cbn; by rewrite ?Hpf, ?Hnone).
    erewrite (bind_sqlexec (SUpdateMax _)) by reflexivity.
    rewrite bind_ret_l. erewrite (bind_sqlexec SCommit) by reflexivity. cbn. by rewrite Hm.
  - unfold checkAndOpen. rewrite bind_query by done. simpl. by rewrite lookup_insert_eq.
  - unfold checkAndRead. rewrite bind_query by done. simpl. by rewrite lookup_insert_eq.
  - done.
Qed.
End props.

(** ** The theorems on concrete databases *)

(** [/d], a directory, and [/d/f], a file in it. *)
Definition sample_db : Db := created sample_hash "/d/f" false 2 (created sample_hash "/d" true 1 create_db).

Lemma sample_db_wf : db_wf sample_db.
Proof.
  assert (db_wf (created sample_hash "/d" true 1 create_db)) as H1.
  { apply (created_wf sample_hash create_db "/d" true 0); [exact create_db_wf|done|done|done|done|].
    intros H. by vm_compute in H. }
  apply (created_wf sample_hash _ "/d/f" false 1); [exact H1|done|done|done|done|].
  intros _. eexists. split; [vm_compute; reflexivity|]. by vm_compute.
Qed.

#[local] Existing Instance strict_engine.

Definition after_lock : Db :=
  with_fs (alter (set_lock "alice" 1) "/d/f") sample_db.

Lemma lock_exclusive_witness :
  testAndSetLockOwner "/d/f" 2 "alice" sample_db = Ret true after_lock /\
  exists reps db2,
    run_ops sample_hash [OpTestAndSet "/d/f" 2 "bob"; OpDelete "/d/f" 2] after_lock = Ret reps db2 /\
    lock_owner <$> fs db2 !! "/d/f" = Some "alice" /\
    Forall2 (fun op rep => needs_free_lock "/d/f" op -> rep = RepBool false)
      [OpTestAndSet "/d/f" 2 "bob"; OpDelete "/d/f" 2] reps.
Proof.
  assert (testAndSetLockOwner "/d/f" 2 "alice" sample_db = Ret true after_lock) as H by (vm_compute; reflexivity).
  split; [exact H|].
  apply (lock_exclusive sample_hash "/d/f" 2 "alice" sample_db after_lock); [exact sample_db_wf| | |exact H| |].
  - vm_compute. reflexivity.
  - discriminate.
  - vm_compute. reflexivity.
  - repeat constructor; intros [].
Defined.

Definition after_update : Db :=
  with_fs (alter (set_content "hello" 1 5) "/d/f") sample_db.

Lemma update_then_read_witness :
  checkAndUpdate sample_hash "/d/f" 2 "hello" sample_db = Ret true after_update /\
  checkAndRead "/d/f" 2 after_update =
    Ret (Some (ReadResult "hello" 2 (wrap64 (bump 0)) (wrap64 0) (wrap64 (sint32 (sample_hash "hello"))) false)) after_update /\
  forall g i, g <> "/d/f" -> name_ok g = true -> exists res,
    checkAndRead g i sample_db = Ret res sample_db /\ checkAndRead g i after_update = Ret res after_update.
Proof.
  assert (checkAndUpdate sample_hash "/d/f" 2 "hello" sample_db = Ret true after_update) as H by (vm_compute; reflexivity).
  split; [exact H|].
  apply (update_then_read sample_hash "/d/f" 2 "hello" sample_db after_update (new_row 2 0));
    [exact sample_db_wf| | |exact H]; vm_compute; reflexivity.
Defined.

Definition quote_content : string := String dquote ", x".

Lemma failed_update_wedges_witness :
  sql_text_ok (c_str quote_content) = false /\
  exists db', checkAndUpdate sample_hash "/d/f" 2 quote_content sample_db =
      Throw (exn_runtime "sqlite3_exec: ") db' /\
    fs db' = fs sample_db /\ in_tx db' = true /\
    forall op, blocked (fun rep => writes op = true /\ success rep) (run_op sample_hash op) db'.
Proof.
  assert (sql_text_ok (c_str quote_content) = false) as H by reflexivity.
  split; [exact H|].
  apply (failed_update_wedges sample_hash "/d/f" 2 quote_content sample_db (new_row 2 0));
    [exact sample_db_wf|reflexivity|vm_compute; reflexivity|reflexivity|exact H|reflexivity].
Defined.

Lemma instance_number_wraps_witness :
  name_ok "/x" = true /\
  exists db', checkAndCreate sample_hash "/x" false (mkDb ∅ (Some (2 ^ 31 - 1)) false) =
      Ret (true, Some (2 ^ 31)) db' /\
    checkAndOpen "/x" db' = Ret (true, Some (2 ^ 64 - 2 ^ 31)) db' /\
    checkAndRead "/x" (2 ^ 31) db' = Ret None db' /\ max_instance_number db' = Some (- 2 ^ 31).
Proof.
  split; [reflexivity|]. apply (instance_number_wraps sample_hash "/x" false); reflexivity.
Defined.
