(* ===== verification/DbApi.v ===== *)
(** * The database interface of the server logic

    What [server/serverimpl.cc] asks of its member [db], the [ServerDBPaxos] of
    [server/serverdb_paxos.hh]: the calls, each of which may throw.  The logic
    is modelled and proved over any implementation; [Backstore] supplies the
    one of the repository. *)

From S2P Require Import Prelude ServerTypes.

(** The out-parameters are part of the results: [checkAndCreate] and
    [checkAndOpen] always write [*instance_number], [checkAndRead] always
    writes [*content] and [*meta]. *)
Class DbApi (D : Type) := {
  db_checkAndCreate : string -> bool -> M D (bool * Z);
  db_checkAndOpen : string -> M D (bool * Z);
  db_checkAndDelete : string -> Z -> M D bool;
  db_checkAndRead : string -> Z -> M D (bool * string * MetaData);
  db_checkAndUpdate : string -> Z -> string -> M D bool;
  db_testAndSetLockOwner : string -> Z -> string -> M D bool;
  db_resetLockOwner : string -> Z -> M D bool;
  db_getStates : M D (list (string * string));
  db_isLeaderAndInitialized : M D bool;
}.
