(* ===== verification/ServerLogic.v ===== *)
(** * The server logic: [server/serverimpl.cc]

    The state and the RPC handlers of [api_v1_server].  The C++ maps are finite
    maps; [FileHandler] objects live in a heap addressed by pointers, and a
    read or free of a freed object is recorded as undefined behaviour, the
    value read being an arbitrary parameter.  [chubby_server::reply] and
    [chubby_server::send] append to the list of outputs. *)

From stdpp Require Import pretty.
From S2P Require Import Prelude Names ServerTypes DbApi.

(** ** State *)

Definition READ : Z := 0x1.
Definition WRITE : Z := 0x2.
Definition CREATE_DIRECTORY : Z := 0x4.
Definition CREATE_FILE : Z := 0x8.
Definition EPHEMERAL : Z := 0x10.

(** [enum ClientError] *)
Definition BAD_ARG : Z := 0.
Definition FS_FAIL : Z := 1.
Definition PAXOS_ERROR : Z := 2.

(** The result object of a reply. *)
Inductive reply_val :=
| RepBool (r : RetBool)
| RepFd (r : RetFd)
| RepContents (r : RetContentsAndStat)
| RepInt (i : Z).

Inductive output :=
| OReply (session xid : Z) (r : reply_val)   (* chubby_server::reply *)
| OEvent (session : Z) (evc : EventContent). (* chubby_server::send *)

Inductive ub_event :=
| UseAfterFree (p : Z)
| DoubleFree (p : Z).

(** The members of [api_v1_server], then the memory of the [FileHandler]
    objects, the undefined behaviour met so far and the messages sent, in
    order. *)
Record Api (D : Type) := mkApi {
  session2client_map : gmap Z string;
  file2fd_map : gmap string (list (Z * Z));
  session2fd_map : gmap Z (list Z);
  file2lockQueue_map : gmap string (list (Z * Z));
  client2heldLock_map : gmap string (gset string);
  client2ephemeral_map : gmap string (gset string);
  file2lockChange_map : gmap string (list Z);
  file2contentChange_map : gmap string (list Z);
  master_sequence_number : Z;
  db : D;
  heap : gmap Z FileHandler;
  next_ptr : Z;
  ub : list ub_event;
  out : list output;
}.
Arguments mkApi {D}.
Arguments session2client_map {D}.
Arguments file2fd_map {D}.
Arguments session2fd_map {D}.
Arguments file2lockQueue_map {D}.
Arguments client2heldLock_map {D}.
Arguments client2ephemeral_map {D}.
Arguments file2lockChange_map {D}.
Arguments file2contentChange_map {D}.
Arguments master_sequence_number {D}.
Arguments db {D}.
Arguments heap {D}.
Arguments next_ptr {D}.
Arguments ub {D}.
Arguments out {D}.

Section updates.
Context {D : Type}.
Definition on_session2client_map (g : gmap Z string -> gmap Z string) (s : Api D) : Api D :=
  mkApi (g (session2client_map s)) (file2fd_map s) (session2fd_map s) (file2lockQueue_map s) (client2heldLock_map s) (client2ephemeral_map s) (file2lockChange_map s) (file2contentChange_map s) (master_sequence_number s) (db s) (heap s) (next_ptr s) (ub s) (out s).
Definition on_file2fd_map (g : gmap string (list (Z * Z)) -> gmap string (list (Z * Z))) (s : Api D) : Api D :=
  mkApi (session2client_map s) (g (file2fd_map s)) (session2fd_map s) (file2lockQueue_map s) (client2heldLock_map s) (client2ephemeral_map s) (file2lockChange_map s) (file2contentChange_map s) (master_sequence_number s) (db s) (heap s) (next_ptr s) (ub s) (out s).
Definition on_session2fd_map (g : gmap Z (list Z) -> gmap Z (list Z)) (s : Api D) : Api D :=
  mkApi (session2client_map s) (file2fd_map s) (g (session2fd_map s)) (file2lockQueue_map s) (client2heldLock_map s) (client2ephemeral_map s) (file2lockChange_map s) (file2contentChange_map s) (master_sequence_number s) (db s) (heap s) (next_ptr s) (ub s) (out s).
Definition on_file2lockQueue_map (g : gmap string (list (Z * Z)) -> gmap string (list (Z * Z))) (s : Api D) : Api D :=
  mkApi (session2client_map s) (file2fd_map s) (session2fd_map s) (g (file2lockQueue_map s)) (client2heldLock_map s) (client2ephemeral_map s) (file2lockChange_map s) (file2contentChange_map s) (master_sequence_number s) (db s) (heap s) (next_ptr s) (ub s) (out s).
Definition on_client2heldLock_map (g : gmap string (gset string) -> gmap string (gset string)) (s : Api D) : Api D :=
  mkApi (session2client_map s) (file2fd_map s) (session2fd_map s) (file2lockQueue_map s) (g (client2heldLock_map s)) (client2ephemeral_map s) (file2lockChange_map s) (file2contentChange_map s) (master_sequence_number s) (db s) (heap s) (next_ptr s) (ub s) (out s).
Definition on_client2ephemeral_map (g : gmap string (gset string) -> gmap string (gset string)) (s : Api D) : Api D :=
  mkApi (session2client_map s) (file2fd_map s) (session2fd_map s) (file2lockQueue_map s) (client2heldLock_map s) (g (client2ephemeral_map s)) (file2lockChange_map s) (file2contentChange_map s) (master_sequence_number s) (db s) (heap s) (next_ptr s) (ub s) (out s).
Definition on_file2lockChange_map (g : gmap string (list Z) -> gmap string (list Z)) (s : Api D) : Api D :=
  mkApi (session2client_map s) (file2fd_map s) (session2fd_map s) (file2lockQueue_map s) (client2heldLock_map s) (client2ephemeral_map s) (g (file2lockChange_map s)) (file2contentChange_map s) (master_sequence_number s) (db s) (heap s) (next_ptr s) (ub s) (out s).
Definition on_file2contentChange_map (g : gmap string (list Z) -> gmap string (list Z)) (s : Api D) : Api D :=
  mkApi (session2client_map s) (file2fd_map s) (session2fd_map s) (file2lockQueue_map s) (client2heldLock_map s) (client2ephemeral_map s) (file2lockChange_map s) (g (file2contentChange_map s)) (master_sequence_number s) (db s) (heap s) (next_ptr s) (ub s) (out s).
Definition on_db (g : D -> D) (s : Api D) : Api D :=
  mkApi (session2client_map s) (file2fd_map s) (session2fd_map s) (file2lockQueue_map s) (client2heldLock_map s) (client2ephemeral_map s) (file2lockChange_map s) (file2contentChange_map s) (master_sequence_number s) (g (db s)) (heap s) (next_ptr s) (ub s) (out s).
Definition on_heap (g : gmap Z FileHandler -> gmap Z FileHandler) (s : Api D) : Api D :=
  mkApi (session2client_map s) (file2fd_map s) (session2fd_map s) (file2lockQueue_map s) (client2heldLock_map s) (client2ephemeral_map s) (file2lockChange_map s) (file2contentChange_map s) (master_sequence_number s) (db s) (g (heap s)) (next_ptr s) (ub s) (out s).
Definition on_next_ptr (g : Z -> Z) (s : Api D) : Api D :=
  mkApi (session2client_map s) (file2fd_map s) (session2fd_map s) (file2lockQueue_map s) (client2heldLock_map s) (client2ephemeral_map s) (file2lockChange_map s) (file2contentChange_map s) (master_sequence_number s) (db s) (heap s) (g (next_ptr s)) (ub s) (out s).
Definition on_ub (g : list ub_event -> list ub_event) (s : Api D) : Api D :=
  mkApi (session2client_map s) (file2fd_map s) (session2fd_map s) (file2lockQueue_map s) (client2heldLock_map s) (client2ephemeral_map s) (file2lockChange_map s) (file2contentChange_map s) (master_sequence_number s) (db s) (heap s) (next_ptr s) (g (ub s)) (out s).
Definition on_out (g : list output -> list output) (s : Api D) : Api D :=
  mkApi (session2client_map s) (file2fd_map s) (session2fd_map s) (file2lockQueue_map s) (client2heldLock_map s) (client2ephemeral_map s) (file2lockChange_map s) (file2contentChange_map s) (master_sequence_number s) (db s) (heap s) (next_ptr s) (ub s) (g (out s)).
End updates.


(** [mode & flag] as a condition. *)
Definition has (mode flag : Z) : bool := negb (Z.land mode flag =? 0).

(** The transaction number of the server's own calls, [(uint32_t) -1]. *)
Definition INTERNAL : Z := 2 ^ 32 - 1.

Section logic.
Context {D : Type} `{!DbApi D} (str_hash : string -> Z) (stale : Z -> FileHandler).
Abbreviation Op := (M (Api D)).

(** ** Memory, maps and messages *)

(** [new FileHandler()] initialised with [h]. *)
Definition new_fd (h : FileHandler) : Op Z := fun s =>
  Ret (next_ptr s) (on_next_ptr Z.succ (on_heap <[next_ptr s := h]> s)).

Definition deref (p : Z) : Op FileHandler := fun s =>
  match heap s !! p with
  | Some h => Ret h s
  | None => Ret (stale p) (on_ub (fun l => l ++ [UseAfterFree p]) s)
  end.

Definition delete_fd (p : Z) : Op unit := fun s =>
  match heap s !! p with
  | Some _ => Ret tt (on_heap (delete p) s)
  | None => Ret tt (on_ub (fun l => l ++ [DoubleFree p]) s)
  end.

(** [map[k]] of an [unordered_map]: a missing key is inserted first. *)
Definition index {K V} `{Countable K} (get : Api D -> gmap K V)
    (on : (gmap K V -> gmap K V) -> Api D -> Api D) (dflt : V) (k : K) : Op V := fun s =>
  match get s !! k with
  | Some v => Ret v s
  | None => Ret dflt (on <[k := dflt]> s)
  end.
(** [map[k]] modified in place. *)
Definition index_mod {K V} `{Countable K} (on : (gmap K V -> gmap K V) -> Api D -> Api D)
    (dflt : V) (k : K) (f : V -> V) : Op unit :=
  modify (on (fun m => <[k := f (default dflt (m !! k))]> m)).
(** [if (map[k].empty()) map.erase(k)] *)
Definition erase_if_empty {K V} `{Countable K} (on : (gmap K V -> gmap K V) -> Api D -> Api D)
    (dflt : V) (is_empty : V -> bool) (k : K) : Op unit :=
  modify (on (fun m =>
    let m := <[k := default dflt (m !! k)]> m in
    if is_empty (default dflt (m !! k)) then delete k m else m)).

Definition list_empty {A} (l : list A) : bool := match l with [] => true | _ => false end.
Definition set_empty (X : gset string) : bool := bool_decide (X = ∅).

(** [std::list::remove] *)
Definition list_remove {A} `{EqDecision A} (x : A) (l : list A) : list A := filter (fun y => y <> x) l.

Definition call_db {A} (m : M D A) : Op A := zoom db (fun d => on_db (fun _ => d)) m.

Definition reply (session xid : Z) (r : reply_val) : Op unit :=
  if xid =? INTERNAL then mret tt else modify (on_out (fun l => l ++ [OReply session xid r])).
Definition send (session : Z) (evc : EventContent) : Op unit :=
  modify (on_out (fun l => l ++ [OEvent session evc])).

Definition reply_ok (session xid : Z) (b : bool) : Op unit :=
  reply session xid (RepBool (RB_val b)).
Definition reply_err (session xid : Z) (code : Z) : Op unit :=
  reply session xid (RepBool (RB_errCode code)).

(** [std::string client_id = session2client_map[session_id];
    assert(!client_id.empty());] *)
Definition require_client (session : Z) : Op string :=
  client_id ← index session2client_map on_session2client_map "" session;
  cassert (negb (bool_decide (client_id = ""))) ;;
  mret client_id.

(** ** Handles and events *)

(** Adding a handle to [file2fd_map] and [session2fd_map]. *)
Definition add_fd (file_name : string) (session p : Z) : Op unit :=
  index_mod on_file2fd_map [] file_name (fun l => l ++ [(session, p)]) ;;
  index_mod on_session2fd_map [] session (fun l => l ++ [p]).

(** The search loop of [findFd]; the comparison is field by field. *)
Fixpoint find_in (l : list Z) (fd : FileHandler) : Op (option Z) :=
  match l with
  | [] => mret None
  | p :: l =>
      h ← deref p;
      if (fh_instance_number h =? fh_instance_number fd) &&
         (fh_magic_number h =? fh_magic_number fd) &&
         (fh_master_sequence_number h =? fh_master_sequence_number fd) &&
         String.eqb (fh_file_name h) (fh_file_name fd) &&
         Bool.eqb (fh_write_is_allowed h) (fh_write_is_allowed fd)
      then mret (Some p) else find_in l fd
  end.

Definition findFd (session : Z) (fd : FileHandler) : Op Z :=
  l ← index session2fd_map on_session2fd_map [] session;
  r ← find_in l fd;
  match r with
  | Some p => mret p
  | None =>
      p ← new_fd fd;
      add_fd (fh_file_name fd) session p ;;
      mret p
  end.

(** Sending [evc] to the sessions registered for [file_name]. *)
Definition send_events (get : Api D -> gmap string (list Z)) (event : Z) (file_name : string) : Op unit :=
  sessions ← gets (fun s => get s !! file_name);
  match sessions with
  | Some l => for_each l (fun session => send session (mkEventContent event file_name))
  | None => mret tt
  end.
Definition sendLockChangeEvent : string -> Op unit := send_events file2lockChange_map EV_LOCK_CHANGED.
Definition sendContentChangeEvent : string -> Op unit :=
  send_events file2contentChange_map EV_CONTENT_MODIFIED.

Definition send_parent_event (file_name : string) : Op unit :=
  let parent_name := getParentName file_name in
  when (negb (bool_decide (parent_name = "/"))) (sendContentChangeEvent parent_name).

Definition register_events (mode : Z) (file_name : string) (session : Z) : Op unit :=
  when (has mode EV_LOCK_CHANGED)
    (index_mod on_file2lockChange_map [] file_name (fun l => l ++ [session])) ;;
  when (has mode EV_CONTENT_MODIFIED)
    (index_mod on_file2contentChange_map [] file_name (fun l => l ++ [session])).

(** ** Test calls *)

Definition step_call (name : string) (v : Z) (session xid : Z) : Op unit :=
  send session (mkEventContent EV_NOP name) ;;
  reply session xid (RepInt v) ;;
  send session (mkEventContent EV_NOP (name +:+ " done")).

(** [int] arithmetic that does not overflow; an overflow is undefined. *)
Definition increment (arg : Z) : Z -> Z -> Op unit := step_call "inc" (arg + 1).
Definition decrement (arg : Z) : Z -> Z -> Op unit := step_call "dec" (arg - 1).

(** ** Opening *)

(** The magic number of a handle, a hash over its other fields. *)
Definition magic (file_name : string) (inst : Z) (writable : bool) : Z :=
  str_hash (file_name +:+ pretty inst +:+ (if writable then "1" else "0")).

(** The [try] block of [fileOpen]: the instance number, or [None] when a
    reply has been sent and the handler returns. *)
Definition open_in_db (arg : ArgOpen) (client_id : string) (fd : Z) (session xid : Z) : Op (option Z) :=
  let mode := ao_mode arg in
  let failed := delete_fd fd ;; reply session xid (RepFd (RF_errCode FS_FAIL)) ;; mret None in
  if has mode CREATE_DIRECTORY || has mode CREATE_FILE then
    r ← call_db (db_checkAndCreate (ao_name arg) (has mode CREATE_DIRECTORY));
    if negb r.1 then failed else
    when (has mode EPHEMERAL)
      (index_mod on_client2ephemeral_map ∅ client_id (fun X => {[ao_name arg]} ∪ X)) ;;
    mret (Some r.2)
  else
    r ← call_db (db_checkAndOpen (ao_name arg));
    if negb r.1 then failed else mret (Some r.2).

Definition fileOpen (arg : ArgOpen) (session xid : Z) : Op unit :=
  let file_name := ao_name arg in
  let mode := ao_mode arg in
  client_id ← require_client session;
  if negb (checkName file_name) then reply session xid (RepFd (RF_errCode BAD_ARG)) else
  if has mode CREATE_DIRECTORY && has mode CREATE_FILE then
    reply session xid (RepFd (RF_errCode BAD_ARG)) else
  fd ← new_fd (mkFileHandler 0 0 "" 0 false);
  opened ← try_catch (open_in_db arg client_id fd session xid)
    (fun _ => delete_fd fd ;; reply session xid (RepFd (RF_errCode PAXOS_ERROR)) ;; mret None);
  match opened with
  | None => mret tt
  | Some inst =>
  msn ← gets master_sequence_number;
  let writable := has mode WRITE in
  let h := mkFileHandler (magic file_name inst writable) msn file_name inst writable in
  modify (on_heap <[fd := h]>) ;;
  add_fd file_name session fd ;;
  register_events mode file_name session ;;
  reply session xid (RepFd (RF_val h)) ;;
  h' ← deref fd;
  send_parent_event (fh_file_name h')
  end.

Definition fileReopen (arg : ArgReopen) (session xid : Z) : Op unit :=
  let fd := ar_fd arg in
  let mode := ar_mode arg in
  new_fd' ← new_fd fd;
  add_fd (fh_file_name fd) session new_fd' ;;
  register_events mode (fh_file_name fd) session ;;
  client_id ← index session2client_map on_session2client_map "" session;
  when (has mode EPHEMERAL)
    (index_mod on_client2ephemeral_map ∅ client_id (fun X => {[fh_file_name fd]} ∪ X)) ;;
  reply_ok session xid true.

(** ** Contents *)

Definition read_reply (r : bool * string * MetaData) : RetContentsAndStat :=
  let '(ok, content, meta) := r in
  if ok then RC_val (mkContentsAndStat content meta) else RC_errCode FS_FAIL.

Definition getContentsAndStat (arg : FileHandler) (session xid : Z) : Op unit :=
  p ← findFd session arg;
  fd ← deref p;
  try_catch
    (r ← call_db (db_checkAndRead (fh_file_name fd) (fh_instance_number fd));
     reply session xid (RepContents (read_reply r)))
    (fun _ => reply session xid (RepContents (RC_errCode PAXOS_ERROR))).

Definition setContents (arg : ArgSetContents) (session xid : Z) : Op unit :=
  p ← findFd session (asc_fd arg);
  fd ← deref p;
  updated ← try_catch
    (ok ← call_db (db_checkAndUpdate (fh_file_name fd) (fh_instance_number fd) (asc_content arg));
     (when (negb ok) (reply_err session xid FS_FAIL) : Op unit) ;;
     mret ok)
    (fun _ => reply_err session xid PAXOS_ERROR ;; mret false);
  when updated
    (reply_ok session xid true ;;
     fd' ← deref p;
     sendContentChangeEvent (fh_file_name fd')).

(** ** Locks *)

(** A successful [testAndSetLockOwner]. *)
Definition lock_granted (p : Z) (client_id : string) (session xid : Z) : Op unit :=
  fd ← deref p;
  queued ← gets (fun s => file2lockQueue_map s !! fh_file_name fd);
  cassert (bool_decide (queued = None)) ;;
  index_mod on_client2heldLock_map ∅ client_id (fun X => {[fh_file_name fd]} ∪ X) ;;
  reply_ok session xid true ;;
  sendLockChangeEvent (fh_file_name fd).

(** The [try] block of [acquire] and [tryAcquire]: whether the handler goes
    on, the lock being not granted. *)
Definition try_lock (p : Z) (fd : FileHandler) (client_id : string) (session xid : Z) : Op bool :=
  try_catch
    (ok ← call_db (db_testAndSetLockOwner (fh_file_name fd) (fh_instance_number fd) client_id);
     when ok (lock_granted p client_id session xid) ;;
     mret (negb ok))
    (fun _ => reply_err session xid PAXOS_ERROR ;; mret false).

Definition acquire (arg : FileHandler) (session xid : Z) : Op unit :=
  client_id ← require_client session;
  p ← findFd session arg;
  fd ← deref p;
  waits ← try_lock p fd client_id session xid;
  when waits
    (fd' ← deref p;
     index_mod on_file2lockQueue_map [] (fh_file_name fd') (fun q => q ++ [(session, xid)])).

Definition tryAcquire (arg : FileHandler) (session xid : Z) : Op unit :=
  client_id ← require_client session;
  p ← findFd session arg;
  fd ← deref p;
  refused ← try_lock p fd client_id session xid;
  when refused (reply_ok session xid false).

(** Handing the lock of [file_name] to the first session of its queue. *)
Definition grant_next (file_name : string) : Op unit :=
  queue ← gets (fun s => file2lockQueue_map s !! file_name);
  match queue with
  | None => mret tt
  | Some [] => abort  (* assert(lock_queue.size() != 0) *)
  | Some ((next_session, next_xid) :: rest) =>
      modify (on_file2lockQueue_map <[file_name := rest]>) ;;
      client_id_rpc ← index session2client_map on_session2client_map "" next_session;
      cassert (negb (bool_decide (client_id_rpc = ""))) ;;
      index_mod on_client2heldLock_map ∅ client_id_rpc (fun X => {[file_name]} ∪ X) ;;
      reply_ok next_session next_xid true ;;
      when (list_empty rest) (modify (on_file2lockQueue_map (delete file_name)))
  end.

Definition release (arg : FileHandler) (session xid : Z) : Op unit :=
  client_id ← require_client session;
  p ← findFd session arg;
  fd ← deref p;
  was_reset ← try_catch
    (ok ← call_db (db_resetLockOwner (fh_file_name fd) (fh_instance_number fd));
     when (negb ok) (reply_err session xid FS_FAIL) ;;
     mret ok)
    (fun _ => reply_err session xid PAXOS_ERROR ;; mret false);
  when was_reset
    (index_mod on_client2heldLock_map ∅ client_id (fun X => X ∖ {[fh_file_name fd]}) ;;
     erase_if_empty on_client2heldLock_map ∅ set_empty client_id ;;
     reply_ok session xid true ;;
     grant_next (fh_file_name fd) ;;
     sendLockChangeEvent (fh_file_name fd)).

(** ** Deleting and closing *)

(** [db.checkAndDelete] with its error replies; the result tells whether the
    handler goes on.  [xid != (uint64_t) -1] holds of every 32-bit [xid], so
    the [throw e] of the handler is never reached. *)
Definition delete_in_db (fd : FileHandler) (session xid : Z) : Op bool :=
  try_catch
    (ok ← call_db (db_checkAndDelete (fh_file_name fd) (fh_instance_number fd));
     when (negb ok) (reply_ok session xid false) ;;
     mret ok)
    (fun e => if negb (xid =? 2 ^ 64 - 1) then reply_err session xid PAXOS_ERROR ;; mret false
              else throw e).

(** Closing every handle of a deleted file. *)
Definition close_all (file_name : string) : Op unit :=
  l ← index file2fd_map on_file2fd_map [] file_name;
  for_each l (fun sf =>
    index_mod on_session2fd_map [] sf.1 (list_remove sf.2) ;;
    erase_if_empty on_session2fd_map [] list_empty sf.1 ;;
    delete_fd sf.2).

Definition fileDelete (arg : FileHandler) (session xid : Z) : Op unit :=
  client_id ← require_client session;
  p ← findFd session arg;
  fd ← deref p;
  go ← delete_in_db fd session xid;
  when go
    (close_all (fh_file_name arg) ;;
     present ← gets (fun s => file2fd_map s !! fh_file_name arg);
     modify (on_file2fd_map (delete (fh_file_name arg))) ;;
     cassert (bool_decide (is_Some present)) ;;
     modify (on_file2lockQueue_map (delete (fh_file_name arg))) ;;
     fd' ← deref p;  (* the object was freed by the loop *)
     index_mod on_client2ephemeral_map ∅ client_id (fun X => X ∖ {[fh_file_name fd']}) ;;
     erase_if_empty on_client2ephemeral_map ∅ set_empty client_id ;;
     reply_ok session xid true ;;
     sendContentChangeEvent (fh_file_name arg) ;;
     send_parent_event (fh_file_name arg) ;;
     modify (on_file2contentChange_map (delete (fh_file_name arg))) ;;
     modify (on_file2lockChange_map (delete (fh_file_name arg)))).

(** The queue scan of [fileClose]: it works on a copy of the queue, and its
    iterator is never advanced, so that it ends only when the queue is empty
    or its first element is of this session. *)
Definition clear_lock_queue (file_name : string) (session : Z) : Op unit :=
  entry ← gets (fun s => file2lockQueue_map s !! file_name);
  match entry with
  | None => mret tt
  | Some queue =>
      copy ← match queue with
             | [] => mret []
             | (s, _) :: rest => if s =? session then mret rest else fun _ => Diverge
             end;
      when (list_empty copy) (modify (on_file2lockQueue_map (delete file_name)))
  end.

Definition clear_events (get : Api D -> gmap string (list Z))
    (on : (gmap string (list Z) -> gmap string (list Z)) -> Api D -> Api D)
    (file_name : string) (session : Z) : Op unit :=
  present ← gets (fun s => get s !! file_name);
  when (bool_decide (is_Some present))
    (index_mod on [] file_name (list_remove session) ;;
     erase_if_empty on [] list_empty file_name).

(** The part of [fileClose] after the locks and ephemeral nodes. *)
Definition close_handle (p : Z) (session xid : Z) : Op unit :=
  fd ← deref p;
  let file_name := fh_file_name fd in
  index_mod on_file2fd_map [] file_name (list_remove (session, p)) ;;
  erase_if_empty on_file2fd_map [] list_empty file_name ;;
  index_mod on_session2fd_map [] session (list_remove p) ;;
  erase_if_empty on_session2fd_map [] list_empty session ;;
  clear_lock_queue file_name session ;;
  clear_events file2lockChange_map on_file2lockChange_map file_name session ;;
  clear_events file2contentChange_map on_file2contentChange_map file_name session ;;
  delete_fd p ;;
  reply_ok session xid true.

Definition fileClose (arg : FileHandler) (session xid : Z) : Op unit :=
  client_id ← require_client session;
  p ← findFd session arg;
  fd ← deref p;
  held ← gets (fun s => client2heldLock_map s !! client_id);
  when (match held with Some X => bool_decide (fh_file_name fd ∈ X) | None => false end)
    (release fd session INTERNAL) ;;
  ephemeral ← index client2ephemeral_map on_client2ephemeral_map ∅ client_id;
  fd' ← deref p;
  if bool_decide (fh_file_name fd' ∈ ephemeral) then
    deleted ← try_catch (fileDelete fd' session INTERNAL ;; mret true)
      (fun _ => reply_err session xid PAXOS_ERROR ;; mret false);
    when deleted (reply_ok session xid true)
  else close_handle p session xid.

(** ** Sessions *)

Definition startSession (arg : string) (session xid : Z) : Op unit :=
  r ← try_catch
    (leader ← call_db db_isLeaderAndInitialized;
     (if leader : bool then modify (on_session2client_map <[session := arg]>) else mret tt) ;;
     mret leader)
    (fun _ => mret false);
  reply_ok session xid r.

Definition disconnect (session : Z) : Op unit :=
  openedFds ← index session2fd_map on_session2fd_map [] session;
  for_each openedFds (fun p =>
    fd ← deref p;
    fileClose fd session INTERNAL) ;;
  modify (on_session2client_map (delete session)).

Definition initializeLeader : Op unit :=
  modify (on_session2client_map (fun _ => ∅)) ;;
  modify (on_file2fd_map (fun _ => ∅)) ;;
  modify (on_session2fd_map (fun _ => ∅)) ;;
  modify (on_file2lockQueue_map (fun _ => ∅)) ;;
  modify (on_client2heldLock_map (fun _ => ∅)) ;;
  modify (on_client2ephemeral_map (fun _ => ∅)) ;;
  modify (on_file2lockChange_map (fun _ => ∅)) ;;
  modify (on_file2contentChange_map (fun _ => ∅)) ;;
  file_and_owner_list ← call_db db_getStates;
  for_each file_and_owner_list (fun p =>
    index_mod on_client2heldLock_map ∅ p.2 (fun X => {[p.1]} ∪ X)).
End logic.
