(* ===== verification/LogicInv.v ===== *)
(** * The handle tables of the server logic

    [fd_inv]: the two tables of open handles agree with each other and with
    the heap.  Every RPC handler of [ServerLogic] keeps it, so that no handle
    in a table is ever dangling and no handle object leaks. *)

From stdpp Require Import functions.
From S2P Require Import Prelude Names ServerTypes DbApi ServerLogic.

(** The list of a key, empty for a missing one. *)
Definition lst {K V} `{Countable K} (m : gmap K (list V)) (k : K) : list V := default [] (m !! k).

(** ** The invariant *)

Section tables.
Implicit Types (F : string -> list (Z * Z)) (G : Z -> list Z) (hp : gmap Z FileHandler).

Record fd_tables F G hp (nx : Z) : Prop := {
  ft_live se p : p ∈ G se -> exists h, hp !! p = Some h /\ (se, p) ∈ F (fh_file_name h);
  ft_file f se p : (se, p) ∈ F f -> p ∈ G se /\ exists h, hp !! p = Some h /\ fh_file_name h = f;
  ft_one se se' p : p ∈ G se -> p ∈ G se' -> se = se';
  ft_nodup f : NoDup (F f);
  ft_all p h : hp !! p = Some h -> exists se, p ∈ G se;
  ft_next p h : hp !! p = Some h -> p < nx;
}.

Lemma fd_tables_ext F F' G G' hp nx : (forall f, F' f = F f) -> (forall se, G' se = G se) ->
  fd_tables F G hp nx -> fd_tables F' G' hp nx.
Proof.
  intros HF HG [H1 H2 H3 H4 H5 H6]. split.
  - intros se p. rewrite HG. intros (h & ? & ?)%H1. exists h. by rewrite HF.
  - intros f se p. rewrite HF, HG. apply H2.
  - intros se se' p. rewrite !HG. apply H3.
  - intros f. by rewrite HF.
  - intros p h (se & ?)%H5. exists se. by rewrite HG.
  - done.
Qed.

(** The object [p] is live but in no table. *)
Definition fd_pending F G hp nx p h : Prop :=
  hp !! p = Some h /\ p < nx /\ fd_tables F G (delete p hp) nx.

Lemma fd_alloc F G hp nx h : fd_tables F G hp nx -> fd_pending F G (<[nx := h]> hp) (Z.succ nx) nx h.
Proof.
  intros [H1 H2 H3 H4 H5 H6]. split_and!; [by rewrite lookup_insert_eq|lia|].
  rewrite delete_insert_id; [by split; eauto; intros p g Hp; pose proof (H6 p g Hp); lia|].
  destruct (hp !! nx) eqn:E; [|done]. apply H6 in E. lia.
Qed.

Lemma fd_set F G hp nx p h h' : fd_pending F G hp nx p h ->
  fd_pending F G (<[p := h']> hp) nx p h'.
Proof.
  intros (H1 & H2 & H3). split_and!; [by rewrite lookup_insert_eq|done|].
  by rewrite delete_insert_eq.
Qed.

Lemma fd_not_in F G hp nx p h : fd_pending F G hp nx p h -> (forall se, p ∉ G se) /\ forall f se, (se, p) ∉ F f.
Proof.
  intros (H1 & H2 & [T1 T2 _ _ _ _]). assert (forall se, p ∉ G se) as Hn.
  { intros se (g & Hg & _)%T1. by rewrite lookup_delete_eq in Hg. }
  split; [done|]. intros f se (Hp & _)%T2. by apply Hn in Hp.
Qed.

Lemma fd_add F G hp nx p h se : fd_pending F G hp nx p h ->
  fd_tables (<[fh_file_name h := F (fh_file_name h) ++ [(se, p)]]> F) (<[se := G se ++ [p]]> G) hp nx.
Proof.
  intros Hp. destruct (fd_not_in _ _ _ _ _ _ Hp) as [HnG HnF].
  destruct Hp as (H1 & H2 & [T1 T2 T3 T4 T5 T6]).
  assert (forall f q, q ∈ <[fh_file_name h := F (fh_file_name h) ++ [(se, p)]]> F f <->
    q ∈ F f \/ (f = fh_file_name h /\ q = (se, p))) as EF.
  { intros f q. destruct (decide (f = fh_file_name h)) as [->|].
    - rewrite fn_lookup_insert. rewrite elem_of_app, list_elem_of_singleton. tauto.
    - rewrite fn_lookup_insert_ne by done. tauto. }
  assert (forall t q, q ∈ <[se := G se ++ [p]]> G t <-> q ∈ G t \/ (t = se /\ q = p)) as EG.
  { intros t q. destruct (decide (t = se)) as [->|].
    - rewrite fn_lookup_insert. rewrite elem_of_app, list_elem_of_singleton. tauto.
    - rewrite fn_lookup_insert_ne by done. tauto. }
  assert (forall q g, delete p hp !! q = Some g -> hp !! q = Some g /\ q <> p) as ED.
  { intros q g [? ?]%lookup_delete_Some. by split. }
  split.
  - intros t q [Hq|[-> ->]]%EG.
    + destruct (T1 t q Hq) as (g & (Hg & _)%ED & Hin). exists g. split; [done|]. apply EF. by left.
    + exists h. split; [done|]. apply EF. by right.
  - intros f t q [Hq|[-> [= -> ->]]]%EF.
    + destruct (T2 f t q Hq) as (Hin & g & (Hg & _)%ED & Hf). split; [apply EG; by left|by exists g].
    + split; [apply EG; by right|by exists h].
  - intros t t' q [Hq|[-> ->]]%EG [Hq'|[-> E]]%EG; [by apply (T3 t t' q)| | |done].
    + subst. by apply HnG in Hq.
    + by apply HnG in Hq'.
  - intros f. destruct (decide (f = fh_file_name h)) as [->|].
    + rewrite fn_lookup_insert. apply list.NoDup_app. split_and!; [done| |apply list.NoDup_singleton].
      intros q Hq ->%list_elem_of_singleton. by apply HnF in Hq.
    + by rewrite fn_lookup_insert_ne.
  - intros q g Hg. destruct (decide (q = p)) as [->|]; [exists se; apply EG; by right|].
    destruct (T5 q g) as (t & Ht); [by rewrite lookup_delete_ne|]. exists t. apply EG. by left.
  - intros q g Hg. destruct (decide (q = p)) as [->|]; [done|]. apply (T6 q g). by rewrite lookup_delete_ne.
Qed.

Lemma elem_of_remove {A} `{EqDecision A} (x y : A) l : y ∈ list_remove x l <-> y <> x /\ y ∈ l.
Proof. unfold list_remove. by rewrite list_elem_of_filter. Qed.

Lemma fd_remove F G hp nx f se p : fd_tables F G hp nx -> (se, p) ∈ F f ->
  exists h, fd_pending (<[f := list_remove (se, p) (F f)]> F) (<[se := list_remove p (G se)]> G) hp nx p h.
Proof.
  intros [T1 T2 T3 T4 T5 T6] Hin. destruct (T2 _ _ _ Hin) as (Hp & h & Hh & Hf). exists h.
  assert (forall f' q, q ∈ <[f := list_remove (se, p) (F f)]> F f' <->
    q ∈ F f' /\ (f' = f -> q <> (se, p))) as EF.
  { intros f' q. destruct (decide (f' = f)) as [->|].
    - rewrite fn_lookup_insert, elem_of_remove. tauto.
    - rewrite fn_lookup_insert_ne by done. tauto. }
  assert (forall t q, q ∈ <[se := list_remove p (G se)]> G t <-> q ∈ G t /\ (t = se -> q <> p)) as EG.
  { intros t q. destruct (decide (t = se)) as [->|].
    - rewrite fn_lookup_insert, elem_of_remove. tauto.
    - rewrite fn_lookup_insert_ne by done. tauto. }
  split_and!; [done|by apply (T6 p h)|]. split.
  - intros t q [Hq Hne]%EG. destruct (T1 t q Hq) as (g & Hg & HF).
    assert (q <> p) as Hqp. { intros ->. apply Hne; [by apply (T3 t se p)|done]. }
    exists g. rewrite lookup_delete_ne by done. split; [done|]. apply EF. split; [done|]. congruence.
  - intros f' t q [Hq Hne]%EF. destruct (T2 f' t q Hq) as (HG & g & Hg & Hf').
    assert (q <> p) as Hqp.
    { intros ->. assert (g = h) as -> by congruence. apply Hne; [congruence|].
      by rewrite (T3 t se p HG Hp). }
    split; [by apply EG|]. exists g. by rewrite lookup_delete_ne.
  - intros t t' q [? _]%EG [? _]%EG. by apply (T3 t t' q).
  - intros f'. destruct (decide (f' = f)) as [->|].
    + rewrite fn_lookup_insert. by apply list.NoDup_filter.
    + by rewrite fn_lookup_insert_ne.
  - intros q g [Hne Hg]%lookup_delete_Some. destruct (T5 q g Hg) as (t & Ht). exists t.
    apply EG. split; [done|]. congruence.
  - intros q g [Hne Hg]%lookup_delete_Some. by apply (T6 q g).
Qed.

End tables.

(** ** Steps that leave the handles alone *)

Section state.
Context {D : Type}.
Implicit Types s : Api D.

(** The handle tables, their memory and the undefined behaviour so far. *)
Definition mem s := (file2fd_map s, session2fd_map s, heap s, next_ptr s, ub s).

Definition fd_inv s : Prop :=
  fd_tables (lst (file2fd_map s)) (lst (session2fd_map s)) (heap s) (next_ptr s).
Definition pending (p : Z) (h : FileHandler) s : Prop :=
  fd_pending (lst (file2fd_map s)) (lst (session2fd_map s)) (heap s) (next_ptr s) p h.

Lemma fd_inv_mem s s' : mem s' = mem s -> fd_inv s -> fd_inv s'.
Proof. unfold mem, fd_inv. intros [= -> -> -> -> _]. done. Qed.
Lemma pending_mem p h s s' : mem s' = mem s -> pending p h s -> pending p h s'.
Proof. unfold mem, pending. intros [= -> -> -> -> _]. done. Qed.

Definition quiet {A} (m : M (Api D) A) : Prop :=
  forall s, sat (m s) (fun _ s' => mem s' = mem s) (fun _ s' => mem s' = mem s).

Lemma quiet_ret {A} (a : A) : quiet (mret a).
Proof. done. Qed.
Lemma quiet_bind {A B} (m : M (Api D) A) (k : A -> M (Api D) B) :
  quiet m -> (forall a, quiet (k a)) -> quiet (m ≫= k).
Proof.
  intros Hm Hk s. apply sat_bind. eapply sat_mono; [apply Hm| |done]. intros a s' E.
  eapply sat_mono; [apply Hk| |]; simpl; intros; congruence.
Qed.
Lemma quiet_try {A} (m : M (Api D) A) h : quiet m -> (forall e, quiet (h e)) -> quiet (try_catch m h).
Proof.
  intros Hm Hh s. apply sat_try. eapply sat_mono; [apply Hm|done|]. intros e s' E.
  eapply sat_mono; [apply Hh| |]; simpl; intros; congruence.
Qed.
Lemma quiet_gets {A} (g : Api D -> A) : quiet (gets g).
Proof. done. Qed.
Lemma quiet_abort {A} : quiet (abort : M (Api D) A).
Proof. done. Qed.
Lemma quiet_diverge {A} : quiet ((fun _ => Diverge) : M (Api D) A).
Proof. done. Qed.
Lemma quiet_throw {A} e : quiet (throw e : M (Api D) A).
Proof. done. Qed.
Lemma quiet_cassert b : quiet (cassert b : M (Api D) unit).
Proof. by destruct b. Qed.
Lemma quiet_when b (m : M (Api D) unit) : quiet m -> quiet (when b m).
Proof. by destruct b. Qed.
Lemma quiet_modify g : (forall s, mem (g s) = mem s) -> quiet (modify g).
Proof. intros H s. apply H. Qed.
Lemma quiet_for_each {A} (l : list A) (body : A -> M (Api D) unit) :
  (forall x, quiet (body x)) -> quiet (for_each l body).
Proof. intros Hb. induction l as [|x l IH]; [done|]. by apply quiet_bind. Qed.
Lemma quiet_call_db {A} (m : M D A) : quiet (call_db m).
Proof. intros s. apply sat_zoom. by destruct (m (db s)). Qed.
Lemma quiet_reply se xid r : quiet (reply se xid r : M (Api D) unit).
Proof. unfold reply. by case_match. Qed.
Lemma quiet_index {K V} `{Countable K} (get : Api D -> gmap K V) on dflt k :
  (forall g s, mem (on g s) = mem s) -> quiet (index get on dflt k).
Proof. intros Hon s. unfold index. destruct (get s !! k); [done|]. apply Hon. Qed.
End state.

Create HintDb quiet.
#[export] Hint Resolve quiet_ret quiet_gets quiet_abort quiet_diverge quiet_throw quiet_cassert
  quiet_call_db quiet_reply quiet_when : quiet.
#[export] Hint Extern 1 (quiet (modify _)) => apply quiet_modify; intros; reflexivity : quiet.
#[export] Hint Extern 1 (quiet (index _ _ _ _)) => apply quiet_index; intros; reflexivity : quiet.
#[export] Hint Extern 1 (quiet (index_mod _ _ _ _)) => apply quiet_modify; intros; reflexivity : quiet.
#[export] Hint Extern 1 (quiet (erase_if_empty _ _ _ _)) => apply quiet_modify; intros; reflexivity : quiet.
#[export] Hint Extern 1 (quiet (send _ _)) => apply quiet_modify; intros; reflexivity : quiet.
#[export] Hint Extern 1 (quiet (reply_ok _ _ _)) => apply quiet_reply : quiet.
#[export] Hint Extern 1 (quiet (reply_err _ _ _)) => apply quiet_reply : quiet.

(** Proving [quiet] step by step. *)
Ltac solve_quiet :=
  repeat (intros; cbv beta zeta;
    lazymatch goal with
    | |- quiet (_ ≫= _) => apply quiet_bind
    | |- quiet (try_catch _ _) => apply quiet_try
    | |- quiet (for_each _ _) => apply quiet_for_each
    | |- quiet (when _ _) => apply quiet_when
    | |- quiet (match ?x with _ => _ end) => destruct x
    | |- quiet _ => solve [auto with quiet nocore]
    end).

Section quiet_ops.
Context {D : Type} `{!DbApi D}.
Abbreviation Op := (M (Api D)).

Lemma quiet_require_client se : quiet (require_client se : Op string).
Proof. unfold require_client. solve_quiet. Qed.
Lemma quiet_send_events get ev f : quiet (send_events get ev f : Op unit).
Proof. unfold send_events. solve_quiet. Qed.
Lemma quiet_parent_event f : quiet (send_parent_event f : Op unit).
Proof. unfold send_parent_event. apply quiet_when, quiet_send_events. Qed.
Lemma quiet_register mode f se : quiet (register_events mode f se : Op unit).
Proof. unfold register_events. solve_quiet. Qed.
Lemma quiet_grant f : quiet (grant_next f : Op unit).
Proof. unfold grant_next. solve_quiet. Qed.
Lemma quiet_clear_queue f se : quiet (clear_lock_queue f se : Op unit).
Proof. unfold clear_lock_queue. solve_quiet. Qed.
Lemma quiet_delete_in_db fd se xid : quiet (delete_in_db fd se xid : Op bool).
Proof. unfold delete_in_db. solve_quiet. Qed.
Lemma quiet_startSession arg se xid : quiet (startSession arg se xid : Op unit).
Proof. unfold startSession. solve_quiet. Qed.
End quiet_ops.

#[export] Hint Resolve quiet_require_client quiet_send_events quiet_parent_event quiet_register quiet_grant
  quiet_clear_queue quiet_delete_in_db : quiet.
#[export] Hint Extern 1 (quiet (sendContentChangeEvent _)) => apply quiet_send_events : quiet.
#[export] Hint Extern 1 (quiet (sendLockChangeEvent _)) => apply quiet_send_events : quiet.

(** ** Steps on the tables *)

Section table_ops.
Context {D : Type}.
Abbreviation Op := (M (Api D)).
Implicit Types s : Api D.

Lemma lst_insert {K V} `{Countable K} (m : gmap K (list V)) k l k' :
  lst (<[k := l]> m) k' = (<[k := l]> (lst m)) k'.
Proof.
  unfold lst. destruct (decide (k' = k)) as [->|].
  - by rewrite fn_lookup_insert, lookup_insert_eq.
  - by rewrite fn_lookup_insert_ne, lookup_insert_ne by done.
Qed.

Lemma lst_index {K V} `{Countable K} (m : gmap K (list V)) k k' :
  m !! k = None -> lst (<[k := []]> m) k' = lst m k'.
Proof.
  intros Hm. rewrite lst_insert. destruct (decide (k' = k)) as [->|].
  - rewrite fn_lookup_insert. unfold lst. by rewrite Hm.
  - by rewrite fn_lookup_insert_ne.
Qed.

(** Everything but the handle tables and the heap. *)
Definition rest s :=
  (session2client_map s, file2lockQueue_map s, client2heldLock_map s, client2ephemeral_map s,
   file2lockChange_map s, file2contentChange_map s, master_sequence_number s, db s, ub s, out s).

Lemma index_session_run se s : fd_inv s -> exists s',
  index session2fd_map on_session2fd_map [] se s = Ret (lst (session2fd_map s) se) s' /\ fd_inv s' /\
  heap s' = heap s /\ rest s' = rest s /\ (forall f, lst (file2fd_map s') f = lst (file2fd_map s) f) /\
  (forall t, lst (session2fd_map s') t = lst (session2fd_map s) t).
Proof.
  intros Hs. unfold index, lst at 1. destruct (session2fd_map s !! se) eqn:E; [by exists s|].
  eexists. split; [done|]. assert (forall t, lst (<[se := []]> (session2fd_map s)) t = lst (session2fd_map s) t)
    as Hl by by intros; apply lst_index.
  split_and!; try done. by eapply fd_tables_ext; [..|exact Hs].
Qed.

Lemma add_fd_run f se p s : exists s', add_fd f se p s = Ret tt s' /\ heap s' = heap s /\
  next_ptr s' = next_ptr s /\ rest s' = rest s /\
  (forall g, lst (file2fd_map s') g = (<[f := lst (file2fd_map s) f ++ [(se, p)]]> (lst (file2fd_map s))) g) /\
  (forall t, lst (session2fd_map s') t = (<[se := lst (session2fd_map s) se ++ [p]]> (lst (session2fd_map s))) t).
Proof.
  eexists. split; [done|]. split_and!; try done; intros k; simpl; apply lst_insert.
Qed.

(** Entering a live handle in the tables. *)
Lemma add_fd_inv se p h s : pending p h s -> exists s',
  add_fd (fh_file_name h) se p s = Ret tt s' /\ fd_inv s' /\ heap s' = heap s /\ rest s' = rest s /\
  p ∈ lst (session2fd_map s') se /\ (se, p) ∈ lst (file2fd_map s') (fh_file_name h) /\
  forall t, lst (session2fd_map s) t ⊆ lst (session2fd_map s') t.
Proof.
  intros Hp. destruct (add_fd_run (fh_file_name h) se p s) as (s' & Hr & Hh & Hn & Hrest & HF & HG).
  exists s'. pose proof (fd_add _ _ _ _ _ _ se Hp) as Ht. split_and!; try done.
  - unfold fd_inv. rewrite Hh, Hn. eapply fd_tables_ext; [exact HF|exact HG|exact Ht].
  - rewrite HG, fn_lookup_insert. apply elem_of_app. right. by left.
  - rewrite HF, fn_lookup_insert. apply elem_of_app. right. by left.
  - intros t. rewrite HG. destruct (decide (t = se)) as [->|].
    + rewrite fn_lookup_insert. set_solver.
    + by rewrite fn_lookup_insert_ne.
Qed.

Lemma new_fd_pending h s : fd_inv s -> exists s',
  new_fd h s = Ret (next_ptr s) s' /\ pending (next_ptr s) h s' /\ rest s' = rest s /\
  heap s' = <[next_ptr s := h]> (heap s) /\ heap s ⊆ heap s' /\ session2fd_map s' = session2fd_map s.
Proof.
  intros Hs. eexists. split; [done|]. split_and!; [by apply fd_alloc|done|done| |done].
  simpl. apply insert_subseteq. destruct (heap s !! next_ptr s) eqn:E; [|done].
  apply (ft_next _ _ _ _ Hs) in E. lia.
Qed.

(** No handle has been closed between two states. *)
Definition grows s s' : Prop :=
  heap s ⊆ heap s' /\ forall se, lst (session2fd_map s) se ⊆ lst (session2fd_map s') se.

Lemma grows_refl s : grows s s.
Proof. by split. Qed.
Lemma grows_trans s1 s2 s3 : grows s1 s2 -> grows s2 s3 -> grows s1 s3.
Proof. intros [H1 G1] [H2 G2]. split; [by etrans|]. intros se. etrans; [apply G1|apply G2]. Qed.
Lemma grows_mem s s1 s2 : mem s2 = mem s1 -> grows s s1 -> grows s s2.
Proof. unfold mem, grows. intros [= _ -> -> _ _]. done. Qed.
Lemma grows_eq s s' : heap s' = heap s ->
  (forall t, lst (session2fd_map s') t = lst (session2fd_map s) t) -> grows s s'.
Proof. intros Hh HG. split; [by rewrite Hh|]. intros t. by rewrite HG. Qed.

(** ** Handlers that close no handle *)

(** From [s0] to [s]: the tables stay consistent, no handle is closed and no
    undefined behaviour happens. *)
Definition safe_post (s0 s : Api D) : Prop := fd_inv s /\ grows s0 s /\ ub s = ub s0.

Lemma safe_post_refl s : fd_inv s -> safe_post s s.
Proof. intros H. split_and!; [done|apply grows_refl|done]. Qed.
Lemma safe_post_mem s0 s s' : mem s' = mem s -> safe_post s0 s -> safe_post s0 s'.
Proof.
  intros E (H1 & H2 & H3). split_and!; [by eapply fd_inv_mem|by eapply grows_mem|].
  injection E as _ _ _ _ ->. done.
Qed.
Lemma safe_post_trans s0 s1 s2 : safe_post s0 s1 -> safe_post s1 s2 -> safe_post s0 s2.
Proof. intros (_ & G1 & U1) (H2 & G2 & U2). split_and!; [done|by eapply grows_trans|congruence]. Qed.

Definition safe {A} (m : Op A) : Prop := forall s, fd_inv s -> sat (m s) (fun _ => safe_post s) (fun _ => safe_post s).

Lemma sat_quiet {A} (m : Op A) s0 s : quiet m -> safe_post s0 s ->
  sat (m s) (fun _ => safe_post s0) (fun _ => safe_post s0).
Proof.
  intros Hq Hs. eapply sat_mono; [apply Hq| |]; simpl; intros; by eapply safe_post_mem.
Qed.

Lemma safe_quiet {A} (m : Op A) : quiet m -> safe m.
Proof. intros Hq s Hs. apply sat_quiet; [done|by apply safe_post_refl]. Qed.

Lemma safe_seq {A B} (m : Op A) (k : A -> Op B) : safe m -> (forall a, safe (k a)) -> safe (m ≫= k).
Proof.
  intros Hm Hk s Hs. apply sat_bind. eapply sat_mono; [by apply Hm| |done].
  intros a s1 H1. eapply sat_mono; [apply Hk, H1| |]; simpl; intros; by apply (safe_post_trans s s1).
Qed.

End table_ops.

Section handle_ops.
Context {D : Type} (stale : Z -> FileHandler).
Abbreviation Op := (M (Api D)).
Implicit Types s : Api D.

Lemma deref_live p h s : heap s !! p = Some h -> deref stale p s = Ret h s.
Proof. intros H. unfold deref. by rewrite H. Qed.

Lemma fields_eq (h fd : FileHandler) :
  (fh_instance_number h =? fh_instance_number fd) && (fh_magic_number h =? fh_magic_number fd) &&
  (fh_master_sequence_number h =? fh_master_sequence_number fd) &&
  String.eqb (fh_file_name h) (fh_file_name fd) &&
  Bool.eqb (fh_write_is_allowed h) (fh_write_is_allowed fd) = bool_decide (h = fd).
Proof.
  destruct h, fd; simpl. apply eq_true_iff_eq.
  rewrite !andb_true_iff, !Z.eqb_eq, String.eqb_eq, eqb_true_iff, bool_decide_eq_true.
  split; [by intros ((((-> & ->) & ->) & ->) & ->)|by intros [= -> -> -> -> ->]].
Qed.

Lemma find_in_run l fd s : (forall p, p ∈ l -> is_Some (heap s !! p)) ->
  exists r, find_in stale l fd s = Ret r s /\
    match r with
    | Some p => p ∈ l /\ heap s !! p = Some fd
    | None => forall p, p ∈ l -> heap s !! p <> Some fd
    end.
Proof.
  induction l as [|p l IH]; intros Hl; [exists None; split; [done|]; by intros p ?%elem_of_nil|].
  destruct (Hl p) as [h Hh]; [by left|]. cbn [find_in].
  rewrite (bind_Ret _ _ _ _ _ (deref_live p h s Hh)), fields_eq. case_bool_decide as E.
  - exists (Some p). subst. split_and!; [done|by left|done].
  - destruct IH as (r & -> & Hr); [intros q Hq; apply Hl; by right|]. exists r. split; [done|].
    destruct r as [q|]; [destruct Hr; split; [by right|done]|].
    intros q [->|Hq]%elem_of_cons; [congruence|by apply Hr].
Qed.

(** [findFd] always succeeds, with a live handle of these fields. *)
Lemma findFd_run se fd s : fd_inv s -> exists p s', findFd stale se fd s = Ret p s' /\ fd_inv s' /\
  heap s' !! p = Some fd /\ p ∈ lst (session2fd_map s') se /\
  (se, p) ∈ lst (file2fd_map s') (fh_file_name fd) /\ rest s' = rest s /\ grows s s'.
Proof.
  intros Hs. destruct (index_session_run se s Hs) as (s1 & Hi & H1 & Hh1 & Hr1 & HF1 & HG1).
  unfold findFd. rewrite (bind_Ret _ _ _ _ _ Hi).
  destruct (find_in_run (lst (session2fd_map s) se) fd s1) as (r & Hf & Hr).
  { intros p Hp. rewrite <-HG1 in Hp. destruct (ft_live _ _ _ _ H1 se p Hp) as (h & ? & _). by eexists. }
  rewrite (bind_Ret _ _ _ _ _ Hf). destruct r as [p|].
  - destruct Hr as [Hp Hh]. exists p, s1. rewrite <-HG1 in Hp. split_and!; try done.
    + destruct (ft_live _ _ _ _ H1 se p Hp) as (h & Hh' & Hin). by simplify_eq.
    + by apply grows_eq.
  - destruct (new_fd_pending fd s1 H1) as (s2 & Hn & Hp & Hr2 & Hh2 & Hsub & HG2).
    rewrite (bind_Ret _ _ _ _ _ Hn).
    destruct (add_fd_inv se _ fd s2 Hp) as (s3 & Ha & H3 & Hh3 & Hr3 & HG3 & HF3 & Hs3).
    rewrite (bind_Ret _ _ _ _ _ Ha). exists (next_ptr s1), s3. split_and!; try done.
    + rewrite Hh3, Hh2. by rewrite lookup_insert_eq.
    + congruence.
    + apply (grows_trans _ s1); [by apply grows_eq|]. split; [by rewrite Hh3|]. intros t.
      rewrite <-HG2. apply Hs3.
Qed.

(** Steps that only read the live handle [p], whose fields are [fd]. *)
Definition quiet_at (p : Z) (fd : FileHandler) {A} (m : Op A) : Prop := forall s,
  heap s !! p = Some fd -> sat (m s) (fun _ s' => mem s' = mem s) (fun _ s' => mem s' = mem s).

Lemma quiet_at_quiet p fd {A} (m : Op A) : quiet m -> quiet_at p fd m.
Proof. intros Hq s _. apply Hq. Qed.
Lemma mem_heap s s' : mem s' = mem s -> heap s' = heap s.
Proof. by intros [= _ _ -> _ _]. Qed.
Lemma quiet_at_bind p fd {A B} (m : Op A) (k : A -> Op B) :
  quiet_at p fd m -> (forall a, quiet_at p fd (k a)) -> quiet_at p fd (m ≫= k).
Proof.
  intros Hm Hk s Hh. apply sat_bind. eapply sat_mono; [by apply Hm| |done]. intros a s' E.
  eapply sat_mono; [apply Hk; by rewrite (mem_heap s)| |]; simpl; intros; congruence.
Qed.
Lemma quiet_at_try p fd {A} (m : Op A) h :
  quiet_at p fd m -> (forall e, quiet_at p fd (h e)) -> quiet_at p fd (try_catch m h).
Proof.
  intros Hm Hk s Hh. apply sat_try. eapply sat_mono; [by apply Hm|done|]. intros a s' E.
  eapply sat_mono; [apply Hk; by rewrite (mem_heap s)| |]; simpl; intros; congruence.
Qed.
Lemma quiet_at_when p fd b (m : Op unit) : quiet_at p fd m -> quiet_at p fd (when b m).
Proof. by destruct b. Qed.
Lemma quiet_at_deref p fd {B} (k : FileHandler -> Op B) :
  quiet_at p fd (k fd) -> quiet_at p fd (deref stale p ≫= k).
Proof. intros Hk s Hh. rewrite (bind_Ret _ _ _ _ _ (deref_live p fd s Hh)). by apply Hk. Qed.

Lemma findFd_safe se fd s : fd_inv s -> exists p s', findFd stale se fd s = Ret p s' /\ safe_post s s' /\
  heap s' !! p = Some fd /\ p ∈ lst (session2fd_map s') se /\ (se, p) ∈ lst (file2fd_map s') (fh_file_name fd).
Proof.
  intros Hs. destruct (findFd_run se fd s Hs) as (p & s' & Hr & Hi & Hh & HG & HF & Hrest & Hgr).
  exists p, s'. split_and!; try done. split_and!; [done|done|]. by injection Hrest.
Qed.

(** [findFd] and reading the handle it returns, then steps that read it. *)
Lemma safe_find {B} se fd (k : Z -> FileHandler -> Op B) : (forall p, quiet_at p fd (k p fd)) ->
  safe (p ← findFd stale se fd; h ← deref stale p; k p h).
Proof.
  intros Hk s Hs. destruct (findFd_safe se fd s Hs) as (p & s' & Hr & Hp & Hh & _).
  rewrite (bind_Ret _ _ _ _ _ Hr), (bind_Ret _ _ _ _ _ (deref_live p fd s' Hh)).
  eapply sat_mono; [by apply (Hk p)| |]; simpl; intros; by apply (safe_post_mem s s').
Qed.
End handle_ops.

Ltac solve_quiet_at :=
  repeat (intros; cbv beta zeta;
    lazymatch goal with
    | |- quiet_at _ _ (deref _ _ ≫= _) => apply quiet_at_deref
    | |- quiet_at _ _ (_ ≫= _) => apply quiet_at_bind
    | |- quiet_at _ _ (try_catch _ _) => apply quiet_at_try
    | |- quiet_at _ _ (when _ _) => apply quiet_at_when
    | |- quiet_at _ _ (match ?x with _ => _ end) => destruct x
    | |- quiet_at _ _ (try_lock _ _ _ _ _ _) => unfold try_lock
    | |- quiet_at _ _ (lock_granted _ _ _ _ _) => unfold lock_granted
    | |- quiet_at _ _ _ => apply quiet_at_quiet; solve_quiet
    end).

Section safe_handlers.
Context {D : Type} `{!DbApi D} (str_hash : string -> Z) (stale : Z -> FileHandler).

Lemma safe_getContentsAndStat arg se xid : safe (getContentsAndStat stale arg se xid).
Proof. apply safe_find. intros p. solve_quiet_at. Qed.
Lemma safe_setContents arg se xid : safe (setContents stale arg se xid).
Proof. apply safe_find. intros p. solve_quiet_at. Qed.

Lemma quiet_at_sat {A} p fd (m : M (Api D) A) s0 s : quiet_at p fd m -> heap s !! p = Some fd ->
  safe_post s0 s -> sat (m s) (fun _ => safe_post s0) (fun _ => safe_post s0).
Proof.
  intros Hq Hh Hs. eapply sat_mono; [by apply Hq| |]; simpl; intros; by apply (safe_post_mem s0 s).
Qed.

Lemma safe_release arg se xid : safe (release stale arg se xid).
Proof.
  apply safe_seq; [apply safe_quiet; solve_quiet|]. intros c. apply safe_find. intros p. solve_quiet_at.
Qed.

Lemma safe_acquire arg se xid : safe (acquire stale arg se xid).
Proof.
  apply safe_seq; [apply safe_quiet; solve_quiet|]. intros c. apply safe_find. intros p. solve_quiet_at.
Qed.
Lemma safe_tryAcquire arg se xid : safe (tryAcquire stale arg se xid).
Proof.
  apply safe_seq; [apply safe_quiet; solve_quiet|]. intros c. apply safe_find. intros p. solve_quiet_at.
Qed.

(** Entering a new handle, then quiet steps. *)
Lemma safe_fileReopen arg se xid : safe (fileReopen arg se xid : M (Api D) unit).
Proof.
  intros s Hs. unfold fileReopen.
  destruct (new_fd_pending (ar_fd arg) s Hs) as (s1 & Hn & Hp & Hr1 & _ & Hsub & HG1).
  rewrite (bind_Ret _ _ _ _ _ Hn).
  destruct (add_fd_inv se _ _ s1 Hp) as (s2 & Ha & H2 & Hh2 & Hr2 & _ & _ & Hs2).
  rewrite (bind_Ret _ _ _ _ _ Ha).
  apply (quiet_at_sat (next_ptr s) (ar_fd arg)); [solve_quiet_at| |].
  - rewrite Hh2. apply Hp.
  - split_and!; [done|split; [by rewrite Hh2|]|].
    + intros t. rewrite <-HG1. apply Hs2.
    + injection Hr1. injection Hr2. congruence.
Qed.

(** Like [safe_post], with a new object [p] that is in no table yet. *)
Definition pend_post (s0 : Api D) p h (s : Api D) : Prop :=
  pending p h s /\ heap s0 ⊆ delete p (heap s) /\
  (forall t, lst (session2fd_map s0) t ⊆ lst (session2fd_map s) t) /\ ub s = ub s0.

Lemma pend_post_mem s0 p h s s' : mem s' = mem s -> pend_post s0 p h s -> pend_post s0 p h s'.
Proof.
  intros E (H1 & H2 & H3 & H4). split; [by eapply pending_mem|]. injection E as _ -> -> _ ->. done.
Qed.

Lemma pend_new s h : fd_inv s -> exists s', new_fd h s = Ret (next_ptr s) s' /\ pend_post s (next_ptr s) h s'.
Proof.
  intros Hs. destruct (new_fd_pending h s Hs) as (s' & Hn & Hp & Hr & Hh & Hsub & HG).
  exists s'. split; [done|]. split_and!; [done| |by rewrite HG|].
  - rewrite Hh, delete_insert_id; [done|].
    destruct (heap s !! next_ptr s) eqn:E; [|done]. apply (ft_next _ _ _ _ Hs) in E. lia.
  - by injection Hr.
Qed.

Lemma pend_delete s0 p h s : pend_post s0 p h s ->
  exists s', delete_fd p s = Ret tt s' /\ safe_post s0 s'.
Proof.
  intros ((Hh & Hp & Ht) & H2 & H3 & H4). unfold delete_fd. rewrite Hh. eexists. split; [done|].
  by split_and!.
Qed.

Lemma pend_set s0 p h h' s : pend_post s0 p h s -> pend_post s0 p h' (on_heap <[p := h']> s).
Proof.
  intros (Hp & H2 & H3 & H4). split_and!; [by eapply fd_set| |done|done]. simpl. by rewrite delete_insert_eq.
Qed.

Lemma pend_add s0 p h s se : pend_post s0 p h s -> exists s',
  add_fd (fh_file_name h) se p s = Ret tt s' /\ safe_post s0 s' /\ heap s' !! p = Some h.
Proof.
  intros (Hp & H2 & H3 & H4). destruct (add_fd_inv se p h s Hp) as (s' & Ha & Hi & Hh & Hr & _ & _ & HG).
  exists s'. split_and!; [done| |by rewrite Hh; apply Hp]. split_and!; [done| |].
  - split; [rewrite Hh; etrans; [exact H2|apply delete_subseteq]|]. intros t. etrans; [apply H3|apply HG].
  - injection Hr. congruence.
Qed.

Lemma sat_pend_quiet {A} (m : M (Api D) A) s0 p h s Q : quiet m -> pend_post s0 p h s ->
  (forall a s', pend_post s0 p h s' -> Q a s') -> sat (m s) Q (fun _ => pend_post s0 p h).
Proof.
  intros Hq Hs HQ. eapply sat_mono; [apply Hq| |].
  - intros a s' E. apply HQ. by apply (pend_post_mem s0 p h s).
  - intros e s' E. by apply (pend_post_mem s0 p h s).
Qed.

(** The failing branches of [fileOpen] free the object and reply. *)
Lemma open_fail s0 p h s se xid code : pend_post s0 p h s ->
  sat ((delete_fd p ;; reply se xid (RepFd (RF_errCode code)) ;; mret (None : option Z)) s)
    (fun r s' => r = None /\ safe_post s0 s') (fun _ _ => False).
Proof.
  intros Hp. destruct (pend_delete s0 p h s Hp) as (s' & Hd & Hs). rewrite (bind_Ret _ _ _ _ _ Hd).
  unfold reply. destruct (xid =? INTERNAL); (split; [done|]); [done|]. by apply (safe_post_mem s0 s').
Qed.

Lemma open_in_db_post arg c p s0 h s se xid : pend_post s0 p h s ->
  sat (try_catch (open_in_db arg c p se xid)
         (fun _ => delete_fd p ;; reply se xid (RepFd (RF_errCode PAXOS_ERROR)) ;; mret None) s)
    (fun r s' => match r with Some _ => pend_post s0 p h s' | None => safe_post s0 s' end)
    (fun _ _ => False).
Proof.
  intros Hp. apply sat_try. eapply sat_mono.
  - instantiate (1 := fun _ => pend_post s0 p h).
    instantiate (1 := fun r s' => match r with Some _ => pend_post s0 p h s' | None => safe_post s0 s' end).
    unfold open_in_db. destruct (_ || _).
    + apply sat_bind. eapply sat_pend_quiet; [solve_quiet|exact Hp|]. intros r s1 H1.
      destruct (negb r.1).
      * eapply sat_mono; [by eapply open_fail| |done]. by intros ? ? [-> ?].
      * apply sat_bind. eapply sat_pend_quiet; [solve_quiet|exact H1|]. by intros.
    + apply sat_bind. eapply sat_pend_quiet; [solve_quiet|exact Hp|]. intros r s1 H1.
      destruct (negb r.1); [|done].
      eapply sat_mono; [by eapply open_fail| |done]. by intros ? ? [-> ?].
  - done.
  - intros e s1 H1. simpl in H1. eapply sat_mono; [by eapply open_fail| |done]. by intros ? ? [-> ?].
Qed.

Lemma safe_fileOpen arg se xid : safe (fileOpen str_hash stale arg se xid).
Proof.
  apply safe_seq; [apply safe_quiet; solve_quiet|]. intros c.
  destruct (negb _); [apply safe_quiet; solve_quiet|]. destruct (_ && _); [apply safe_quiet; solve_quiet|].
  intros s Hs. destruct (pend_new s (mkFileHandler 0 0 "" 0 false) Hs) as (s1 & Hn & H1).
  rewrite (bind_Ret _ _ _ _ _ Hn). apply sat_bind.
  eapply sat_mono; [by eapply open_in_db_post| |done]. intros [inst|] s2 H2; [|done].
  set (h := mkFileHandler (magic str_hash (ao_name arg) inst (has (ao_mode arg) WRITE)) (master_sequence_number s2)
    (ao_name arg) inst (has (ao_mode arg) WRITE)).
  apply (pend_set _ _ _ h) in H2. destruct (pend_add _ _ _ _ se H2) as (s3 & Ha & H3 & Hh).
  rewrite (bind_Ret (gets _) _ s2 (master_sequence_number s2) s2) by done. cbv zeta. fold h.
  rewrite (bind_Ret (modify _) _ s2 tt (on_heap <[next_ptr s := h]> s2)) by done.
  change (ao_name arg) with (fh_file_name h) at 1. rewrite (bind_Ret _ _ _ _ _ Ha).
  apply (quiet_at_sat (next_ptr s) h); [solve_quiet_at|done|done].
Qed.
End safe_handlers.

(** ** Handlers that close handles *)

Section closing.
Context {D : Type} `{!DbApi D} (stale : Z -> FileHandler).
Implicit Types s : Api D.

Lemma lst_erase {K V} `{Countable K} (m : gmap K (list V)) k k' :
  lst (let m := <[k := default [] (m !! k)]> m in
       if list_empty (default [] (m !! k)) then delete k m else m) k' = lst m k'.
Proof.
  cbv zeta. rewrite lookup_insert_eq. simpl. unfold lst. destruct (list_empty _) eqn:E.
  - destruct (decide (k' = k)) as [->|].
    + rewrite lookup_delete_eq. by destruct (m !! k) as [[]|].
    + by rewrite lookup_delete_ne, lookup_insert_ne.
  - destruct (decide (k' = k)) as [->|].
    + rewrite lookup_insert_eq. by destruct (m !! k).
    + by rewrite lookup_insert_ne.
Qed.

(** Removing [p] from the list of the session [se] and the key when empty. *)
Lemma drop_session_run se p s : exists s',
  (index_mod on_session2fd_map [] se (list_remove p) ;;
   erase_if_empty on_session2fd_map [] list_empty se) s = Ret tt s' /\
  (forall t, lst (session2fd_map s') t = (<[se := list_remove p (lst (session2fd_map s) se)]> (lst (session2fd_map s))) t) /\
  file2fd_map s' = file2fd_map s /\ heap s' = heap s /\ next_ptr s' = next_ptr s /\ rest s' = rest s.
Proof.
  eexists. split; [done|]. split; [|done]. intros t.
  etrans; [apply lst_erase|]. apply lst_insert.
Qed.

Lemma list_remove_head {A} `{EqDecision A} (x : A) l : NoDup (x :: l) -> list_remove x (x :: l) = l.
Proof.
  intros [Hx Hl]%list.NoDup_cons. unfold list_remove. rewrite list.filter_cons, decide_False by tauto.
  clear Hl. induction l as [|y l IH]; [done|]. rewrite list.filter_cons, decide_True by set_solver.
  rewrite IH; [done|set_solver].
Qed.

(** Closing the listed handles of the file [f]. *)
Lemma close_loop f l s :
  fd_tables (<[f := l]> (lst (file2fd_map s))) (lst (session2fd_map s)) (heap s) (next_ptr s) ->
  exists s', for_each l (fun sf : Z * Z =>
      index_mod on_session2fd_map [] sf.1 (list_remove sf.2) ;;
      erase_if_empty on_session2fd_map [] list_empty sf.1 ;;
      delete_fd sf.2) s = Ret tt s' /\
    fd_tables (<[f := []]> (lst (file2fd_map s'))) (lst (session2fd_map s')) (heap s') (next_ptr s') /\
    file2fd_map s' = file2fd_map s /\ rest s' = rest s /\
    (forall p, heap s !! p = None -> heap s' !! p = None) /\ (forall se p, (se, p) ∈ l -> heap s' !! p = None).
Proof.
  revert s. induction l as [|[se p] l IH]; intros s Ht.
  { exists s. split_and!; try done. by intros se p ?%elem_of_nil. }
  destruct (fd_remove _ _ _ _ f se p Ht) as (h & Hp); [rewrite fn_lookup_insert; by left|].
  rewrite fn_lookup_insert in Hp.
  assert (list_remove (se, p) ((se, p) :: l) = l) as Hl.
  { apply list_remove_head. pose proof (ft_nodup _ _ _ _ Ht f) as Hn. by rewrite fn_lookup_insert in Hn. }
  rewrite Hl in Hp. destruct (drop_session_run se p s) as (s1 & Hd & HG & HF & Hh & Hn & Hr).
  destruct Hp as (Hhp & _ & Hft).
  set (s2 := on_heap (delete p) s1).
  assert (fd_tables (<[f := l]> (lst (file2fd_map s2))) (lst (session2fd_map s2)) (heap s2) (next_ptr s2)) as H2.
  { unfold s2. cbn [file2fd_map session2fd_map heap next_ptr on_heap]. rewrite Hh, Hn, HF.
    eapply fd_tables_ext; [| |exact Hft]; [|exact HG]. intros g. destruct (decide (g = f)) as [->|].
    - by rewrite !fn_lookup_insert.
    - by rewrite !fn_lookup_insert_ne. }
  destruct (IH s2 H2) as (s3 & Hrun & H3 & HF3 & Hr3 & Hk3 & Hl3).
  exists s3. split_and!; [|done|rewrite HF3; exact HF|rewrite Hr3; exact Hr| |].
  - cbn [for_each fst snd]. rewrite <-Hrun. 
    assert (delete_fd p s1 = Ret tt s2) as Hdel by (unfold delete_fd; rewrite Hh, Hhp; done).
    rewrite bind_assoc, (bind_Ret _ _ s tt (on_session2fd_map (fun m => <[se := list_remove p (default [] (m !! se))]> m) s)) by done.
    cbv beta. rewrite bind_assoc.
    rewrite (bind_Ret _ _ _ tt s1) by (exact Hd). by rewrite (bind_Ret _ _ _ _ _ Hdel).
  - intros q Hq. apply Hk3. simpl. rewrite lookup_delete_None. right. by rewrite Hh.
  - intros t q [[= -> ->]|Hq]%elem_of_cons; [|by eapply Hl3]. apply Hk3. simpl. apply lookup_delete_eq.
Qed.

Lemma close_all_run f s : fd_inv s -> exists s', close_all f s = Ret tt s' /\
  fd_tables (<[f := []]> (lst (file2fd_map s'))) (lst (session2fd_map s')) (heap s') (next_ptr s') /\
  is_Some (file2fd_map s' !! f) /\ rest s' = rest s /\
  (forall p, heap s !! p = None -> heap s' !! p = None) /\
  (forall se p, (se, p) ∈ lst (file2fd_map s) f -> heap s' !! p = None).
Proof.
  intros Hs. unfold close_all.
  assert (exists s1, index file2fd_map on_file2fd_map [] f s = Ret (lst (file2fd_map s) f) s1 /\
    (forall g, lst (file2fd_map s1) g = lst (file2fd_map s) g) /\ is_Some (file2fd_map s1 !! f) /\
    session2fd_map s1 = session2fd_map s /\ heap s1 = heap s /\ next_ptr s1 = next_ptr s /\ rest s1 = rest s)
    as (s1 & Hi & HF & Hf & HG & Hh & Hn & Hr).
  { unfold index, lst at 1. destruct (file2fd_map s !! f) as [l|] eqn:E; [by exists s; rewrite E|].
    eexists. split; [done|]. split_and!; try done; simpl; [by intros; apply lst_index|].
    rewrite lookup_insert_eq. by eexists. }
  rewrite (bind_Ret _ _ _ _ _ Hi).
  destruct (close_loop f (lst (file2fd_map s) f) s1) as (s2 & Hrun & H2 & HF2 & Hr2 & Hk & Hl).
  { rewrite HG, Hh, Hn. eapply fd_tables_ext; [|done|exact Hs]. intros g. destruct (decide (g = f)) as [->|].
    - by rewrite fn_lookup_insert.
    - by rewrite fn_lookup_insert_ne. }
  exists s2. split_and!; [done|done|by rewrite HF2|congruence| |done]. intros p Hp. apply Hk. by rewrite Hh.
Qed.

(** The undefined behaviour of a deletion: at most one read of a freed handle. *)
Definition ub_grows s s' : Prop := ub s' = ub s \/ exists p, ub s' = ub s ++ [UseAfterFree p].

Definition delete_post s0 s : Prop := fd_inv s /\ ub_grows s0 s.

Lemma delete_post_mem s0 s s' : mem s' = mem s -> delete_post s0 s -> delete_post s0 s'.
Proof.
  intros E [H1 H2]. split; [by eapply fd_inv_mem|]. unfold ub_grows in *. by injection E as _ _ _ _ ->.
Qed.

Lemma safe_delete_post s0 s : safe_post s0 s -> delete_post s0 s.
Proof. intros (H1 & _ & H3). split; [done|by left]. Qed.

Lemma sat_delete_quiet {A} (m : M (Api D) A) s0 s : quiet m -> delete_post s0 s ->
  sat (m s) (fun _ => delete_post s0) (fun _ => delete_post s0).
Proof.
  intros Hq Hs. eapply sat_mono; [apply Hq| |]; simpl; intros; by apply (delete_post_mem s0 s).
Qed.


Lemma erase_file_inv f s :
  fd_tables (<[f := []]> (lst (file2fd_map s))) (lst (session2fd_map s)) (heap s) (next_ptr s) ->
  fd_inv (on_file2fd_map (delete f) s).
Proof.
  intros Ht. eapply fd_tables_ext; [|done|exact Ht]. intros g. unfold lst at 1. simpl.
  destruct (decide (g = f)) as [->|].
  - by rewrite lookup_delete_eq, fn_lookup_insert.
  - by rewrite lookup_delete_ne, fn_lookup_insert_ne.
Qed.

(** The state after the loop of [fileDelete] and the erasure of the list. *)
Lemma close_erase_run f s0 s : safe_post s0 s -> exists s1 s2, close_all f s = Ret tt s1 /\
  is_Some (file2fd_map s1 !! f) /\ s2 = on_file2fd_map (delete f) s1 /\ fd_inv s2 /\ ub s2 = ub s0 /\
  rest s2 = rest s /\ (forall se p, (se, p) ∈ lst (file2fd_map s) f -> heap s2 !! p = None).
Proof.
  intros (Hi & _ & Hu). destruct (close_all_run f s Hi) as (s1 & Hc & Ht & Hs & Hr & _ & Hl).
  exists s1, (on_file2fd_map (delete f) s1). split_and!; try done.
  - by apply erase_file_inv.
  - injection Hr. simpl. congruence.
Qed.

Lemma delete_sat arg se xid s : fd_inv s ->
  sat (fileDelete stale arg se xid s) (fun _ => delete_post s) (fun _ => delete_post s).
Proof.
  intros Hs. unfold fileDelete. apply sat_bind.
  eapply sat_mono; [apply safe_quiet; [solve_quiet|exact Hs]| |].
  2:{ intros. by apply safe_delete_post. }
  intros c s1 H1. destruct (findFd_safe stale se arg s1) as (p & s2 & Hr & H2 & Hh & _); [apply H1|].
  rewrite (bind_Ret _ _ _ _ _ Hr), (bind_Ret _ _ _ _ _ (deref_live stale p arg s2 Hh)).
  pose proof (safe_post_trans _ _ _ H1 H2) as H02. apply sat_bind.
  eapply sat_mono; [apply (sat_quiet _ s); [solve_quiet|exact H02]| |].
  2:{ intros. by apply safe_delete_post. }
  intros go s3 H3. destruct go; [|by apply safe_delete_post]. cbn [when].
  destruct (close_erase_run (fh_file_name arg) s s3 H3) as (s4 & s5 & Hc & Hp & -> & Hi & Hu & _ & _).
  rewrite (bind_Ret _ _ _ _ _ Hc), (bind_Ret (gets _) _ s4 (file2fd_map s4 !! fh_file_name arg) s4) by done.
  rewrite (bind_Ret (modify _) _ s4 tt (on_file2fd_map (delete (fh_file_name arg)) s4)) by done.
  rewrite bool_decide_true by done. change (cassert true) with (mret tt : M (Api D) unit).
  rewrite bind_ret_l. set (s5 := on_file2fd_map _ s4) in *.
  rewrite (bind_Ret (modify _) _ s5 tt (on_file2lockQueue_map (delete (fh_file_name arg)) s5)) by done.
  set (s6 := on_file2lockQueue_map _ s5).
  assert (exists h s7, deref stale p s6 = Ret h s7 /\ delete_post s s7) as (h & s7 & Hd & H7).
  { unfold deref. destruct (heap s6 !! p); eexists _, _; (split; [done|]); (split; [exact Hi|]).
    - by left.
    - right. exists p. by rewrite <-Hu. }
  rewrite (bind_Ret _ _ _ _ _ Hd). apply sat_delete_quiet; [solve_quiet|done].
Qed.

(** Removing [(se, p)] from the list of a file and the key when empty. *)
Lemma drop_file_run f se p s : exists s',
  (index_mod on_file2fd_map [] f (list_remove (se, p)) ;;
   erase_if_empty on_file2fd_map [] list_empty f) s = Ret tt s' /\
  (forall g, lst (file2fd_map s') g = (<[f := list_remove (se, p) (lst (file2fd_map s) f)]> (lst (file2fd_map s))) g) /\
  session2fd_map s' = session2fd_map s /\ heap s' = heap s /\ next_ptr s' = next_ptr s /\ rest s' = rest s.
Proof.
  eexists. split; [done|]. split; [|done]. intros t.
  etrans; [apply lst_erase|]. apply lst_insert.
Qed.

Lemma bind_pair_Ret {A} (m1 m2 : M (Api D) unit) (k : unit -> M (Api D) A) s s' :
  (m1 ;; m2) s = Ret tt s' -> (m1 ;; m2 ;; k tt) s = k tt s'.
Proof. intros H. unfold mbind, M_bind in *. destruct (m1 s); try done. by rewrite H. Qed.

(** Taking a live handle of the session out of both tables. *)
Lemma untable_run {A} p fd se s (k : M (Api D) A) : fd_inv s -> heap s !! p = Some fd ->
  p ∈ lst (session2fd_map s) se -> exists s', 
    (index_mod on_file2fd_map [] (fh_file_name fd) (list_remove (se, p)) ;;
     erase_if_empty on_file2fd_map [] list_empty (fh_file_name fd) ;;
     index_mod on_session2fd_map [] se (list_remove p) ;;
     erase_if_empty on_session2fd_map [] list_empty se ;; k) s = k s' /\
    pending p fd s' /\ rest s' = rest s.
Proof.
  intros Hi Hh Hp. destruct (ft_live _ _ _ _ Hi se p Hp) as (fd' & Hfd & Hin). simplify_eq.
  destruct (drop_file_run (fh_file_name fd) se p s) as (s1 & Hd1 & HF1 & HG1 & Hh1 & Hn1 & Hr1).
  destruct (drop_session_run se p s1) as (s2 & Hd2 & HG2 & HF2 & Hh2 & Hn2 & Hr2).
  exists s2. split_and!; [| |congruence].
  - rewrite (bind_pair_Ret _ _ (fun _ => _) _ _ Hd1). by rewrite (bind_pair_Ret _ _ (fun _ => _) _ _ Hd2).
  - destruct (fd_remove _ _ _ _ _ _ _ Hi Hin) as (h & Hq1 & Hq2 & Hq3). rewrite Hh in Hq1. injection Hq1 as <-.
    unfold pending, fd_pending. rewrite Hh2, Hh1, Hn2, Hn1. split_and!; [done|done|].
    eapply fd_tables_ext; [| |exact Hq3].
    + intros g. by rewrite HF2, HF1.
    + intros t. rewrite HG2, HG1. done.
Qed.

Lemma sat_quiet_pend {A B} (m : M (Api D) A) (k : A -> M (Api D) B) p fd s Q E : quiet m -> pending p fd s ->
  (forall e s', E e s') ->
  (forall a s', pending p fd s' -> ub s' = ub s -> sat (k a s') Q E) -> sat ((m ≫= k) s) Q E.
Proof.
  intros Hq Hp HE Hk. apply sat_bind. eapply sat_mono; [apply Hq| |done]. intros a s' Em. apply Hk.
  - by apply (pending_mem p fd s).
  - by injection Em.
Qed.

(** [close_handle] on a live handle of the session. *)
Lemma close_handle_sat p fd se xid s0 s : safe_post s0 s -> heap s !! p = Some fd ->
  p ∈ lst (session2fd_map s) se ->
  sat (close_handle stale p se xid s) (fun _ => delete_post s0) (fun _ _ => True).
Proof.
  intros (Hi & _ & Hu) Hh Hp. unfold close_handle.
  rewrite (bind_Ret _ _ _ _ _ (deref_live stale p fd s Hh)). cbv zeta.
  match goal with |- context [erase_if_empty on_session2fd_map [] list_empty se ≫= (fun _ => ?k)] =>
    destruct (untable_run p fd se s k Hi Hh Hp) as (s1 & Hrun & Hpend & Hr) end.
  rewrite Hrun. clear Hrun. assert (ub s1 = ub s0) as Hu1 by (injection Hr; congruence). clear Hr Hi Hh Hp.
  eapply sat_quiet_pend; [solve_quiet|exact Hpend|done|]. intros _ s2 Hp2 Hu2.
  eapply sat_quiet_pend; [unfold clear_events; solve_quiet|exact Hp2|done|]. intros _ s3 Hp3 Hu3.
  eapply sat_quiet_pend; [unfold clear_events; solve_quiet|exact Hp3|done|]. intros _ s4 Hp4 Hu4.
  destruct Hp4 as (Hh4 & _ & Ht4). unfold delete_fd at 1.
  rewrite (bind_Ret _ _ s4 tt (on_heap (delete p) s4)) by (unfold delete_fd; by rewrite Hh4).
  eapply sat_mono; [apply (sat_delete_quiet _ s0); [solve_quiet|]|done|done].
  split; [exact Ht4|]. left. simpl. congruence.
Qed.

Lemma safe_when b (m : M (Api D) unit) : safe m -> safe (when b m).
Proof. destruct b; [done|]. intros _. apply safe_quiet. by apply quiet_ret. Qed.

Lemma close_sat arg se xid s : fd_inv s ->
  sat (fileClose stale arg se xid s) (fun _ => delete_post s) (fun _ _ => True).
Proof.
  intros Hs. unfold fileClose. apply sat_bind.
  eapply sat_mono; [apply safe_quiet; [solve_quiet|exact Hs]| |done].
  intros c s1 H1. destruct (findFd_safe stale se arg s1) as (p & s2 & Hr & H2 & Hh & Hp & _); [apply H1|].
  rewrite (bind_Ret _ _ _ _ _ Hr), (bind_Ret _ _ _ _ _ (deref_live stale p arg s2 Hh)).
  pose proof (safe_post_trans _ _ _ H1 H2) as H02. rewrite (bind_Ret (gets _) _ s2 _ s2 eq_refl).
  apply sat_bind. eapply sat_mono; [apply (safe_when _ _ (safe_release stale arg se INTERNAL)), H2| |done].
  intros [] s3 H3. apply sat_bind.
  eapply sat_mono; [apply (sat_quiet _ s2); [solve_quiet|exact H3]| |done].
  intros ephemeral s4 H4. pose proof H4 as (H4i & [H4h H4g] & H4u).
  assert (heap s4 !! p = Some arg) as Hh4 by by eapply lookup_weaken.
  assert (p ∈ lst (session2fd_map s4) se) as Hp4 by by apply H4g.
  rewrite (bind_Ret _ _ _ _ _ (deref_live stale p arg s4 Hh4)).
  pose proof (safe_post_trans _ _ _ H02 H4) as H04. case_bool_decide as He.
  - apply sat_bind, sat_try, sat_bind.
    assert (forall s', delete_post s4 s' -> delete_post s s') as Htr.
    { intros s' [Hi Hu]. split; [done|]. unfold ub_grows in *. destruct H04 as (_ & _ & E). by rewrite <-E. }
    eapply sat_mono; [apply delete_sat, H4i| |].
    + intros [] s5 H5. cbn [when mret M_ret sat]. eapply sat_mono; [apply (sat_delete_quiet _ s); [solve_quiet|auto]|done|done].
    + intros e s5 H5. apply sat_bind.
      eapply sat_mono; [apply (sat_delete_quiet _ s); [solve_quiet|auto]| |done]. by intros.
  - eapply sat_mono; [apply (close_handle_sat p arg se xid s)|done|done]; done.
Qed.

Lemma disconnect_sat se s : fd_inv s -> sat (disconnect stale se s) (fun _ => fd_inv) (fun _ _ => True).
Proof.
  intros Hs. unfold disconnect.
  destruct (index_session_run se s Hs) as (s1 & Hi & H1 & _). rewrite (bind_Ret _ _ _ _ _ Hi). apply sat_bind.
  eapply sat_mono; [apply (sat_for_each fd_inv); [exact H1|]| |done].
  - intros p s2 _ H2. apply sat_bind. unfold deref. destruct (heap s2 !! p); simpl.
    + eapply sat_mono; [by apply close_sat| |done]. by intros ? s3 [? _].
    + eapply sat_mono; [by apply close_sat| |done]. by intros ? s3 [? _].
  - intros [] s2 H2. exact H2.
Qed.
End closing.

(** ** All requests *)

(** What reaches the logic: the calls of [api_v1] and the end of a session. *)
Inductive request :=
| Q_fileOpen (arg : ArgOpen)
| Q_fileClose (arg : FileHandler)
| Q_fileDelete (arg : FileHandler)
| Q_getContentsAndStat (arg : FileHandler)
| Q_setContents (arg : ArgSetContents)
| Q_acquire (arg : FileHandler)
| Q_tryAcquire (arg : FileHandler)
| Q_release (arg : FileHandler)
| Q_startSession (arg : string)
| Q_fileReopen (arg : ArgReopen)
| Q_increment (arg : Z)
| Q_decrement (arg : Z)
| Q_disconnect.

Section requests.
Context {D : Type} `{!DbApi D} (str_hash : string -> Z) (stale : Z -> FileHandler).

Definition handle (q : request) (session xid : Z) : M (Api D) unit :=
  match q with
  | Q_fileOpen arg => fileOpen str_hash stale arg session xid
  | Q_fileClose arg => fileClose stale arg session xid
  | Q_fileDelete arg => fileDelete stale arg session xid
  | Q_getContentsAndStat arg => getContentsAndStat stale arg session xid
  | Q_setContents arg => setContents stale arg session xid
  | Q_acquire arg => acquire stale arg session xid
  | Q_tryAcquire arg => tryAcquire stale arg session xid
  | Q_release arg => release stale arg session xid
  | Q_startSession arg => startSession arg session xid
  | Q_fileReopen arg => fileReopen arg session xid
  | Q_increment arg => increment arg session xid
  | Q_decrement arg => decrement arg session xid
  | Q_disconnect => disconnect stale session
  end.

(** A run of the server: requests with their session and transaction number. *)
Fixpoint serve (qs : list (request * Z * Z)) : M (Api D) unit :=
  match qs with
  | [] => mret tt
  | (q, session, xid) :: qs => handle q session xid ;; serve qs
  end.

Lemma handle_sat q se xid s : fd_inv s -> sat (handle q se xid s) (fun _ => fd_inv) (fun _ _ => True).
Proof.
  intros Hs.
  assert (forall m : M (Api D) unit, safe m -> sat (m s) (fun _ => fd_inv) (fun _ _ => True)) as Hsafe.
  { intros m Hm. eapply sat_mono; [by apply Hm| |done]. by intros ? s' (? & _). }
  destruct q; simpl.
  - apply Hsafe, safe_fileOpen.
  - eapply sat_mono; [by apply close_sat| |done]. by intros ? s' [? _].
  - eapply sat_mono; [by apply delete_sat| |done]. by intros ? s' [? _].
  - apply Hsafe, safe_getContentsAndStat.
  - apply Hsafe, safe_setContents.
  - apply Hsafe, safe_acquire.
  - apply Hsafe, safe_tryAcquire.
  - apply Hsafe, safe_release.
  - apply Hsafe, safe_quiet, quiet_startSession.
  - apply Hsafe, safe_fileReopen.
  - apply Hsafe, safe_quiet. unfold increment, step_call. solve_quiet.
  - apply Hsafe, safe_quiet. unfold decrement, step_call. solve_quiet.
  - by apply disconnect_sat.
Qed.
End requests.
