(* ===== verification/LogicErrors.v ===== *)
(** * No exception leaves a handler

    The database is replicated and its operations throw; every handler of
    [ServerLogic] catches what they throw, so that the client gets an error
    code and the server goes on. *)

From S2P Require Import Prelude Names ServerTypes DbApi ServerLogic LogicInv.

Section nothrow.
Context {D : Type} `{!DbApi D} (str_hash : string -> Z) (stale : Z -> FileHandler).
Abbreviation Op := (M (Api D)).

(** [m] throws no exception. *)
Definition nothrow {A} (m : Op A) : Prop := forall s, sat (m s) (fun _ _ => True) (fun _ _ => False).

Lemma nothrow_ret {A} (a : A) : nothrow (mret a).
Proof. done. Qed.
Lemma nothrow_abort {A} : nothrow (abort : Op A).
Proof. done. Qed.
Lemma nothrow_diverge {A} : nothrow ((fun _ => Diverge) : Op A).
Proof. done. Qed.
Lemma nothrow_gets {A} (f : Api D -> A) : nothrow (gets f).
Proof. done. Qed.
Lemma nothrow_modify f : nothrow (modify f : Op unit).
Proof. done. Qed.
Lemma nothrow_assert b : nothrow (cassert b : Op unit).
Proof. by destruct b. Qed.
Lemma nothrow_when b (m : Op unit) : nothrow m -> nothrow (when b m).
Proof. by destruct b. Qed.
Lemma nothrow_bind {A B} (m : Op A) (k : A -> Op B) :
  nothrow m -> (forall a, nothrow (k a)) -> nothrow (m ≫= k).
Proof. intros Hm Hk s. apply sat_bind. eapply sat_mono; [apply Hm| |done]. intros a s' _. apply Hk. Qed.
Lemma nothrow_try {A} (m : Op A) h : (forall e, nothrow (h e)) -> nothrow (try_catch m h).
Proof. intros Hh s. unfold try_catch. destruct (m s) as [| e s1| |]; [done| |done..]. apply Hh. Qed.
Lemma nothrow_for_each {A} (l : list A) body : (forall a, nothrow (body a)) -> nothrow (for_each l body).
Proof. intros Hb. induction l as [|a l IH]; [done|]. cbn. by apply nothrow_bind. Qed.
Lemma nothrow_deref p : nothrow (deref stale p : Op FileHandler).
Proof. intros s. unfold deref. by destruct (heap s !! p). Qed.
Lemma nothrow_delete_fd p : nothrow (delete_fd p : Op unit).
Proof. intros s. unfold delete_fd. by destruct (heap s !! p). Qed.
Lemma nothrow_new_fd h : nothrow (new_fd h : Op Z).
Proof. done. Qed.
Lemma nothrow_index {K V} `{Countable K} (get : Api D -> gmap K V) on dflt k : nothrow (index get on dflt k).
Proof. intros s. unfold index. by destruct (get s !! k). Qed.
Lemma nothrow_reply se x r : nothrow (reply se x r : Op unit).
Proof. unfold reply. by destruct (x =? INTERNAL). Qed.

Ltac nothrow_step :=
  match goal with
  | |- nothrow (_ ≫= _) => apply nothrow_bind; [|intros ?]
  | |- nothrow (try_catch _ _) => (apply nothrow_try; intros ?)
  | |- nothrow (when _ _) => apply nothrow_when
  | |- nothrow (for_each _ _) => apply nothrow_for_each; intros ?
  | |- nothrow (match ?x with _ => _ end) => destruct x
  | _ => first [ apply nothrow_ret | apply nothrow_abort | apply nothrow_diverge | apply nothrow_gets
               | apply nothrow_modify | apply nothrow_assert | apply nothrow_deref | apply nothrow_delete_fd
               | apply nothrow_new_fd | apply nothrow_index | apply nothrow_reply ]
  end.
Ltac solve_nothrow := repeat nothrow_step.

Lemma nothrow_findFd se fd : nothrow (findFd stale se fd).
Proof.
  assert (forall l, nothrow (find_in stale l fd)) as Hf.
  { induction l as [|p l IH]; cbn [find_in]; solve_nothrow. apply IH. }
  unfold findFd, add_fd, index_mod. solve_nothrow. apply Hf.
Qed.
Lemma nothrow_client se : nothrow (require_client se : Op string).
Proof. unfold require_client. solve_nothrow. Qed.
Lemma nothrow_events get ev f : nothrow (send_events get ev f : Op unit).
Proof. unfold send_events, send. solve_nothrow. Qed.
Lemma nothrow_parent f : nothrow (send_parent_event f : Op unit).
Proof. unfold send_parent_event. solve_nothrow. apply nothrow_events. Qed.
Lemma nothrow_register mode f se : nothrow (register_events mode f se : Op unit).
Proof. unfold register_events, index_mod. solve_nothrow. Qed.
Lemma nothrow_grant f : nothrow (grant_next f : Op unit).
Proof. unfold grant_next, index_mod, reply_ok. solve_nothrow. Qed.

Lemma nothrow_release arg se x : nothrow (release stale arg se x).
Proof.
  unfold release, reply_err, reply_ok, index_mod, erase_if_empty, sendLockChangeEvent.
  solve_nothrow; auto using nothrow_client, nothrow_findFd, nothrow_grant, nothrow_events.
Qed.

(** [xid != (uint64_t) -1] holds of every transaction number. *)
Lemma nothrow_delete arg se x : u32 x -> nothrow (fileDelete stale arg se x).
Proof.
  intros Hx. unfold fileDelete, delete_in_db, close_all, reply_err, reply_ok, index_mod, erase_if_empty,
    sendContentChangeEvent. assert ((x =? 2 ^ 64 - 1) = false) as -> by (apply Z.eqb_neq; unfold u32 in Hx; lia).
  cbn [negb]. solve_nothrow; auto using nothrow_client, nothrow_findFd, nothrow_events, nothrow_parent.
Qed.

Lemma nothrow_close arg se x : nothrow (fileClose stale arg se x).
Proof.
  unfold fileClose, close_handle, clear_lock_queue, clear_events, reply_err, reply_ok, index_mod, erase_if_empty.
  solve_nothrow; auto using nothrow_client, nothrow_findFd, nothrow_release.
Qed.

Lemma nothrow_disconnect se : nothrow (disconnect stale se).
Proof. unfold disconnect. solve_nothrow. apply nothrow_close. Qed.

(** The handle tables after a request, whether it returns or throws. *)
Lemma handle_inv q se x s : fd_inv s ->
  sat (handle str_hash stale q se x s) (fun _ => fd_inv) (fun _ => fd_inv).
Proof.
  intros Hs. assert (forall m : Op unit, safe m -> sat (m s) (fun _ => fd_inv) (fun _ => fd_inv)) as Hsafe.
  { intros m Hm. eapply sat_mono; [by apply Hm|..]; by intros ? s' (? & _). }
  assert (forall m : Op unit, nothrow m -> sat (m s) (fun _ => fd_inv) (fun _ _ => True) ->
    sat (m s) (fun _ => fd_inv) (fun _ => fd_inv)) as Hno.
  { intros m Hm Hq. specialize (Hm s). by destruct (m s). }
  pose proof (handle_sat str_hash stale q se x s Hs) as Hq.
  destruct q; cbn [handle] in *; try (by apply Hno; auto using nothrow_close, nothrow_release, nothrow_disconnect).
  - apply Hsafe, safe_fileOpen.
  - eapply sat_mono; [by apply delete_sat|..]; by intros ? s' [? _].
  - apply Hsafe, safe_getContentsAndStat.
  - apply Hsafe, safe_setContents.
  - apply Hsafe, safe_acquire.
  - apply Hsafe, safe_tryAcquire.
  - apply Hsafe, safe_quiet, quiet_startSession.
  - apply Hsafe, safe_fileReopen.
  - apply Hsafe, safe_quiet. unfold increment, step_call. solve_quiet.
  - apply Hsafe, safe_quiet. unfold decrement, step_call. solve_quiet.
Qed.

(** C25: no exception leaves a handler: whatever the database throws, every
    request and the end of every session returns, unless an assertion fails
    or the loop of [fileClose] does not end. *)
Theorem handlers_never_throw q se x s e s' : u32 x -> handle str_hash stale q se x s <> Throw e s'.
Proof.
  intros Hx. assert (nothrow (handle str_hash stale q se x)) as H.
  { destruct q; cbn [handle].
    all: unfold fileOpen, open_in_db, getContentsAndStat, setContents, acquire, tryAcquire, try_lock, lock_granted,
      startSession, fileReopen, increment, decrement, step_call, send, add_fd, index_mod, reply_err,
      reply_ok, sendLockChangeEvent, sendContentChangeEvent.
    all: solve_nothrow; auto using nothrow_client, nothrow_findFd, nothrow_release, nothrow_delete, nothrow_close,
      nothrow_disconnect, nothrow_events, nothrow_parent, nothrow_register. }
  intros E. specialize (H s). by rewrite E in H.
Qed.
End nothrow.
