(* ===== verification/LogicSpec.v ===== *)
(** * What the handlers of the server logic do

    Functional specifications of the content and lock handlers of
    [ServerLogic], on every branch of the database call. *)

From S2P Require Import Prelude Names ServerTypes DbApi ServerLogic LogicInv.

(** ** Messages *)

Definition reply_msgs (se xid : Z) (r : reply_val) : list output :=
  if xid =? INTERNAL then [] else [OReply se xid r].
Definition bool_msgs (se xid : Z) (r : RetBool) : list output := reply_msgs se xid (RepBool r).
Definition event_msgs (m : gmap string (list Z)) (ev : Z) (f : string) : list output :=
  (fun se => OEvent se (mkEventContent ev f)) <$> lst m f.

Section spec.
Context {D : Type} `{!DbApi D} (str_hash : string -> Z) (stale : Z -> FileHandler).
Implicit Types s : Api D.
Abbreviation Op := (M (Api D)).

Definition emit (l : list output) s : Api D := on_out (fun o => o ++ l) s.
Definition set_db (d : D) s : Api D := on_db (fun _ => d) s.

Lemma emit_nil s : emit [] s = s.
Proof. unfold emit, on_out. rewrite app_nil_r. by destruct s. Qed.
Lemma emit_emit l1 l2 s : emit l2 (emit l1 s) = emit (l1 ++ l2) s.
Proof. unfold emit, on_out. simpl. by rewrite app_assoc. Qed.

Lemma reply_run se xid r s : reply se xid r s = Ret tt (emit (reply_msgs se xid r) s).
Proof. unfold reply, reply_msgs. destruct (xid =? INTERNAL); [by rewrite emit_nil|done]. Qed.

Lemma send_all_run l ev f s :
  for_each l (fun se => send se (mkEventContent ev f)) s =
  Ret tt (emit ((fun se => OEvent se (mkEventContent ev f)) <$> l) s).
Proof.
  revert s. induction l as [|se l IH]; intros s; [by rewrite emit_nil|]. cbn [for_each].
  rewrite (bind_Ret _ _ s tt (emit [OEvent se (mkEventContent ev f)] s)) by done.
  rewrite IH, emit_emit. done.
Qed.

Lemma send_events_run get ev f s :
  send_events get ev f s = Ret tt (emit (event_msgs (get s) ev f) s).
Proof.
  unfold send_events, event_msgs, lst. rewrite (bind_Ret (gets _) _ s (get s !! f) s) by done.
  destruct (get s !! f); [apply send_all_run|by rewrite emit_nil].
Qed.

Lemma call_db_run {A B} (m : M D A) (k : A -> Op B) s :
  (call_db m ≫= k) s =
  match m (db s) with
  | Ret a d => k a (set_db d s)
  | Throw e d => Throw e (set_db d s)
  | Abort => Abort
  | Diverge => Diverge
  end.
Proof. unfold mbind, M_bind, call_db, zoom. by destruct (m (db s)). Qed.

(** A database call inside [try], whose handler replies PAXOS_ERROR. *)
Lemma try_db_run {A B} (m : M D A) (k : A -> Op B) (h : exn -> Op B) s :
  (forall a d e s', k a (set_db d s) <> Throw e s') ->
  try_catch (call_db m ≫= k) h s =
  match m (db s) with
  | Ret a d => k a (set_db d s)
  | Throw e d => h e (set_db d s)
  | Abort => Abort
  | Diverge => Diverge
  end.
Proof.
  intros Hk. unfold try_catch. rewrite call_db_run. destruct (m (db s)) as [a d| | |]; try done.
  destruct (k a (set_db d s)) eqn:E; try done. by apply Hk in E.
Qed.

(** The fields a handler of contents leaves as they were. *)
Definition maps s :=
  (session2client_map s, file2lockQueue_map s, client2heldLock_map s, client2ephemeral_map s,
   file2lockChange_map s, file2contentChange_map s).

Lemma rest_split s s' : rest s' = rest s -> maps s' = maps s /\ db s' = db s /\ ub s' = ub s /\ out s' = out s.
Proof. unfold rest, maps. intros [=]. split_and!; congruence. Qed.

(** The outcome of a handler: a return in a state with database [d], outputs
    [o] and maps [ms], and consistent handle tables; or the failure of the
    database call. *)
Definition returns (m : outcome (Api D) unit) (d : D) (o : list output)
    (ms : _) (u : list ub_event) : Prop :=
  exists s', m = Ret tt s' /\ fd_inv s' /\ db s' = d /\ out s' = o /\ maps s' = ms /\ ub s' = u.

Lemma returns_emit s s1 d l : fd_inv s1 -> rest s1 = rest s ->
  returns (Ret tt (emit l (set_db d s1))) d (out s ++ l) (maps s) (ub s).
Proof.
  intros Hi Hr. apply rest_split in Hr as (Hm & Hd & Hu & Ho). eexists. split; [done|].
  split_and!; [exact Hi|done| |exact Hm|exact Hu]. simpl. by rewrite Ho.
Qed.

(** Both stages of a handler: the database call and its replies, then what
    follows a success. *)
Definition db_stage (m : M D bool) (fail : Op unit) (error : Op unit) : Op bool :=
  try_catch (ok ← call_db m; when (negb ok) fail ;; mret ok) (fun _ => error ;; mret false).

Lemma db_stage_run m se xid c1 c2 (next : Op unit) s :
  (updated ← db_stage m (reply_err se xid c1) (reply_err se xid c2); when updated next) s =
  match m (db s) with
  | Ret true d => next (set_db d s)
  | Ret false d => Ret tt (emit (bool_msgs se xid (RB_errCode c1)) (set_db d s))
  | Throw _ d => Ret tt (emit (bool_msgs se xid (RB_errCode c2)) (set_db d s))
  | Abort => Abort
  | Diverge => Diverge
  end.
Proof.
  unfold db_stage, mbind at 1, M_bind at 1. rewrite try_db_run.
  - destruct (m (db s)) as [[] d|e d| |]; simpl; try done;
      unfold reply_err, mbind, M_bind; by rewrite reply_run.
  - intros [] d e s'; simpl; [done|]. unfold reply_err, mbind, M_bind. by rewrite reply_run.
Qed.

Lemma setContents_run arg se xid s p s1 : findFd stale se (asc_fd arg) s = Ret p s1 ->
  heap s1 !! p = Some (asc_fd arg) ->
  let f := fh_file_name (asc_fd arg) in
  setContents stale arg se xid s =
  match db_checkAndUpdate f (fh_instance_number (asc_fd arg)) (asc_content arg) (db s1) with
  | Ret true d => Ret tt (emit (bool_msgs se xid (RB_val true) ++
      event_msgs (file2contentChange_map s1) EV_CONTENT_MODIFIED f) (set_db d s1))
  | Ret false d => Ret tt (emit (bool_msgs se xid (RB_errCode FS_FAIL)) (set_db d s1))
  | Throw _ d => Ret tt (emit (bool_msgs se xid (RB_errCode PAXOS_ERROR)) (set_db d s1))
  | Abort => Abort
  | Diverge => Diverge
  end.
Proof.
  intros Hf Hh f. unfold setContents.
  rewrite (bind_Ret _ _ _ _ _ Hf), (bind_Ret _ _ _ _ _ (deref_live stale p _ s1 Hh)).
  etrans; [apply (db_stage_run (db_checkAndUpdate _ _ _))|]. fold f.
  destruct (db_checkAndUpdate _ _ _ _) as [[] d|e d| |]; try done.
  unfold reply_ok. rewrite (bind_Ret _ _ _ _ _ (reply_run se xid _ _)).
  rewrite (bind_Ret _ _ _ _ _ (deref_live stale p (asc_fd arg) (emit _ (set_db d s1)) Hh)).
  unfold sendContentChangeEvent. by rewrite send_events_run, emit_emit.
Qed.

(** [setContents] and the database: the update is attempted on the file
    and instance number of the handle alone, whatever its magic number and
    its [write_is_allowed]; when it succeeds the caller gets [true] and every
    session registered for the file one content event, in order of
    registration; a refusal is FS_FAIL and an exception PAXOS_ERROR, without
    events; nothing else changes. *)
Lemma setContents_spec arg se xid s : fd_inv s ->
  let f := fh_file_name (asc_fd arg) in
  let m := setContents stale arg se xid s in
  let sent d l := returns m d (out s ++ l) (maps s) (ub s) in
  match db_checkAndUpdate f (fh_instance_number (asc_fd arg)) (asc_content arg) (db s) with
  | Ret true d => sent d (bool_msgs se xid (RB_val true) ++
      event_msgs (file2contentChange_map s) EV_CONTENT_MODIFIED f)
  | Ret false d => sent d (bool_msgs se xid (RB_errCode FS_FAIL))
  | Throw _ d => sent d (bool_msgs se xid (RB_errCode PAXOS_ERROR))
  | Abort => m = Abort
  | Diverge => m = Diverge
  end.
Proof.
  intros Hs f m sent. destruct (findFd_run stale se (asc_fd arg) s Hs) as (p & s1 & Hf & Hi & Hh & _ & _ & Hr & _).
  pose proof (setContents_run arg se xid s p s1 Hf Hh) as Hm. fold f in Hm.
  pose proof (rest_split _ _ Hr) as (Hmaps & Hdb & _). rewrite Hdb in Hm.
  assert (file2contentChange_map s1 = file2contentChange_map s) as Hc by (injection Hmaps; congruence).
  rewrite Hc in Hm. subst m sent. cbv beta. rewrite Hm.
  destruct (db_checkAndUpdate _ _ _ _) as [[] d|e d| |]; try done; by apply returns_emit.
Qed.

(** [getContentsAndStat] answers with what the database holds for the file
    and instance number of the handle, whatever its other fields; a refusal is
    FS_FAIL and an exception PAXOS_ERROR; no event is sent and nothing
    changes. *)
Lemma getContentsAndStat_spec arg se xid s : fd_inv s ->
  let m := getContentsAndStat stale arg se xid s in
  let sent d r := returns m d (out s ++ reply_msgs se xid (RepContents r)) (maps s) (ub s) in
  match db_checkAndRead (fh_file_name arg) (fh_instance_number arg) (db s) with
  | Ret (true, content, meta) d => sent d (RC_val (mkContentsAndStat content meta))
  | Ret (false, _, _) d => sent d (RC_errCode FS_FAIL)
  | Throw _ d => sent d (RC_errCode PAXOS_ERROR)
  | Abort => m = Abort
  | Diverge => m = Diverge
  end.
Proof.
  intros Hs m sent. destruct (findFd_run stale se arg s Hs) as (p & s1 & Hf & Hi & Hh & _ & _ & Hr & _).
  assert (db s1 = db s) as Hdb by by apply (rest_split s s1) in Hr as (_ & ? & _).
  assert (m = match db_checkAndRead (fh_file_name arg) (fh_instance_number arg) (db s) with
    | Ret r d => Ret tt (emit (reply_msgs se xid (RepContents (read_reply r))) (set_db d s1))
    | Throw _ d => Ret tt (emit (reply_msgs se xid (RepContents (RC_errCode PAXOS_ERROR))) (set_db d s1))
    | Abort => Abort
    | Diverge => Diverge
    end) as Hm.
  { unfold m, getContentsAndStat. rewrite (bind_Ret _ _ _ _ _ Hf), (bind_Ret _ _ _ _ _ (deref_live stale p _ s1 Hh)).
    rewrite try_db_run by (intros; by rewrite reply_run). rewrite Hdb.
    destruct (db_checkAndRead _ _ _); try done; by rewrite reply_run. }
  unfold sent. rewrite Hm. destruct (db_checkAndRead _ _ _) as [[[[] c] md] d|e d| |]; try done; by apply returns_emit.
Qed.

(** ** Locks *)

(** [client_id] holds the lock of [f], does not hold it, waits for it. *)
Definition hold (c f : string) : Api D -> Api D :=
  on_client2heldLock_map (fun m => <[c := {[f]} ∪ default ∅ (m !! c)]> m).
Definition unhold (c f : string) : Api D -> Api D :=
  on_client2heldLock_map (fun m =>
    let X := default ∅ (m !! c) ∖ {[f]} in if set_empty X then delete c m else <[c := X]> m).
Definition enqueue (f : string) (se xid : Z) : Api D -> Api D :=
  on_file2lockQueue_map (fun m => <[f := lst m f ++ [(se, xid)]]> m).
Definition requeue (f : string) (q : list (Z * Z)) : Api D -> Api D :=
  on_file2lockQueue_map (fun m => if list_empty q then delete f m else <[f := q]> m).

Lemma require_client_run se c s : session2client_map s !! se = Some c -> c <> "" ->
  require_client se s = Ret c s.
Proof.
  intros Hc Hne. unfold require_client.
  rewrite (bind_Ret _ _ s c s) by (unfold index; by rewrite Hc). by rewrite bool_decide_false.
Qed.

Lemma try_lock_run p fd c se xid (next : Op unit) s : heap s !! p = Some fd ->
  let f := fh_file_name fd in
  (go ← try_lock stale p fd c se xid; when go next) s =
  match db_testAndSetLockOwner f (fh_instance_number fd) c (db s) with
  | Ret true d =>
      match file2lockQueue_map s !! f with
      | Some _ => Abort
      | None => Ret tt (emit (bool_msgs se xid (RB_val true) ++
                              event_msgs (file2lockChange_map s) EV_LOCK_CHANGED f) (hold c f (set_db d s)))
      end
  | Ret false d => next (set_db d s)
  | Throw _ d => Ret tt (emit (bool_msgs se xid (RB_errCode PAXOS_ERROR)) (set_db d s))
  | Abort => Abort
  | Diverge => Diverge
  end.
Proof.
  intros Hh f. unfold try_lock, mbind at 1, M_bind at 1.
  assert (forall d, lock_granted stale p c se xid (set_db d s) =
    match file2lockQueue_map s !! f with
    | Some _ => Abort
    | None => Ret tt (emit (bool_msgs se xid (RB_val true) ++
                            event_msgs (file2lockChange_map s) EV_LOCK_CHANGED f) (hold c f (set_db d s)))
    end) as Hg.
  { intros d. unfold lock_granted. rewrite (bind_Ret _ _ _ _ _ (deref_live stale p fd (set_db d s) Hh)).
    rewrite (bind_Ret (gets _) _ _ (file2lockQueue_map s !! f) (set_db d s)) by done.
    destruct (file2lockQueue_map s !! f); [done|]. rewrite bool_decide_true by done.
    rewrite (bind_Ret (cassert _) _ _ tt (set_db d s)) by done.
    rewrite (bind_Ret (index_mod _ _ _ _) _ _ tt (hold c f (set_db d s))) by done.
    unfold reply_ok, sendLockChangeEvent. rewrite (bind_Ret _ _ _ _ _ (reply_run se xid _ _)).
    by rewrite send_events_run, emit_emit. }
  rewrite try_db_run.
  - destruct (db_testAndSetLockOwner _ _ _ _) as [[] d|e d| |]; try done; cbn [when negb].
    + unfold mbind, M_bind. rewrite Hg. by destruct (file2lockQueue_map s !! f).
    + unfold reply_err, mbind, M_bind. by rewrite reply_run.
  - intros [] d e s'; cbn [when negb]; [|done]. unfold mbind, M_bind. rewrite Hg.
    by destruct (file2lockQueue_map s !! f).
Qed.

(** The state in which [acquire], [tryAcquire] and [release] look for the
    handle, and what they find. *)
Lemma locate_run {A} se c arg (k : string -> Z -> FileHandler -> Op A) s : fd_inv s ->
  session2client_map s !! se = Some c -> c <> "" ->
  exists p s1, (client_id ← require_client se; p ← findFd stale se arg; fd ← deref stale p; k client_id p fd) s =
    k c p arg s1 /\ heap s1 !! p = Some arg /\ fd_inv s1 /\ rest s1 = rest s.
Proof.
  intros Hs Hc Hne. destruct (findFd_run stale se arg s Hs) as (p & s1 & Hf & Hi & Hh & _ & _ & Hr & _).
  exists p, s1. split; [|done]. rewrite (bind_Ret _ _ _ _ _ (require_client_run se c s Hc Hne)).
  by rewrite (bind_Ret _ _ _ _ _ Hf), (bind_Ret _ _ _ _ _ (deref_live stale p _ s1 Hh)).
Qed.

(** A handler's final state, as a change [g] of the initial one. *)
Lemma returns_change s s1 d l (g : Api D -> Api D) : fd_inv s1 -> rest s1 = rest s ->
  (forall x, fd_inv x -> fd_inv (g x)) -> (forall x y, maps x = maps y -> maps (g x) = maps (g y)) ->
  (forall x, db (g x) = db x) -> (forall x, out (g x) = out x) -> (forall x, ub (g x) = ub x) ->
  returns (Ret tt (emit l (g (set_db d s1)))) d (out s ++ l) (maps (g s)) (ub s).
Proof.
  intros Hi Hr Gi Gm Gd Go Gu. apply rest_split in Hr as (Hm & Hd & Hu & Ho). eexists. split; [done|].
  split_and!; [exact (Gi (set_db d s1) Hi)| | | |]; simpl.
  - by rewrite Gd.
  - by rewrite Go, <-Ho.
  - by apply Gm.
  - by rewrite Gu.
Qed.

Lemma maps_fields x y : maps x = maps y ->
  session2client_map x = session2client_map y /\ file2lockQueue_map x = file2lockQueue_map y /\
  client2heldLock_map x = client2heldLock_map y /\ client2ephemeral_map x = client2ephemeral_map y /\
  file2lockChange_map x = file2lockChange_map y /\ file2contentChange_map x = file2contentChange_map y.
Proof. unfold maps. by intros [=]. Qed.

Ltac change_maps :=
  try done; intros ?x ?y (E1 & E2 & E3 & E4 & E5 & E6)%maps_fields; unfold maps; simpl;
  by rewrite E1, E2, E3, E4, E5, E6.

(** The specification shared by [acquire] and [tryAcquire], which differ in
    what follows a refusal of the database. *)
Definition lock_spec (m : outcome (Api D) unit) (refused : D -> Prop) (c : string) arg se xid s : Prop :=
  let f := fh_file_name arg in
  match db_testAndSetLockOwner f (fh_instance_number arg) c (db s) with
  | Ret true d =>
      match file2lockQueue_map s !! f with
      | Some _ => m = Abort
      | None => returns m d (out s ++ bool_msgs se xid (RB_val true) ++
                  event_msgs (file2lockChange_map s) EV_LOCK_CHANGED f) (maps (hold c f s)) (ub s)
      end
  | Ret false d => refused d
  | Throw _ d => returns m d (out s ++ bool_msgs se xid (RB_errCode PAXOS_ERROR)) (maps s) (ub s)
  | Abort => m = Abort
  | Diverge => m = Diverge
  end.

Lemma lock_spec_intro m (next : Op unit) refused c p arg se xid s s1 : heap s1 !! p = Some arg ->
  fd_inv s1 -> rest s1 = rest s ->
  m = (go ← try_lock stale p arg c se xid; when go next) s1 ->
  (forall d, m = next (set_db d s1) -> refused d) -> lock_spec m refused c arg se xid s.
Proof.
  intros Hh Hi Hr -> Hnext. pose proof (rest_split _ _ Hr) as (Hm & Hd & _).
  apply maps_fields in Hm as (_ & Hq & _ & _ & Hl & _).
  pose proof (try_lock_run p arg c se xid next s1 Hh) as Hrun. cbv zeta in Hrun. rewrite Hd, Hq, Hl in Hrun.
  unfold lock_spec. destruct (db_testAndSetLockOwner _ _ _ _) as [[] d|e d| |].
  - destruct (file2lockQueue_map s !! _); [done|]. rewrite Hrun. apply returns_change; change_maps.
  - by apply Hnext.
  - rewrite Hrun. by apply returns_emit.
  - done.
  - done.
Qed.

(** [acquire] by a session of a known client.  A success of the database
    makes the client a holder, answers [true] and announces the lock change,
    unless sessions are queued for the file, which is a failed assertion; any
    refusal of the database, also because the node does not exist or its
    instance number differs, queues the call without an answer; an exception
    is PAXOS_ERROR. *)
Lemma acquire_spec arg se xid c s : fd_inv s -> session2client_map s !! se = Some c -> c <> "" ->
  let m := acquire stale arg se xid s in
  lock_spec m (fun d => returns m d (out s) (maps (enqueue (fh_file_name arg) se xid s)) (ub s)) c arg se xid s.
Proof.
  intros Hs Hc Hne m. subst m. unfold acquire.
  destruct (locate_run se c arg (fun client_id p fd =>
    waits ← try_lock stale p fd client_id se xid;
    when waits (fd' ← deref stale p;
      index_mod on_file2lockQueue_map [] (fh_file_name fd') (fun q => q ++ [(se, xid)])))
    s Hs Hc Hne) as (p & s1 & Hm & Hh & Hi & Hr). cbv beta in Hm.
  eapply lock_spec_intro; [exact Hh|exact Hi|exact Hr|exact Hm|]. intros d ->.
  rewrite (bind_Ret _ _ _ _ _ (deref_live stale p arg (set_db d s1) Hh)).
  pose proof (returns_change s s1 d [] (enqueue (fh_file_name arg) se xid) Hi Hr) as Hx.
  rewrite emit_nil, app_nil_r in Hx. apply Hx; change_maps.
Qed.

(** [tryAcquire] by a session of a known client: as [acquire], except
    that a refusal of the database is answered [false] at once. *)
Lemma tryAcquire_spec arg se xid c s : fd_inv s -> session2client_map s !! se = Some c -> c <> "" ->
  let m := tryAcquire stale arg se xid s in
  lock_spec m (fun d => returns m d (out s ++ bool_msgs se xid (RB_val false)) (maps s) (ub s)) c arg se xid s.
Proof.
  intros Hs Hc Hne m. subst m. unfold tryAcquire.
  destruct (locate_run se c arg (fun client_id p fd =>
    refused ← try_lock stale p fd client_id se xid; when refused (reply_ok se xid false))
    s Hs Hc Hne) as (p & s1 & Hm & Hh & Hi & Hr). cbv beta in Hm.
  eapply lock_spec_intro; [exact Hh|exact Hi|exact Hr|exact Hm|]. intros d ->.
  unfold reply_ok. rewrite reply_run. by apply returns_emit.
Qed.

Lemma unhold_run c f s :
  (index_mod on_client2heldLock_map ∅ c (fun X => X ∖ {[f]}) ;;
   erase_if_empty on_client2heldLock_map ∅ set_empty c) s = Ret tt (unhold c f s).
Proof.
  unfold index_mod, erase_if_empty, modify, mbind, M_bind. f_equal. unfold unhold, on_client2heldLock_map. simpl.
  f_equal. rewrite !lookup_insert_eq. simpl. rewrite ?lookup_insert_eq. simpl. rewrite ?insert_insert_eq.
  destruct (set_empty _); [|done]. by rewrite delete_insert_eq.
Qed.

(** [grant_next] hands the lock to the head of the queue. *)
Definition granted (f : string) s : option (list output * (Api D -> Api D)) :=
  match file2lockQueue_map s !! f with
  | None => Some ([], id)
  | Some [] => None
  | Some ((se, xid) :: q) =>
      match session2client_map s !! se with
      | Some c => if bool_decide (c = "") then None
                  else Some (bool_msgs se xid (RB_val true), fun x => hold c f (requeue f q x))
      | None => None
      end
  end.

Lemma grant_run f s : grant_next f s =
  match granted f s with Some (l, g) => Ret tt (emit l (g s)) | None => Abort end.
Proof.
  unfold grant_next, granted. rewrite (bind_Ret (gets _) _ s (file2lockQueue_map s !! f) s) by done.
  destruct (file2lockQueue_map s !! f) as [[|[se xid] q]|] eqn:Hq; [done| |by rewrite emit_nil].
  rewrite (bind_Ret (modify _) _ s tt (on_file2lockQueue_map <[f := q]> s)) by done.
  unfold index at 1, mbind at 1, M_bind at 1. simpl session2client_map.
  destruct (session2client_map s !! se) as [c|]; [|done]. case_bool_decide; [by subst|].
  set (s1 := on_file2lockQueue_map _ s). 
  rewrite (bind_Ret (cassert _) _ s1 tt s1) by done.
  rewrite (bind_Ret (index_mod _ _ _ _) _ s1 tt (hold c f s1)) by done.
  unfold reply_ok. rewrite (bind_Ret _ _ _ _ _ (reply_run se xid _ _)).
  unfold requeue. destruct (list_empty q); cbn [when]; [|done]. unfold modify, s1, emit, hold. simpl. f_equal.
  unfold on_file2lockQueue_map, on_client2heldLock_map, on_out. simpl. by rewrite delete_insert_eq.
Qed.

Lemma granted_maps f s s' : session2client_map s' = session2client_map s /\
  file2lockQueue_map s' = file2lockQueue_map s -> granted f s' = granted f s.
Proof. intros [H1 H2]. unfold granted. by rewrite H1, H2. Qed.

Lemma granted_change f s l g : granted f s = Some (l, g) ->
  (forall x, fd_inv x -> fd_inv (g x)) /\ (forall x y, maps x = maps y -> maps (g x) = maps (g y)) /\
  (forall x, db (g x) = db x) /\ (forall x, out (g x) = out x) /\ (forall x, ub (g x) = ub x) /\
  (forall x, file2lockChange_map (g x) = file2lockChange_map x) /\
  (forall x k, g (emit k x) = emit k (g x)).
Proof.
  unfold granted. destruct (file2lockQueue_map s !! f) as [[|[se xid] q]|]; [done| |].
  - destruct (session2client_map s !! se) as [c|]; [|done]. case_bool_decide; [done|].
    intros [= <- <-]. split_and!; change_maps.
  - intros [= <- <-]. by split_and!.
Qed.

(** [release] by a session of a known client.  Whoever holds the lock, a
    success of the database drops the caller's hold, answers [true], hands
    the lock to the first queued session (its acquire is answered [true]) and
    then announces the lock change; the rest of the queue keeps its order.
    The database is not told of the new holder.  A refusal is FS_FAIL, an
    exception PAXOS_ERROR. *)
Lemma release_spec arg se xid c s : fd_inv s -> session2client_map s !! se = Some c -> c <> "" ->
  let f := fh_file_name arg in
  let m := release stale arg se xid s in
  match db_resetLockOwner f (fh_instance_number arg) (db s) with
  | Ret true d =>
      match granted f s with
      | Some (l, g) =>
          returns m d (out s ++ bool_msgs se xid (RB_val true) ++ l ++
            event_msgs (file2lockChange_map s) EV_LOCK_CHANGED f) (maps (g (unhold c f s))) (ub s)
      | None => m = Abort
      end
  | Ret false d => returns m d (out s ++ bool_msgs se xid (RB_errCode FS_FAIL)) (maps s) (ub s)
  | Throw _ d => returns m d (out s ++ bool_msgs se xid (RB_errCode PAXOS_ERROR)) (maps s) (ub s)
  | Abort => m = Abort
  | Diverge => m = Diverge
  end.
Proof.
  intros Hs Hc Hne f m. subst m. unfold release.
  destruct (locate_run se c arg (fun client_id p fd =>
    was_reset ← db_stage (db_resetLockOwner (fh_file_name fd) (fh_instance_number fd))
      (reply_err se xid FS_FAIL) (reply_err se xid PAXOS_ERROR);
    when was_reset
      (index_mod on_client2heldLock_map ∅ client_id (fun X => X ∖ {[fh_file_name fd]}) ;;
       erase_if_empty on_client2heldLock_map ∅ set_empty client_id ;;
       reply_ok se xid true ;;
       grant_next (fh_file_name fd) ;;
       sendLockChangeEvent (fh_file_name fd)))
    s Hs Hc Hne) as (p & s1 & Hm & Hh & Hi & Hr). cbv beta in Hm.
  unfold db_stage in Hm at 1. rewrite Hm. clear Hm. fold f. pose proof (rest_split _ _ Hr) as (Hmaps & Hd & _).
  change (try_catch _ _) with (db_stage (db_resetLockOwner f (fh_instance_number arg))
    (reply_err se xid FS_FAIL) (reply_err se xid PAXOS_ERROR)).
  rewrite db_stage_run, Hd.
  destruct (db_resetLockOwner _ _ _) as [[] d|e d| |]; [|by apply returns_emit|by apply returns_emit|done|done].
  rewrite (bind_pair_Ret _ _ (fun _ => _) _ _ (unhold_run c f (set_db d s1))).
  unfold reply_ok. rewrite (bind_Ret _ _ _ _ _ (reply_run se xid _ _)).
  unfold mbind, M_bind. rewrite grant_run.
  rewrite (granted_maps f s (emit _ (unhold c f (set_db d s1))))
    by (simpl; apply maps_fields in Hmaps as (-> & -> & _); done).
  destruct (granted f s) as [[l g]|] eqn:Hg; [|done].
  destruct (granted_change f s l g Hg) as (G1 & G2 & G3 & G4 & G5 & G6 & G7).
  unfold sendLockChangeEvent. rewrite send_events_run, G7, !emit_emit. simpl. rewrite G6. simpl.
  apply maps_fields in Hmaps as Hmf. destruct Hmf as (_ & _ & _ & _ & -> & _).
  apply (returns_change s s1 d _ (fun x => g (unhold c f x))); try done.
  - intros x Hx. by apply G1.
  - intros x y Hxy. apply G2. revert x y Hxy. unfold unhold. change_maps.
  - intros x. by rewrite G3.
  - intros x. by rewrite G4.
  - intros x. by rewrite G5.
Qed.
End spec.
