(* ===== verification/CloseSpec.v ===== *)
(** * What closing a handle does

    The functional specification of [fileClose] of [ServerLogic] for a file
    that is not an ephemeral file of the client, on every branch: the release of a
    held lock, the queue of the file, and the event registrations. *)

From S2P Require Import Prelude Names ServerTypes DbApi ServerLogic LogicInv LogicSpec.

Section close.
Context {D : Type} `{!DbApi D} (stale : Z -> FileHandler).
Implicit Types s : Api D.

(** The map of queues after [clear_lock_queue]; [None] when its loop does not
    end. *)
Definition queue_closed (f : string) (se : Z) (m : gmap string (list (Z * Z))) : option (gmap string (list (Z * Z))) :=
  match m !! f with
  | None => Some m
  | Some [] => Some (delete f m)
  | Some ((first, _) :: rest) =>
      if first =? se then Some (if list_empty rest then delete f m else m) else None
  end.

(** A session without its registrations for a file. *)
Definition unregistered (f : string) (se : Z) (m : gmap string (list Z)) : gmap string (list Z) :=
  match m !! f with
  | None => m
  | Some l => if list_empty (list_remove se l) then delete f m else <[f := list_remove se l]> m
  end.

Definition closed (f : string) (se : Z) (c : string) (q : gmap string (list (Z * Z))) s : Api D :=
  on_file2contentChange_map (unregistered f se) (on_file2lockChange_map (unregistered f se)
    (on_file2lockQueue_map (fun _ => q)
      (on_client2ephemeral_map (fun m => match m !! c with Some _ => m | None => <[c := ∅]> m end) s))).

Lemma clear_queue_run f se s : clear_lock_queue f se s =
  match queue_closed f se (file2lockQueue_map s) with
  | Some q => Ret tt (on_file2lockQueue_map (fun _ => q) s)
  | None => Diverge
  end.
Proof.
  unfold clear_lock_queue, queue_closed. rewrite (bind_Ret (gets _) _ s (file2lockQueue_map s !! f) s) by done.
  destruct (file2lockQueue_map s !! f) as [[|[first x] rest]|]; [done| |by destruct s].
  destruct (first =? se); [|done]. rewrite bind_ret_l. destruct (list_empty rest); [done|]. by destruct s.
Qed.

Lemma unregistered_run f se (m : gmap string (list Z)) : is_Some (m !! f) ->
  (let m := <[f := list_remove se (default [] (m !! f))]> m in
   let m := <[f := default [] (m !! f)]> m in
   if list_empty (default [] (m !! f)) then delete f m else m) = unregistered f se m.
Proof.
  intros [l Hl]. unfold unregistered. cbv zeta. rewrite Hl. cbn [default from_option id].
  rewrite !lookup_insert_eq. cbn [default from_option id]. rewrite ?lookup_insert_eq. cbn [default from_option id].
  rewrite !insert_insert_eq. destruct (list_empty _); [|done]. by rewrite delete_insert_eq.
Qed.

Lemma clear_lock_events_run f se s :
  clear_events file2lockChange_map on_file2lockChange_map f se s = Ret tt (on_file2lockChange_map (unregistered f se) s).
Proof.
  unfold clear_events. rewrite (bind_Ret (gets _) _ s (file2lockChange_map s !! f) s) by done.
  case_bool_decide as Hf; cbn [when].
  - unfold index_mod, erase_if_empty, modify, mbind, M_bind. f_equal. unfold on_file2lockChange_map. simpl.
    f_equal. by apply (unregistered_run f se (file2lockChange_map s)).
  - unfold on_file2lockChange_map, unregistered. destruct (file2lockChange_map s !! f) eqn:E; [by destruct Hf|]. by destruct s.
Qed.
Lemma clear_content_events_run f se s :
  clear_events file2contentChange_map on_file2contentChange_map f se s =
  Ret tt (on_file2contentChange_map (unregistered f se) s).
Proof.
  unfold clear_events. rewrite (bind_Ret (gets _) _ s (file2contentChange_map s !! f) s) by done.
  case_bool_decide as Hf; cbn [when].
  - unfold index_mod, erase_if_empty, modify, mbind, M_bind. f_equal. unfold on_file2contentChange_map. simpl.
    f_equal. by apply (unregistered_run f se (file2contentChange_map s)).
  - unfold on_file2contentChange_map, unregistered.
    destruct (file2contentChange_map s !! f) eqn:E; [by destruct Hf|]. by destruct s.
Qed.

(** The last part of the handler, on a live handle of the session. *)
Lemma close_handle_run p arg se xid s : fd_inv s -> heap s !! p = Some arg -> p ∈ lst (session2fd_map s) se ->
  let f := fh_file_name arg in
  match queue_closed f se (file2lockQueue_map s) with
  | None => close_handle stale p se xid s = Diverge
  | Some q => exists s', close_handle stale p se xid s = Ret tt s' /\ fd_inv s' /\
      rest s' = rest (emit (bool_msgs se xid (RB_val true))
        (on_file2contentChange_map (unregistered f se) (on_file2lockChange_map (unregistered f se)
          (on_file2lockQueue_map (fun _ => q) s))))
  end.
Proof.
  intros Hi Hh Hp f. unfold close_handle. rewrite (bind_Ret _ _ _ _ _ (deref_live stale p arg s Hh)). cbv zeta. fold f.
  match goal with |- context [erase_if_empty on_session2fd_map [] list_empty se ≫= (fun _ => ?k)] =>
    destruct (untable_run p arg se s k Hi Hh Hp) as (s1 & Hrun & Hpend & Hr) end.
  fold f in Hrun. rewrite Hrun. clear Hrun.
  pose proof (clear_queue_run f se s1) as Hq.
  assert (file2lockQueue_map s1 = file2lockQueue_map s) as Eq by (injection Hr; congruence). rewrite Eq in Hq.
  destruct (queue_closed f se (file2lockQueue_map s)) as [q|].
  2: { unfold mbind, M_bind. by rewrite Hq. }
  rewrite (bind_Ret _ _ _ _ _ Hq), (bind_Ret _ _ _ _ _ (clear_lock_events_run _ _ _)),
    (bind_Ret _ _ _ _ _ (clear_content_events_run _ _ _)).
  match goal with |- context [(delete_fd p ;; _) ?s2] =>
    assert (delete_fd p s2 = Ret tt (on_heap (delete p) s2)) as Hd
      by (unfold delete_fd; simpl; by rewrite (proj1 Hpend)) end.
  rewrite (bind_Ret _ _ _ _ _ Hd). unfold reply_ok. rewrite reply_run. eexists. split; [done|]. split.
  - exact (proj2 (proj2 Hpend)).
  - unfold rest in *. injection Hr. intros. simpl. repeat (f_equal; try congruence).
Qed.

(** How the handler ends from the state [s] in which the lock is not held. *)
Definition finishes (m : outcome (Api D) unit) (arg : FileHandler) (se xid : Z) (c : string) s : Prop :=
  let f := fh_file_name arg in
  match queue_closed f se (file2lockQueue_map s) with
  | None => m = Diverge
  | Some q => returns m (db s) (out s ++ bool_msgs se xid (RB_val true)) (maps (closed f se c q s)) (ub s)
  end.

Lemma closed_maps f se c q x y : maps x = maps y -> maps (closed f se c q x) = maps (closed f se c q y).
Proof.
  intros (E1 & E2 & E3 & E4 & E5 & E6)%maps_fields. unfold maps. simpl. by rewrite E1, E3, E4, E5, E6.
Qed.

Lemma finishes_ext m arg se xid c x y : maps x = maps y -> db x = db y -> out x = out y -> ub x = ub y ->
  finishes m arg se xid c x -> finishes m arg se xid c y.
Proof.
  intros Hm Hd Ho Hu. unfold finishes. pose proof Hm as (_ & Hq & _)%maps_fields. rewrite Hq.
  destruct (queue_closed _ _ _) as [q|]; [|done]. by rewrite Hd, Ho, Hu, (closed_maps _ _ _ _ _ _ Hm).
Qed.

Lemma close_free_run p arg se xid c s : fd_inv s -> heap s !! p = Some arg -> p ∈ lst (session2fd_map s) se ->
  fh_file_name arg ∉ default ∅ (client2ephemeral_map s !! c) ->
  finishes ((ephemeral ← index client2ephemeral_map on_client2ephemeral_map ∅ c;
    fd' ← deref stale p;
    if bool_decide (fh_file_name fd' ∈ ephemeral) then
      deleted ← try_catch (fileDelete stale fd' se INTERNAL ;; mret true)
        (fun _ => reply_err se xid PAXOS_ERROR ;; mret false);
      when deleted (reply_ok se xid true)
    else close_handle stale p se xid) s) arg se xid c s.
Proof.
  intros Hi Hh Hp He.
  set (s1 := on_client2ephemeral_map (fun m => match m !! c with Some _ => m | None => <[c := ∅]> m end) s).
  assert (index client2ephemeral_map on_client2ephemeral_map ∅ c s = Ret (default ∅ (client2ephemeral_map s !! c)) s1) as Hx.
  { unfold index, s1, on_client2ephemeral_map. destruct (client2ephemeral_map s !! c); [|done]. by destruct s. }
  rewrite (bind_Ret _ _ _ _ _ Hx), (bind_Ret _ _ _ _ _ (deref_live stale p arg s1 Hh)), bool_decide_false by done.
  pose proof (close_handle_run p arg se xid s1 Hi Hh Hp) as Hrun. cbv zeta in Hrun. unfold finishes.
  change (file2lockQueue_map s1) with (file2lockQueue_map s) in Hrun.
  destruct (queue_closed _ _ _) as [q|]; [|exact Hrun]. destruct Hrun as (s' & -> & Hi' & Hr).
  apply rest_split in Hr as (Hm & Hd & Hu & Ho). exists s'. split_and!; [done|exact Hi'|exact Hd|exact Ho|exact Hm|exact Hu].
Qed.

Lemma granted_ephemeral f s l g x : granted f s = Some (l, g) -> client2ephemeral_map (g x) = client2ephemeral_map x.
Proof.
  unfold granted. destruct (file2lockQueue_map s !! f) as [[|[se xid] q]|]; [done| |by intros [= <- <-]].
  destruct (session2client_map s !! se) as [c|]; [|done]. case_bool_decide; [done|]. by intros [= <- <-].
Qed.

(** Closing a handle on a file that is not an ephemeral file of the client.
    When the client holds the lock, it is released first, whatever other handles
    the client has on the file, and goes to the first waiting session; the
    session loses its registrations for the file, whatever other handles it has
    on it; the call is answered [true].  It does not return when another
    session is the first to wait for the lock. *)
Lemma fileClose_spec arg se xid c s : fd_inv s -> session2client_map s !! se = Some c -> c <> "" ->
  fh_file_name arg ∉ default ∅ (client2ephemeral_map s !! c) ->
  let f := fh_file_name arg in
  let m := fileClose stale arg se xid s in
  if bool_decide (f ∈ default ∅ (client2heldLock_map s !! c)) then
    match db_resetLockOwner f (fh_instance_number arg) (db s) with
    | Ret true d =>
        match granted f s with
        | Some (l, g) => finishes m arg se xid c
            (emit (l ++ event_msgs (file2lockChange_map s) EV_LOCK_CHANGED f) (g (unhold c f (set_db d s))))
        | None => m = Abort
        end
    | Ret false d | Throw _ d => finishes m arg se xid c (set_db d s)
    | Abort => m = Abort
    | Diverge => m = Diverge
    end
  else finishes m arg se xid c s.
Proof.
  intros Hs Hc Hne He f. unfold fileClose. rewrite (bind_Ret _ _ _ _ _ (require_client_run se c s Hc Hne)).
  destruct (findFd_run stale se arg s Hs) as (p & s1 & Hf & Hi & Hh & Hp & _ & Hr & _).
  rewrite (bind_Ret _ _ _ _ _ Hf), (bind_Ret _ _ _ _ _ (deref_live stale p arg s1 Hh)).
  rewrite (bind_Ret (gets _) _ s1 (client2heldLock_map s1 !! c) s1) by done. fold f.
  apply rest_split in Hr as (Hm & Hd & Hu & Ho).
  pose proof Hm as (Ec & Eq & Eh & Ee & El & _)%maps_fields. rewrite Eh.
  replace (match client2heldLock_map s !! c with Some X => bool_decide (f ∈ X) | None => false end)
    with (bool_decide (f ∈ default ∅ (client2heldLock_map s !! c)))
    by (destruct (client2heldLock_map s !! c); [done|by rewrite bool_decide_false]).
  case_bool_decide as Hheld; cbn [when].
  2: { rewrite bind_ret_l. apply (finishes_ext _ _ _ _ _ s1); [done..|]. apply close_free_run; [done..|]. by rewrite Ee. }
  pose proof (release_spec stale arg se INTERNAL c s1 Hi ltac:(by rewrite Ec) Hne) as Hrel. cbv zeta in Hrel. fold f in Hrel.
  pose proof (safe_release stale arg se INTERNAL s1 Hi) as Hsafe. rewrite Hd, El, (granted_maps f s s1 (conj Ec Eq)) in Hrel.
  assert (forall s2 x, release stale arg se INTERNAL s1 = Ret tt s2 -> fd_inv s2 -> db s2 = db x -> out s2 = out x ->
    maps s2 = maps x -> ub s2 = ub x -> client2ephemeral_map x = client2ephemeral_map s ->
    finishes ((release stale arg se INTERNAL ;; ephemeral ← index client2ephemeral_map on_client2ephemeral_map ∅ c;
      fd' ← deref stale p;
      if bool_decide (fh_file_name fd' ∈ ephemeral) then
        deleted ← try_catch (fileDelete stale fd' se INTERNAL ;; mret true)
          (fun _ => reply_err se xid PAXOS_ERROR ;; mret false);
        when deleted (reply_ok se xid true)
      else close_handle stale p se xid) s1) arg se xid c x) as Hgo.
  { intros s2 x E2 I2 D2 O2 M2 U2 EE. rewrite (bind_Ret _ _ _ _ _ E2). rewrite E2 in Hsafe.
    destruct Hsafe as (_ & [Hgh Hgp] & _). apply (finishes_ext _ _ _ _ _ s2); [done..|].
    apply close_free_run; [done|by eapply lookup_weaken|by apply Hgp|].
    apply maps_fields in M2 as (_ & _ & _ & -> & _). by rewrite EE. }
  destruct (db_resetLockOwner _ _ _) as [[] d|e d| |].
  - destruct (granted f s) as [[l g]|] eqn:Hg.
    2: { unfold mbind, M_bind. by rewrite Hrel. }
    destruct Hrel as (s2 & E2 & I2 & D2 & O2 & M2 & U2).
    destruct (granted_change f s l g Hg) as (G1 & G2 & G3 & G4 & G5 & G6 & G7).
    assert (bool_msgs se INTERNAL (RB_val true) = []) as Hno by done. rewrite Hno in O2.
    assert (maps (unhold c f s1) = maps (unhold c f (set_db d s))) as Hx.
    { pose proof Hm as (E1' & E2' & E3' & E4' & E5' & E6')%maps_fields. unfold maps. cbn.
      by rewrite E1', E2', E3', E4', E5', E6'. }
    apply (Hgo s2); [exact E2|exact I2|by rewrite D2; cbn; rewrite G3| | | |].
    + cbn. by rewrite O2, G4, Ho.
    + rewrite M2. exact (G2 _ _ Hx).
    + rewrite U2, Hu. cbn. by rewrite G5.
    + cbn. by rewrite (granted_ephemeral f s l g _ Hg).
  - destruct Hrel as (s2 & E2 & I2 & D2 & O2 & M2 & U2). change (bool_msgs _ _ _) with (@nil output) in O2.
    rewrite app_nil_r in O2. apply (Hgo s2); [done|done|done|by rewrite O2, Ho|by rewrite M2|by rewrite U2, Hu|done].
  - destruct Hrel as (s2 & E2 & I2 & D2 & O2 & M2 & U2). change (bool_msgs _ _ _) with (@nil output) in O2.
    rewrite app_nil_r in O2. apply (Hgo s2); [done|done|done|by rewrite O2, Ho|by rewrite M2|by rewrite U2, Hu|done].
  - unfold mbind, M_bind. by rewrite Hrel.
  - unfold mbind, M_bind. by rewrite Hrel.
Qed.
End close.
