(* ===== verification/Backstore.v ===== *)
(** * The database behind Paxos

    [server/serverdb_backstore.cc] runs a marshaled call on the database of a
    replica; [server/serverdb_paxos.cc] marshals the calls of the server logic,
    has Paxos execute them and unmarshals the results.  Paxos itself is the
    class [PaxosUser]. *)

From S2P Require Import Prelude Xdr ServerPaxosTypes ServerTypes PaxosTypes ServerDB DbApi.

(** [xdr_from_msg] on a message allocated for [b]. *)
Definition decode {S A} `{!Xdr A} (b : bytes) : M S A :=
  match alloc_len (blen b) with
  | None => abort
  | Some _ => of_msg (xdr_from_msg b)
  end.

(** The data of [xdr_to_msg(a)]. *)
Definition encode {S A} `{!Xdr A} (a : A) : M S bytes :=
  m ← of_msg (xdr_to_msg a); mret (m_data m).

(** ** [ServerdbBackstore] *)

Section backstore.
Context `{sqlite : !Sqlite} (str_hash : string -> Z).
(** The local [uint64_t instance_number] is not initialised. *)
Context (junk : Z).

Definition read_meta (r : option read_result) : NewMetaData :=
  match r with
  | Some m => mkNewMetaData (r_instance_number m) (r_content_generation_number m)
                (r_lock_generation_number m) (r_file_content_checksum m) (r_is_directory m)
  | None => mkNewMetaData 0 0 0 0 false
  end.

(** The [switch] of [Run]; the result fields of instance numbers are 32-bit. *)
Definition run_call (param : ServerPaxosParam) : M Db ServerPaxosResult :=
  match param with
  | PCheckAndCreate x =>
      r ← checkAndCreate str_hash (ccp_file_name x) (ccp_is_dir x);
      mret (RCheckAndCreate (mkCheckAndCreateResult (wrap32 (default junk r.2)) r.1))
  | PCheckAndOpen x =>
      r ← checkAndOpen (cop_file_name x);
      mret (RCheckAndOpen (mkCheckAndOpenResult (wrap32 (default junk r.2)) r.1))
  | PCheckAndDelete x =>
      r ← checkAndDelete str_hash (cdp_file_name x) (cdp_instance_number x);
      mret (RCheckAndDelete (mkCheckAndDeleteResult r))
  | PCheckAndRead x =>
      r ← checkAndRead (crp_file_name x) (crp_instance_number x);
      mret (RCheckAndRead (mkCheckAndReadResult (default "" (r_content <$> r)) (read_meta r)
                             (bool_decide (is_Some r))))
  | PCheckAndUpdate x =>
      r ← checkAndUpdate str_hash (cup_file_name x) (cup_instance_number x) (cup_content x);
      mret (RCheckAndUpdate (mkCheckAndUpdateResult r))
  | PTestAndSetLockOwner x =>
      r ← testAndSetLockOwner (tsp_file_name x) (tsp_instance_number x) (tsp_client_id x);
      mret (RTestAndSetLockOwner (mkTestAndSetLockOwnerResult r))
  | PResetLockOwner x =>
      r ← resetLockOwner (rlp_file_name x) (rlp_instance_number x);
      mret (RResetLockOwner (mkResetLockOwnerResult r))
  | PGetStates _ =>
      (* getStates is called twice on the same list *)
      l1 ← getStates;
      l2 ← getStates;
      mret (RGetStates (mkGetStatesResult ((fun p => mkkey_value p.1 p.2) <$> l1 ++ l2)))
  end.

Definition Run (input : bytes) : M Db bytes :=
  param ← decode input;
  result ← run_call param;
  encode result.
End backstore.

(** ** [ServerDBPaxos] *)

(** What [ServerDBPaxos] uses of its [PaxosLib]. *)
Class PaxosUser (P : Type) := {
  px_execute : execute_arg -> M P execute_res;
  px_isLeaderAndInitialized : M P bool;
}.

(** Reading the arm of a union. *)
Definition expect {S A} (o : option A) : M S A :=
  match o with Some a => mret a | None => throw exn_wrong_union end.

Section paxosdb.
Context {P : Type} `{!PaxosUser P}.

Definition execute_arg_of (request : bytes) : execute_arg :=
  mkexecute_arg "" 0 (mkviewid_t 0 "") request.

Definition runPaxos (param : ServerPaxosParam) : M P ServerPaxosResult :=
  request ← encode param;
  result ← px_execute (execute_arg_of request);
  match result with
  | ER_reply reply => decode reply
  | ER_viewinfo _ => throw (exn_runtime "Not the Paxos leader.")
  end.

Definition meta_of (m : NewMetaData) : MetaData :=
  mkMetaData (nmd_instance_number m) (nmd_content_generation_number m)
    (nmd_lock_generation_number m) (nmd_file_content_checksum m) (nmd_is_directory m).

#[export] Instance ServerDBPaxos : DbApi P := {|
  db_checkAndCreate f is_dir :=
    r ← runPaxos (PCheckAndCreate (mkCheckAndCreateParam f is_dir));
    x ← expect (check_and_create_result r);
    mret (ccr_success x, ccr_instance_number x);
  db_checkAndOpen f :=
    r ← runPaxos (PCheckAndOpen (mkCheckAndOpenParam f));
    x ← expect (check_and_open_result r);
    mret (cor_success x, cor_instance_number x);
  db_checkAndDelete f inst :=
    r ← runPaxos (PCheckAndDelete (mkCheckAndDeleteParam f (wrap32 inst)));
    x ← expect (check_and_delete_result r);
    mret (cdr_success x);
  db_checkAndRead f inst :=
    r ← runPaxos (PCheckAndRead (mkCheckAndReadParam f (wrap32 inst)));
    x ← expect (check_and_read_result r);
    mret (crr_success x, crr_content x, meta_of (crr_meta x));
  db_checkAndUpdate f inst content :=
    r ← runPaxos (PCheckAndUpdate (mkCheckAndUpdateParam f (wrap32 inst) content));
    x ← expect (check_and_update_result r);
    mret (cur_success x);
  db_testAndSetLockOwner f inst client_id :=
    r ← runPaxos (PTestAndSetLockOwner (mkTestAndSetLockOwnerParam f (wrap32 inst) client_id));
    x ← expect (test_and_set_lock_owner_result r);
    mret (tsr_success x);
  db_resetLockOwner f inst :=
    r ← runPaxos (PResetLockOwner (mkResetLockOwnerParam f (wrap32 inst)));
    x ← expect (reset_lock_owner_result r);
    mret (rlr_success x);
  db_getStates :=
    r ← runPaxos (PGetStates (mkGetStatesParam false));
    x ← expect (get_states_result r);
    mret ((fun e => (kv_key e, kv_value e)) <$> gsr_list x);
  db_isLeaderAndInitialized := px_isLeaderAndInitialized;
|}.
End paxosdb.
