(* ===== verification/Paxos.v ===== *)
(** * The replica group: [src/paxos]

    The processes of a group, each with its [ReplicaState], its
    [ReplicaClientSet] and its backing store, and the calls between them:
    [ExecuteReplicateEngine], [ChangeViewEngine], [paxos_v1_server] and
    [paxos_client_v1_server].  A remote call runs its handler in the state of
    the called process before the caller goes on; what happens at the same time
    elsewhere is not modelled, apart from changes of the network and of the set
    of running processes between two calls.  [Abort] is a failed assertion in
    some process of the group, after which the model does not follow the
    others. *)

From S2P Require Import Prelude Xdr PaxosTypes Backstore.

(** ** State *)

(** [vc_state::_mode_t] *)
Definition VC_ACTIVE : Z := 0.
Definition VC_MANAGER : Z := 1.
Definition VC_UNDERLING : Z := 2.

(** What every replica reads from the configuration file: for each rank the
    address for the other replicas and the address for clients. *)
Record Config := mkConfig { quota_ : Z; addresses : list (string * string) }.

(** A running process: [mode], [view], [isLeader] and [isInitialized] of its
    [ReplicaState], the data of its backing store, the client locks of its
    [ReplicaClientSet] that are held, and the calls of [replicate] that ran off
    the end of the function without a return value. *)
Record Replica (S : Type) := mkReplica {
  mode : Z;
  view : view_t;
  isLeader : bool;
  isInitialized : bool;
  store : S;
  locked : gset nat;
  no_return : nat;
}.
Arguments mkReplica {S}.
Arguments mode {S}.
Arguments view {S}.
Arguments isLeader {S}.
Arguments isInitialized {S}.
Arguments store {S}.
Arguments locked {S}.
Arguments no_return {S}.

Section updates.
Context {S : Type}.
Implicit Types r : Replica S.
Definition set_mode (m : Z) r : Replica S :=
  mkReplica m (view r) (isLeader r) (isInitialized r) (store r) (locked r) (no_return r).
Definition set_view (v : view_t) r : Replica S :=
  mkReplica (mode r) v (isLeader r) (isInitialized r) (store r) (locked r) (no_return r).
Definition set_leader (b : bool) r : Replica S :=
  mkReplica (mode r) (view r) b (isInitialized r) (store r) (locked r) (no_return r).
Definition set_initialized (b : bool) r : Replica S :=
  mkReplica (mode r) (view r) (isLeader r) b (store r) (locked r) (no_return r).
Definition set_store (s : S) r : Replica S :=
  mkReplica (mode r) (view r) (isLeader r) (isInitialized r) s (locked r) (no_return r).
Definition set_locked (X : gset nat) r : Replica S :=
  mkReplica (mode r) (view r) (isLeader r) (isInitialized r) (store r) X (no_return r).
Definition run_off r : Replica S :=
  mkReplica (mode r) (view r) (isLeader r) (isInitialized r) (store r) (locked r) (Datatypes.S (no_return r)).
End updates.

Definition no_view : view_t := mkview_t (mkviewid_t 0 "") (mkcohort_t "" "") [].

(** The constructor of [ReplicaState], over the data of its backing store. *)
Definition new_replica {S} (d : S) : Replica S := mkReplica VC_MANAGER no_view false false d ∅ 0.

(** The running processes, by rank. *)
Abbreviation Group S := (gmap nat (Replica S)).

(** [BackStoreInterface::Run].  The other method, [Initialize], calls a
    function that the program registers; it is a parameter below. *)
Class BackStore (S : Type) := bs_Run : bytes -> M S bytes.

(** What a call of [replicate] gives its caller when control runs off the end of
    the function, behind its last statement and without a [return], which C++
    leaves undefined: a result, or [None] when the process stops.  (A compiler
    that builds [res] in the place of the return value returns [res].) *)
Class OffEnd := off_end : option replicate_res.
Definition new_res : replicate_res := mkreplicate_res (mkviewstamp_t (mkviewid_t 0 "") 0).

Section paxos.
Context {S : Type} `{!BackStore S} `{OE : !OffEnd} (cfg : Config).
(** The pairs of ranks between which a connection can be made. *)
Context (net : nat -> nat -> bool).
(** The callback of [Initialize] in the process of the given rank. *)
Context (initialize : nat -> M (Group S) unit).
Abbreviation Op := (M (Group S)).

(** A step of the process of rank [self]; a process that is not running
    takes none. *)
Definition at_rank {A} (self : nat) (m : M (Replica S) A) : Op A := fun g =>
  match g !! self with
  | None => Diverge
  | Some r =>
      match m r with
      | Ret a r' => Ret a (<[self := r']> g)
      | Throw e r' => Throw e (<[self := r']> g)
      | Abort => Abort
      | Diverge => Diverge
      end
  end.

(** ** [ReplicaState] *)

Definition getMaxNumClient : nat := length (addresses cfg).
Definition getReplicaAddress (rank_id : nat) : string := default "" (fst <$> addresses cfg !! rank_id).
Definition getClientUseAddress (rank_id : nat) : string := default "" (snd <$> addresses cfg !! rank_id).
(** [None] is the result -1. *)
Definition getClientUseAddressRank (a : string) : option nat :=
  fst <$> list_find (fun p => p.2 = a) (addresses cfg).

(** ** [ReplicaClientSet] *)

(** The ranks of [replica_client_list_]. *)
Definition is_other (self rank_id : nat) : bool :=
  (rank_id <? getMaxNumClient)%nat && negb (rank_id =? self)%nat.

(** A connection to [rank_id] exists after [tryConnect]. *)
Definition connected (self rank_id : nat) (g : Group S) : bool :=
  net self rank_id && bool_decide (is_Some (g !! rank_id)).

(** A lock that is never released. *)
Definition block {A} : Op A := fun _ => Diverge.

(** [getReplicaClient]: whether the result is not null, in which case the lock
    of the client is taken.  A lock that is held already blocks the caller. *)
Definition getReplicaClient (self rank_id : nat) : Op bool :=
  cassert (is_other self rank_id) ;;
  r ← at_rank self (gets id);
  c ← gets (connected self rank_id);
  if bool_decide (rank_id ∈ locked r) then block else
  when c (at_rank self (modify (set_locked ({[rank_id]} ∪ locked r)))) ;;
  mret c.

Definition releaseReplicaClient (self rank_id : nat) : Op unit :=
  cassert (is_other self rank_id) ;;
  at_rank self (modify (fun r => set_locked (locked r ∖ {[rank_id]}) r)).

(** ** Handlers of [paxos_v1_server] *)

(** The view request in a command: the length word is dropped and written
    again. *)
Definition view_request {T} (request : bytes) : M T init_view_request :=
  match alloc_len (wrap64 (blen request - 4)) with
  | None => abort
  | Some _ => of_msg (xdr_from_msg (drop 4 request))
  end.

Definition BackUp (request : bytes) : M (Replica S) unit :=
  zoom store set_store (bs_Run request) ;; mret tt.

Definition replicate (arg : replicate_arg) : M (Replica S) replicate_res :=
  if vs_ts (ra_vs arg) =? 0 then
    request ← view_request (ea_request (ra_arg arg));
    modify (set_leader false) ;;
    modify (set_view (ivq_newview request)) ;;
    mret new_res
  else
    BackUp (ea_request (ra_arg arg)) ;;
    modify run_off ;;  (* no return statement *)
    match off_end with Some v => mret v | None => abort end.

(** [replica_client->replicate(arg)].  The server answers an
    [xdr_runtime_error] of the handler with an error reply, which the client
    throws; any other exception, and a failed assertion, ends the process, so
    that the client reads the end of the stream. *)
Definition call_replicate (rank_id : nat) (arg : replicate_arg) : Op unit := fun g =>
  match g !! rank_id with
  | None => Throw exn_xdr g
  | Some r =>
      match replicate arg r with
      | Ret _ r' => Ret tt (<[rank_id := r']> g)
      | Throw exn_xdr r' => Throw exn_xdr (<[rank_id := r']> g)
      | Throw _ _ | Abort => Throw exn_xdr (delete rank_id g)
      | Diverge => Diverge
      end
  end.

(** ** [ExecuteReplicateEngine] *)

Definition command (ts : Z) (request : bytes) : replicate_arg :=
  mkreplicate_arg (mkviewstamp_t (mkviewid_t 0 "") ts)
    (mkexecute_arg "" 0 (mkviewid_t 0 "") request) (mkviewstamp_t (mkviewid_t 0 "") 0).

(** The loop over the other replicas; an exception leaves the lock held. *)
Definition broadcast (self : nat) (arg : replicate_arg) : Op unit :=
  for_each (seq 0 getMaxNumClient) (fun i =>
    when (negb (i =? self)%nat)
      (c ← getReplicaClient self i;
       when c (call_replicate i arg ;; releaseReplicaClient self i))).

(** [replicateCommand(const init_view_request&)] *)
Definition replicateView (self : nat) (request : init_view_request) : Op unit :=
  message ← of_msg (xdr_to_msg request);
  broadcast self (command 0 (raw_data message)).

(** [replicateCommand(const std::string&)] *)
Definition replicateCommand (self : nat) (request : bytes) : Op bytes :=
  broadcast self (command 1 request) ;;
  at_rank self (zoom store set_store (bs_Run request)).

Definition initializeLeader (self : nat) : Op unit :=
  initialize self ;;
  at_rank self (modify (set_initialized true)).

(** ** [paxos_client_v1_server] *)

Definition execute (self : nat) (arg : execute_arg) : Op execute_res :=
  is_leader ← at_rank self (gets isLeader);
  if negb is_leader then mret (ER_viewinfo (mkexecute_viewinfo (mkviewid_t 0 "") "")) else
  result ← replicateCommand self (ea_request arg);
  mret (ER_reply result).

(** [PaxosLib::isLeaderAndInitialized] *)
Definition isLeaderAndInitialized (self : nat) : Op bool :=
  at_rank self (gets (fun r => isLeader r && isInitialized r)).

(** ** [init_view] and [ChangeViewEngine] *)

(** The view of a replica that takes [rank] for the leader: the other fields
    of the view are not maintained. *)
Definition primary_is (rank : nat) (v : view_t) : view_t :=
  mkview_t (vw_vid v) (mkcohort_t (getReplicaAddress rank) (getClientUseAddress rank)) (vw_backups v).

Definition become_leader (self : nat) : Op unit :=
  at_rank self (modify (fun r => set_mode VC_ACTIVE (set_view (primary_is self (view r)) (set_leader true r)))).

(** Broadcasting the view, then the callback. *)
Definition announce (self : nat) : Op unit :=
  v ← at_rank self (gets view);
  replicateView self (mkinit_view_request v (mkviewstamp_t (mkviewid_t 0 "") 0)) ;;
  initializeLeader self.

(** [paxos_v1_server::init_view], whose result is [succeed]. *)
Definition init_view (self : nat) : Op bool :=
  leader ← at_rank self (gets isLeader);
  if (leader : bool) then mret false else
  become_leader self ;;
  announce self ;;
  mret true.

Definition isLeaderDown (self : nat) : Op bool :=
  r ← at_rank self (gets id);
  if isLeader r then mret false else
  let addr := co_addr (vw_primary (view r)) in
  if bool_decide (addr = "") then mret true else
  match getClientUseAddressRank addr with
  | None => abort
  | Some leader_rank =>
      c ← getReplicaClient self leader_rank;
      when c (releaseReplicaClient self leader_rank) ;;
      mret (negb c)
  end.

(** The loop of [getNewLeaderRank], which stops at the first connection. *)
Fixpoint lower_rank (self : nat) (ranks : list nat) : Op nat :=
  match ranks with
  | [] => mret self
  | i :: ranks =>
      if (i =? self)%nat then lower_rank self ranks else
      c ← getReplicaClient self i;
      if (c : bool) then
        releaseReplicaClient self i ;; mret (if (i <? self)%nat then i else self)
      else lower_rank self ranks
  end.
Definition getNewLeaderRank (self : nat) : Op nat := lower_rank self (seq 0 getMaxNumClient).

(** [replica_client->init_view(arg)] *)
Definition call_init_view (rank_id : nat) : Op bool := fun g =>
  match init_view rank_id g with
  | Throw exn_xdr g' => Throw exn_xdr g'
  | Throw _ g' => Throw exn_xdr (delete rank_id g')
  | o => o
  end.

Definition NotifyNewLeader (self : nat) : Op bool :=
  down ← isLeaderDown self;
  cassert down ;;  (* "Cannot handle if the leader wakes up again." *)
  rank ← getNewLeaderRank self;
  if (rank =? self)%nat then become_leader self ;; mret true else
  c ← getReplicaClient self rank;
  cassert c ;;
  succeed ← call_init_view rank;
  when (negb succeed)
    (at_rank self (modify (fun r => set_view (primary_is rank (view r)) (set_leader false r)))) ;;
  releaseReplicaClient self rank ;;
  at_rank self (modify (set_mode VC_ACTIVE)) ;;
  mret false.

(** One turn of the loop of [run], without the sleeps. *)
Definition run_turn (self : nat) : Op unit :=
  m ← at_rank self (gets mode);
  if m =? VC_MANAGER then
    becomeLeader ← NotifyNewLeader self;
    when becomeLeader (announce self)
  else
    down ← isLeaderDown self;
    when down (at_rank self (modify (set_mode VC_MANAGER))).
End paxos.
