(* ===== verification/BackstoreRefine.v ===== *)
(** * The replicated database refines the abstract tree

    A call of the server logic that Paxos executes on one backing store gives
    the reply of the tree of [Tree], through two rounds of marshaling; the
    file also records what the 32-bit instance numbers of the protocol do. *)

From S2P Require Import Prelude Xdr ServerPaxosTypes ServerTypes PaxosTypes Names ServerDB DirContent.
From S2P Require Import Tree ServerDBWf ServerDBRefine ServerDBProps DbApi Backstore.

(** ** Marshaling between the parts *)

Section codec.
Context {S A : Type} `{!Xdr A, !XdrLaws A}.

(** A value that can be sent. *)
Definition sendable (a : A) : Prop := xdr_valid a /\ blen (wire a) < 2 ^ 31.

Lemma encode_run (a : A) (s : S) : sendable a -> encode a s = Ret (wire a) s.
Proof. intros [Hv Hl]. unfold encode. rewrite xdr_to_msg_ok by done. done. Qed.

Lemma decode_run (a : A) (s : S) : sendable a -> decode (wire a) s = Ret a s.
Proof.
  intros [Hv Hl]. unfold decode, alloc_len. destruct (Z.ltb_spec (blen (wire a)) 0x80000000); [|lia].
  by rewrite xdr_from_msg_wire.
Qed.
End codec.

Section local.
Context `{sqlite : !Sqlite} (str_hash : string -> Z) (junk : Z).

(** A Paxos group of one replica: the leader runs the call on its own store. *)
Definition single_replica : PaxosUser Db := {|
  px_execute arg := reply ← Run str_hash junk (ea_request arg); mret (ER_reply reply);
  px_isLeaderAndInitialized := mret true;
|}.
#[local] Existing Instance single_replica.

(** ** Calls of the interface *)

Inductive api_reply :=
| ABool (b : bool)
| AInst (r : bool * Z)
| ARead (r : bool * string * MetaData)
| AStates (l : list (string * string)).

Definition api_op {P} `{!DbApi P} (op : db_op) : M P api_reply :=
  match op with
  | OpCreate f is_dir => r ← db_checkAndCreate f is_dir; mret (AInst r)
  | OpOpen f => r ← db_checkAndOpen f; mret (AInst r)
  | OpDelete f inst => r ← db_checkAndDelete f inst; mret (ABool r)
  | OpRead f inst => r ← db_checkAndRead f inst; mret (ARead r)
  | OpUpdate f inst c => r ← db_checkAndUpdate f inst c; mret (ABool r)
  | OpTestAndSet f inst c => r ← db_testAndSetLockOwner f inst c; mret (ABool r)
  | OpReset f inst => r ← db_resetLockOwner f inst; mret (ABool r)
  | OpGetStates => r ← db_getStates; mret (AStates r)
  end.

(** What the logic sees of a reply of the database. *)
Definition seen (rep : db_reply) : api_reply :=
  match rep with
  | RepBool b => ABool b
  | RepInst (b, o) => AInst (b, wrap32 (default junk o))
  | RepRead None => ARead (false, "", mkMetaData 0 0 0 0 false)
  | RepRead (Some r) =>
      ARead (true, r_content r, mkMetaData (r_instance_number r) (r_content_generation_number r)
        (r_lock_generation_number r) (r_file_content_checksum r) (r_is_directory r))
  | RepStates l => AStates (l ++ l)
  end.

(** The instance number of a request fits the protocol. *)
Definition op_u32 (op : db_op) : Prop :=
  match op with
  | OpDelete _ inst | OpRead _ inst | OpUpdate _ inst _ | OpTestAndSet _ inst _ | OpReset _ inst => u32 inst
  | OpCreate _ _ | OpOpen _ | OpGetStates => True
  end.

(** The reply fits a message. *)
Definition reply_fits (rep : db_reply) : Prop :=
  match rep with
  | RepRead (Some r) => Z.of_nat (String.length (r_content r)) <= 2 ^ 30
  | RepStates l => sendable (RGetStates (mkGetStatesResult ((fun p => mkkey_value p.1 p.2) <$> l ++ l)))
  | _ => True
  end.

(** ** Sizes *)

Lemma wire_string_size (s : string) : blen (wire s) <= Z.of_nat (String.length s) + 7.
Proof.
  change (wire s) with (wire_bytes (str_bytes s)). rewrite blen_wire_bytes.
  pose proof (pad_len_range (blen (str_bytes s))). unfold blen in *. rewrite str_bytes_length in *. lia.
Qed.
Lemma valid_string (s : string) : Z.of_nat (String.length s) <= 2 ^ 30 -> str_valid s.
Proof. intros H. unfold str_valid, blen. rewrite str_bytes_length. unfold XDR_MAX_LEN. lia. Qed.

Lemma plain_length c : plain c = true -> Z.of_nat (String.length c) <= operand_max.
Proof. intros [_ H]%plain_facts. unfold sql_text_ok in H. rewrite !andb_true_iff, Z.leb_le in H. tauto. Qed.

Lemma serial_string (s : string) : Z.of_nat (String.length s) <= 2 ^ 30 ->
  serial_size s <= Z.of_nat (String.length s) + 7.
Proof. intros H. rewrite wire_size by by apply valid_string. apply wire_string_size. Qed.

Lemma sendable_size {A} `{!Xdr A, !XdrLaws A} (a : A) : xdr_valid a -> serial_size a < 2 ^ 31 -> sendable a.
Proof. intros Hv Hs. split; [done|]. by rewrite <-wire_size. Qed.

(** Messages made of strings of known length, booleans and integers. *)
Ltac solve_sendable :=
  apply sendable_size;
  [simpl; split_and?; first [done | apply valid_string; unfold operand_max in *; lia]
  |repeat match goal with H : Z.of_nat (String.length ?s) <= _ |- _ =>
     let H' := fresh in assert (serial_size s <= Z.of_nat (String.length s) + 7) as H'
       by (apply serial_string; unfold operand_max in *; lia);
     simpl in H'; revert H; revert H' end;
   simpl; unfold operand_max in *; lia].

(** The message of a request. *)
Definition param_of (op : db_op) : ServerPaxosParam :=
  match op with
  | OpCreate f is_dir => PCheckAndCreate (mkCheckAndCreateParam f is_dir)
  | OpOpen f => PCheckAndOpen (mkCheckAndOpenParam f)
  | OpDelete f inst => PCheckAndDelete (mkCheckAndDeleteParam f (wrap32 inst))
  | OpRead f inst => PCheckAndRead (mkCheckAndReadParam f (wrap32 inst))
  | OpUpdate f inst c => PCheckAndUpdate (mkCheckAndUpdateParam f (wrap32 inst) c)
  | OpTestAndSet f inst c => PTestAndSetLockOwner (mkTestAndSetLockOwnerParam f (wrap32 inst) c)
  | OpReset f inst => PResetLockOwner (mkResetLockOwnerParam f (wrap32 inst))
  | OpGetStates => PGetStates (mkGetStatesParam false)
  end.

Lemma name_length f : name_ok f = true -> Z.of_nat (String.length f) <= operand_max.
Proof. intros H. by apply name_ok_facts. Qed.

Lemma param_sendable op t : op_ok op t = true -> sendable (param_of op).
Proof.
  intros Hok. assert (forall i, u32 (wrap32 i)) as Hi by apply wrap32_u32.
  destruct op as [f d|f|f i|f i|f i c|f i c|f i|]; cbn [op_ok param_of] in *.
  - apply andb_true_iff in Hok as [[Hn%name_length _]%andb_true_iff _]. solve_sendable.
  - apply name_length in Hok. solve_sendable.
  - apply name_length in Hok. solve_sendable.
  - apply name_length in Hok. solve_sendable.
  - apply andb_true_iff in Hok as [[Hn%name_length Hc%plain_length]%andb_true_iff _]. solve_sendable.
  - apply andb_true_iff in Hok as [Hn%name_length Hc%plain_length]. solve_sendable.
  - apply name_length in Hok. solve_sendable.
  - solve_sendable.
Qed.

(** ** The calls, one by one *)

Lemma read_result_valid f inst t r : u32 inst -> tree_read f inst t = Some r ->
  u64 (r_instance_number r) /\ u64 (r_content_generation_number r) /\
  u64 (r_lock_generation_number r) /\ u64 (r_file_content_checksum r).
Proof.
  unfold tree_read. intros Hi. destruct (t_nodes t !! f) as [n|]; [|done]. destruct (n_inst n =? inst); [|done].
  intros [= <-]. simpl. split_and!; auto with chubby.
Qed.

(** The result message of a reply. *)
Definition result_of (op : db_op) (rep : db_reply) : ServerPaxosResult :=
  match op, rep with
  | OpCreate _ _, RepInst r => RCheckAndCreate (mkCheckAndCreateResult (wrap32 (default junk r.2)) r.1)
  | OpOpen _, RepInst r => RCheckAndOpen (mkCheckAndOpenResult (wrap32 (default junk r.2)) r.1)
  | OpDelete _ _, RepBool b => RCheckAndDelete (mkCheckAndDeleteResult b)
  | OpRead _ _, RepRead r =>
      RCheckAndRead (mkCheckAndReadResult (default "" (r_content <$> r)) (read_meta r) (bool_decide (is_Some r)))
  | OpUpdate _ _ _, RepBool b => RCheckAndUpdate (mkCheckAndUpdateResult b)
  | OpTestAndSet _ _ _, RepBool b => RTestAndSetLockOwner (mkTestAndSetLockOwnerResult b)
  | OpReset _ _, RepBool b => RResetLockOwner (mkResetLockOwnerResult b)
  | OpGetStates, RepStates l => RGetStates (mkGetStatesResult ((fun p => mkkey_value p.1 p.2) <$> l ++ l))
  | _, _ => RGetStates (mkGetStatesResult [])
  end.

(** Running the call of an operation, from the run of the operation. *)
Lemma call_run op rep db db' : op_u32 op -> run_op str_hash op db = Ret rep db' ->
  run_call str_hash junk (param_of op) db = Ret (result_of op rep) db'.
Proof.
  intros Hu Hrun. destruct op; simpl in Hu, Hrun;
    apply bind_Ret_inv in Hrun as (a & s1 & H1 & [= <- <-]); cbn [param_of run_call result_of];
    cbn [ccp_file_name ccp_is_dir cop_file_name cdp_file_name cdp_instance_number crp_file_name
         crp_instance_number cup_file_name cup_instance_number cup_content tsp_file_name
         tsp_instance_number tsp_client_id rlp_file_name rlp_instance_number];
    rewrite ?(wrap32_small _ Hu), ?(bind_Ret _ _ _ _ _ H1); try done.
  injection H1 as <- <-. done.
Qed.

Lemma kv_pairs (l : list (string * string)) :
  (fun e => (kv_key e, kv_value e)) <$> ((fun p => mkkey_value p.1 p.2) <$> l) = l.
Proof. induction l as [|[x y] l IH]; [done|]. cbn. f_equal. exact IH. Qed.

(** The reply that the logic gets, from the result message, over any Paxos. *)
Lemma api_of_run {P} `{!PaxosUser P} op rep db db' (s s' : P) : run_op str_hash op db = Ret rep db' ->
  runPaxos (param_of op) s = Ret (result_of op rep) s' -> api_op op s = Ret (seen rep) s'.
Proof.
  intros Hrun HP.
  destruct op; simpl in Hrun; apply bind_Ret_inv in Hrun as (a & s1 & _ & [= <- <-]);
    cbn [param_of] in HP; unfold api_op; cbn [db_checkAndCreate db_checkAndOpen db_checkAndDelete
      db_checkAndRead db_checkAndUpdate db_testAndSetLockOwner db_resetLockOwner db_getStates ServerDBPaxos];
    rewrite bind_assoc, (bind_Ret _ _ _ _ _ HP).
  - by destruct a.
  - by destruct a.
  - reflexivity.
  - by destruct a.
  - reflexivity.
  - reflexivity.
  - reflexivity.
  - change (Ret (AStates ((fun e => (kv_key e, kv_value e)) <$> ((fun p => mkkey_value p.1 p.2) <$> a ++ a))) s' =
      Ret (AStates (a ++ a)) s'). by rewrite kv_pairs.
Qed.

(** Running a marshaled call of an operation on a store. *)
Lemma Run_op op rep db db' : op_u32 op -> sendable (param_of op) -> sendable (result_of op rep) ->
  run_op str_hash op db = Ret rep db' ->
  Run str_hash junk (wire (param_of op)) db = Ret (wire (result_of op rep)) db'.
Proof.
  intros Hu Hp Hres Hrun. unfold Run. rewrite (bind_Ret _ _ _ _ _ (decode_run _ db Hp)).
  rewrite (bind_Ret _ _ _ _ _ (call_run op rep db db' Hu Hrun)). by apply encode_run.
Qed.

Lemma result_sendable op t : op_u32 op -> reply_fits (tree_step str_hash op t).1 ->
  sendable (result_of op (tree_step str_hash op t).1).
Proof.
  intros Hu Hf. assert (forall i, u32 (wrap32 i)) as Hi by apply wrap32_u32.
  destruct op as [f d|f|f i|f i|f i c|f i c|f i|]; simpl in Hf |- *.
  - unfold tree_create. repeat case_match; solve_sendable.
  - unfold tree_open. simpl. solve_sendable.
  - unfold tree_guarded. repeat case_match; solve_sendable.
  - destruct (tree_read f i t) as [r|] eqn:Hr; [|apply sendable_size; [by repeat split; try apply valid_string|vm_compute; done]].
    destruct (read_result_valid f i t r Hu Hr) as (? & ? & ? & ?). simpl. solve_sendable.
  - unfold tree_guarded. repeat case_match; solve_sendable.
  - unfold tree_guarded. repeat case_match; solve_sendable.
  - unfold tree_guarded. repeat case_match; solve_sendable.
  - exact Hf.
Qed.

(** An operation of the store, called through the interface on one replica. *)
Lemma single_run op rep db db' : op_u32 op -> sendable (param_of op) -> sendable (result_of op rep) ->
  run_op str_hash op db = Ret rep db' -> api_op op db = Ret (seen rep) db'.
Proof.
  intros Hu Hp Hres Hrun. apply (api_of_run op rep db db'); [done|]. unfold runPaxos.
  rewrite (bind_Ret _ _ _ _ _ (encode_run _ db Hp)).
  assert (px_execute (execute_arg_of (wire (param_of op))) db = Ret (ER_reply (wire (result_of op rep))) db') as HX.
  { simpl. by rewrite (bind_Ret _ _ _ _ _ (Run_op op rep db db' Hu Hp Hres Hrun)). }
  rewrite (bind_Ret _ _ _ _ _ HX). by apply decode_run.
Qed.

(** C32: a call of the server logic that goes through marshaling, Paxos on a
    single replica, [ServerdbBackstore::Run] and back gives what the abstract
    tree gives, for admissible requests whose instance number fits 32 bits
    and replies that fit a message.  Two differences are visible: the list of
    [getStates] comes twice, and a failed [checkAndCreate] or [checkAndOpen]
    returns an instance number read from an uninitialised variable. *)
Theorem paxos_db_refines_tree op db : db_wf db -> op_ok op (tree_of db) = true -> op_u32 op ->
  reply_fits (tree_step str_hash op (tree_of db)).1 ->
  exists rep db', api_op op db = Ret (seen rep) db' /\ db_wf db' /\
    tree_step str_hash op (tree_of db) = (rep, tree_of db').
Proof.
  intros Hwf Hok Hu Hf. destruct (op_refines str_hash op db Hwf Hok) as (rep & db' & Hrun & Hwf' & Hstep).
  exists rep, db'. split_and!; [|done|done]. apply single_run; [done|by apply param_sendable with (tree_of db)| |done].
  replace rep with (tree_step str_hash op (tree_of db)).1 by by rewrite Hstep. by apply result_sendable.
Qed.

(** The protocol cuts instance numbers to 32 bits: through any Paxos, a
    handle whose 64-bit instance number only agrees modulo 2^32 with another
    is treated as that other. *)
Lemma instance_number_cut {P} `{!PaxosUser P} op op' : match op, op' with
    | OpDelete f i, OpDelete f' i' | OpRead f i, OpRead f' i' | OpReset f i, OpReset f' i' =>
        f = f' /\ i `mod` 2 ^ 32 = i' `mod` 2 ^ 32
    | OpUpdate f i c, OpUpdate f' i' c' | OpTestAndSet f i c, OpTestAndSet f' i' c' =>
        f = f' /\ c = c' /\ i `mod` 2 ^ 32 = i' `mod` 2 ^ 32
    | _, _ => False
    end -> forall s : P, api_op op s = api_op op' s.
Proof.
  destruct op, op'; try done; intros Hop s; (destruct Hop as (-> & -> & Hi) || destruct Hop as (-> & Hi));
    unfold api_op; cbn -[Z.pow wrap32]; unfold wrap32; by rewrite Hi.
Qed.
End local.

(** ** On concrete databases *)

#[local] Existing Instance strict_engine.
#[local] Instance sample_paxos : PaxosUser Db := single_replica sample_hash 7.

Lemma paxos_db_refines_tree_witness :
  op_ok (OpRead "/d" 1) (tree_of sample_db) = true /\
  exists rep db', api_op (OpRead "/d" 1) sample_db = Ret (seen 7 rep) db' /\ db_wf db' /\
    tree_step sample_hash (OpRead "/d" 1) (tree_of sample_db) = (rep, tree_of db').
Proof.
  assert (op_ok (OpRead "/d" 1) (tree_of sample_db) = true) as H by (vm_compute; reflexivity).
  split; [exact H|]. apply (paxos_db_refines_tree sample_hash 7 (OpRead "/d" 1) sample_db sample_db_wf H).
  - by split.
  - vm_compute. by intros.
Defined.

Lemma instance_number_cut_witness :
  api_op (OpRead "/d" 1) sample_db = api_op (OpRead "/d" (2 ^ 32 + 1)) sample_db.
Proof.
  exact (instance_number_cut (OpRead "/d" 1) (OpRead "/d" (2 ^ 32 + 1)) (conj eq_refl eq_refl) sample_db).
Defined.
