(* ===== verification/TreeStore.v ===== *)
(** * The database as its clients may think of it

    [TreeStore]: an implementation of the interface [DbApi] that answers as the
    tree of [Tree] does.  One replica over the SQL tables is one. *)

From S2P Require Import Prelude Names ServerTypes PaxosTypes ServerDB Tree ServerDBWf ServerDBRefine ServerDBProps.
From S2P Require Import DbApi Backstore BackstoreRefine.

(** The request fits the limits of the tables and of the protocol. *)
Definition admissible (str_hash : string -> Z) (op : db_op) (t : tree) : Prop :=
  op_ok op t = true /\ op_u32 op /\ reply_fits (tree_step str_hash op t).1.

Class TreeStore (D : Type) `{!DbApi D} (str_hash : string -> Z) (junk : Z) := {
  store_ok : D -> Prop;
  store_tree : D -> tree;
  store_op op d : store_ok d -> admissible str_hash op (store_tree d) ->
    exists rep d', api_op op d = Ret (seen junk rep) d' /\ store_ok d' /\
      tree_step str_hash op (store_tree d) = (rep, store_tree d');
}.

Definition single_api `{!Sqlite} (str_hash : string -> Z) (junk : Z) : DbApi Db :=
  ServerDBPaxos (PaxosUser0 := single_replica str_hash junk).

#[export] Instance single_store `{!Sqlite} (str_hash : string -> Z) (junk : Z) :
  TreeStore Db (DbApi0 := single_api str_hash junk) str_hash junk.
Proof.
  refine {| store_ok := db_wf; store_tree := tree_of |}.
  intros op db Hwf (Hok & Hu & Hf). destruct (op_refines str_hash op db Hwf Hok) as (rep & db' & Hrun & Hwf' & Hstep).
  exists rep, db'. split_and!; [|done|done]. apply single_run; [done|by apply param_sendable with (tree_of db)| |done].
  replace rep with (tree_step str_hash op (tree_of db)).1 by by rewrite Hstep. by apply result_sendable.
Defined.

(** ** The calls of the interface, one by one *)

Section calls.
Context {D : Type} `{!DbApi D} {str_hash : string -> Z} {junk : Z} `{!TreeStore D str_hash junk}.
Implicit Types d : D.

Abbreviation nodes d := (t_nodes (store_tree d)).

Lemma api_ret {A B} (m : M D A) (mk : A -> B) d r d' : (a ← m; mret (mk a)) d = Ret r d' ->
  exists a, m d = Ret a d' /\ mk a = r.
Proof. intros (a & s1 & Hm & [= <- <-])%bind_Ret_inv. by exists a. Qed.

(** A guarded operation: whether it is let, and the nodes then. *)
Lemma guarded_run (m : M D bool) op f inst ok g d : (forall s, api_op op s = (r ← m; mret (ABool r)) s) ->
  tree_step str_hash op (store_tree d) = tree_guarded f inst ok g (store_tree d) ->
  store_ok d -> admissible str_hash op (store_tree d) ->
  exists b d', m d = Ret b d' /\ store_ok d' /\
    b = match nodes d !! f with Some n => (n_inst n =? inst) && ok n | None => false end /\
    nodes d' = (if b : bool then g (nodes d) else nodes d).
Proof.
  intros Hm Ht Hd Ha. destruct (store_op op d Hd Ha) as (rep & d' & Hr & Hd' & Hs).
  rewrite Hm in Hr. apply api_ret in Hr as (b & Hb & Hrep). rewrite Ht in Hs. exists b, d'. split_and!; [done|done| |];
    unfold tree_guarded in Hs; destruct (nodes d !! f) as [n|] eqn:En; [destruct (_ && _)| |destruct (_ && _)|];
    injection Hs as <- Hd2; injection Hrep as ->; rewrite <-?Hd2; done.
Qed.

Lemma update_run f inst c d : store_ok d -> admissible str_hash (OpUpdate f inst c) (store_tree d) ->
  exists b d', db_checkAndUpdate f inst c d = Ret b d' /\ store_ok d' /\
    b = match nodes d !! f with Some n => n_inst n =? inst | None => false end /\
    nodes d' = (if b : bool then alter (set_kind str_hash (File c)) f (nodes d) else nodes d).
Proof.
  intros Hd Ha. destruct (guarded_run (db_checkAndUpdate f inst c) (OpUpdate f inst c) f inst (fun _ => true)
    (alter (set_kind str_hash (File c)) f) d) as (b & d' & H1 & H2 & H3 & H4); [done..|].
  exists b, d'. split_and!; [done|done| |done]. rewrite H3. destruct (nodes d !! f); [|done]. by rewrite andb_true_r.
Qed.
Lemma lock_run f inst cl d : store_ok d -> admissible str_hash (OpTestAndSet f inst cl) (store_tree d) ->
  exists b d', db_testAndSetLockOwner f inst cl d = Ret b d' /\ store_ok d' /\
    b = match nodes d !! f with Some n => (n_inst n =? inst) && unlocked n | None => false end /\
    nodes d' = (if b : bool then alter (lock_node (owner_of cl)) f (nodes d) else nodes d).
Proof. intros Hd Ha. by apply (guarded_run _ (OpTestAndSet f inst cl)). Qed.
Lemma reset_run f inst d : store_ok d -> admissible str_hash (OpReset f inst) (store_tree d) ->
  exists b d', db_resetLockOwner f inst d = Ret b d' /\ store_ok d' /\
    b = match nodes d !! f with Some n => n_inst n =? inst | None => false end /\
    nodes d' = (if b : bool then alter (set_node_owner None) f (nodes d) else nodes d).
Proof.
  intros Hd Ha. destruct (guarded_run (db_resetLockOwner f inst) (OpReset f inst) f inst (fun _ => true)
    (alter (set_node_owner None) f) d) as (b & d' & H1 & H2 & H3 & H4); [done..|].
  exists b, d'. split_and!; [done|done| |done]. rewrite H3. destruct (nodes d !! f); [|done]. by rewrite andb_true_r.
Qed.
Lemma read_run f inst d : store_ok d -> admissible str_hash (OpRead f inst) (store_tree d) ->
  exists b c meta d', db_checkAndRead f inst d = Ret (b, c, meta) d' /\ store_ok d' /\ store_tree d' = store_tree d /\
    b = match nodes d !! f with Some n => n_inst n =? inst | None => false end /\
    forall n, nodes d !! f = Some n -> b = true -> c = kind_content (n_kind n).
Proof.
  intros Hd Ha. destruct (store_op (OpRead f inst) d Hd Ha) as (rep & d' & Hr & Hd' & Hs).
  apply api_ret in Hr as ([[b c] meta] & Hb & Hrep). injection Hs as <- Ht. exists b, c, meta, d'.
  split_and!; [done|done|done|..]; unfold tree_read in Hrep; destruct (nodes d !! f) as [n|] eqn:En;
    [destruct (n_inst n =? inst)| |destruct (n_inst n =? inst)|]; injection Hrep as -> -> ->; try done.
  intros n' [= <-] _. done.
Qed.

(** ** Files *)

(** The file [f] of instance [inst] holds [c]. *)
Definition file_at (f : string) (inst : Z) (c : string) d : Prop :=
  exists n, nodes d !! f = Some n /\ n_kind n = File c /\ n_inst n = inst.

Lemma guarded_fits f inst ok g (t : tree) : reply_fits (tree_guarded f inst ok g t).1.
Proof. unfold tree_guarded. destruct (_ !! _); [|done]. by destruct (_ && _). Qed.

Lemma lock_admissible f inst cl t : name_ok f = true -> plain cl = true -> u32 inst ->
  admissible str_hash (OpTestAndSet f inst cl) t.
Proof. intros Hf Hc Hi. split_and!; [cbn; by rewrite Hf, Hc|done|apply guarded_fits]. Qed.
Lemma reset_admissible f inst t : name_ok f = true -> u32 inst -> admissible str_hash (OpReset f inst) t.
Proof. intros Hf Hi. split_and!; [done|done|apply guarded_fits]. Qed.
Lemma update_admissible f inst c c0 d : name_ok f = true -> plain c = true -> u32 inst -> file_at f inst c0 d ->
  admissible str_hash (OpUpdate f inst c) (store_tree d).
Proof.
  intros Hf Hc Hi (n & Hn & Hk & _). split_and!; [cbn; by rewrite Hf, Hc, Hn; cbn; rewrite Hk|done|apply guarded_fits].
Qed.
Lemma read_admissible f inst c d : name_ok f = true -> u32 inst -> file_at f inst c d ->
  Z.of_nat (String.length c) <= 2 ^ 30 -> admissible str_hash (OpRead f inst) (store_tree d).
Proof.
  intros Hf Hi (n & Hn & Hk & Hin) Hl. split_and!; [done|done|]. unfold tree_step, tree_read. cbn [fst]. rewrite Hn.
  destruct (n_inst n =? inst); [|done]. cbn. by rewrite Hk.
Qed.

(** A change of the nodes that leaves contents and instance numbers. *)
Definition keeps_file (h : node -> node) : Prop := forall n, n_kind (h n) = n_kind n /\ n_inst (h n) = n_inst n.

Lemma file_alter h f d d' g inst c : keeps_file h -> nodes d' = alter h f (nodes d) -> file_at g inst c d -> file_at g inst c d'.
Proof.
  intros Hh Hd (n & Hn & Hk & Hi). unfold file_at. rewrite Hd, lookup_alter. case_decide as E.
  - subst. rewrite Hn. cbn. exists (h n). destruct (Hh n) as [-> ->]. done.
  - by exists n.
Qed.

Lemma lock_files f inst cl d : store_ok d -> name_ok f = true -> plain cl = true -> u32 inst ->
  exists b d', db_testAndSetLockOwner f inst cl d = Ret b d' /\ store_ok d' /\
    forall g i c, file_at g i c d -> file_at g i c d'.
Proof.
  intros Hd Hf Hc Hi. destruct (lock_run f inst cl d Hd) as (b & d' & H1 & H2 & _ & H4); [by apply lock_admissible|].
  exists b, d'. split_and!; [done|done|]. intros g i c. destruct b; [by apply (file_alter (lock_node (owner_of cl)) f d d')|]. unfold file_at. by rewrite H4.
Qed.
Lemma reset_files f inst d : store_ok d -> name_ok f = true -> u32 inst ->
  exists b d', db_resetLockOwner f inst d = Ret b d' /\ store_ok d' /\ forall g i c, file_at g i c d -> file_at g i c d'.
Proof.
  intros Hd Hf Hi. destruct (reset_run f inst d Hd) as (b & d' & H1 & H2 & _ & H4); [by apply reset_admissible|].
  exists b, d'. split_and!; [done|done|]. intros g i c. destruct b; [by apply (file_alter (set_node_owner None) f d d')|]. unfold file_at. by rewrite H4.
Qed.
Lemma read_file f inst c d : store_ok d -> name_ok f = true -> u32 inst -> file_at f inst c d ->
  Z.of_nat (String.length c) <= 2 ^ 30 ->
  exists meta d', db_checkAndRead f inst d = Ret (true, c, meta) d' /\ store_ok d' /\ store_tree d' = store_tree d.
Proof.
  intros Hd Hf Hi Hc Hl. destruct (read_run f inst d Hd) as (b & c' & meta & d' & H1 & H2 & H3 & H4 & H5).
  { by eapply read_admissible. }
  destruct Hc as (n & Hn & Hk & Hin). rewrite Hn, Hin, Z.eqb_refl in H4. subst b. rewrite (H5 n Hn eq_refl), Hk in H1.
  by exists meta, d'.
Qed.
Lemma update_file f inst c c0 d : store_ok d -> name_ok f = true -> plain c = true -> u32 inst -> file_at f inst c0 d ->
  exists d', db_checkAndUpdate f inst c d = Ret true d' /\ store_ok d' /\ file_at f inst c d' /\
    forall g i e, g <> f -> file_at g i e d -> file_at g i e d'.
Proof.
  intros Hd Hf Hc Hi Hat. destruct (update_run f inst c d Hd) as (b & d' & H1 & H2 & H3 & H4).
  { by eapply update_admissible. }
  destruct Hat as (n & Hn & Hk & Hin). rewrite Hn, Hin, Z.eqb_refl in H3. subst b. exists d'. split_and!; [done|done|..].
  - exists (set_kind str_hash (File c) n). rewrite H4, lookup_alter_eq, Hn. by rewrite <-Hin.
  - intros g i e Hg (m & Hm & Hkm & Him). exists m. by rewrite H4, lookup_alter_ne by done.
Qed.
End calls.
