(* ===== verification/LogicProps.v ===== *)
(** * What the server logic guarantees, and where it fails

    The consistency of the handle tables over whole runs, the recovery of a new
    leader, and the flaws of the lock and close code: locks held twice,
    releases by strangers, a loop that does not end, reads of freed handles and
    a server stopped by a client without a session. *)

From S2P Require Import Prelude Names ServerTypes PaxosTypes ServerDB ServerDBRefine ServerDBProps DbApi.
From S2P Require Import Backstore BackstoreRefine ServerLogic LogicInv LogicSpec.

(** The server before any request: empty tables over the database [d]; its
    [master_sequence_number] is never assigned. *)
Definition api_init {D} (d : D) (msn : Z) : Api D := mkApi ∅ ∅ ∅ ∅ ∅ ∅ ∅ ∅ msn d ∅ 0 [] [].

Lemma api_init_inv {D} (d : D) msn : fd_inv (api_init d msn).
Proof.
  split; cbn [file2fd_map session2fd_map heap next_ptr api_init]; intros *; unfold lst;
    rewrite ?lookup_empty; simpl; try (intros H; by apply elem_of_nil in H || done); try done.
  constructor.
Qed.

Section props.
Context {D : Type} `{!DbApi D} (str_hash : string -> Z) (stale : Z -> FileHandler).
Implicit Types s : Api D.

Lemma serve_sat qs s : fd_inv s -> sat (serve str_hash stale qs s) (fun _ => fd_inv) (fun _ _ => True).
Proof.
  revert s. induction qs as [|[[q se] xid] qs IH]; intros s Hs; [done|]. cbn [serve]. apply sat_bind.
  eapply sat_mono; [by apply handle_sat| |done]. intros [] s' Hs'. by apply IH.
Qed.

(** C11: after any sequence of requests that the server survives, the two
    handle tables agree with each other and with the memory: a handle listed
    for a session is a live object, listed for its file under this session
    and no other, no file lists a handle twice, and every live handle object
    is listed, so that none is dangling and none leaks. *)
Theorem handle_tables_consistent qs d msn :
  match serve str_hash stale qs (api_init d msn) with
  | Ret _ s =>
      (forall se p, p ∈ lst (session2fd_map s) se -> exists h, heap s !! p = Some h /\
         (se, p) ∈ lst (file2fd_map s) (fh_file_name h) /\
         forall se', p ∈ lst (session2fd_map s) se' -> se' = se) /\
      (forall f se p, (se, p) ∈ lst (file2fd_map s) f -> p ∈ lst (session2fd_map s) se /\
         exists h, heap s !! p = Some h /\ fh_file_name h = f) /\
      (forall f, NoDup (lst (file2fd_map s) f)) /\
      (forall p h, heap s !! p = Some h -> exists se, p ∈ lst (session2fd_map s) se)
  | _ => True
  end.
Proof.
  pose proof (serve_sat qs (api_init d msn) (api_init_inv d msn)) as H.
  destruct (serve _ _ _ _) as [u s|e s| |]; try done. destruct H as [H1 H2 H3 H4 H5 H6].
  split_and!; [|exact H2|exact H4|exact H5].
  intros se p Hp. destruct (H1 se p Hp) as (h & Hh & Hin). exists h. split_and!; [done|done|].
  intros se' Hp'. by apply (H3 se' se p).
Qed.

(** The files whose lock a client holds, as the server logic knows them. *)
Definition held_files s (client : string) : gset string := default ∅ (client2heldLock_map s !! client).

(** The session that waits first for the lock of [f]. *)
Definition first_waiting s (f : string) : option Z := q ← file2lockQueue_map s !! f; fst <$> head q.

(** [fileClose] never returns when sessions wait for the lock of the file
    and the first of them is another session: the loop over the queue never
    advances its iterator. *)
Lemma fileClose_hangs arg se xid c s other : fd_inv s ->
  session2client_map s !! se = Some c -> c <> "" ->
  fh_file_name arg ∉ held_files s c ->
  fh_file_name arg ∉ default ∅ (client2ephemeral_map s !! c) ->
  first_waiting s (fh_file_name arg) = Some other -> other <> se ->
  fileClose stale arg se xid s = Diverge.
Proof.
  unfold held_files, first_waiting. intros Hs Hc Hne Hheld Heph Hfirst Hse.
  destruct (file2lockQueue_map s !! fh_file_name arg) as [[|[o x0] q]|] eqn:Hq; try done.
  injection Hfirst as ->. unfold fileClose.
  rewrite (bind_Ret _ _ _ _ _ (require_client_run se c s Hc Hne)).
  destruct (findFd_run stale se arg s Hs) as (p & s1 & Hf & Hi & Hh & Hp & _ & Hr & _).
  rewrite (bind_Ret _ _ _ _ _ Hf), (bind_Ret _ _ _ _ _ (deref_live stale p arg s1 Hh)).
  apply rest_split in Hr as (Hm & _). apply maps_fields in Hm as (_ & Hlq & Hhl & Hep & _).
  rewrite (bind_Ret (gets _) _ s1 (client2heldLock_map s1 !! c) s1) by done. rewrite Hhl.
  replace (match client2heldLock_map s !! c with Some X => _ | None => _ end) with false.
  2:{ destruct (client2heldLock_map s !! c); [|done]. by rewrite bool_decide_false. }
  cbn [when]. rewrite bind_ret_l.
  assert (exists s2, index client2ephemeral_map on_client2ephemeral_map ∅ c s1 =
      Ret (default ∅ (client2ephemeral_map s !! c)) s2 /\ mem s2 = mem s1 /\
      file2lockQueue_map s2 = file2lockQueue_map s1) as (s2 & Hidx & Hmem & Hq2).
  { unfold index. rewrite Hep. destruct (client2ephemeral_map s !! c); by eexists. }
  rewrite (bind_Ret _ _ _ _ _ Hidx). assert (heap s2 !! p = Some arg) as Hh2 by by rewrite (mem_heap s1).
  assert (fd_inv s2) as Hi2 by by apply (fd_inv_mem s1).
  assert (p ∈ lst (session2fd_map s2) se) as Hp2 by (injection Hmem as _ -> _ _ _; done).
  rewrite (bind_Ret _ _ _ _ _ (deref_live stale p arg s2 Hh2)), bool_decide_false by done.
  unfold close_handle. rewrite (bind_Ret _ _ _ _ _ (deref_live stale p arg s2 Hh2)). cbv zeta.
  match goal with |- context [erase_if_empty on_session2fd_map [] list_empty se ≫= (fun _ => ?k)] =>
    destruct (untable_run p arg se s2 k Hi2 Hh2 Hp2) as (s3 & -> & _ & Hr3) end.
  apply rest_split in Hr3 as (Hm3 & _). apply maps_fields in Hm3 as (_ & Hq3 & _).
  assert (clear_lock_queue (fh_file_name arg) se s3 = Diverge) as Hd.
  { unfold clear_lock_queue.
    rewrite (bind_Ret (gets _) _ s3 (Some ((other, x0) :: q)) s3) by (unfold gets; by rewrite Hq3, Hq2, Hlq, Hq).
    destruct (Z.eqb_spec other se); done. }
  unfold mbind, M_bind. by rewrite Hd.
Qed.

Lemma parent_event_run f s : send_parent_event f s =
  Ret tt (emit (if bool_decide (getParentName f = "/") then []
                else event_msgs (file2contentChange_map s) EV_CONTENT_MODIFIED (getParentName f)) s).
Proof.
  unfold send_parent_event, sendContentChangeEvent. case_bool_decide; cbn [when negb].
  - by rewrite emit_nil.
  - apply send_events_run.
Qed.

(** A session that was never started, or is named by the empty string. *)
Definition unstarted (se : Z) s : Prop := default "" (session2client_map s !! se) = "".

(** A client that has any handle open but no started session (using a
    node with a handle it made up opens one, without [startSession]) stops
    the server when its connection ends: [fileClose] asserts that the client
    id is not empty. *)
Lemma unstarted_disconnect_aborts se s : fd_inv s -> unstarted se s ->
  lst (session2fd_map s) se <> [] -> disconnect stale se s = Abort.
Proof.
  intros Hs Hu Hl. unfold disconnect.
  destruct (index_session_run se s Hs) as (s1 & Hidx & Hi1 & Hh1 & Hr1 & _ & HG1).
  rewrite (bind_Ret _ _ _ _ _ Hidx). apply rest_split in Hr1 as (Hm1 & _).
  apply maps_fields in Hm1 as (Hc1 & _).
  destruct (lst (session2fd_map s) se) as [|p l] eqn:El; [done|]. clear Hl. cbn [for_each].
  destruct (ft_live _ _ _ _ Hi1 se p) as (h & Hh & _); [rewrite HG1, El; by left|].
  rewrite !bind_assoc, (bind_Ret _ _ _ _ _ (deref_live stale p h s1 Hh)).
  assert (forall k : string -> M (Api D) unit, (require_client se ≫= k) s1 = Abort) as Hab.
  { intros k. unfold require_client. rewrite bind_assoc. unfold unstarted in Hu. unfold index, mbind, M_bind.
    rewrite Hc1. destruct (session2client_map s !! se) as [c|]; simpl in *; subst; done. }
  unfold fileClose. by rewrite bind_assoc, Hab.
Qed.

(** ** Deleting a node *)

Lemma fileDelete_starts arg se xid c s d : fd_inv s -> session2client_map s !! se = Some c -> c <> "" ->
  db_checkAndDelete (fh_file_name arg) (fh_instance_number arg) (db s) = Ret true d ->
  exists p s1, fd_inv s1 /\ heap s1 !! p = Some arg /\ (se, p) ∈ lst (file2fd_map s1) (fh_file_name arg) /\
    rest s1 = rest (set_db d s) /\
    fileDelete stale arg se xid s =
    (close_all (fh_file_name arg) ;;
     present ← gets (fun s => file2fd_map s !! fh_file_name arg);
     modify (on_file2fd_map (delete (fh_file_name arg))) ;;
     cassert (bool_decide (is_Some present)) ;;
     modify (on_file2lockQueue_map (delete (fh_file_name arg))) ;;
     fd' ← deref stale p;
     index_mod on_client2ephemeral_map ∅ c (fun X => X ∖ {[fh_file_name fd']}) ;;
     erase_if_empty on_client2ephemeral_map ∅ set_empty c ;;
     reply_ok se xid true ;;
     sendContentChangeEvent (fh_file_name arg) ;;
     send_parent_event (fh_file_name arg) ;;
     modify (on_file2contentChange_map (delete (fh_file_name arg))) ;;
     modify (on_file2lockChange_map (delete (fh_file_name arg)))) s1.
Proof.
  intros Hs Hc Hne Hdel. unfold fileDelete. rewrite (bind_Ret _ _ _ _ _ (require_client_run se c s Hc Hne)).
  destruct (findFd_run stale se arg s Hs) as (p & s1 & Hf & Hi & Hh & _ & Hin & Hr & _).
  rewrite (bind_Ret _ _ _ _ _ Hf), (bind_Ret _ _ _ _ _ (deref_live stale p arg s1 Hh)).
  exists p, (set_db d s1). split_and!; [exact Hi|exact Hh|exact Hin| |].
  { unfold rest in *. simpl. injection Hr. congruence. }
  assert (db s1 = db s) as Hd by by apply (rest_split s s1) in Hr as (_ & ? & _).
  assert (delete_in_db arg se xid s1 = Ret true (set_db d s1)) as Hdb.
  { unfold delete_in_db, try_catch. rewrite call_db_run, Hd, Hdel. done. }
  by rewrite (bind_Ret _ _ _ _ _ Hdb).
Qed.

(** Everything the tables knew of [f] is gone. *)
Definition forgets_file f s s' : Prop :=
  lst (file2fd_map s') f = [] /\
  file2lockQueue_map s' = delete f (file2lockQueue_map s) /\
  file2lockChange_map s' = delete f (file2lockChange_map s) /\
  file2contentChange_map s' = delete f (file2contentChange_map s).

(** A [fileDelete] that the database accepts reads the handle it has just
    freed: its loop deletes every handle object of the file, the caller's
    included, and then uses [fd->file_name].  Apart from that it returns,
    forgets every handle, event registration and waiting session of the file,
    and the calls waiting for its lock are never answered. *)
Lemma fileDelete_use_after_free arg se xid c s d : fd_inv s ->
  session2client_map s !! se = Some c -> c <> "" ->
  db_checkAndDelete (fh_file_name arg) (fh_instance_number arg) (db s) = Ret true d ->
  exists p s', fileDelete stale arg se xid s = Ret tt s' /\ fd_inv s' /\ db s' = d /\
    ub s' = ub s ++ [UseAfterFree p] /\ forgets_file (fh_file_name arg) s s'.
Proof.
  intros Hs Hc Hne Hdel. set (f := fh_file_name arg).
  destruct (fileDelete_starts arg se xid c s d Hs Hc Hne Hdel) as (p & s1 & Hi & Hh & Hin & Hr & ->).
  destruct (close_erase_run f s1 s1 (safe_post_refl _ Hi)) as (s2 & s3 & Hca & Hpr & E3 & Hi3 & Hu3 & Hr3 & Hl3).
  rewrite (bind_Ret _ _ _ _ _ Hca), (bind_Ret (gets _) _ s2 (file2fd_map s2 !! f) s2) by done.
  rewrite (bind_Ret (modify _) _ s2 tt s3) by (by rewrite E3).
  rewrite bool_decide_true by done. change (cassert true) with (mret tt : M (Api D) unit). rewrite bind_ret_l.
  set (s4 := on_file2lockQueue_map (delete f) s3).
  rewrite (bind_Ret (modify _) _ s3 tt s4) by done.
  assert (deref stale p s4 = Ret (stale p) (on_ub (fun l => l ++ [UseAfterFree p]) s4)) as Hd.
  { unfold deref. simpl. by rewrite (Hl3 se p Hin). }
  rewrite (bind_Ret _ _ _ _ _ Hd). exists p.
  rewrite (bind_Ret (index_mod _ _ _ _) _ _ tt _ eq_refl), (bind_Ret (erase_if_empty _ _ _ _) _ _ tt _ eq_refl).
  unfold reply_ok, sendContentChangeEvent.
  rewrite (bind_Ret _ _ _ _ _ (reply_run _ _ _ _)), (bind_Ret _ _ _ _ _ (send_events_run _ _ _ _)).
  rewrite (bind_Ret _ _ _ _ _ (parent_event_run _ _)).
  eexists. split; [reflexivity|].
  apply rest_split in Hr3 as (Hm3 & Hd3 & _), Hr as (Hm & Hdb & Hu & _).
  apply maps_fields in Hm3 as (_ & Q3 & _ & _ & L3 & C3), Hm as (_ & Q1 & _ & _ & L1 & C1).
  assert (lst (file2fd_map s3) f = []) as Hf3.
  { rewrite E3. unfold lst. simpl. by rewrite lookup_delete_eq. }
  unfold forgets_file. split_and!; [exact Hi3| | |exact Hf3| | |]; simpl.
  - by rewrite Hd3, Hdb.
  - by rewrite Hu3, Hu.
  - by rewrite Q3, Q1.
  - by rewrite L3, L1.
  - by rewrite C3, C1.
Qed.

(** ** A new leader *)

Lemma hold_all_run (l : list (string * string)) s : exists s',
  for_each l (fun p : string * string => index_mod on_client2heldLock_map ∅ p.2 (fun X => {[p.1]} ∪ X)) s = Ret tt s' /\
  (forall owner f, f ∈ default ∅ (client2heldLock_map s' !! owner) <->
     (f, owner) ∈ l \/ f ∈ default ∅ (client2heldLock_map s !! owner)) /\
  s' = on_client2heldLock_map (fun _ => client2heldLock_map s') s.
Proof.
  revert s. induction l as [|[f0 o0] l IH]; intros s.
  { exists s. split_and!; [done| |by destruct s]. intros o f. split; [by right|].
    intros [Hin|Hin]; [by apply elem_of_nil in Hin|done]. }
  destruct (IH (on_client2heldLock_map (fun m => <[o0 := {[f0]} ∪ default ∅ (m !! o0)]> m) s)) as (s' & Hr & Hm & He).
  exists s'. split_and!; [exact Hr| |exact He]. intros o f. rewrite Hm, elem_of_cons. simpl.
  destruct (decide (o = o0)) as [->|Ho].
  - rewrite lookup_insert_eq. simpl. set_solver.
  - rewrite lookup_insert_ne by done. split; [tauto|]. intros [[|]|]; [congruence|tauto|tauto].
Qed.

(** [initializeLeader] forgets sessions, handles, queues, ephemeral nodes
    and event registrations and rebuilds the table of held locks from the
    database: a client holds exactly the files whose stored owner it is (the
    free files under the name "empty").  The handle objects of the previous
    leadership stay allocated without being in any table. *)
Lemma initializeLeader_recovers s :
  match db_getStates (db s) with
  | Ret l d => exists s', initializeLeader s = Ret tt s' /\ db s' = d /\
      maps s' = (∅, ∅, client2heldLock_map s', ∅, ∅, ∅) /\ file2fd_map s' = ∅ /\ session2fd_map s' = ∅ /\
      (forall client f, f ∈ held_files s' client <-> (f, client) ∈ l) /\
      heap s' = heap s /\ out s' = out s
  | Throw e d => exists s', initializeLeader s = Throw e s' /\ client2heldLock_map s' = ∅
  | Abort => initializeLeader s = Abort
  | Diverge => initializeLeader s = Diverge
  end.
Proof.
  unfold initializeLeader. do 8 (rewrite (bind_Ret (modify _) _ _ tt _ eq_refl)).
  rewrite call_db_run. cbn [db on_session2client_map on_file2fd_map on_session2fd_map on_file2lockQueue_map
    on_client2heldLock_map on_client2ephemeral_map on_file2lockChange_map on_file2contentChange_map].
  destruct (db_getStates (db s)) as [l d|e d| |]; [|by eexists|done|done].
  match goal with |- context [for_each l _ ?s1] => destruct (hold_all_run l s1) as (s' & -> & Hm & He) end.
  exists s'. split; [done|]. rewrite He. split_and!; try done.
  intros o f. unfold held_files. simpl. rewrite Hm. simpl. rewrite lookup_empty. simpl. set_solver.
Qed.
End props.

(** ** Runs of a server with one replica *)

#[local] Existing Instance strict_engine.

Definition one_server : DbApi Db := ServerDBPaxos (PaxosUser0 := single_replica sample_hash 0).
#[local] Existing Instance one_server.

Definition no_stale (p : Z) : FileHandler := mkFileHandler 0 0 "" 0 false.

(** A handle on [/d/f] that no server made up. *)
Definition forged : FileHandler := mkFileHandler 0 0 "/d/f" 2 false.

Definition three_sessions : list (request * Z * Z) :=
  [(Q_startSession "alice", 1, 1); (Q_startSession "bob", 2, 1); (Q_startSession "carol", 3, 1)].

Definition run_on_sample (qs : list (request * Z * Z)) : outcome (Api Db) unit :=
  serve sample_hash no_stale qs (api_init sample_db 0).

(** What a run has to say of the holders of [/d/f] and its owner in the database. *)
Definition lock_state (o : outcome (Api Db) unit) : option (list string * option string) :=
  match o with
  | Ret _ s => Some (filter (fun c => "/d/f" ∈ default ∅ (client2heldLock_map s !! c)) ["alice"; "bob"; "carol"],
                     lock_owner <$> fs (db s) !! "/d/f")
  | _ => None
  end.

Definition replies_to (se xid : Z) (o : outcome (Api Db) unit) : list reply_val :=
  match o with
  | Ret _ s => omap (fun m => match m with
      | OReply se' xid' r => if (se =? se') && (xid =? xid') then Some r else None
      | OEvent _ _ => None end) (out s)
  | _ => []
  end.

(** Mutual exclusion fails when a lock is handed on.  Alice holds the lock,
      Bob waits, Alice releases: Bob is told that he has the lock, but the
      database is left saying that nobody has, so Carol's [tryAcquire] is told
      the same while Bob holds it. *)
Lemma lock_handover_breaks_exclusion :
  let run := run_on_sample (three_sessions ++
    [(Q_acquire forged, 1, 2); (Q_acquire forged, 2, 2); (Q_release forged, 1, 3); (Q_tryAcquire forged, 3, 2)]) in
  replies_to 2 2 run = [RepBool (RB_val true)] /\ replies_to 3 2 run = [RepBool (RB_val true)] /\
  lock_state run = Some (["bob"; "carol"], Some "carol").
Proof. vm_compute. done. Qed.

(** [release] does not ask who holds the lock: Bob, who does not hold it,
      releases Alice's lock and takes it, while Alice is not told. *)
Lemma stranger_releases_lock :
  let run := run_on_sample (three_sessions ++
    [(Q_acquire forged, 1, 2); (Q_release forged, 2, 2); (Q_tryAcquire forged, 2, 3)]) in
  replies_to 2 2 run = [RepBool (RB_val true)] /\ replies_to 2 3 run = [RepBool (RB_val true)] /\
  lock_state run = Some (["alice"; "bob"], Some "bob").
Proof. vm_compute. done. Qed.

(** ** The theorems on concrete states *)

(** The state after a run, with its invariant. *)
Definition state_of (o : outcome (Api Db) unit) : Api Db :=
  match o with Ret _ s => s | _ => api_init sample_db 0 end.

Lemma state_of_inv qs : fd_inv (state_of (run_on_sample qs)).
Proof.
  unfold run_on_sample. pose proof (serve_sat sample_hash no_stale qs (api_init sample_db 0) (api_init_inv _ _)) as H.
  destruct (serve _ _ _ _); try apply api_init_inv. exact H.
Qed.

Definition waiting_state : Api Db :=
  state_of (run_on_sample (three_sessions ++ [(Q_acquire forged, 1, 2); (Q_acquire forged, 2, 2); (Q_acquire forged, 3, 2)])).

Lemma fileClose_hangs_witness : fileClose no_stale forged 3 4 waiting_state = Diverge.
Proof.
  apply (fileClose_hangs no_stale forged 3 4 "carol" waiting_state 2).
  - exact (state_of_inv _).
  - vm_compute. reflexivity.
  - discriminate.
  - vm_compute. discriminate.
  - vm_compute. discriminate.
  - vm_compute. reflexivity.
  - discriminate.
Defined.

Definition unstarted_state : Api Db := state_of (run_on_sample [(Q_getContentsAndStat forged, 9, 1)]).

Lemma unstarted_disconnect_aborts_witness : disconnect no_stale 9 unstarted_state = Abort.
Proof.
  apply (unstarted_disconnect_aborts no_stale 9 unstarted_state).
  - exact (state_of_inv _).
  - vm_compute. reflexivity.
  - vm_compute. discriminate.
Defined.

(** Three sessions, of Alice, Bob and Carol, and no lock held. *)
Definition started_state : Api Db := state_of (run_on_sample three_sessions).

(** The same with Alice holding the lock of [/d/f] and Bob waiting for it. *)
Definition contended_state : Api Db :=
  state_of (run_on_sample (three_sessions ++ [(Q_acquire forged, 1, 2); (Q_acquire forged, 2, 2)])).

Definition forged_update : ArgSetContents := mkArgSetContents forged "hello".

Lemma started_bob : session2client_map started_state !! 2 = Some "bob".
Proof. vm_compute. reflexivity. Qed.
Lemma contended_carol : session2client_map contended_state !! 3 = Some "carol".
Proof. vm_compute. reflexivity. Qed.

(** What the database says to the calls below. *)
Lemma started_update : exists d, db_checkAndUpdate "/d/f" 2 "hello" (db started_state) = Ret true d.
Proof. eexists. vm_compute. reflexivity. Qed.
Lemma started_read : exists meta d, db_checkAndRead "/d/f" 2 (db started_state) = Ret (true, "", meta) d.
Proof. eexists _, _. vm_compute. reflexivity. Qed.
Lemma started_delete : exists d, db_checkAndDelete "/d/f" 2 (db started_state) = Ret true d.
Proof. eexists. vm_compute. reflexivity. Qed.
Lemma contended_lock : exists d, db_testAndSetLockOwner "/d/f" 2 "carol" (db contended_state) = Ret false d.
Proof. eexists. vm_compute. reflexivity. Qed.

Lemma setContents_spec_witness : exists d,
  returns (setContents no_stale forged_update 2 7 started_state) d
    (out started_state ++ bool_msgs 2 7 (RB_val true) ++
       event_msgs (file2contentChange_map started_state) EV_CONTENT_MODIFIED "/d/f")
    (maps started_state) (ub started_state).
Proof.
  generalize started_state, (state_of_inv _ : fd_inv started_state), started_update.
  intros s Hs [d E]. pose proof (setContents_spec no_stale forged_update 2 7 s Hs) as H.
  cbv zeta in H.
  cbn [forged_update forged asc_fd asc_content fh_file_name fh_instance_number] in H. rewrite E in H. exists d. exact H.
Defined.

Lemma getContentsAndStat_spec_witness : exists d meta,
  returns (getContentsAndStat no_stale forged 2 7 started_state) d
    (out started_state ++ reply_msgs 2 7 (RepContents (RC_val (mkContentsAndStat "" meta))))
    (maps started_state) (ub started_state).
Proof.
  generalize started_state, (state_of_inv _ : fd_inv started_state), started_read.
  intros s Hs (meta & d & E). pose proof (getContentsAndStat_spec no_stale forged 2 7 s Hs) as H.
  cbv zeta in H.
  change (fh_file_name forged) with "/d/f" in H. change (fh_instance_number forged) with 2 in H. rewrite E in H. exists d, meta. exact H.
Defined.

Lemma tryAcquire_spec_witness : exists d,
  returns (tryAcquire no_stale forged 3 7 contended_state) d
    (out contended_state ++ bool_msgs 3 7 (RB_val false)) (maps contended_state) (ub contended_state).
Proof.
  generalize contended_state, (state_of_inv _ : fd_inv contended_state), contended_carol, contended_lock.
  intros s Hs Hc [d E]. pose proof (tryAcquire_spec no_stale forged 3 7 "carol" s Hs Hc ltac:(discriminate)) as H.
  unfold lock_spec in H. cbv zeta in H.
  change (fh_file_name forged) with "/d/f" in H. change (fh_instance_number forged) with 2 in H. rewrite E in H. exists d. exact H.
Defined.

Lemma fileDelete_use_after_free_witness : exists p s',
  fileDelete no_stale forged 2 7 started_state = Ret tt s' /\
  ub s' = ub started_state ++ [UseAfterFree p].
Proof.
  generalize started_state, (state_of_inv _ : fd_inv started_state), started_bob, started_delete.
  intros s Hs Hc [d E].
  destruct (fileDelete_use_after_free no_stale forged 2 7 "bob" s d Hs Hc ltac:(discriminate) E)
    as (p & s' & H1 & _ & _ & H2 & _).
  exists p, s'. exact (conj H1 H2).
Defined.
