(* ===== verification/ChubbyApp.v ===== *)
(** * The server process: the logic on its front end

    [server/server.cc] registers one service, [api_v1_server], on one
    [chubby_server].  The handlers of [ServerLogic] record what they hand to
    [chubby_server::reply] and [chubby_server::send]; here the record of a
    handler is delivered, in order, to the functions of [ChubbyServer].  (The
    handlers do not look at the front end, so that it makes no difference that
    the messages leave when the handler has ended.) *)

From S2P Require Import Prelude Endian Xdr RpcMsg Rpc MsgSock ServerTypes Interfaces ChubbyServer.
From S2P Require Import DbApi ServerLogic LogicInv LogicErrors LogicProps.

(** A new process. *)
Definition new_server {A} (a : A) : Server A := mkServer ∅ ∅ ∅ ∅ 0 0 ∅ 1 [] a.

Section app.
Context {D : Type} `{!DbApi D} (str_hash : string -> Z) (stale : Z -> FileHandler).
Context (write_ok : Z -> bytes -> bool).
Abbreviation Op := (M (Server (Api D))).

(** [chubby_server_->reply(session, xid, result)] and
    [chubby_server_->send<event_callback_t>(session, content)] *)
Definition deliver (o : output) : Op unit :=
  match o with
  | OReply session xid (RepBool r) => srv_reply session xid r
  | OReply session xid (RepFd r) => srv_reply session xid r
  | OReply session xid (RepContents r) => srv_reply session xid r
  | OReply session xid (RepInt r) => srv_reply session xid r
  | OEvent session evc => srv_send write_ok handler_v1 P_event_callback session evc
  end.

Definition run_logic (m : M (Api D) unit) : Op unit := fun s =>
  match m (on_out (fun _ => []) (app s)) with
  | Ret _ a => for_each (out a) deliver (set_app (on_out (fun _ => []) a) s)
  | Throw e a => (for_each (out a) deliver ;; throw e) (set_app (on_out (fun _ => []) a) s)
  | Abort => Abort
  | Diverge => Diverge
  end.

(** The methods of [api_v1_server]. *)
Definition api_request (p : api_proc) : api_arg p -> request :=
  match p with
  | P_fileOpen => Q_fileOpen
  | P_fileClose => Q_fileClose
  | P_fileDelete => Q_fileDelete
  | P_getContentsAndStat => Q_getContentsAndStat
  | P_setContents => Q_setContents
  | P_acquire => Q_acquire
  | P_tryAcquire => Q_tryAcquire
  | P_release => Q_release
  | P_startSession => Q_startSession
  | P_fileReopen => Q_fileReopen
  | P_increment => Q_increment
  | P_decrement => Q_decrement
  end.

Definition api_method (p : api_proc) (arg : api_arg p) (session xid : Z) : Op unit :=
  run_logic (handle str_hash stale (api_request p arg) session xid).

Definition api_service : chubby_service (A := Api D) :=
  Service (async_process api_v1 api_method) (fun session => run_logic (disconnect stale session)).

(** [chubby_server.register_service(s)] *)
Definition chubby_services : gmap Z (gmap Z (chubby_service (A := Api D))) :=
  {[program api_v1 := {[version api_v1 := api_service]}]}.

(** What happens to the process: a connection, bytes on a connection or its
    end, a connection that becomes writable. *)
Inductive srv_event :=
| EvAccept (fd : Z) (peer_name : string) (a : list written)
| EvReceive (session : Z) (m : option bytes)
| EvWritable (ms : Z).

(** The registered callback of a writable descriptor. *)
Definition flush_sock (ms : Z) : Op unit := fun s =>
  match socks s !! ms with
  | None => Ret tt s
  | Some k =>
      match write_step Writable (sk_out k) with
      | None => Abort
      | Some w => Ret tt (set_socks (<[ms := mkSock (sk_fd k) w]> (socks s)) (next_sock s) s)
      end
  end.

Definition srv_step (e : srv_event) : Op unit :=
  match e with
  | EvAccept fd peer_name a => accept_cb fd peer_name a ;; mret tt
  | EvReceive session m => srv_receive_cb chubby_services session m
  | EvWritable ms => flush_sock ms
  end.

(** [chubby_server::run] *)
Definition srv_run (es : list srv_event) : Op unit := for_each es srv_step.

(** ** The front end and the logic stay consistent *)

(** What the kernel and the poll loop let happen: a new connection has a
    descriptor that is not in use, and only live connections are read.  The
    session counter has not wrapped around. *)
Definition possible (e : srv_event) (s : Server (Api D)) : Prop :=
  match e with
  | EvAccept fd _ _ => fd_to_sessionid_map_ s !! fd = None /\ session_id_allocator_ s + 1 < 2 ^ 32
  | EvReceive session _ => is_Some (sessionid_to_msgsock_map_ s !! session)
  | EvWritable _ => True
  end.

(** The states of a server process. *)
Inductive srv_reach : Server (Api D) -> Prop :=
| reach_new d msn : srv_reach (new_server (api_init d msn))
| reach_step e s s' : srv_reach s -> possible e s -> srv_step e s = Ret tt s' -> srv_reach s'.

Lemma keeps_deliver P o : keeps P (deliver o).
Proof. destruct o as [session xid []|session evc]; [apply keeps_reply..|apply keeps_send]. Qed.

Lemma ok_app a (s : Server (Api D)) : sessions_ok s -> sessions_ok (set_app a s).
Proof. by intros [? ? ? ? ? ? ? ?]. Qed.

(** A handler that keeps the handle tables, run on the front end. *)
Lemma keeps_run_logic m : (forall a, fd_inv a -> sat (m a) (fun _ => fd_inv) (fun _ => fd_inv)) ->
  keeps fd_inv (run_logic m).
Proof.
  intros Hm s Hs. unfold run_logic. set (a0 := on_out (fun _ => []) (app s)).
  assert (fd_inv (app s) -> sat (m a0) (fun _ => fd_inv) (fun _ => fd_inv)) as Ha by (intros Ha; by apply Hm).
  assert (forall e, keeps fd_inv (throw e : Op unit)) as He by (intros e; apply keeps_throw).
  destruct (m a0) as [u a|e a| |]; [..|done|done]; set (s1 := set_app (on_out (fun _ => []) a) s).
  all: assert (sessions_ok s1) as Hs1 by by apply ok_app.
  all: assert (fd_inv (app s1) = fd_inv a) as Ea by done.
  all: assert (sessionid_to_msgsock_map_ s1 = sessionid_to_msgsock_map_ s /\
    session_id_allocator_ s1 = session_id_allocator_ s) as [E1 E2] by done.
  all: clearbody s1.
  - eapply sat_mono; [apply (keeps_for_each fd_inv (out a) deliver (keeps_deliver fd_inv) s1 Hs1)|..];
      intros ? s2 (? & ? & ? & HP); rewrite Ea in HP; unfold same_sessions; naive_solver congruence.
  - eapply sat_mono; [apply (keeps_bind fd_inv (for_each (out a) deliver) (fun _ => throw e)
      (keeps_for_each fd_inv (out a) deliver (keeps_deliver fd_inv)) (fun _ => He e) s1 Hs1)|..];
      intros ? s2 (? & ? & ? & HP); rewrite Ea in HP; unfold same_sessions; naive_solver congruence.
Qed.

Lemma api_keeping : keeping fd_inv api_service.
Proof.
  assert (forall q se x, keeps fd_inv (run_logic (handle str_hash stale q se x))) as Hr.
  { intros q se x. apply keeps_run_logic. intros a. apply handle_inv. }
  split; cbn [api_service asynchronized_process svc_disconnect]; [|intros id; apply (Hr Q_disconnect id 0)].
  intros hdr g id ms. unfold async_process. destruct (body hdr) as [c|]; [|apply keeps_ret].
  destruct (negb _); [apply keeps_ret|]. destruct (dispatched _ _) as [p|].
  - apply keeps_bind; [apply keeps_load_all|]. intros arg. apply Hr.
  - apply keeps_make. intros m Hm. by apply keeps_putmsg.
Qed.

Lemma services_keeping : map_Forall (fun _ => map_Forall (fun _ => keeping fd_inv)) chubby_services.
Proof.
  intros i x. unfold chubby_services. rewrite lookup_singleton_Some. intros [_ <-] j y.
  rewrite lookup_singleton_Some. intros [_ <-]. apply api_keeping.
Qed.

Lemma new_server_ok (a : Api D) : sessions_ok (new_server a).
Proof.
  split; cbn [new_server sessionid_to_msgsock_map_ socks fd_to_sessionid_map_ sessionid_to_clientid_map_ sessionid_to_fd_map_];
    intros *; rewrite ?lookup_empty; try done; try (by intros [? ?]).
Qed.

Lemma step_ok e s : sessions_ok s -> fd_inv (app s) -> possible e s ->
  sat (srv_step e s) (fun _ s' => sessions_ok s' /\ fd_inv (app s')) (fun _ s' => True).
Proof.
  intros Hs Ha. destruct e as [fd name a|id m|ms]; cbn [possible srv_step].
  - intros [Hfd Hid]. destruct (accept_run fd name a s Hs Hfd Hid) as (s' & Hr & Hs' & _ & _ & E).
    rewrite (bind_Ret _ _ _ _ _ Hr). cbn. by rewrite E.
  - intros Hid. eapply sat_mono; [by apply (receive_ok fd_inv chubby_services services_keeping id m s)| |done].
    intros ? s' (? & _ & _ & HP). split; [done|by apply HP].
  - intros _. unfold flush_sock. destruct (socks s !! ms) as [k|] eqn:E; [|done].
    destruct (so_out s Hs ms k E) as [put Hput]. destruct (write_step_ok Writable put _ I Hput) as (w & -> & Hw). unfold sat.
    destruct (ok_socks fd_inv s (<[ms := mkSock (sk_fd k) w]> (socks s)) _ (direct s) (xid_send_counter_ s) Hs eq_refl)
      as (? & _ & _ & HP); [| |split; [done|by apply HP]]; intros ms';
      (destruct (decide (ms' = ms)) as [->|]; [rewrite lookup_insert_eq|rewrite lookup_insert_ne by done]).
    + by rewrite E.
    + done.
    + intros k' [= <-]. by eexists.
    + apply (so_out s Hs).
Qed.

(** C3: in every state that a server process reaches, whatever bytes arrive,
    whichever connections open, close or block and whatever the database
    answers, the four maps of sessions agree with each other and with the live
    sockets: a session has one socket and one descriptor, shared with no other
    session, no socket is leaked or dangling, and the tables of handles are
    consistent.  The maps have no entries of other sessions, except entries with
    descriptor 0 in [sessionid_to_fd_map_], which an event to a session that is
    gone leaves there ([disconnect_writes_descriptor_0]).  [reply] and [send] are
    taken to return at their ends, which lack a [return]. *)
Theorem sessions_consistent s : srv_reach s -> sessions_ok s /\ fd_inv (app s).
Proof.
  induction 1 as [d msn|e s s' _ [IH1 IH2] Hp Hr].
  - split; [apply new_server_ok|apply api_init_inv].
  - pose proof (step_ok e s IH1 IH2 Hp) as H. by rewrite Hr in H.
Qed.

(** ** What a request does *)

(** The bytes of a result, and what a reply adds to the stream of session [i]. *)
Definition reply_wire (r : reply_val) : bytes :=
  match r with RepBool r => wire r | RepFd r => wire r | RepContents r => wire r | RepInt r => wire r end.
Definition reply_valid (r : reply_val) : Prop :=
  match r with RepBool r => xdr_valid r | RepFd r => xdr_valid r | RepContents r => xdr_valid r | RepInt r => xdr_valid r end.
Definition reply_frame (i : Z) (o : output) : bytes :=
  match o with
  | OReply session xid r => if i =? session then frame_of (wire (reply_hdr xid) ++ reply_wire r) else []
  | OEvent _ _ => []
  end.

Definition event_frame (x : Z) (evc : EventContent) : bytes :=
  frame_of (wire (call_hdr handler_v1 P_event_callback x) ++ wire evc).
(** The direct writes of the events in a list of messages, from the counter [x] on. *)
Fixpoint event_writes (fds : gmap Z Z) (x : Z) (l : list output) : Z * list (Z * bytes) :=
  match l with
  | [] => (x, [])
  | OReply _ _ _ :: l => event_writes fds x l
  | OEvent session evc :: l =>
      let x := wrap32 (x + 1) in
      let (x', w) := event_writes fds x l in
      (x', (default 0 (fds !! session), event_frame x evc) :: w)
  end.

(** A message that can be delivered: its session is live, it fits a message,
    and a direct write takes it whole. *)
Definition deliverable (s : Server (Api D)) (o : output) : Prop :=
  match o with
  | OReply session xid r => is_Some (sessionid_to_msgsock_map_ s !! session) /\ u32 xid /\ xid <> INTERNAL /\
      reply_valid r /\ blen (reply_wire r) + 24 < 2 ^ 31
  | OEvent session evc => is_Some (sessionid_to_msgsock_map_ s !! session) /\
      (exists fd, sessionid_to_fd_map_ s !! session = Some fd /\
        forall x, write_ok fd (event_frame x evc) = true) /\
      xdr_valid evc /\ blen (wire evc) + 40 < 2 ^ 31
  end.

Definition no_event (i : Z) (l : list output) : Prop :=
  Forall (fun o => match o with OEvent session _ => session <> i | OReply _ _ _ => True end) l.

(** One message. *)
Lemma deliver_run o s : sessions_ok s -> deliverable s o ->
  let '(x, w) := event_writes (sessionid_to_fd_map_ s) (xid_send_counter_ s) [o] in
  exists s', deliver o s = Ret tt s' /\ front_grows x w s s' /\
    forall i put, sent i put s -> no_event i [o] -> sent i (put ++ reply_frame i o) s'.
Proof.
  intros Hs. destruct o as [id x r|id evc]; cbn [event_writes].
  - intros (Hid & Hx & Hi & Hr & Hl). unfold INTERNAL in Hi.
    assert (exists s', deliver (OReply id x r) s = Ret tt s' /\ front_grows (xid_send_counter_ s) [] s s' /\
      forall i put, sent i put s ->
        sent i (put ++ (if i =? id then frame_of (wire (reply_hdr x) ++ reply_wire r) else [])) s') as (s' & ? & ? & Ht).
    { destruct r as [r|r|r|r]; cbn [deliver reply_wire reply_valid] in *; by apply srv_reply_run. }
    exists s'. split_and!; [done..|]. intros i put Hput _. by apply Ht.
  - intros ([ms' Hms'] & (fd & Hfd & Hok) & Hv & Hl). rewrite Hfd. cbn [default from_option].
    destruct (srv_send_run write_ok handler_v1 P_event_callback id evc fd s Hs Hfd (Hok _) Hv Hl) as (s' & ? & ? & Ht).
    exists s'. split_and!; [done..|]. intros i put Hput He. cbn [reply_frame]. rewrite app_nil_r.
    apply Ht; [|done]. intros Hi. apply Forall_cons_1 in He as [He _]. destruct Hput as (ms & k & Hms & _).
    destruct (so_live s Hs i ms Hms) as (fd' & k' & F1 & F2 & _). assert (fd' = fd) as -> by congruence.
    apply He. destruct (so_live s Hs id ms' Hms') as (fd2 & k2 & G1 & G2 & _). congruence.
Qed.

Lemma event_writes_cons fds x o l :
  event_writes fds x (o :: l) =
    let '(x1, w1) := event_writes fds x [o] in let '(x2, w2) := event_writes fds x1 l in (x2, w1 ++ w2).
Proof. destruct o; cbn; by destruct (event_writes _ _ l). Qed.

Lemma deliver_list l s : sessions_ok s -> Forall (deliverable s) l ->
  let '(x, w) := event_writes (sessionid_to_fd_map_ s) (xid_send_counter_ s) l in
  exists s', for_each l deliver s = Ret tt s' /\ front_grows x w s s' /\
    forall i put, sent i put s -> no_event i l -> sent i (put ++ concat (reply_frame i <$> l)) s'.
Proof.
  revert s. induction l as [|o l IH]; intros s Hs Hl.
  { exists s. split_and!; [done|split_and!; try done; by rewrite app_nil_r|]. intros. by rewrite app_nil_r. }
  apply Forall_cons_1 in Hl as [Ho Hl]. rewrite event_writes_cons.
  pose proof (deliver_run o s Hs Ho) as H. destruct (event_writes _ _ [o]) as [x1 w1].
  destruct H as (s1 & Hr & ((Hs1 & E1 & E2 & _) & E3 & E4 & E5 & E6) & Ht).
  assert (Forall (deliverable s1) l) as Hl1.
  { eapply Forall_impl; [|exact Hl]. intros []; unfold deliverable; by rewrite E1, ?E4. }
  specialize (IH s1 Hs1 Hl1). rewrite E4, E5 in IH. destruct (event_writes _ x1 l) as [x2 w2].
  destruct IH as (s' & Hr' & ((Hs' & F1 & F2 & _) & F3 & F4 & F5 & F6) & Ht').
  exists s'. split_and!.
  - cbn. by rewrite (bind_Ret _ _ _ _ _ Hr).
  - unfold front_grows, same_sessions. split_and!; try done; try congruence. by rewrite F6, E6, app_assoc.
  - intros i put Hput He. apply Forall_cons_1 in He as [He Hel]. cbn. rewrite app_assoc.
    apply Ht'; [|done]. apply Ht; [done|]. by constructor.
Qed.

(** A request on a live connection runs the method of its procedure. *)
Lemma request_runs p (arg : arg_wire_type api_v1 p) id x s s' : is_Some (sessionid_to_msgsock_map_ s !! id) ->
  u32 x -> xdr_valid arg -> api_method p arg id x s = Ret tt s' ->
  srv_receive_cb chubby_services id (Some (wire (call_hdr api_v1 p x, arg))) s = Ret tt s'.
Proof.
  intros [ms Hms] Hx Ha Hrun. unfold srv_receive_cb, asynchronized_dispatch.
  rewrite (route_call chubby_services api_v1 p arg x {[version api_v1 := api_service]} api_service Hx Ha)
    by apply lookup_singleton_eq.
  unfold catch_xdr at 1, try_catch. rewrite (bind_Ret (gets _) _ s (Some ms) s) by (unfold gets; by rewrite Hms).
  unfold catch_xdr, try_catch.
  assert (asynchronized_process api_service (call_hdr api_v1 p x) (wire arg) id ms s = Ret tt s') as ->; [|done].
  cbn [api_service asynchronized_process]. unfold async_process. cbn [body call_hdr prepare_call cb_rpcvers cb_prog cb_vers cb_proc xid].
  rewrite !Z.eqb_refl, dispatched_proc. cbn [negb andb]. unfold async_dispatch.
  by rewrite (bind_Ret _ _ _ _ _ (load_all_wire arg s Ha)).
Qed.

(** C4: a request on a live connection whose handler returns, and whose replies
    and events can be delivered ([deliverable]: they are for live sessions and fit
    a message, and the descriptor takes all the bytes of an event at once), runs
    exactly the handler of its procedure with its argument, session and
    transaction number: the logic is left in the handler's state, every event is
    written to the descriptor of its session, and every connection to which this
    request sends no event is sent the replies that the handler made for its
    session, in their order and behind everything it was sent before.  An event
    is written at once and may overtake, or cut, a reply that waits
    ([event_splits_reply]).  [reply] and [send] are taken to return at their ends,
    which lack a [return]. *)
Theorem request_served p (arg : arg_wire_type api_v1 p) id x s a' :
  sessions_ok s -> is_Some (sessionid_to_msgsock_map_ s !! id) -> u32 x -> xdr_valid arg ->
  handle str_hash stale (api_request p arg) id x (on_out (fun _ => []) (app s)) = Ret tt a' ->
  Forall (deliverable s) (out a') ->
  exists s', srv_receive_cb chubby_services id (Some (wire (call_hdr api_v1 p x, arg))) s = Ret tt s' /\
    sessions_ok s' /\ app s' = on_out (fun _ => []) a' /\
    sessionid_to_msgsock_map_ s' = sessionid_to_msgsock_map_ s /\
    direct s' = direct s ++ (event_writes (sessionid_to_fd_map_ s) (xid_send_counter_ s) (out a')).2 /\
    forall i put, sent i put s -> no_event i (out a') -> sent i (put ++ concat (reply_frame i <$> out a')) s'.
Proof.
  intros Hs Hid Hx Ha Hrun Hout. set (s1 := set_app (on_out (fun _ => []) a') s).
  pose proof (deliver_list (out a') s1 (ok_app _ s Hs)) as H.
  change (event_writes (sessionid_to_fd_map_ s1) (xid_send_counter_ s1)) with
    (event_writes (sessionid_to_fd_map_ s) (xid_send_counter_ s)) in H.
  destruct (event_writes (sessionid_to_fd_map_ s) (xid_send_counter_ s) (out a')) as [x' w].
  destruct (H Hout) as (s' & Hr & ((Hs' & E1 & _ & _) & E3 & E4 & E5 & E6) & Ht).
  exists s'. split_and!; try done. apply request_runs; [done..|]. unfold api_method, run_logic. by rewrite Hrun.
Qed.
End app.
