(* ===== verification/ChubbyProps.v ===== *)
(** * Runs of the server process

    The theorems of [ChubbyApp] on concrete states, and three runs in which
    the front end and the logic do not fit: a closed session that is still
    written to, a lock that is handed to a session that is gone, and an event
    in the middle of a reply. *)

From S2P Require Import Prelude Endian Xdr RpcMsg Rpc MsgSock ServerTypes Interfaces ChubbyServer.
From S2P Require Import DbApi ServerDB ServerDBProps Backstore BackstoreRefine ServerLogic LogicInv LogicErrors.
From S2P Require Import LogicProps ChubbyApp.

#[local] Existing Instance strict_engine.
#[local] Existing Instance one_server.

(** One replica over [sample_db]; [write] takes what it is given. *)
Definition server_run (es : list srv_event) : outcome (Server (Api Db)) unit :=
  srv_run sample_hash no_stale (fun _ _ => true) es (new_server (api_init sample_db 0)).

(** The bytes of a request, and a connection on descriptor [4 + id] that
    starts its session. *)
Definition asks (id : Z) (p : api_proc) (a : arg_wire_type api_v1 p) (x : Z) : list srv_event :=
  [EvReceive id (Some (wire (call_hdr api_v1 p x, a)))].
Definition fluent : list written := replicate 10 (Wrote 4000).
Definition login (id : Z) (name : string) : list srv_event :=
  EvAccept (4 + id) "host" fluent :: asks id P_startSession name 1.

(** The end of a session closes its handles after its socket and its maps
    are gone.  A client that holds a lock and listens to [EV_LOCK_CHANGED] on
    the node disconnects: the event of the release goes to descriptor 0, the
    standard input of the server. *)
Lemma disconnect_writes_descriptor_0 :
  match server_run (login 1 "alice" ++ asks 1 P_fileOpen (mkArgOpen "/d/f" 0x102) 2 ++
                    asks 1 P_acquire forged 3 ++ [EvReceive 1 None]) with
  | Ret _ s => (direct s).*1 = [5; 0] /\ socks s = ∅ /\ sessionid_to_fd_map_ s !! 1 = Some 0
  | _ => False
  end.
Proof. vm_compute. done. Qed.

(** Three clients; the last two wait for the lock of the first. *)
Definition waiters : list srv_event :=
  login 1 "alice" ++ asks 1 P_acquire forged 2 ++ login 2 "bob" ++ asks 2 P_acquire forged 2 ++
  login 3 "carol" ++ asks 3 P_acquire forged 2.

(** The end of a session leaves its calls in the queues of locks.  When
    the lock is released it is handed to the session that is gone, and an
    assertion stops the server. *)
Lemma dead_waiter_stops_server :
  (exists s, server_run (waiters ++ [EvReceive 2 None]) = Ret tt s) /\
  server_run (waiters ++ EvReceive 2 None :: asks 1 P_release forged 3) = Abort /\
  server_run (waiters ++ [EvReceive 3 None]) = Diverge.
Proof. split_and!; [eexists; vm_compute; reflexivity|vm_compute; reflexivity..]. Qed.

(** An event that is sent while a reply is half written ends up in the
    middle of the reply, because [send] does not use the queue. *)
Lemma event_splits_reply :
  let reply1 := reply_frame 1 (OReply 1 1 (RepBool (RB_val true))) in
  let reply2 := reply_frame 1 (OReply 1 2 (RepInt 6)) in
  let event1 := event_frame 1 (mkEventContent EV_NOP "inc") in
  let event2 := event_frame 2 (mkEventContent EV_NOP "inc done") in
  match server_run (EvAccept 5 "host" [Wrote 10; Wrote 4000] :: asks 1 P_startSession "alice" 1 ++
                    asks 1 P_increment 5 2 ++ [EvWritable 1]) with
  | Ret _ s => (stream ∘ sk_out) <$> socks s !! 1 =
      Some (take 10 reply1 ++ event1 ++ event2 ++ drop 10 reply1 ++ reply2)
  | _ => False
  end.
Proof. vm_compute. reflexivity. Qed.

(** ** The theorems on concrete states *)

#[local] Instance possible_dec {D} e (s : Server (Api D)) : Decision (possible e s).
Proof. destruct e; cbn; apply _. Defined.

(** The state after the events, when each of them can happen. *)
Fixpoint runs_to (es : list srv_event) (s : Server (Api Db)) : option (Server (Api Db)) :=
  match es with
  | [] => Some s
  | e :: es =>
      if decide (possible e s) then
        match srv_step sample_hash no_stale (fun _ _ => true) e s with
        | Ret _ s => runs_to es s
        | _ => None
        end
      else None
  end.

Definition fresh : Server (Api Db) := new_server (api_init sample_db 0).

Lemma runs_to_reach es s s' : srv_reach sample_hash no_stale (fun _ _ => true) s -> runs_to es s = Some s' ->
  srv_reach sample_hash no_stale (fun _ _ => true) s'.
Proof.
  revert s. induction es as [|e es IH]; intros s Hs; cbn; [by intros [= <-]|].
  destruct (decide _) as [Hp|]; [|done]. destruct (srv_step _ _ _ e s) as [[] s1|? ?| |] eqn:E; try done.
  apply IH. by apply (reach_step _ _ _ e s).
Qed.

Lemma runs_to_ok es s s' : sessions_ok s -> fd_inv (app s) -> runs_to es s = Some s' -> sessions_ok s'.
Proof.
  revert s. induction es as [|e es IH]; intros s Hs Ha; cbn; [by intros [= <-]|].
  destruct (decide _) as [Hp|]; [|done].
  pose proof (step_ok sample_hash no_stale (fun _ _ => true) e s Hs Ha Hp) as Hok.
  destruct (srv_step _ _ _ e s) as [[] s1|? ?| |]; try done. by apply IH; apply Hok.
Qed.

Definition one_gone : option (Server (Api Db)) := runs_to (waiters ++ [EvReceive 2 None]) fresh.
Lemma one_gone_runs : exists s, one_gone = Some s.
Proof. eexists. vm_compute. reflexivity. Qed.

Lemma sessions_consistent_witness : exists s, one_gone = Some s /\ sessions_ok s /\ fd_inv (app s).
Proof.
  destruct one_gone_runs as [s Hs]. exists s. split; [exact Hs|].
  apply (sessions_consistent sample_hash no_stale (fun _ _ => true)).
  exact (runs_to_reach _ _ _ (reach_new _ _ _ sample_db 0) Hs).
Defined.

(** A started session asks for a lock. *)
Definition logged_in : option (Server (Api Db)) := runs_to (login 1 "alice") fresh.
Definition lock_reply : output := OReply 1 2 (RepBool (RB_val true)).

Lemma logged_in_runs : exists s a', logged_in = Some s /\ sessionid_to_msgsock_map_ s !! 1 = Some 1 /\
  (exists k, socks s !! 1 = Some k /\ wfail_ (sk_out k) = false /\ wqueue_ (sk_out k) = [] /\ wsize_ (sk_out k) = 0 /\
     wstart_ (sk_out k) = 0%nat /\ stream (sk_out k) = reply_frame 1 (OReply 1 1 (RepBool (RB_val true)))) /\
  handle sample_hash no_stale (Q_tryAcquire forged) 1 2 (on_out (fun _ => []) (app s)) = Ret tt a' /\
  out a' = [lock_reply].
Proof. do 2 eexists. split; [vm_compute; reflexivity|]. split_and!; [done|eexists; split_and!; done|vm_compute; reflexivity|done]. Qed.

Lemma request_served_witness : exists s s', logged_in = Some s /\
  srv_receive_cb (chubby_services sample_hash no_stale (fun _ _ => true)) 1
    (Some (wire (call_hdr api_v1 P_tryAcquire 2, forged))) s = Ret tt s' /\
  sent 1 (reply_frame 1 (OReply 1 1 (RepBool (RB_val true))) ++ reply_frame 1 lock_reply) s'.
Proof.
  destruct logged_in_runs as (s & a' & Hs & Hms & (k & Hk & Hf & Hq & Hz & Hst & Hw) & Hrun & Hout).
  destruct (request_served sample_hash no_stale (fun _ _ => true) P_tryAcquire forged 1 2 s a')
    as (s' & Hr & _ & _ & _ & _ & Ht).
  - exact (runs_to_ok _ _ _ (new_server_ok _) (api_init_inv _ _) Hs).
  - rewrite Hms. by eexists.
  - clear. done.
  - clear. vm_compute. done.
  - exact Hrun.
  - rewrite Hout. constructor; [|constructor]. clear -Hms. cbn. rewrite Hms. split_and!; done.
  - exists s, s'. split; [exact Hs|]. split; [exact Hr|]. rewrite Hout in Ht.
    specialize (Ht 1 (reply_frame 1 (OReply 1 1 (RepBool (RB_val true))))). cbn [fmap list_fmap concat] in Ht.
    rewrite app_nil_r in Ht. apply Ht; [|by constructor].
    exists 1, k. split; [exact Hms|]. split; [exact Hk|]. clear -Hf Hq Hz Hst Hw.
    unfold MsgSock.writes. rewrite Hf, <-Hw. unfold writer_ok, waiting, no_empty.
    rewrite Hq, Hst, Hz, app_nil_r. cbn. by split_and!; [constructor|..].
Defined.

Lemma handlers_never_throw_witness :
  u32 4 /\ handle sample_hash no_stale (Q_fileClose forged) 3 4 waiting_state <> Throw exn_sql waiting_state.
Proof. split; [done|]. apply handlers_never_throw. done. Defined.
