(* ===== verification/LogicAnswers.v ===== *)
(** * Every call of the server logic is answered or queued

    Counting replies and waiting calls through the handlers of [ServerLogic]
    that close no handle: a call is answered exactly once, or queued, in which
    case [release] answers it later. *)

From S2P Require Import Prelude ServerTypes DbApi ServerDBProps ServerLogic LogicInv LogicSpec LogicProps.

(** ** Counting *)

Definition is_reply (o : output) : bool := match o with OReply _ _ _ => true | OEvent _ _ => false end.

Definition count_replies (l : list output) : Z := Z.of_nat (length (filter (fun o => is_reply o) l)).

(** The calls that wait in the lock queues. *)
Definition queue_weight (m : gmap string (list (Z * Z))) : Z :=
  map_fold (fun _ q n => Z.of_nat (length q) + n) 0 m.

Lemma count_app l1 l2 : count_replies (l1 ++ l2) = count_replies l1 + count_replies l2.
Proof. unfold count_replies. rewrite list.filter_app, length_app. lia. Qed.

Lemma weight_delete m f q : m !! f = Some q -> queue_weight m = Z.of_nat (length q) + queue_weight (delete f m).
Proof.
  intros H. unfold queue_weight. apply (map_fold_delete_L (fun _ q n => Z.of_nat (length q) + n) 0 f q m); [|done].
  intros. lia.
Qed.

Lemma weight_missing m f : m !! f = None -> queue_weight (delete f m) = queue_weight m.
Proof. intros H. by rewrite delete_id. Qed.

Lemma weight_insert m f q : queue_weight (<[f := q]> m) = Z.of_nat (length q) + queue_weight (delete f m).
Proof. rewrite (weight_delete _ f q) by by rewrite lookup_insert_eq. by rewrite delete_insert_eq. Qed.

Lemma weight_lst m f : queue_weight m = Z.of_nat (length (lst m f)) + queue_weight (delete f m).
Proof.
  unfold lst. destruct (m !! f) as [q|] eqn:E; simpl; [by apply weight_delete|]. by rewrite weight_missing.
Qed.

Section answers.
Context {D : Type} `{!DbApi D} (str_hash : string -> Z) (stale : Z -> FileHandler).
Implicit Types s : Api D.
Abbreviation Op := (M (Api D)).

(** The calls answered so far and those still waiting. *)
Definition accounted s : Z := count_replies (out s) + queue_weight (file2lockQueue_map s).

(** Only calls of clients wait. *)
Definition clients_wait s : Prop := forall f q, file2lockQueue_map s !! f = Some q ->
  Forall (fun e : Z * Z => e.2 <> INTERNAL) q.

(** [m] accounts for as many calls as [Q] says of its result, and never throws. *)
Definition tally {A} (m : Op A) (Q : A -> Z) : Prop := forall s, clients_wait s ->
  sat (m s) (fun a s' => clients_wait s' /\ accounted s' = accounted s + Q a) (fun _ _ => False).

Lemma tally_ret {A} (a : A) Q : Q a = 0 -> tally (mret a) Q.
Proof. intros H s Hs. simpl. split; [done|lia]. Qed.
Lemma tally_bind {A B} (m : Op A) (k : A -> Op B) Q1 Q :
  tally m Q1 -> (forall a, tally (k a) (fun b => Q b - Q1 a)) -> tally (m ≫= k) Q.
Proof.
  intros Hm Hk s Hs. apply sat_bind. eapply sat_mono; [by apply Hm| |done]. intros a s1 [H1 E1].
  eapply sat_mono; [by apply Hk| |done]. intros b s2 [H2 E2]. split; [done|lia].
Qed.
(** A step that accounts for nothing. *)
Lemma tally_bind0 {A B} (m : Op A) (k : A -> Op B) Q :
  tally m (fun _ => 0) -> (forall a, tally (k a) Q) -> tally (m ≫= k) Q.
Proof.
  intros Hm Hk. eapply tally_bind; [exact Hm|]. intros a s Hs.
  eapply sat_mono; [by apply Hk| |done]. intros b s2 [H2 E2]. split; [done|lia].
Qed.
Lemma tally_try_db {A B} (m : M D A) (k : A -> Op B) h Q :
  (forall a, tally (k a) Q) -> (forall e, tally (h e) Q) -> tally (try_catch (call_db m ≫= k) h) Q.
Proof.
  intros Hk Hh s Hs. unfold try_catch, mbind, M_bind, call_db, zoom.
  destruct (m (db s)) as [a d|e d| |]; try done.
  - pose proof (Hk a (on_db (fun _ => d) s) Hs) as Ht. destruct (k a _) as [b s2|e s2| |]; done.
  - apply (Hh e (on_db (fun _ => d) s) Hs).
Qed.
Lemma tally_abort {A} Q : tally (abort : Op A) Q.
Proof. done. Qed.
Lemma tally_cassert b : tally (cassert b) (fun _ => 0).
Proof. destruct b; [by apply tally_ret|done]. Qed.
Lemma tally_gets {A} (g : Api D -> A) : tally (gets g) (fun _ => 0).
Proof. intros s Hs. simpl. split; [done|lia]. Qed.
Lemma tally_modify g : (forall s, file2lockQueue_map (g s) = file2lockQueue_map s) ->
  (forall s, out (g s) = out s) -> tally (modify g) (fun _ => 0).
Proof.
  intros Hq Ho s Hs. simpl. split; [intros f q; rewrite Hq; apply Hs|]. unfold accounted. rewrite Hq, Ho. lia.
Qed.
Lemma tally_reply se xid r : xid <> INTERNAL -> tally (reply se xid r) (fun _ => 1).
Proof.
  intros Hx s Hs. unfold reply. destruct (Z.eqb_spec xid INTERNAL); [done|]. simpl. split; [done|].
  unfold accounted. simpl. rewrite count_app. change (count_replies [_]) with 1. lia.
Qed.
Lemma tally_send se evc : tally (send se evc) (fun _ => 0).
Proof.
  intros s Hs. simpl. split; [done|]. unfold accounted. simpl. rewrite count_app.
  change (count_replies [_]) with 0. lia.
Qed.
Lemma tally_for_each {A} (l : list A) (body : A -> Op unit) :
  (forall x, tally (body x) (fun _ => 0)) -> tally (for_each l body) (fun _ => 0).
Proof. intros Hb. induction l as [|x l IH]; [by apply tally_ret|]. by apply tally_bind0. Qed.
Lemma tally_index {K V} `{Countable K} (get : Api D -> gmap K V) on dflt k :
  (forall g s, file2lockQueue_map (on g s) = file2lockQueue_map s) -> (forall g s, out (on g s) = out s) ->
  tally (index get on dflt k) (fun _ => 0).
Proof.
  intros Hq Ho s Hs. unfold index. destruct (get s !! k); simpl; (split; [try done|]).
  - lia.
  - intros f q. rewrite Hq. apply Hs.
  - unfold accounted. rewrite Hq, Ho. lia.
Qed.
Lemma tally_deref p : tally (deref stale p) (fun _ => 0).
Proof. intros s Hs. unfold deref. destruct (heap s !! p); (split; [exact Hs|]); unfold accounted; simpl; lia. Qed.
Lemma tally_new_fd h : tally (new_fd h) (fun _ => 0).
Proof. intros s Hs. simpl. split; [done|]. unfold accounted. simpl. lia. Qed.
Lemma tally_delete_fd p : tally (delete_fd p) (fun _ => 0).
Proof. intros s Hs. unfold delete_fd. destruct (heap s !! p); (split; [exact Hs|]); unfold accounted; simpl; lia. Qed.

(** Joining a queue accounts for the call that joins. *)
Lemma tally_enqueue f se xid : xid <> INTERNAL ->
  tally (index_mod on_file2lockQueue_map [] f (fun q => q ++ [(se, xid)])) (fun _ => 1).
Proof.
  intros Hx s Hs. simpl. split.
  - intros g q. simpl. rewrite lookup_insert. case_decide; [|apply Hs]. intros [= <-].
    apply Forall_app. split; [|by repeat constructor]. destruct (file2lockQueue_map s !! f) eqn:E; [|constructor].
    simpl. by eapply Hs.
  - unfold accounted. simpl. rewrite weight_insert, (weight_lst (file2lockQueue_map s) f), length_app. unfold lst. simpl. lia.
Qed.

(** Handing the lock on: a waiting call becomes an answered one. *)
Lemma tally_grant f : tally (grant_next f) (fun _ => 0).
Proof.
  intros s Hs. rewrite grant_run. unfold granted.
  destruct (file2lockQueue_map s !! f) as [[|[se xid] q]|] eqn:Hq; [done| |].
  2:{ rewrite emit_nil. simpl. split; [done|lia]. }
  destruct (session2client_map s !! se) as [c|]; [|done]. case_bool_decide; [done|].
  pose proof (Hs f _ Hq) as Hx. inversion Hx as [|? ? Hx1 Hx2]; subst. simpl in Hx1. simpl. split.
  - intros g r. simpl. destruct q as [|e q]; cbn [list_empty].
    + rewrite lookup_delete. case_decide; [done|]. apply Hs.
    + rewrite lookup_insert. case_decide; [by intros [= <-]|]. apply Hs.
  - unfold accounted, bool_msgs, reply_msgs. simpl. destruct (Z.eqb_spec xid INTERNAL); [done|].
    rewrite count_app, (weight_delete (file2lockQueue_map s) f _ Hq). change (count_replies [_]) with 1.
    destruct q as [|e q]; cbn [list_empty length]; [lia|]. rewrite weight_insert. cbn [length]. lia.
Qed.
End answers.

Create HintDb tally.
#[export] Hint Resolve tally_abort tally_cassert tally_gets tally_reply tally_send tally_deref tally_new_fd
  tally_delete_fd tally_enqueue tally_grant : tally.
#[export] Hint Extern 1 (tally (modify _) _) => apply tally_modify; intros; reflexivity : tally.
#[export] Hint Extern 1 (tally (index_mod _ _ _ _) _) => apply tally_modify; intros; reflexivity : tally.
#[export] Hint Extern 1 (tally (erase_if_empty _ _ _ _) _) => apply tally_modify; intros; reflexivity : tally.
#[export] Hint Extern 1 (tally (index _ _ _ _) _) => apply tally_index; intros; reflexivity : tally.
#[export] Hint Extern 1 (tally (reply_ok _ _ _) _) => apply tally_reply : tally.
#[export] Hint Extern 1 (tally (reply_err _ _ _) _) => apply tally_reply : tally.

Section answered.
Context {D : Type} `{!DbApi D} (str_hash : string -> Z) (stale : Z -> FileHandler).
Implicit Types s : Api D.
Abbreviation Op := (M (Api D)).

Lemma tally_const {A} (m : Op A) n k : tally m (fun _ => n) -> n = k -> tally m (fun _ => k).
Proof. by intros ? ->. Qed.

(** Counting step by step. *)
Ltac solve_tally :=
  repeat (intros; cbv beta zeta;
    lazymatch goal with
    | |- tally (try_catch (call_db _ ≫= _) _) _ => apply tally_try_db
    | |- tally (mret _) _ => apply tally_ret
    | |- tally (reply _ _ _ ≫= _) _ => eapply tally_bind; [by apply tally_reply|]
    | |- tally (reply_ok _ _ _ ≫= _) _ => eapply tally_bind; [by apply tally_reply|]
    | |- tally (reply_err _ _ _ ≫= _) _ => eapply tally_bind; [by apply tally_reply|]
    | |- tally ((_ ≫= _) ≫= _) _ => eapply tally_bind
    | |- tally (_ ≫= _) _ => eapply tally_bind0
    | |- tally (match ?x with _ => _ end) _ => destruct x
    | |- tally (when ?b _) _ => unfold when
    | |- tally _ _ => solve [eauto with tally nocore]
    end).

Lemma tally_require_client se : tally (require_client se : Op string) (fun _ => 0).
Proof. unfold require_client. solve_tally; done. Qed.

Lemma tally_send_events get ev f : tally (send_events get ev f : Op unit) (fun _ => 0).
Proof.
  unfold send_events. apply tally_bind0; [apply tally_gets|]. intros [l|]; [|by apply tally_ret].
  apply tally_for_each. intros se. apply tally_send.
Qed.
Lemma tally_parent_event f : tally (send_parent_event f : Op unit) (fun _ => 0).
Proof. unfold send_parent_event, when. case_match; [apply tally_send_events|by apply tally_ret]. Qed.
Lemma tally_register mode f se : tally (register_events mode f se : Op unit) (fun _ => 0).
Proof. unfold register_events. solve_tally; done. Qed.
Lemma tally_find_in l fd : tally (find_in stale l fd : Op (option Z)) (fun _ => 0).
Proof.
  induction l as [|p l IH]; [by apply tally_ret|]. cbn [find_in]. apply tally_bind0; [apply tally_deref|].
  intros h. case_match; [by apply tally_ret|exact IH].
Qed.
Lemma tally_add_fd f se p : tally (add_fd f se p : Op unit) (fun _ => 0).
Proof. unfold add_fd. solve_tally. Qed.
Lemma tally_findFd se fd : tally (findFd stale se fd : Op Z) (fun _ => 0).
Proof.
  unfold findFd. apply tally_bind0; [by apply tally_index|]. intros l.
  apply tally_bind0; [apply tally_find_in|]. intros [p|]; [by apply tally_ret|].
  apply tally_bind0; [apply tally_new_fd|]. intros p. apply tally_bind0; [apply tally_add_fd|].
  intros _. by apply tally_ret.
Qed.

Lemma tally_db_stage (m : M D bool) se xid c1 c2 : xid <> INTERNAL ->
  tally (db_stage m (reply_err se xid c1) (reply_err se xid c2)) (fun b => if b then 0 else 1).
Proof.
  intros Hx. unfold db_stage. apply tally_try_db.
  - intros []; cbn [when negb]; solve_tally; done.
  - solve_tally; done.
Qed.

(** A database call with its error replies, then a part that answers. *)
Lemma tally_stage (m : M D bool) se xid c1 c2 (next : Op unit) : xid <> INTERNAL -> tally next (fun _ => 1) ->
  tally (b ← db_stage m (reply_err se xid c1) (reply_err se xid c2); when b next) (fun _ => 1).
Proof.
  intros Hx Hn. eapply tally_bind; [by apply tally_db_stage|]. intros []; cbn [when].
  - eapply tally_const; [exact Hn|done].
  - by apply tally_ret.
Qed.

Lemma tally_locate (k : string -> Z -> FileHandler -> Op unit) se arg : (forall c p fd, tally (k c p fd) (fun _ => 1)) ->
  tally (c ← require_client se; p ← findFd stale se arg; fd ← deref stale p; k c p fd) (fun _ => 1).
Proof.
  intros Hk. apply tally_bind0; [apply tally_require_client|]. intros c.
  apply tally_bind0; [apply tally_findFd|]. intros p. apply tally_bind0; [apply tally_deref|]. auto.
Qed.

Lemma tally_try_lock p fd c se xid : xid <> INTERNAL ->
  tally (try_lock stale p fd c se xid) (fun go => if go then 0 else 1).
Proof.
  intros Hx. unfold try_lock. apply tally_try_db; [|solve_tally; lia]. intros []; cbn [when negb].
  - unfold lock_granted. eapply (tally_bind _ _ (fun _ => 1)); [|intros ?; by apply tally_ret].
    apply tally_bind0; [apply tally_deref|]. intros h. apply tally_bind0; [apply tally_gets|]. intros q.
    apply tally_bind0; [apply tally_cassert|]. intros _. apply tally_bind0; [by apply tally_modify|]. intros _.
    eapply tally_bind; [by apply tally_reply|]. intros ?. eapply tally_const; [apply tally_send_events|done].
  - apply tally_bind0; [by apply tally_ret|]. intros _. by apply tally_ret.
Qed.

Lemma tally_after_lock p fd c se xid (next : Op unit) : xid <> INTERNAL -> tally next (fun _ => 1) ->
  tally (go ← try_lock stale p fd c se xid; when go next) (fun _ => 1).
Proof.
  intros Hx Hn. eapply tally_bind; [by apply tally_try_lock|]. intros []; cbn [when].
  - eapply tally_const; [exact Hn|done].
  - by apply tally_ret.
Qed.

Lemma tally_acquire arg se xid : xid <> INTERNAL -> tally (acquire stale arg se xid) (fun _ => 1).
Proof.
  intros Hx. apply tally_locate. intros c p fd. apply tally_after_lock; [done|].
  apply tally_bind0; [apply tally_deref|]. intros h. by apply tally_enqueue.
Qed.
Lemma tally_tryAcquire arg se xid : xid <> INTERNAL -> tally (tryAcquire stale arg se xid) (fun _ => 1).
Proof.
  intros Hx. apply tally_locate. intros c p fd. apply tally_after_lock; [done|]. by apply tally_reply.
Qed.
Lemma tally_release arg se xid : xid <> INTERNAL -> tally (release stale arg se xid) (fun _ => 1).
Proof.
  intros Hx. apply tally_locate. intros c p fd. apply tally_stage; [done|].
  apply tally_bind0; [by apply tally_modify|]. intros _. apply tally_bind0; [by apply tally_modify|]. intros _.
  eapply tally_bind; [by apply tally_reply|]. intros ?. eapply tally_const; [|done].
  apply tally_bind0; [apply tally_grant|]. intros _. apply tally_send_events.
Qed.
Lemma tally_setContents arg se xid : xid <> INTERNAL -> tally (setContents stale arg se xid) (fun _ => 1).
Proof.
  intros Hx. unfold setContents. apply tally_bind0; [apply tally_findFd|]. intros p.
  apply tally_bind0; [apply tally_deref|]. intros fd. apply tally_stage; [done|].
  eapply tally_bind; [by apply tally_reply|]. intros ?. eapply tally_const; [|done].
  apply tally_bind0; [apply tally_deref|]. intros h. apply tally_send_events.
Qed.
Lemma tally_getContentsAndStat arg se xid : xid <> INTERNAL ->
  tally (getContentsAndStat stale arg se xid) (fun _ => 1).
Proof.
  intros Hx. unfold getContentsAndStat. apply tally_bind0; [apply tally_findFd|]. intros p.
  apply tally_bind0; [apply tally_deref|]. intros fd. apply tally_try_db; intros; by apply tally_reply.
Qed.
Lemma tally_startSession arg se xid : xid <> INTERNAL -> tally (startSession arg se xid : Op unit) (fun _ => 1).
Proof.
  intros Hx. unfold startSession. apply tally_bind0; [|intros r; by apply tally_reply].
  apply tally_try_db; intros; solve_tally; done.
Qed.
Lemma tally_fileReopen arg se xid : xid <> INTERNAL -> tally (fileReopen arg se xid : Op unit) (fun _ => 1).
Proof.
  intros Hx. unfold fileReopen. apply tally_bind0; [apply tally_new_fd|]. intros p.
  apply tally_bind0; [apply tally_add_fd|]. intros _. apply tally_bind0; [apply tally_register|]. intros _.
  apply tally_bind0; [by apply tally_index|]. intros c. apply tally_bind0; [solve_tally; done|].
  intros _. by apply tally_reply.
Qed.

(** The calls that close no handle. *)
Definition keeps_handles (q : request) : bool :=
  match q with Q_fileClose _ | Q_fileDelete _ | Q_disconnect => false | _ => true end.

Lemma tally_open_in_db arg c fd se xid : xid <> INTERNAL ->
  tally (try_catch (open_in_db arg c fd se xid)
           (fun _ => delete_fd fd ;; reply se xid (RepFd (RF_errCode PAXOS_ERROR)) ;; mret None))
    (fun r => match r with Some _ => 0 | None => 1 end).
Proof.
  intros Hx.
  assert (forall code, tally (delete_fd fd ;; reply se xid (RepFd (RF_errCode code)) ;; mret (None : option Z))
    (fun r => match r with Some _ => 0 | None => 1 end) (D := D)) as Hf.
  { intros code. apply tally_bind0; [apply tally_delete_fd|]. intros _.
    eapply tally_bind; [by apply tally_reply|]. intros ?. by apply tally_ret. }
  unfold open_in_db. destruct (_ || _); apply tally_try_db; try (intros; apply Hf).
  - intros r. destruct (negb r.1); [apply Hf|]. apply tally_bind0; [solve_tally; done|].
    intros _. by apply tally_ret.
  - intros r. destruct (negb r.1); [apply Hf|by apply tally_ret].
Qed.

Lemma tally_fileOpen arg se xid : xid <> INTERNAL -> tally (fileOpen str_hash stale arg se xid) (fun _ => 1).
Proof.
  intros Hx. unfold fileOpen. apply tally_bind0; [apply tally_require_client|]. intros c.
  destruct (negb _); [by apply tally_reply|]. destruct (_ && _); [by apply tally_reply|].
  apply tally_bind0; [apply tally_new_fd|]. intros fd. eapply tally_bind; [by apply tally_open_in_db|].
  intros [inst|]; [|by apply tally_ret].
  apply (tally_const _ 1); [|done]. apply tally_bind0; [apply tally_gets|]. intros m. cbv zeta.
  apply tally_bind0; [by apply tally_modify|]. intros _. apply tally_bind0; [apply tally_add_fd|]. intros _.
  apply tally_bind0; [apply tally_register|]. intros _. eapply tally_bind; [by apply tally_reply|]. intros ?.
  eapply tally_const; [|done]. apply tally_bind0; [apply tally_deref|]. intros h. apply tally_parent_event.
Qed.

Lemma tally_step_call name v se xid : xid <> INTERNAL -> tally (step_call name v se xid : Op unit) (fun _ => 1).
Proof.
  intros Hx. unfold step_call. apply tally_bind0; [apply tally_send|]. intros _.
  eapply tally_bind; [by apply tally_reply|]. intros ?. eapply tally_const; [apply tally_send|done].
Qed.

Lemma tally_handle q se xid : keeps_handles q = true -> xid <> INTERNAL ->
  tally (handle str_hash stale q se xid) (fun _ => 1).
Proof.
  intros Hq Hx. destruct q; try done; simpl.
  - by apply tally_fileOpen.
  - by apply tally_getContentsAndStat.
  - by apply tally_setContents.
  - by apply tally_acquire.
  - by apply tally_tryAcquire.
  - by apply tally_release.
  - by apply tally_startSession.
  - by apply tally_fileReopen.
  - by apply tally_step_call.
  - by apply tally_step_call.
Qed.

Definition client_call (c : request * Z * Z) : bool :=
  let '(q, se, xid) := c in keeps_handles q && negb (xid =? INTERNAL).

Lemma tally_serve qs : forallb client_call qs = true ->
  tally (serve str_hash stale qs) (fun _ => Z.of_nat (length qs)).
Proof.
  induction qs as [|[[q se] xid] qs IH]; intros H; [by apply tally_ret|].
  cbn [forallb client_call] in H. rewrite !andb_true_iff, negb_true_iff, Z.eqb_neq in H. destruct H as [[Hq Hx] Hqs].
  cbn [serve]. eapply tally_bind; [by apply tally_handle|]. intros ?. eapply tally_const; [by apply IH|].
  cbn [length]. lia.
Qed.

(** C24: whatever calls reach a fresh server, none being a close, a delete or
    the end of a session, no handler throws, and if the server survives them
    the replies sent and the calls waiting in lock queues add up to the
    number of calls: no call is answered twice or lost. *)
Theorem calls_accounted qs d msn : forallb client_call qs = true ->
  match serve str_hash stale qs (mkApi ∅ ∅ ∅ ∅ ∅ ∅ ∅ ∅ msn d ∅ 0 [] []) with
  | Ret _ s => count_replies (out s) + queue_weight (file2lockQueue_map s) = Z.of_nat (length qs)
  | Throw _ _ => False
  | Abort | Diverge => True
  end.
Proof.
  intros H. pose proof (tally_serve qs H (mkApi ∅ ∅ ∅ ∅ ∅ ∅ ∅ ∅ msn d ∅ 0 [] [])) as Ht.
  assert (clients_wait (mkApi ∅ ∅ ∅ ∅ ∅ ∅ ∅ ∅ msn d ∅ 0 [] [])) as H0.
  { intros f q Hq. simpl in Hq. by rewrite lookup_empty in Hq. }
  specialize (Ht H0). destruct (serve _ _ _ _) as [u s|e s| |]; try done. destruct Ht as [_ E]. exact E.
Qed.
End answered.

#[local] Existing Instance one_server.

(** Two sessions that ask for one lock: four calls, three replies, one waits. *)
Definition two_clients : list (request * Z * Z) :=
  [(Q_startSession "alice", 1, 1); (Q_startSession "bob", 2, 1);
   (Q_acquire forged, 1, 2); (Q_acquire forged, 2, 2)].

Definition two_clients_run : outcome (Api ServerDB.Db) unit :=
  serve sample_hash no_stale two_clients (mkApi ∅ ∅ ∅ ∅ ∅ ∅ ∅ ∅ 0 sample_db ∅ 0 [] []).

Lemma two_clients_served : exists s, two_clients_run = Ret tt s.
Proof. eexists. vm_compute. reflexivity. Qed.

Lemma calls_accounted_witness : exists s, two_clients_run = Ret tt s /\
  count_replies (out s) + queue_weight (file2lockQueue_map s) = 4.
Proof.
  generalize two_clients_run, two_clients_served,
    (calls_accounted sample_hash no_stale two_clients sample_db 0 ltac:(vm_compute; reflexivity) :
     match two_clients_run with
     | Ret _ s => count_replies (out s) + queue_weight (file2lockQueue_map s) = 4
     | Throw _ _ => False | Abort | Diverge => True
     end).
  intros o [s ->] H. exists s. exact (conj eq_refl H).
Defined.
