(* ===== verification/LogicTypes.v ===== *)
(** * Replies have the type of their call

    The handlers of [ServerLogic] build their replies from unions of several
    types and keep the numbers of waiting calls in a table.  Every reply that
    leaves the server answers a call that was made, on the session that made
    it, and carries a result of the type of that procedure. *)

From S2P Require Import Prelude Names ServerTypes Interfaces DbApi ServerLogic LogicInv LogicProps.

(** The result of a procedure as a reply. *)
Definition reply_of (p : api_proc) : api_res p -> reply_val :=
  match p with
  | P_fileOpen => RepFd
  | P_getContentsAndStat => RepContents
  | P_increment | P_decrement => RepInt
  | _ => RepBool
  end.

(** The procedure of a request; the end of a session is none. *)
Definition request_proc (q : request) : option api_proc :=
  match q with
  | Q_fileOpen _ => Some P_fileOpen
  | Q_fileClose _ => Some P_fileClose
  | Q_fileDelete _ => Some P_fileDelete
  | Q_getContentsAndStat _ => Some P_getContentsAndStat
  | Q_setContents _ => Some P_setContents
  | Q_acquire _ => Some P_acquire
  | Q_tryAcquire _ => Some P_tryAcquire
  | Q_release _ => Some P_release
  | Q_startSession _ => Some P_startSession
  | Q_fileReopen _ => Some P_fileReopen
  | Q_increment _ => Some P_increment
  | Q_decrement _ => Some P_decrement
  | Q_disconnect => None
  end.

Section typed.
Context {D : Type} `{!DbApi D} (str_hash : string -> Z) (stale : Z -> FileHandler).
(** [asked session xid p]: the session made the call [xid] of [p]. *)
Context (asked : Z -> Z -> api_proc -> Prop).
Implicit Types s : Api D.
Abbreviation Op := (M (Api D)).

Definition answers_call (o : output) : Prop :=
  match o with
  | OReply se x r => exists p (v : api_res p), asked se x p /\ r = reply_of p v
  | OEvent _ _ => True
  end.

(** Every reply answers a call, and only calls of [acquire] wait. *)
Definition typed s : Prop := Forall answers_call (out s) /\
  forall f q, file2lockQueue_map s !! f = Some q -> Forall (fun e : Z * Z => asked e.1 e.2 P_acquire) q.

Definition answering {A} (m : Op A) : Prop := forall s, typed s -> sat (m s) (fun _ => typed) (fun _ => typed).

Lemma answering_ret {A} (a : A) : answering (mret a).
Proof. by intros s Hs. Qed.
Lemma answering_throw {A} e : answering (throw e : Op A).
Proof. by intros s Hs. Qed.
Lemma answering_abort {A} : answering (abort : Op A).
Proof. by intros s Hs. Qed.
Lemma answering_diverge {A} : answering ((fun _ => Diverge) : Op A).
Proof. by intros s Hs. Qed.
Lemma answering_gets {A} (f : Api D -> A) : answering (gets f).
Proof. by intros s Hs. Qed.
Lemma answering_assert b : answering (cassert b : Op unit).
Proof. by destruct b; intros s Hs. Qed.
Lemma answering_when b (m : Op unit) : answering m -> answering (when b m).
Proof. destruct b; [done|]. intros _. apply answering_ret. Qed.
Lemma answering_bind {A B} (m : Op A) (k : A -> Op B) : answering m -> (forall a, answering (k a)) -> answering (m ≫= k).
Proof.
  intros Hm Hk s Hs. apply sat_bind. eapply sat_mono; [by apply Hm| |done]. intros a s1 H1. by apply Hk.
Qed.
Lemma answering_try {A} (m : Op A) h : answering m -> (forall e, answering (h e)) -> answering (try_catch m h).
Proof. intros Hm Hh s Hs. apply sat_try. eapply sat_mono; [by apply Hm|done|]. intros e s1 H1. by apply Hh. Qed.
Lemma answering_for_each {A} (l : list A) body : (forall a, answering (body a)) -> answering (for_each l body).
Proof. intros Hb. induction l as [|a l IH]; [apply answering_ret|]. cbn. by apply answering_bind. Qed.
Lemma answering_db {A} (m : M D A) : answering (call_db m).
Proof. intros s Hs. unfold call_db, zoom. by destruct (m (db s)). Qed.

(** Changes to what replies do not depend on. *)
Definition quiet_change (g : Api D -> Api D) : Prop :=
  forall s, out (g s) = out s /\ file2lockQueue_map (g s) = file2lockQueue_map s.
Lemma typed_same s s' : out s' = out s -> file2lockQueue_map s' = file2lockQueue_map s -> typed s -> typed s'.
Proof. unfold typed. by intros -> ->. Qed.
Lemma answering_modify g : quiet_change g -> answering (modify g).
Proof. intros Hg s Hs. destruct (Hg s). by eapply typed_same. Qed.
Lemma answering_deref p : answering (deref stale p).
Proof. intros s Hs. unfold deref. by destruct (heap s !! p). Qed.
Lemma answering_delete_fd p : answering (delete_fd p : Op unit).
Proof. intros s Hs. unfold delete_fd. by destruct (heap s !! p). Qed.
Lemma answering_new_fd h : answering (new_fd h : Op Z).
Proof. by intros s Hs. Qed.
Lemma answering_index {K V} `{Countable K} (get : Api D -> gmap K V) on dflt k :
  (forall g, quiet_change (on g)) -> answering (index get on dflt k).
Proof. intros Hg s Hs. unfold index. destruct (get s !! k); [done|]. destruct (Hg <[k := dflt]> s). by eapply typed_same. Qed.
Lemma answering_index_mod {K V} `{Countable K} (on : (gmap K V -> gmap K V) -> Api D -> Api D) dflt k f :
  (forall g, quiet_change (on g)) -> answering (index_mod on dflt k f).
Proof. intros Hg. unfold index_mod. by apply answering_modify. Qed.

(** Calls leave a queue. *)
Lemma answering_dequeue (g : gmap string (list (Z * Z)) -> gmap string (list (Z * Z))) :
  (forall m f q, g m !! f = Some q -> exists q', m !! f = Some q' /\ q ⊆ q') ->
  answering (modify (on_file2lockQueue_map g)).
Proof.
  intros Hg s [Ho Hq]. split; [exact Ho|]. intros f q Hf. destruct (Hg _ f q Hf) as (q' & Hf' & Hsub).
  apply list.Forall_forall. intros e He. specialize (Hq f q' Hf'). rewrite list.Forall_forall in Hq. by apply Hq, Hsub.
Qed.
Lemma answering_drop_queue f : answering (modify (on_file2lockQueue_map (delete f)) : Op unit).
Proof. apply answering_dequeue. intros m g q [_ Hq]%lookup_delete_Some. by exists q. Qed.

Lemma answering_reply se x p (v : api_res p) : x = INTERNAL \/ asked se x p -> answering (reply se x (reply_of p v) : Op unit).
Proof.
  intros Hx s Hs. unfold reply. destruct (Z.eqb_spec x INTERNAL) as [|Hne]; [done|].
  destruct Hx as [|Hx]; [done|]. destruct Hs as [Ho Hq]. split; [|exact Hq]. cbn. apply Forall_app. split; [done|].
  constructor; [|constructor]. by exists p, v.
Qed.
Lemma answering_send se evc : answering (send se evc : Op unit).
Proof. intros s [Ho Hq]. split; [|exact Hq]. cbn. apply Forall_app. split; [done|]. by constructor. Qed.
End typed.

(** One step of a handler; [reply_ok] and [reply_err] are replies of [RepBool]. *)
Ltac answering_step :=
  match goal with
  | |- answering _ (_ ≫= _) => apply answering_bind; [|intros ?]
  | |- answering _ (try_catch _ _) => (apply answering_try; [|intros ?])
  | |- answering _ (when _ _) => apply answering_when
  | |- answering _ (for_each _ _) => apply answering_for_each; intros ?
  | |- answering _ (match ?x with _ => _ end) => destruct x
  | _ => first [ apply answering_ret | apply answering_throw | apply answering_abort | apply answering_diverge
               | apply answering_gets | apply answering_assert | apply answering_db | apply answering_deref
               | apply answering_delete_fd | apply answering_new_fd | apply answering_send | apply answering_drop_queue
               | apply answering_modify; intros ?; done | apply answering_index; intros ??; done
               | apply answering_index_mod; intros ??; done ]
  end.
Ltac solve_answering := repeat answering_step.

Section handlers.
Context {D : Type} `{!DbApi D} (str_hash : string -> Z) (stale : Z -> FileHandler).
Context (asked : Z -> Z -> api_proc -> Prop).
Abbreviation Op := (M (Api D)).
Abbreviation answering := (answering (D := D) asked).

(** [asked], or a call that the server makes itself. *)
Definition may_answer (se x : Z) (p : api_proc) : Prop := x = INTERNAL \/ asked se x p.

Definition bool_proc (p : api_proc) : bool :=
  match p with P_fileOpen | P_getContentsAndStat | P_increment | P_decrement => false | _ => true end.

Lemma answering_bool se x p (r : RetBool) : may_answer se x p -> bool_proc p = true ->
  answering (reply se x (RepBool r) : Op unit).
Proof.
  intros Hx Hb. destruct p; try done;
    match type of Hx with may_answer _ _ ?p => exact (answering_reply asked se x p r Hx) end.
Qed.
Lemma answering_fd se x (r : RetFd) : may_answer se x P_fileOpen -> answering (reply se x (RepFd r) : Op unit).
Proof. exact (answering_reply asked se x P_fileOpen r). Qed.
Lemma answering_contents se x (r : RetContentsAndStat) : may_answer se x P_getContentsAndStat ->
  answering (reply se x (RepContents r) : Op unit).
Proof. exact (answering_reply asked se x P_getContentsAndStat r). Qed.
Lemma answering_int se x p r : may_answer se x p -> p = P_increment \/ p = P_decrement ->
  answering (reply se x (RepInt r) : Op unit).
Proof. intros Hx [-> | ->]; [exact (answering_reply asked se x P_increment r Hx)|exact (answering_reply asked se x P_decrement r Hx)]. Qed.

Lemma answering_client se : answering (require_client se : Op string).
Proof. unfold require_client. solve_answering. Qed.
Lemma answering_findFd se fd : answering (findFd stale se fd).
Proof.
  assert (forall l, answering (find_in stale l fd)) as Hf.
  { induction l as [|p l IH]; cbn [find_in]; solve_answering. apply IH. }
  unfold findFd, add_fd, index_mod. solve_answering. apply Hf.
Qed.
Lemma answering_events get ev f : answering (send_events get ev f : Op unit).
Proof. unfold send_events. solve_answering. Qed.
Lemma answering_parent f : answering (send_parent_event f : Op unit).
Proof. unfold send_parent_event. solve_answering. apply answering_events. Qed.
Lemma answering_register mode f se : answering (register_events mode f se : Op unit).
Proof. unfold register_events, index_mod. solve_answering. Qed.

Lemma answering_enqueue f se x : asked se x P_acquire ->
  answering (index_mod on_file2lockQueue_map [] f (fun q => q ++ [(se, x)]) : Op unit).
Proof.
  intros Hx s [Ho Hq]. split; [exact Ho|]. intros g q. cbn. rewrite lookup_insert. case_decide as Hg; [|apply Hq].
  intros [= <-]. apply Forall_app. split; [|by repeat constructor].
  destruct (file2lockQueue_map s !! f) as [q|] eqn:E; [by eapply Hq|constructor].
Qed.

(** The call that the lock is handed to is one of those that wait. *)
Lemma answering_grant f : answering (grant_next f : Op unit).
Proof.
  intros s Hs. unfold grant_next. rewrite (bind_Ret (gets _) _ s _ s eq_refl).
  destruct (file2lockQueue_map s !! f) as [[|[se x] q]|] eqn:E; [done| |done].
  assert (asked se x P_acquire) as Hx.
  { destruct Hs as [_ Hq]. specialize (Hq f _ E). by apply Forall_cons_1 in Hq as [Hq _]. }
  assert (answering (index session2client_map on_session2client_map "" se ≫= fun client_id =>
    cassert (negb (bool_decide (client_id = ""))) ;;
    index_mod on_client2heldLock_map ∅ client_id (fun X => {[f]} ∪ X) ;;
    reply_ok se x true ;; when (list_empty q) (modify (on_file2lockQueue_map (delete f))) : Op unit)) as Hrest.
  { unfold index_mod, reply_ok. solve_answering. apply (answering_bool se x P_acquire); [by right|done]. }
  erewrite bind_Ret by reflexivity. apply Hrest. destruct Hs as [Ho Hq]. split; [exact Ho|].
  intros g r. cbn. rewrite lookup_insert. case_decide; [|apply Hq]. intros [= <-].
  specialize (Hq f _ E). by apply Forall_cons_1 in Hq as [_ Hq].
Qed.

Lemma answering_release arg se x : may_answer se x P_release -> answering (release stale arg se x).
Proof.
  intros Hx. unfold release, reply_err, reply_ok, index_mod, erase_if_empty, sendLockChangeEvent.
  solve_answering; eauto using answering_bool, answering_client, answering_findFd, answering_grant, answering_events.
Qed.
Lemma answering_delete arg se x p : may_answer se x p -> bool_proc p = true -> answering (fileDelete stale arg se x).
Proof.
  intros Hx Hp. unfold fileDelete, delete_in_db, close_all, reply_err, reply_ok, index_mod, erase_if_empty,
    sendContentChangeEvent.
  solve_answering; eauto using answering_bool, answering_client, answering_findFd, answering_events, answering_parent.
Qed.
Lemma answering_close arg se x : may_answer se x P_fileClose -> answering (fileClose stale arg se x).
Proof.
  intros Hx. assert (may_answer se INTERNAL P_release) as Hi by by left.
  unfold fileClose, close_handle, clear_lock_queue, clear_events, reply_err, reply_ok, index_mod, erase_if_empty.
  solve_answering; eauto using answering_bool, answering_client, answering_findFd, answering_release, answering_delete.
  all: by eapply (answering_delete _ se INTERNAL P_fileDelete); [left|].
Qed.
Lemma answering_disconnect se : answering (disconnect stale se).
Proof. unfold disconnect. solve_answering. apply answering_close. by left. Qed.

Lemma answering_try_lock p fd c se x pr : may_answer se x pr -> bool_proc pr = true ->
  answering (try_lock stale p fd c se x).
Proof.
  intros Hx Hp. unfold try_lock, lock_granted, reply_err, reply_ok, index_mod, sendLockChangeEvent.
  solve_answering; eauto using answering_bool, answering_events.
Qed.

(** Each handler answers with the type of its procedure. *)
Lemma answering_handle q se x : (forall p, request_proc q = Some p -> asked se x p) ->
  answering (handle str_hash stale q se x).
Proof.
  intros Hq. assert (forall p, request_proc q = Some p -> may_answer se x p) as Hm by (intros p Hp; right; auto).
  destruct q; cbn [handle request_proc] in *; specialize (Hq _ eq_refl) || clear Hq; specialize (Hm _ eq_refl) || clear Hm.
  2: by apply answering_close.
  2: by eapply answering_delete.
  6: by apply answering_release.
  10: apply answering_disconnect.
  all: unfold fileOpen, open_in_db, getContentsAndStat, setContents, acquire, tryAcquire, startSession, fileReopen, increment,
    decrement, step_call, add_fd, reply_err, reply_ok, sendContentChangeEvent.
  all: solve_answering; eauto using answering_bool, answering_fd, answering_contents, answering_int, answering_client,
    answering_findFd, answering_events, answering_parent, answering_register, answering_try_lock, answering_enqueue.
Qed.

Lemma answering_serve qs : (forall q se x p, (q, se, x) ∈ qs -> request_proc q = Some p -> asked se x p) ->
  answering (serve str_hash stale qs).
Proof.
  induction qs as [|[[q se] x] qs IH]; intros Hq; [apply answering_ret|]. cbn [serve]. apply answering_bind.
  - apply answering_handle. intros p Hp. apply (Hq q); [by left|done].
  - intros _. apply IH. intros q' se' x' p Hin. apply Hq. by right.
Qed.
End handlers.

(** C26: replies have the type of their call.  After any sequence of requests
    and ends of sessions, on any database: every reply that was sent answers a
    call that was made, on the session that made it and under its number, and
    carries a result of the type of the procedure called. *)
Theorem replies_typed {D} `{!DbApi D} str_hash stale qs (d : D) msn :
  match serve str_hash stale qs (api_init d msn) with
  | Ret _ s | Throw _ s => Forall (fun o => match o with
      | OReply se x r => exists q p (v : api_res p), (q, se, x) ∈ qs /\ request_proc q = Some p /\ r = reply_of p v
      | OEvent _ _ => True
      end) (out s)
  | Abort | Diverge => True
  end.
Proof.
  set (asked := fun se x p => exists q, (q, se, x) ∈ qs /\ request_proc q = Some p).
  assert (typed asked (api_init d msn)) as H0.
  { split; [constructor|]. intros f q. cbn. by rewrite lookup_empty. }
  pose proof (answering_serve str_hash stale asked qs (fun q se x p Hq Hp => ex_intro _ q (conj Hq Hp)) _ H0) as H.
  destruct (serve _ _ _ _) as [u s|e s| |]; try done; destruct H as [H _];
    (eapply list.Forall_impl; [exact H|]; intros [se x r|]; [|done]; intros (p & v & (q & ? & ?) & ?); by exists q, p, v).
Qed.
