(* ===== verification/PaxosProps.v ===== *)
(** * What the replica group guarantees, and where it fails

    Replication by a leader, the choice of a new leader, and what the absence
    of quorums, of state transfer and of checks for a recovered leader does. *)

From S2P Require Import Prelude Endian Xdr ServerPaxosTypes PaxosTypes ServerDB Tree ServerDBWf.
From S2P Require Import ServerDBRefine ServerDBProps DbApi Backstore BackstoreRefine Paxos.

Section facts.
Context {S : Type} `{!BackStore S} `{OE : !OffEnd} (cfg : Config) (net : nat -> nat -> bool).
Implicit Types (g : Group S) (r : Replica S) (self i : nat).
Abbreviation Op := (M (Group S)).

(** ** Steps of one process *)

Lemma at_rank_run {A} self (m : M (Replica S) A) g r a r' : g !! self = Some r -> m r = Ret a r' ->
  at_rank self m g = Ret a (<[self := r']> g).
Proof. intros Hg Hm. unfold at_rank. by rewrite Hg, Hm. Qed.

Lemma at_rank_gets {A} self (f : Replica S -> A) g r : g !! self = Some r ->
  at_rank self (gets f) g = Ret (f r) g.
Proof. intros Hg. rewrite (at_rank_run _ _ _ r (f r) r) by done. by rewrite insert_id. Qed.

Lemma at_rank_modify self f g r : g !! self = Some r ->
  at_rank self (modify f) g = Ret tt (<[self := f r]> g).
Proof. intros Hg. by apply (at_rank_run _ _ _ r). Qed.


(** ** Connections *)

Lemma get_client self i g r : g !! self = Some r -> locked r = ∅ -> is_other cfg self i = true ->
  getReplicaClient cfg net self i g =
  Ret (connected net self i g)
      (if connected net self i g then <[self := set_locked {[i]} r]> g else g).
Proof.
  intros Hg Hl Ho. unfold getReplicaClient. rewrite Ho. unfold cassert. rewrite bind_ret_l.
  rewrite (bind_Ret _ _ _ _ _ (at_rank_gets self id g r Hg)), (bind_Ret (gets _) _ g _ g eq_refl).
  cbv beta. change (id r) with r. rewrite Hl, bool_decide_false by set_solver.
  destruct (connected _ _ _ _); cbn [when].
  - rewrite (bind_Ret _ _ _ _ _ (at_rank_modify self _ g r Hg)). unfold mret, M_ret.
    by rewrite (right_id_L ∅ (∪)).
  - done.
Qed.

Lemma release_client self i g r : g !! self = Some r -> locked r = ∅ -> is_other cfg self i = true ->
  releaseReplicaClient cfg self i (<[self := set_locked {[i]} r]> g) = Ret tt g.
Proof.
  intros Hg Hl Ho. unfold releaseReplicaClient. rewrite Ho. unfold cassert. rewrite bind_ret_l.
  rewrite (at_rank_modify self _ _ (set_locked {[i]} r)) by by rewrite lookup_insert_eq.
  rewrite insert_insert_eq. simpl. rewrite difference_diag_L, <-Hl.
  rewrite insert_id; [done|]. rewrite Hg. by destruct r.
Qed.

(** ** Broadcasts *)

(** The processes of ranks [l] that [self] reaches change by [f]. *)
Definition deliver (l : list nat) self (f : Replica S -> Replica S) g : Group S :=
  map_imap (fun i r => Some (if decide (i ∈ l /\ i <> self /\ net self i = true) then f r else r)) g.

Lemma deliver_lookup l self f g i : deliver l self f g !! i =
  (fun r => if decide (i ∈ l /\ i <> self /\ net self i = true) then f r else r) <$> g !! i.
Proof. unfold deliver. rewrite map_lookup_imap. by destruct (g !! i). Qed.

Lemma deliver_nil self f g : deliver [] self f g = g.
Proof.
  apply map_eq. intros i. rewrite deliver_lookup. case_decide as H; [|by destruct (g !! i)].
  by destruct H as [H%elem_of_nil _].
Qed.

(** The processes that [self] reaches, one after the other. *)
Lemma deliver_cons i l self f g r : g !! i = Some r -> i <> self -> net self i = true -> i ∉ l ->
  deliver (i :: l) self f g = deliver l self f (<[i := f r]> g).
Proof.
  intros Hg Hi Hn Hl. apply map_eq. intros j. rewrite !deliver_lookup. destruct (decide (j = i)) as [->|Hj].
  - rewrite lookup_insert_eq, Hg. cbn [fmap option_fmap option_map].
    rewrite decide_True, decide_False by (rewrite ?elem_of_cons; tauto). done.
  - rewrite lookup_insert_ne by done. repeat case_decide; rewrite ?elem_of_cons in *; tauto.
Qed.

Lemma deliver_skip i l self f g : g !! i = None \/ i = self \/ net self i = false ->
  deliver (i :: l) self f g = deliver l self f g.
Proof.
  intros Hi. apply map_eq. intros j. rewrite !deliver_lookup. destruct (g !! j) eqn:Hj; [|done].
  cbn [fmap option_fmap option_map]. f_equal. repeat case_decide; rewrite ?elem_of_cons in *; try done.
  - destruct H as ([->|] & ? & ?); [|tauto]. destruct Hi as [|[|]]; congruence.
  - tauto.
Qed.

Definition reaches self i : Prop := is_other cfg self i = true /\ net self i = true.

(** A call of [replicate] on every process of [l] that [self] reaches. *)
Lemma broadcast_list l self arg f g r : g !! self = Some r -> locked r = ∅ -> NoDup l ->
  (forall i, i ∈ l -> (i < getMaxNumClient cfg)%nat) ->
  (forall i ri, i ∈ l -> reaches self i -> g !! i = Some ri -> exists v, replicate arg ri = Ret v (f ri)) ->
  for_each l (fun i =>
    when (negb (i =? self)%nat)
      (c ← getReplicaClient cfg net self i;
       when c (call_replicate i arg ;; releaseReplicaClient cfg self i))) g =
  Ret tt (deliver l self f g).
Proof.
  intros Hg Hl. revert g Hg. induction l as [|i l IH]; intros g Hg Hnd Hlt Hrep; [by rewrite deliver_nil|].
  apply list.NoDup_cons in Hnd as [Hil Hnd]. cbn [for_each].
  assert (forall g', g' !! self = Some r -> (forall j, j ∈ l -> g' !! j = g !! j) ->
    for_each l (fun i => when (negb (i =? self)%nat)
      (c ← getReplicaClient cfg net self i;
       when c (call_replicate i arg ;; releaseReplicaClient cfg self i))) g' = Ret tt (deliver l self f g')) as Hrest.
  { intros g' Hg' Heq. apply IH; try done.
    - intros j Hj. apply Hlt. by right.
    - intros j rj Hj Ho Hrj. apply (Hrep j rj); [by right|done|]. by rewrite <-Heq. }
  destruct (Nat.eqb_spec i self) as [->|Hi]; cbn [negb when].
  { rewrite bind_ret_l, Hrest by done. by rewrite deliver_skip by auto. }
  assert (is_other cfg self i = true) as Ho.
  { unfold is_other. rewrite andb_true_iff, negb_true_iff, Nat.ltb_lt, Nat.eqb_neq. split; [|done]. apply Hlt. by left. }
  rewrite bind_assoc, (bind_Ret _ _ _ _ _ (get_client self i g r Hg Hl Ho)).
  unfold connected. destruct (net self i) eqn:Hn; cbn [andb].
  2:{ cbn [when]. rewrite bind_ret_l, Hrest by done. by rewrite deliver_skip by auto. }
  destruct (g !! i) as [ri|] eqn:Hri.
  2:{ rewrite bool_decide_false by by intros [? ?]. cbn [when]. rewrite bind_ret_l, Hrest by done.
      by rewrite deliver_skip by auto. }
  rewrite bool_decide_true by done. cbn [when].
  destruct (Hrep i ri) as [v Hv]; [by left|done|done|].
  assert (call_replicate i arg (<[self := set_locked {[i]} r]> g) =
    Ret tt (<[self := set_locked {[i]} r]> (<[i := f ri]> g))) as Hcall.
  { unfold call_replicate. rewrite lookup_insert_ne by done. rewrite Hri, Hv.
    by rewrite insert_insert_ne by done. }
  rewrite bind_assoc, (bind_Ret _ _ _ _ _ Hcall).
  assert (<[i := f ri]> g !! self = Some r) as Hg' by by rewrite lookup_insert_ne.
  rewrite (bind_Ret _ _ _ _ _ (release_client self i _ r Hg' Hl Ho)).
  rewrite Hrest; [|done|intros j Hj; rewrite lookup_insert_ne; [done|by intros ->]].
  by rewrite (deliver_cons i l self f g ri).
Qed.

(** The processes that [self] reaches. *)
Definition all_ranks : list nat := seq 0 (getMaxNumClient cfg).

Lemma broadcast_run self arg f g r : g !! self = Some r -> locked r = ∅ ->
  (forall i ri, reaches self i -> g !! i = Some ri -> exists v, replicate arg ri = Ret v (f ri)) ->
  broadcast cfg net self arg g = Ret tt (deliver all_ranks self f g).
Proof.
  intros Hg Hl Hrep. apply (broadcast_list _ self arg f g r Hg Hl); [apply NoDup_ListNoDup, List.seq_NoDup| |].
  - intros i Hi%elem_of_seq. lia.
  - intros i ri _. apply Hrep.
Qed.

Lemma reaches_iff self i : reaches self i <-> i ∈ all_ranks /\ i <> self /\ net self i = true.
Proof.
  unfold reaches, is_other, all_ranks. rewrite andb_true_iff, negb_true_iff, Nat.ltb_lt, Nat.eqb_neq, elem_of_seq.
  split; [intros [[? ?] ?]|intros ((? & ?) & ? & ?)]; split_and!; (done || lia).
Qed.

(** ** Replication *)

(** [self] leads, and no lock of its connections is held. *)
Definition leads self g r : Prop := g !! self = Some r /\ isLeader r = true /\ locked r = ∅.

(** [self] leads, and every process it reaches has the data of its store. *)
Definition synced self g r : Prop :=
  leads self g r /\
  forall i ri, reaches self i -> g !! i = Some ri -> store ri = store r.

Lemma replicate_data request reply d r : is_Some off_end -> bs_Run request (store r) = Ret reply d ->
  exists v, replicate (command 1 request) r = Ret v (run_off (set_store d r)).
Proof.
  intros [v Hv] Hrun. exists v. unfold replicate. cbn [vs_ts ra_vs command]. change (1 =? 0) with false. cbn match.
  assert (BackUp request r = Ret tt (set_store d r)) as Hb by by (unfold BackUp, zoom, mbind, M_bind; rewrite Hrun).
  rewrite (bind_Ret _ _ _ _ _ Hb). by rewrite Hv.
Qed.

Lemma execute_synced self arg g r reply d : is_Some off_end -> synced self g r -> bs_Run (ea_request arg) (store r) = Ret reply d ->
  exists g', execute cfg net self arg g = Ret (ER_reply reply) g' /\ synced self g' (set_store d r) /\
    forall i, is_Some (g' !! i) <-> is_Some (g !! i).
Proof.
  intros Hoff ((Hg & Hlead & Hl) & Hst) Hrun. unfold execute.
  rewrite (bind_Ret _ _ _ _ _ (at_rank_gets self isLeader g r Hg)), Hlead. cbn [negb].
  set (f := fun r' => run_off (set_store d r')).
  pose proof (broadcast_run self (command 1 (ea_request arg)) f g r Hg Hl) as Hb.
  assert (deliver all_ranks self f g !! self = Some r) as Hself.
  { rewrite deliver_lookup, Hg. cbn [fmap option_fmap option_map]. rewrite decide_False; [done|tauto]. }
  assert (replicateCommand cfg net self (ea_request arg) g =
    Ret reply (<[self := set_store d r]> (deliver all_ranks self f g))) as HR.
  { unfold replicateCommand. rewrite (bind_Ret _ _ _ tt (deliver all_ranks self f g)).
    - rewrite (at_rank_run _ _ _ r reply (set_store d r)); [done|done|]. unfold zoom. by rewrite Hrun.
    - apply Hb. intros i ri Hi Hri. apply (replicate_data _ reply); [done|]. by rewrite (Hst i ri). }
  rewrite (bind_Ret _ _ _ _ _ HR). eexists. split; [done|]. split.
  - split; [split_and!; [by rewrite lookup_insert_eq|done|done]|]. intros i ri Hi. pose proof Hi as Hi'.
    apply reaches_iff in Hi' as (Hr1 & Hr2 & Hr3). rewrite lookup_insert_ne by done. rewrite deliver_lookup.
    destruct (g !! i) as [ri0|]; [|done]. cbn [fmap option_fmap option_map]. rewrite decide_True by done.
    by intros [= <-].
  - intros i. destruct (decide (i = self)) as [->|Hi]; [by rewrite lookup_insert_eq, Hg|].
    rewrite lookup_insert_ne, deliver_lookup by done. by rewrite fmap_is_Some.
Qed.

(** A sequence of commands, on a group and on a single store. *)
Fixpoint execute_all self (args : list execute_arg) : Op (list execute_res) :=
  match args with
  | [] => mret []
  | a :: args => res ← execute cfg net self a; rest ← execute_all self args; mret (res :: rest)
  end.
Fixpoint run_all (args : list execute_arg) : M S (list bytes) :=
  match args with
  | [] => mret []
  | a :: args => reply ← bs_Run (ea_request a); rest ← run_all args; mret (reply :: rest)
  end.


(** A process that does not survive the missing [return] ends with the first
    command that it is sent, and the leader's call of it fails. *)
Lemma missing_return_stops_replica i request reply d g r : off_end = None -> g !! i = Some r ->
  bs_Run request (store r) = Ret reply d -> call_replicate i (command 1 request) g = Throw exn_xdr (delete i g).
Proof.
  intros Hoff Hg Hrun. unfold call_replicate. rewrite Hg. unfold replicate. cbn [vs_ts ra_vs command]. change (1 =? 0) with false. cbn match.
  assert (BackUp request r = Ret tt (set_store d r)) as Hb by by (unfold BackUp, zoom, mbind, M_bind; rewrite Hrun).
  rewrite (bind_Ret _ _ _ _ _ Hb). by rewrite Hoff.
Qed.

(** A replica that does not lead executes nothing. *)
Lemma execute_follower self arg g r : g !! self = Some r -> isLeader r = false ->
  execute cfg net self arg g = Ret (ER_viewinfo (mkexecute_viewinfo (mkviewid_t 0 "") "")) g.
Proof.
  intros Hg Hl. unfold execute. rewrite (bind_Ret _ _ _ _ _ (at_rank_gets self isLeader g r Hg)), Hl. done.
Qed.

(** ** The choice of a leader *)

Lemma peek_client self i g r : g !! self = Some r -> locked r = ∅ -> is_other cfg self i = true ->
  (c ← getReplicaClient cfg net self i;
   when c (releaseReplicaClient cfg self i) ;; mret c) g = Ret (connected net self i g) g.
Proof.
  intros Hg Hl Ho. rewrite (bind_Ret _ _ _ _ _ (get_client self i g r Hg Hl Ho)).
  destruct (connected net self i g); cbn [when]; [|done].
  by rewrite (bind_Ret _ _ _ _ _ (release_client self i g r Hg Hl Ho)).
Qed.

Lemma lower_rank_run l self g r : g !! self = Some r -> locked r = ∅ ->
  (forall i, i ∈ l -> (i < getMaxNumClient cfg)%nat) ->
  exists m, lower_rank cfg net self l g = Ret m g /\
    match find (fun i => negb (i =? self)%nat && connected net self i g) l with
    | Some i => m = if (i <? self)%nat then i else self
    | None => m = self
    end.
Proof.
  intros Hg Hl. induction l as [|i l IH]; intros Hlt; [by exists self|].
  destruct IH as (m & Hm & Hspec); [intros j Hj; apply Hlt; by right|]. cbn [lower_rank find].
  destruct (Nat.eqb_spec i self) as [->|Hi]; cbn [negb andb]; [by exists m|].
  assert (is_other cfg self i = true) as Ho.
  { unfold is_other. rewrite andb_true_iff, negb_true_iff, Nat.ltb_lt, Nat.eqb_neq. split; [|done]. apply Hlt. by left. }
  rewrite (bind_Ret _ _ _ _ _ (get_client self i g r Hg Hl Ho)).
  destruct (connected net self i g); [|by exists m]. cbn match.
  rewrite (bind_Ret _ _ _ _ _ (release_client self i g r Hg Hl Ho)). by eexists.
Qed.

Lemma find_seq (p : nat -> bool) a n :
  match find p (seq a n) with
  | Some i => p i = true /\ (a <= i < a + n)%nat /\ forall j, (a <= j < i)%nat -> p j = false
  | None => forall j, (a <= j < a + n)%nat -> p j = false
  end.
Proof.
  revert a. induction n as [|n IH]; intros a; cbn [seq find]; [intros j; lia|].
  destruct (p a) eqn:Ha; [split_and!; [done|lia|lia|intros j; lia]|].
  specialize (IH (Datatypes.S a)). destruct (find p _) as [i|].
  - destruct IH as (Hi & Hr & Hmin). split_and!; [done|lia|lia|]. intros j Hj.
    destruct (decide (j = a)) as [->|]; [done|]. apply Hmin. lia.
  - intros j Hj. destruct (decide (j = a)) as [->|]; [done|]. apply IH. lia.
Qed.

(** A candidate of the election that [self] holds. *)
Definition candidate self g i : Prop :=
  (i < getMaxNumClient cfg)%nat /\ (i = self \/ connected net self i g = true).

Lemma newLeaderRank_run self g r : g !! self = Some r -> locked r = ∅ -> (self < getMaxNumClient cfg)%nat ->
  exists m, getNewLeaderRank cfg net self g = Ret m g /\ candidate self g m /\
    forall i, candidate self g i -> (m <= i)%nat.
Proof.
  intros Hg Hl Hs. destruct (lower_rank_run all_ranks self g r Hg Hl) as (m & Hm & Hspec).
  { intros i Hi%elem_of_seq. lia. }
  exists m. split; [exact Hm|]. unfold all_ranks in Hspec.
  set (p := fun i => negb (i =? self)%nat && connected net self i g) in Hspec.
  pose proof (find_seq p 0 (getMaxNumClient cfg)) as Hf. destruct (find p _) as [i|].
  - destruct Hf as (Hi & Hr & Hmin). apply andb_true_iff in Hi as [Hne Hc]. apply negb_true_iff, Nat.eqb_neq in Hne.
    assert (forall j, candidate self g j -> j = self \/ (i <= j)%nat) as Hlow.
    { intros j [Hj [->|Hc']]; [by left|]. destruct (decide (j = self)) as [->|Hjs]; [by left|]. right.
      destruct (decide (j < i)%nat) as [Hlt|]; [|lia]. specialize (Hmin j ltac:(lia)). unfold p in Hmin.
      rewrite Hc', andb_true_r, negb_false_iff, Nat.eqb_eq in Hmin. done. }
    subst m. destruct (Nat.ltb_spec i self).
    + split; [split; [lia|by right]|]. intros j [->| ]%Hlow; lia.
    + split; [split; [lia|by left]|]. intros j [->| ]%Hlow; lia.
  - subst m. split; [split; [lia|by left]|]. intros j [Hj [->|Hc]]; [lia|].
    destruct (decide (j = self)) as [->|Hjs]; [lia|]. specialize (Hf j ltac:(lia)). unfold p in Hf.
    rewrite Hc, andb_true_r, negb_false_iff, Nat.eqb_eq in Hf. done.
Qed.

(** [getNewLeaderRank] finds the minimum rank, as its comment says,
    although its loop stops at the first connection: of the ranks that the
    replica reaches and its own, and without any change. *)
Lemma getNewLeaderRank_min self g r : g !! self = Some r -> locked r = ∅ -> (self < getMaxNumClient cfg)%nat ->
  exists m, getNewLeaderRank cfg net self g = Ret m g /\ candidate self g m /\
    forall i, candidate self g i -> (m <= i)%nat.
Proof. apply newLeaderRank_run. Qed.

(** ** A replica that fails *)

(** A command that one replica fails to run stops the leader.  In a group
    of two, when the store of the other process throws on a command, the
    leader's [execute] throws while it holds the lock of that connection, and
    every later [execute] blocks for ever. *)
Lemma failed_replica_blocks_leader g r r1 arg e d : getMaxNumClient cfg = 2%nat -> net 0%nat 1%nat = true ->
  leads 0 g r -> g !! 1%nat = Some r1 ->
  bs_Run (ea_request arg) (store r1) = Throw e d ->
  exists g', execute cfg net 0 arg g = Throw exn_xdr g' /\
    forall arg', execute cfg net 0 arg' g' = Diverge.
Proof.
  intros Hmax Hn (Hg & Hlead & Hl) Hg1 Hrun.
  assert (is_other cfg 0 1 = true) as Ho by (unfold is_other; by rewrite Hmax).
  assert (replicate (command 1 (ea_request arg)) r1 = Throw e (set_store d r1)) as Hrep.
  { unfold replicate. cbn [vs_ts ra_vs command]. change (1 =? 0) with false. cbn match.
    unfold BackUp, zoom, mbind, M_bind. cbn [command ra_arg ea_request]. by rewrite Hrun. }
  set (ga := <[0%nat := set_locked {[1%nat]} r]> g).
  assert (forall req g0 r0, g0 !! 0%nat = Some r0 ->
    broadcast cfg net 0 (command 1 req) g0 =
    (c ← getReplicaClient cfg net 0 1;
     when c (call_replicate 1 (command 1 req) ;; releaseReplicaClient cfg 0 1)) g0) as Hb.
  { intros req g0 r0 H0. unfold broadcast. rewrite Hmax. cbn [seq for_each Nat.eqb negb when]. rewrite bind_ret_l.
    unfold mbind, M_bind. destruct (getReplicaClient cfg net 0 1 g0) as [c g2|? ?| |]; try done.
    by destruct (when c _ g2) as [[] ?|? ?| |]. }
  assert (exists g', call_replicate 1 (command 1 (ea_request arg)) ga = Throw exn_xdr g' /\
    g' !! 0%nat = Some (set_locked {[1%nat]} r)) as (g' & Hcall & Hg').
  { unfold call_replicate, ga. rewrite lookup_insert_ne, Hg1, Hrep by done.
    destruct e; eexists; (split; [done|]).
    all: by simplify_map_eq. }
  exists g'. split.
  - unfold execute. rewrite (bind_Ret _ _ _ _ _ (at_rank_gets 0%nat isLeader g r Hg)), Hlead. cbn [negb].
    assert (replicateCommand cfg net 0 (ea_request arg) g = Throw exn_xdr g') as HR.
    { unfold replicateCommand, mbind at 1, M_bind at 1. rewrite (Hb _ g r Hg).
      rewrite (bind_Ret _ _ _ _ _ (get_client 0%nat 1%nat g r Hg Hl Ho)).
      assert (connected net 0 1 g = true) as -> by (unfold connected; by rewrite Hn, Hg1).
      cbn [when]. fold ga. unfold mbind, M_bind. by rewrite Hcall. }
    unfold mbind, M_bind. by rewrite HR.
  - intros arg'. unfold execute. rewrite (bind_Ret _ _ _ _ _ (at_rank_gets 0%nat isLeader g' _ Hg')).
    cbn [isLeader set_locked]. rewrite Hlead. cbn [negb].
    assert (getReplicaClient cfg net 0 1 g' = Diverge) as Hblk.
    { unfold getReplicaClient. rewrite Ho. unfold cassert. rewrite bind_ret_l.
      rewrite (bind_Ret _ _ _ _ _ (at_rank_gets 0%nat id g' _ Hg')), (bind_Ret (gets _) _ g' _ g' eq_refl).
      cbn [id locked set_locked]. by rewrite bool_decide_true by set_solver. }
    assert (replicateCommand cfg net 0 (ea_request arg') g' = Diverge) as HR.
    { unfold replicateCommand, mbind at 1, M_bind at 1. rewrite (Hb _ g' _ Hg').
      unfold mbind, M_bind. by rewrite Hblk. }
    unfold mbind, M_bind. by rewrite HR.
Qed.
End facts.

Section elections.
Context {S : Type} `{!BackStore S} `{OE : !OffEnd} (cfg : Config) (net : nat -> nat -> bool).
Implicit Types (g : Group S) (r : Replica S) (self i : nat).

(** ** Elections *)

(** What the election maintains of a replica. *)
Definition role r : Z * view_t * bool * gset nat := (mode r, view r, isLeader r, locked r).
Definition same_roles g g' : Prop := forall i, role <$> g' !! i = role <$> g !! i.

(** The message of a view, and its delivery. *)
Definition view_message (v : view_t) : init_view_request := mkinit_view_request v (mkviewstamp_t (mkviewid_t 0 "") 0).

Lemma replicate_view v r : sendable (view_message v) ->
  exists m, xdr_to_msg (view_message v) = MOk m /\
    exists res, replicate (command 0 (raw_data m)) r = Ret res (set_view v (set_leader false r)).
Proof.
  intros [Hv Hl]. eexists. split; [by apply xdr_to_msg_ok|]. eexists.
  unfold replicate. cbn [vs_ts ra_vs command ra_arg ea_request]. change (0 =? 0) with true. cbn match.
  set (w := wire (view_message v)) in *.
  assert (raw_data (Message (swap_put32 (Z.lor (blen w) 0x80000000)) w) = swap_put32 (Z.lor (blen w) 0x80000000) ++ w)
    as -> by done.
  assert (blen (swap_put32 (Z.lor (blen w) 0x80000000)) = 4) as H4 by done.
  assert (view_request (T := Replica S) (swap_put32 (Z.lor (blen w) 0x80000000) ++ w) r = Ret (view_message v) r) as Hvr.
  { unfold view_request, alloc_len. rewrite blen_app, H4. pose proof (blen_nonneg w).
    rewrite wrap64_small by (unfold u64; lia). destruct (Z.ltb_spec (4 + blen w - 4) 0x80000000); [|lia].
    change (drop 4 (swap_put32 (Z.lor (blen w) 2147483648) ++ w)) with w. subst w.
    by rewrite xdr_from_msg_wire. }
  rewrite (bind_Ret _ _ _ _ _ Hvr). done.
Qed.


(** [m] leads, alone, and every process knows it. *)
Definition elected m g : Prop := forall i r, g !! i = Some r ->
  isLeader r = bool_decide (i = m) /\
  vw_primary (view r) = mkcohort_t (getReplicaAddress cfg m) (getClientUseAddress cfg m).

(** Every process has a rank of the configuration and holds no lock. *)
Definition in_range g : Prop := forall i, is_Some (g !! i) -> (i < getMaxNumClient cfg)%nat.

(** The callback that announces a new leader to the server logic. *)
Context (initialize : nat -> M (Group S) unit).

(** The view of a replica names another one, of rank [j]. *)
Definition follows self r j : Prop := isLeader r = false /\ co_addr (vw_primary (view r)) <> "" /\
  getClientUseAddressRank cfg (co_addr (vw_primary (view r))) = Some j /\ is_other cfg self j = true.

(** The assertion of [NotifyNewLeader].  A replica that has entered the
    manager mode because its leader was down, and then learns of a new leader
    that it reaches (the view arrives by [replicate], which leaves the mode
    alone), stops at its next turn. *)
Lemma election_race_aborts self g r j : g !! self = Some r -> locked r = ∅ -> mode r = VC_MANAGER ->
  follows self r j -> connected net self j g = true ->
  run_turn cfg net initialize self g = Abort.
Proof.
  intros Hg Hl Hmode (Hlead & Ha & Hj & Ho) Hc. unfold run_turn.
  rewrite (bind_Ret _ _ _ _ _ (at_rank_gets self mode g r Hg)), Hmode. change (VC_MANAGER =? VC_MANAGER) with true. cbn match.
  assert (isLeaderDown cfg net self g = Ret false g) as Hd.
  { unfold isLeaderDown. rewrite (bind_Ret _ _ _ _ _ (at_rank_gets self id g r Hg)).
    change (id r) with r. rewrite Hlead. cbv zeta. rewrite bool_decide_false, Hj by done.
    pose proof (peek_client cfg net self j g r Hg Hl Ho) as Hp. rewrite Hc in Hp.
    unfold mbind, M_bind in Hp |- *. destruct (getReplicaClient cfg net self j g) as [c g1|e g1| |]; try done.
    destruct (when c (releaseReplicaClient cfg self j) g1); try done. by injection Hp as -> ->. }
  unfold NotifyNewLeader. by rewrite bind_assoc, (bind_Ret _ _ _ _ _ Hd).
Qed.

Context (net_full : forall i j, i <> j -> net i j = true).
(** The callback returns and leaves the state of the election alone. *)
Context (initialize_ok : forall m g, is_Some (g !! m) ->
  exists g', initialize m g = Ret tt g' /\ same_roles g g').

Lemma announce_elects m g r : in_range g -> g !! m = Some r -> locked r = ∅ -> isLeader r = true ->
  vw_primary (view r) = mkcohort_t (getReplicaAddress cfg m) (getClientUseAddress cfg m) ->
  sendable (view_message (view r)) ->
  exists g', announce cfg net initialize m g = Ret tt g' /\ elected m g' /\
    forall i, (fun r => (mode r, locked r)) <$> g' !! i = (fun r => (mode r, locked r)) <$> g !! i.
Proof.
  intros Hin Hg Hl Hlead Hprim Hsend. unfold announce. rewrite (bind_Ret _ _ _ _ _ (at_rank_gets m view g r Hg)).
  set (f := fun r' => set_view (view r) (set_leader false r')).
  assert (replicateView cfg net m (view_message (view r)) g = Ret tt (deliver net (all_ranks cfg) m f g)) as HR.
  { destruct (replicate_view (view r) r Hsend) as (msg & Hmsg & _). unfold replicateView. rewrite Hmsg.
    unfold of_msg. rewrite bind_ret_l. apply (broadcast_run cfg net m _ f g r Hg Hl). intros i ri _ _.
    destruct (replicate_view (view r) ri Hsend) as (msg' & Hmsg' & res & Hres). rewrite Hmsg in Hmsg'.
    injection Hmsg' as <-. exists res. exact Hres. }
  fold (view_message (view r)). rewrite (bind_Ret _ _ _ _ _ HR).
  set (g1 := deliver net (all_ranks cfg) m f g) in *.
  assert (g1 !! m = Some r) as Hg1.
  { unfold g1. rewrite deliver_lookup, Hg. cbn [fmap option_fmap option_map]. rewrite decide_False; [done|tauto]. }
  assert (forall i ri, g !! i = Some ri -> i <> m -> g1 !! i = Some (f ri)) as Hother.
  { intros i ri Hi Hne. unfold g1. rewrite deliver_lookup, Hi. cbn [fmap option_fmap option_map].
    rewrite decide_True; [done|]. split_and!; [|done|by apply net_full]. apply elem_of_seq. specialize (Hin i (ex_intro _ ri Hi)). lia. }
  destruct (initialize_ok m g1) as (g2 & Hinit & Hroles); [by eexists|].
  pose proof (Hroles m) as Hm. rewrite Hg1 in Hm.
  destruct (g2 !! m) as [r2|] eqn:Hr2; [|done]. injection Hm as Hm1 Hm2 Hm3 Hm4.
  unfold initializeLeader. rewrite (bind_Ret _ _ _ _ _ Hinit), (at_rank_modify m _ g2 r2 Hr2).
  eexists. split; [done|]. split.
  - intros i ri. destruct (decide (i = m)) as [->|Hi].
    + rewrite lookup_insert_eq, bool_decide_true by done. intros [= <-]. simpl. by rewrite Hm2, Hm3.
    + rewrite lookup_insert_ne, bool_decide_false by done. intros Hri. specialize (Hroles i). rewrite Hri in Hroles.
      destruct (g1 !! i) as [ri1|] eqn:H1; [|done].
      destruct (g !! i) as [ri0|] eqn:H0; [|unfold g1 in H1; by rewrite deliver_lookup, H0 in H1].
      rewrite (Hother i ri0 H0 Hi) in H1. injection H1 as <-. injection Hroles as _ -> -> _. by split.
  - intros i. destruct (decide (i = m)) as [->|Hi]; [rewrite lookup_insert_eq, Hg; simpl; by rewrite Hm1, Hm4|].
    rewrite lookup_insert_ne by done. specialize (Hroles i).
    destruct (g !! i) as [ri0|] eqn:H0.
    + rewrite (Hother i ri0 H0 Hi) in Hroles. destruct (g2 !! i); [|done]. injection Hroles as E1 _ _ E4.
      simpl. by rewrite E1, E4.
    + assert (g1 !! i = None) as H1 by by (unfold g1; rewrite deliver_lookup, H0). rewrite H1 in Hroles.
      by destruct (g2 !! i).
Qed.

(** The replica knows of no leader, or of one that is not running. *)
Definition leader_gone self g r : Prop := isLeader r = false /\
  (co_addr (vw_primary (view r)) = "" \/
   exists j, getClientUseAddressRank cfg (co_addr (vw_primary (view r))) = Some j /\
     is_other cfg self j = true /\ g !! j = None).

Lemma leader_down_run self g r : g !! self = Some r -> locked r = ∅ -> leader_gone self g r ->
  isLeaderDown cfg net self g = Ret true g.
Proof.
  intros Hg Hl [Hlead Hgone]. unfold isLeaderDown. rewrite (bind_Ret _ _ _ _ _ (at_rank_gets self id g r Hg)).
  change (id r) with r. rewrite Hlead. cbv zeta. case_bool_decide as Ha; [done|].
  destruct Hgone as [|(j & -> & Ho & Hj)]; [done|].
  pose proof (get_client cfg net self j g r Hg Hl Ho) as Hc. unfold connected in Hc. rewrite Hj in Hc.
  rewrite bool_decide_false, andb_false_r in Hc by by intros [? ?]. by rewrite (bind_Ret _ _ _ _ _ Hc).
Qed.

Lemma candidate_running self g r i : g !! self = Some r -> in_range g ->
  candidate cfg net self g i <-> is_Some (g !! i).
Proof.
  intros Hg Hin. unfold candidate, connected. split.
  - intros [_ [->|H]]; [by eexists|]. apply andb_true_iff in H as [_ H]. by apply bool_decide_eq_true in H.
  - intros Hi. split; [by apply Hin|]. destruct (decide (i = self)) as [->|Hne]; [by left|]. right.
    rewrite net_full by done. by apply bool_decide_eq_true.
Qed.

(** A replica makes itself the leader and announces it. *)
Lemma become_announce m g r : in_range g -> g !! m = Some r -> locked r = ∅ ->
  sendable (view_message (primary_is cfg m (view r))) ->
  exists g', (become_leader cfg m ;; announce cfg net initialize m) g = Ret tt g' /\ elected m g' /\
    forall i, (fun r => (mode r, locked r)) <$> g' !! i =
      if decide (i = m) then Some (VC_ACTIVE, ∅) else (fun r => (mode r, locked r)) <$> g !! i.
Proof.
  intros Hin Hg Hl Hsend. unfold become_leader. rewrite (bind_Ret _ _ _ _ _ (at_rank_modify m _ g r Hg)).
  set (r1 := set_mode VC_ACTIVE (set_view (primary_is cfg m (view r)) (set_leader true r))).
  destruct (announce_elects m (<[m := r1]> g) r1) as (g' & Hrun & Hel & Hml);
    [|by rewrite lookup_insert_eq|done|done|done|done|].
  { intros i Hi. apply Hin. destruct (decide (i = m)) as [->|Hne]; [by eexists|].
    by rewrite lookup_insert_ne in Hi by done. }
  exists g'. split_and!; [done|done|]. intros i. rewrite Hml. case_decide as Hi.
  - subst. rewrite lookup_insert_eq. simpl. by rewrite Hl.
  - by rewrite lookup_insert_ne by done.
Qed.

Lemma release_run self i g r : g !! self = Some r -> is_other cfg self i = true ->
  releaseReplicaClient cfg self i g = Ret tt (<[self := set_locked (locked r ∖ {[i]}) r]> g).
Proof.
  intros Hg Ho. unfold releaseReplicaClient. rewrite Ho. unfold cassert. rewrite bind_ret_l.
  by rewrite (at_rank_modify self _ g r Hg).
Qed.

Lemma elected_insert m g i r r' : g !! i = Some r -> view r' = view r -> isLeader r' = isLeader r ->
  elected m g -> elected m (<[i := r']> g).
Proof.
  intros Hg Hv Hl Hel j rj. destruct (decide (j = i)) as [->|Hj].
  - rewrite lookup_insert_eq. intros [= <-]. rewrite Hv, Hl. by apply Hel.
  - rewrite lookup_insert_ne by done. apply Hel.
Qed.

Lemma notify_run self g r m r' : in_range g -> g !! self = Some r -> locked r = ∅ -> m <> self ->
  g !! m = Some r' -> locked r' = ∅ -> isLeader r' = false -> is_other cfg self m = true ->
  sendable (view_message (primary_is cfg m (view r'))) ->
  exists g', (c ← getReplicaClient cfg net self m;
    cassert c ;;
    succeed ← call_init_view cfg net initialize m;
    when (negb succeed)
      (at_rank self (modify (fun r => set_view (primary_is cfg m (view r)) (set_leader false r)))) ;;
    releaseReplicaClient cfg self m ;;
    at_rank self (modify (set_mode VC_ACTIVE)) ;;
    mret false) g = Ret false g' /\ elected m g' /\
    forall i, (fun r => (mode r, locked r)) <$> g' !! i =
      if decide (i = m \/ i = self) then Some (VC_ACTIVE, ∅) else (fun r => (mode r, locked r)) <$> g !! i.
Proof.
  intros Hin Hg Hl Hne Hg' Hl' Hlead Ho Hsend. rewrite (bind_Ret _ _ _ _ _ (get_client cfg net self m g r Hg Hl Ho)).
  assert (connected net self m g = true) as -> by (unfold connected; by rewrite net_full, Hg' by done).
  set (g1 := <[self := set_locked {[m]} r]> g). unfold cassert. rewrite bind_ret_l.
  assert (g1 !! m = Some r') as Hg1 by by (unfold g1; rewrite lookup_insert_ne).
  destruct (become_announce m g1 r') as (g2 & Hrun & Hel & Hml); [|done|done|done|].
  { intros i Hi. apply Hin. unfold g1 in Hi. destruct (decide (i = self)) as [->|Hi']; [by eexists|].
    by rewrite lookup_insert_ne in Hi by done. }
  assert (call_init_view cfg net initialize m g1 = Ret true g2) as Hcall.
  { unfold call_init_view, init_view. rewrite (bind_Ret _ _ _ _ _ (at_rank_gets m isLeader g1 r' Hg1)), Hlead. cbn match.
    unfold mbind, M_bind in Hrun |- *. destruct (become_leader cfg m g1); try done.
    by rewrite Hrun. }
  rewrite (bind_Ret _ _ _ _ _ Hcall). cbn [negb when]. rewrite bind_ret_l.
  pose proof (Hml self) as Hs. rewrite decide_False in Hs by done. unfold g1 in Hs. rewrite lookup_insert_eq in Hs.
  destruct (g2 !! self) as [r2|] eqn:Hr2; [|done]. injection Hs as Hm2 Hl2.
  rewrite (bind_Ret _ _ _ _ _ (release_run self m g2 r2 Hr2 Ho)).
  rewrite (bind_Ret _ _ _ _ _ (at_rank_modify self _ _ _ (lookup_insert_eq _ _ _))), insert_insert_eq.
  eexists. split; [done|]. split; [by apply (elected_insert m g2 self r2)|].
  intros i. destruct (decide (i = self)) as [->|Hi].
  - rewrite lookup_insert_eq, decide_True by tauto. simpl. by rewrite Hl2, difference_diag_L.
  - rewrite lookup_insert_ne, Hml by done. unfold g1. rewrite lookup_insert_ne by done.
    repeat case_decide; tauto.
Qed.

(** C14: an election.  In a group whose processes all reach each other and
    where none leads, one turn of a replica that has lost its leader returns
    with a unique leader, the lowest rank that runs, which every process takes
    for the primary of its view; no lock stays held. *)
Theorem election_unique_leader self g r : in_range g ->
  (forall i ri, g !! i = Some ri -> locked ri = ∅ /\ isLeader ri = false /\
     sendable (view_message (primary_is cfg i (view ri)))) ->
  g !! self = Some r -> mode r = VC_MANAGER -> leader_gone self g r ->
  exists m g', run_turn cfg net initialize self g = Ret tt g' /\ is_Some (g !! m) /\
    (forall i, is_Some (g !! i) -> (m <= i)%nat) /\ elected m g' /\
    (forall i, is_Some (g' !! i) <-> is_Some (g !! i)) /\
    (forall i ri, g' !! i = Some ri -> locked ri = ∅) /\ mode <$> g' !! self = Some VC_ACTIVE.
Proof.
  intros Hin Hall Hg Hmode Hgone. destruct (Hall self r Hg) as (Hl & _ & _).
  unfold run_turn. rewrite (bind_Ret _ _ _ _ _ (at_rank_gets self mode g r Hg)), Hmode. cbn match.
  destruct (newLeaderRank_run cfg net self g r Hg Hl) as (m & Hm & Hc & Hmin); [by apply Hin|].
  rewrite (candidate_running self g r m Hg Hin) in Hc.
  assert (forall i, is_Some (g !! i) -> (m <= i)%nat) as Hmin'
    by (intros i Hi; apply Hmin; by apply (candidate_running self g r)).
  destruct Hc as [r' Hg']. destruct (Hall m r' Hg') as (Hl' & Hlead' & Hsend').
  assert (exists g', (becomeLeader ← NotifyNewLeader cfg net initialize self;
      when becomeLeader (announce cfg net initialize self)) g = Ret tt g' /\ elected m g' /\
      forall i, (fun r => (mode r, locked r)) <$> g' !! i =
        if decide (i = m \/ i = self) then Some (VC_ACTIVE, ∅) else (fun r => (mode r, locked r)) <$> g !! i)
    as (g' & Hrun & Hel & Hml).
  { unfold NotifyNewLeader. rewrite bind_assoc, (bind_Ret _ _ _ _ _ (leader_down_run self g r Hg Hl Hgone)).
    unfold cassert. rewrite bind_assoc, bind_ret_l, bind_assoc, (bind_Ret _ _ _ _ _ Hm).
    destruct (Nat.eqb_spec m self) as [->|Hne].
    - destruct (become_announce self g r Hin Hg Hl) as (g' & Hrun & Hel & Hml); [by apply Hall|].
      exists g'. split_and!; [|done|].
      + rewrite bind_assoc. unfold mbind, M_bind in Hrun |- *.
        destruct (become_leader cfg self g); try done.
      + intros i. rewrite Hml. repeat case_decide; tauto.
    - destruct (notify_run self g r m r') as (g' & Hrun & Hel & Hml); try done.
      { unfold is_other. rewrite andb_true_iff, negb_true_iff, Nat.ltb_lt, Nat.eqb_neq. split; [|done].
        apply Hin. by eexists. }
      exists g'. rewrite (bind_Ret _ _ _ _ _ Hrun). by split_and!. }
  exists m, g'. split_and!; [done|by eexists|done|done| | |].
  - intros i. specialize (Hml i). split; intros [ri Hi]; rewrite Hi in Hml.
    + case_decide as Hd; [destruct Hd; subst; by eexists|]. destruct (g !! i); [by eexists|done].
    + destruct (g' !! i); [by eexists|]. by case_decide.
  - intros i ri Hi. specialize (Hml i). rewrite Hi in Hml. case_decide; [by injection Hml|].
    destruct (g !! i) as [r0|] eqn:H0; [|done]. injection Hml as _ ->. by apply (Hall i r0).
  - specialize (Hml self). rewrite decide_True in Hml by tauto. destruct (g' !! self); [|done].
    injection Hml as E _. simpl. by rewrite E.
Qed.

End elections.
