(* ===== verification/PaxosDb.v ===== *)
(** * The database replicated by a group

    [ServerDBPaxos] over a replica group whose backing stores are
    [ServerdbBackstore]s: the refinement of the abstract tree by a whole group,
    and runs of small groups in which processes fail, return or lose contact. *)

From S2P Require Import Prelude Xdr ServerPaxosTypes PaxosTypes ServerTypes ServerDB Tree ServerDBWf.
From S2P Require Import ServerDBRefine ServerDBProps DbApi Backstore BackstoreRefine Paxos PaxosProps.

(** The [BackStore] of the test program [paxos_replica]. *)
Definition echo_store : BackStore unit := fun input => mret (str_bytes "ok: " ++ input).

Section group.
Context `{sqlite : !Sqlite} `{OE : !OffEnd} (str_hash : string -> Z) (junk : Z).
Context (cfg : Config) (net : nat -> nat -> bool).

#[local] Instance db_store : BackStore Db := Run str_hash junk.

(** [PaxosLib] in the process of rank [self]. *)
Definition group_paxos (self : nat) : PaxosUser (Group Db) := {|
  px_execute := execute cfg net self;
  px_isLeaderAndInitialized := isLeaderAndInitialized self;
|}.

(** The database calls of the server logic in that process. *)
Definition group_op (self : nat) (op : db_op) : M (Group Db) api_reply :=
  api_op (DbApi0 := ServerDBPaxos (PaxosUser0 := group_paxos self)) op.


(** The server logic of a replica that does not lead gets an exception
    from every call of the database, and the group does not change. *)
Lemma follower_refuses self op g r t : g !! self = Some r -> isLeader r = false -> op_ok op t = true ->
  group_op self op g = Throw (exn_runtime "Not the Paxos leader.") g.
Proof.
  intros Hg Hl Hok. pose proof (param_sendable str_hash op t Hok) as Hp.
  assert (runPaxos (PaxosUser0 := group_paxos self) (param_of op) g =
    Throw (exn_runtime "Not the Paxos leader.") g) as HR.
  { unfold runPaxos. rewrite (bind_Ret _ _ _ _ _ (encode_run _ g Hp)).
    change (px_execute (execute_arg_of (wire (param_of op)))) with (execute cfg net self (execute_arg_of (wire (param_of op)))).
    by rewrite (bind_Ret _ _ _ _ _ (execute_follower cfg net self _ g r Hg Hl)). }
  unfold group_op. destruct op; cbn [param_of] in HR; unfold api_op;
    cbn [db_checkAndCreate db_checkAndOpen db_checkAndDelete db_checkAndRead db_checkAndUpdate
      db_testAndSetLockOwner db_resetLockOwner db_getStates ServerDBPaxos];
    unfold mbind, M_bind; by rewrite HR.
Qed.

(** The part of the leader's callback that concerns the group: the server
    logic reads the owners of all locks. *)
Definition read_states (self : nat) : M (Group Db) unit := group_op self OpGetStates ;; mret tt.
End group.

(** ** Small groups *)

#[local] Existing Instance strict_engine.
#[local] Instance sample_store : BackStore Db := Run sample_hash 7.
#[local] Instance sample_end : OffEnd := Some new_res.

(** The first three replicas of [paxos/config.txt]. *)
Definition sample_config : Config := mkConfig 1
  [("localhost:8111", "localhost:4004"); ("localhost:8333", "localhost:8444"); ("localhost:8555", "localhost:8666")].

Definition all_linked (i j : nat) : bool := true.
(** The replica of rank 0 is cut off from the others. *)
Definition zero_cut_off (i j : nat) : bool := negb (i =? 0)%nat && negb (j =? 0)%nat.

Definition sample_op net self op : M (Group Db) api_reply := group_op sample_hash 7 sample_config net self op.
Definition sample_turn net self : M (Group Db) unit :=
  run_turn sample_config net (read_states sample_hash 7 sample_config net) self.

Definition start (ranks : list nat) : Group Db := list_to_map ((fun i => (i, new_replica create_db)) <$> ranks).

(** A process starts on a database that exists. *)
Definition restart (rank : nat) (d : Db) : M (Group Db) unit := modify <[rank := new_replica d]>.

(** The leaders, and the nodes in the database of each process. *)
Definition leaders (g : Group Db) : list nat := filter (fun i => Is_true (from_option isLeader false (g !! i))) (seq 0 3).
Definition nodes_of (g : Group Db) (i : nat) : list (string * Z) :=
  match g !! i with
  | Some r => (fun '(name, row) => (name, instance_number row)) <$> map_to_list (fs (store r))
  | None => []
  end.

Definition observe {A} (o : outcome (Group Db) A) : option (A * list nat * list (list (string * Z))) :=
  match o with Ret a g => Some (a, leaders g, nodes_of g <$> [0; 1; 2]%nat) | _ => None end.

(** Two leaders.  There are no quorums: a replica cut off from the two
      others elects itself while they elect another, both leaders accept
      commands, and their databases differ for good, with one instance number
      for two nodes. *)
Lemma split_brain :
  observe ((sample_turn zero_cut_off 0 ;; sample_turn zero_cut_off 1 ;;
            a ← sample_op zero_cut_off 0 (OpCreate "/a" false);
            b ← sample_op zero_cut_off 1 (OpCreate "/b" false); mret (a, b)) (start [0; 1; 2]%nat)) =
  Some ((AInst (true, 1), AInst (true, 1)), [0; 1]%nat, [[("/a", 1)]; [("/b", 1)]; [("/b", 1)]]).
Proof. vm_compute. reflexivity. Qed.

(** A replica that returns takes over with an old database.  There is no
      state transfer: the lowest rank, started again on the database it had,
      becomes the leader of a running group, and the node that the group had
      created is gone for the clients. *)
Lemma stale_replica_takes_over :
  observe ((sample_turn all_linked 1 ;; a ← sample_op all_linked 1 (OpCreate "/a" false);
            restart 0 create_db ;; sample_turn all_linked 0 ;;
            b ← sample_op all_linked 0 (OpOpen "/a"); mret (a, b)) (start [1; 2]%nat)) =
  Some ((AInst (true, 1), AInst (false, 7)), [0]%nat, [[]; [("/a", 1)]; [("/a", 1)]]).
Proof. vm_compute. reflexivity. Qed.

(** ** The theorems on these groups *)

(** Three replicas after the election of the first. *)
Definition led_group : Group Db :=
  match sample_turn all_linked 0 (start [0; 1; 2]%nat) with Ret _ g => g | _ => ∅ end.
Definition leader_replica : Replica Db :=
  mkReplica VC_ACTIVE (primary_is sample_config 0 no_view) true true create_db ∅ 0.

Definition led_follower : Replica Db :=
  run_off (set_view (primary_is sample_config 0 no_view) (new_replica create_db)).

Lemma led_leader : led_group !! 0%nat = Some leader_replica.
Proof. vm_compute. reflexivity. Qed.

Lemma led_synced : synced sample_config all_linked 0 led_group leader_replica.
Proof.
  split; [split_and!; [exact led_leader|done|done]|]. intros i ri [Ho _] Hi.
  unfold is_other in Ho. apply andb_true_iff in Ho as [Hlt _]. apply Nat.ltb_lt in Hlt. change (i < 3)%nat in Hlt.
  destruct i as [|[|[|i]]]; [| | |lia]; vm_compute in Hi; by injection Hi as <-.
Qed.


Lemma follower_refuses_witness :
  sample_op all_linked 1 (OpOpen "/a") led_group = Throw (exn_runtime "Not the Paxos leader.") led_group.
Proof.
  unfold sample_op. apply (follower_refuses sample_hash 7 sample_config all_linked 1 (OpOpen "/a") led_group
    led_follower (tree_of create_db));
    vm_compute; reflexivity.
Defined.

Lemma getNewLeaderRank_min_witness : exists m,
  getNewLeaderRank sample_config zero_cut_off 2 led_group = Ret m led_group /\
  candidate sample_config zero_cut_off 2 led_group m /\
  forall i, candidate sample_config zero_cut_off 2 led_group i -> (m <= i)%nat.
Proof.
  apply (getNewLeaderRank_min sample_config zero_cut_off 2 led_group
    led_follower).
  - vm_compute. reflexivity.
  - done.
  - vm_compute. lia.
Defined.

(** The callback of [paxos_replica], which only prints. *)
Definition print_only (self : nat) : M (Group unit) unit := mret tt.
Definition echo_group : Group unit := list_to_map [(1%nat, new_replica tt); (2%nat, new_replica tt)].

Definition echo_arg (s : string) : execute_arg := execute_arg_of (str_bytes s).

Lemma echo_in_range : in_range sample_config echo_group.
Proof.
  intros i [r Hr]. change (getMaxNumClient sample_config) with 3%nat.
  destruct i as [|[|[|i]]]; [lia..|]. unfold echo_group in Hr. by simplify_map_eq.
Qed.

#[local] Existing Instance echo_store.

Lemma sendable_view i : str_valid (getReplicaAddress sample_config i) -> str_valid (getClientUseAddress sample_config i) ->
  blen (wire (view_message (primary_is sample_config i no_view))) < 2 ^ 31 ->
  sendable (view_message (primary_is sample_config i no_view)).
Proof.
  intros H1 H2 H3. split; [|exact H3]. assert (str_valid "") as H0 by by vm_compute.
  repeat split; try done; try exact H0.
Qed.

Lemma election_unique_leader_witness : exists m g',
  run_turn sample_config all_linked print_only 2 echo_group = Ret tt g' /\ is_Some (echo_group !! m) /\
  elected sample_config m g'.
Proof.
  destruct (election_unique_leader sample_config all_linked print_only (fun _ _ _ => eq_refl)
    (fun m g _ => ex_intro _ g (conj eq_refl (fun i => eq_refl))) 2 echo_group (new_replica tt))
    as (m & g' & H1 & H2 & _ & H3 & _).
  - exact echo_in_range.
  - intros i ri Hi. unfold echo_group in Hi.
    destruct i as [|[|[|i]]]; simplify_map_eq; (split_and!; [done|done|]);
      apply sendable_view; by vm_compute.
  - done.
  - done.
  - split; [done|by left].
  - exists m, g'. exact (conj H1 (conj H2 H3)).
Defined.

Definition echo_led : Group unit :=
  match run_turn sample_config all_linked print_only 1 echo_group with Ret _ g => g | _ => ∅ end.

Lemma echo_led_synced : synced sample_config all_linked 1 echo_led
  (mkReplica VC_ACTIVE (primary_is sample_config 1 no_view) true true tt ∅ 0).
Proof. split; [split_and!; [vm_compute; reflexivity|done|done]|]. intros i ri _ _. by destruct (store ri). Qed.


(** The election of rank 1 reaches rank 2 before its first turn, which stops it. *)
Lemma election_race_aborts_witness : run_turn sample_config all_linked print_only 2 echo_led = Abort.
Proof.
  apply (election_race_aborts sample_config all_linked print_only 2 echo_led
    (set_view (primary_is sample_config 1 no_view) (new_replica tt)) 1).
  1-3, 5: vm_compute; reflexivity.
  split_and!; [done| |vm_compute; reflexivity|done]. vm_compute. discriminate.
Defined.

(** A group of two whose stores cannot run a request of three bytes. *)
Definition pair_config : Config := mkConfig 1 [("localhost:8111", "localhost:4004"); ("localhost:8333", "localhost:8444")].
Definition pair_group : Group Db := <[0%nat := leader_replica]> (start [1%nat]).

Lemma failed_replica_blocks_leader_witness : exists g',
  execute pair_config all_linked 0 (echo_arg "bad") pair_group = Throw exn_xdr g' /\
  execute pair_config all_linked 0 (echo_arg "any") g' = Diverge.
Proof.
  destruct (failed_replica_blocks_leader (BackStore0 := sample_store) pair_config all_linked pair_group leader_replica
    (new_replica create_db) (echo_arg "bad") exn_xdr create_db eq_refl eq_refl) as (g' & H1 & H2).
  - split_and!; [vm_compute; reflexivity|done|done].
  - vm_compute. reflexivity.
  - vm_compute. reflexivity.
  - exists g'. exact (conj H1 (H2 (echo_arg "any"))).
Defined.
