(* ===== verification/PaxosRpc.v ===== *)
(** * Calls between replicas go through the RPC layer

    [Paxos] models a remote call as the run of a handler in the called
    process.  Here the call [paxos_v1::replicate] is made through the client
    and the server of [Rpc], and does the same. *)

From S2P Require Import Prelude Xdr RpcMsg Rpc PaxosTypes Interfaces Paxos PaxosDb.

(** ** The listener of a replica *)

Section replica.
Context {S : Type} `{!BackStore S} `{OE : !OffEnd}.

(** The methods of [paxos_v1_server]; only [replicate] is used here. *)
Variable server_ : forall p, paxos_arg p -> M (Replica S) (paxos_res p).
Hypothesis server_replicate : server_ P_replicate = replicate.

(** [paxos_listener->register_service] *)
Definition listener : services (Replica S) :=
  register_service_base (program paxos_v1) (version paxos_v1) (process paxos_v1 server_) ∅.

(** The group after a call that left the connection in [k]. *)
Definition after (rank_id : nat) (k : conn (Replica S)) (g : Group S) : Group S :=
  match peer k with Some r => <[rank_id := r]> g | None => delete rank_id g end.

(** What runs off the end of [replicate] is a result that can be sent. *)
Definition off_end_valid : Prop := forall v, off_end = Some v -> xdr_valid v /\ blen (wire v) + 24 < 2 ^ 31.

Lemma replicate_value arg r res r' : replicate arg r = Ret res r' -> res = new_res \/ off_end = Some res.
Proof.
  unfold replicate. destruct (vs_ts (ra_vs arg) =? 0); intros (? & ? & _ & H)%bind_Ret_inv.
  - apply bind_Ret_inv in H as (? & ? & _ & H). apply bind_Ret_inv in H as (? & ? & _ & H).
    injection H as <- _. by left.
  - apply bind_Ret_inv in H as (? & ? & _ & H). destruct off_end; [|done]. injection H as <- _. by right.
Qed.

End replica.

(** ** Instances *)

(** The other methods answer with a new result. *)
#[local] Instance returned_end : OffEnd := Some new_res.
Definition stub_server {S} `{!BackStore S} (p : paxos_proc) : paxos_arg p -> M (Replica S) (paxos_res p) :=
  match p with
  | P_replicate => replicate
  | P_view_change => fun _ => throw exn_xdr
  | P_new_view => fun _ => mret (mknew_view_res false)
  | P_init_view => fun _ => mret (mkinit_view_res false)
  end.

