(* ===== verification/Config.v ===== *)
(** * The configuration file and its readers

    Three programs read the file that lists the replicas: [ReplicaState]
    ([paxos/replica_state.cc]), the server ([GetServicePort] of
    [server/server.cc]) and the client library ([server/chubby_client.cc]).
    Addresses are split by [paxos/helper.cc]. *)

From S2P Require Import Prelude Numbers Xdr PaxosTypes Backstore Paxos.

(** ** [std::getline] *)

Definition newline : ascii := "010"%char.

(** A [std::ifstream]: what is left of the file, and [good()]. *)
Record ifs := mkIfs { left_of : bytes; good : bool }.

(** The characters before the first newline, and those behind it. *)
Fixpoint cut_line (b : bytes) : bytes * option bytes :=
  match b with
  | [] => ([], None)
  | c :: b =>
      if Ascii.eqb c newline then ([], Some b) else
      let (l, r) := cut_line b in (c :: l, r)
  end.

(** [std::getline(f, line)]: the stream, [line], and whether it succeeded.  A
    stream that is not good leaves [line] as it was. *)
Definition getline (f : ifs) (line : bytes) : ifs * bytes * bool :=
  if negb (good f) then (f, line, false) else
  match cut_line (left_of f) with
  | (l, Some r) => (mkIfs r true, l, true)
  | (l, None) => (mkIfs [] false, l, match l with [] => false | _ => true end)
  end.

(** A file that is opened; [None] when that fails. *)
Definition ifs_open (file : option bytes) : ifs :=
  match file with Some b => mkIfs b true | None => mkIfs [] false end.

(** ** Addresses *)

(** [s.find(":")] *)
Fixpoint find_colon (b : bytes) : option nat :=
  match b with
  | [] => None
  | c :: b => if Ascii.eqb c ":" then Some 0%nat else S <$> find_colon b
  end.

(** [paxos/helper.cc]; [None] is the failed assertion. *)
Definition analyzeNetworkAddress (a : bytes) : option (bytes * bytes) :=
  colon_pos ← find_colon a;
  Some (take colon_pos a, drop (S colon_pos) a).
Definition analyzeNetworkPort (a : bytes) : option bytes :=
  colon_pos ← find_colon a;
  Some (drop (S colon_pos) a).

(** [line.substr(line.find(":") + 1)]: [npos + 1] is 0. *)
Definition after_colon (a : bytes) : bytes :=
  match find_colon a with Some colon_pos => drop (S colon_pos) a | None => a end.

(** ** The readers *)

(** The loop of the constructor of [ReplicaState]. *)
Fixpoint read_addresses (n : nat) (f : ifs) (line : bytes) : list (string * string) :=
  match n with
  | O => []
  | S n =>
      let '(f, line, _) := getline f line in
      let replica_address := bytes_str line in
      let '(f, line, _) := getline f line in
      (replica_address, bytes_str line) :: read_addresses n f line
  end.

(** The constructor of [ReplicaState]: [None] when [stoi] throws. *)
Definition read_config (file : option bytes) : option Config :=
  let '(f, line, _) := getline (ifs_open file) [] in
  quota ← stoi line;
  let '(f, line, _) := getline f line in
  max_num_client ← stoi line;
  Some (mkConfig quota (read_addresses (Z.to_nat max_num_client) f line)).

(** The loop of [GetServicePort] over [n] replicas, the next being [i]. *)
Fixpoint find_port (n : nat) (i self_rank : Z) (f : ifs) (line : bytes) : option bytes :=
  match n with
  | O => None
  | S n =>
      let '(f, line, _) := getline f line in
      let '(f, line, _) := getline f line in
      if i =? self_rank then Some (after_colon line) else find_port n (i + 1) self_rank f line
  end.

(** [GetServicePort]: [None] when [stoi] throws or the rank is not in the file. *)
Definition GetServicePort (file : option bytes) (self_rank : Z) : option bytes :=
  let '(f, line, _) := getline (ifs_open file) [] in
  let '(f, line, _) := getline f line in
  max_num ← stoi line;
  find_port (Z.to_nat max_num) 0 self_rank f line.

(** The loop of the constructor of [chubby_client]; a turn that goes on has
    read a line, so that as many turns as there are characters are enough. *)
Fixpoint read_servers (fuel : nat) (f : ifs) (line : bytes) : list (bytes * bytes) :=
  match fuel with
  | O => []
  | S fuel =>
      let '(f, line, ok) := getline f line in
      if negb ok then [] else
      let '(f, line, _) := getline f line in
      match find_colon line with
      | None => read_servers fuel f line
      | Some colon_pos => (take colon_pos line, drop (S colon_pos) line) :: read_servers fuel f line
      end
  end.
Definition client_servers (file : option bytes) : list (bytes * bytes) :=
  let '(f, line, _) := getline (ifs_open file) [] in
  let '(f, line, _) := getline f line in
  read_servers (S (length (left_of f))) f line.

(** The turns left of the loop. *)
Definition turns_left (f : ifs) : nat := if good f then S (length (left_of f)) else 0.

Lemma getline_left f line : (turns_left (getline f line).1.1 <= turns_left f)%nat /\
  ((getline f line).2 = true -> turns_left (getline f line).1.1 < turns_left f)%nat.
Proof.
  unfold getline, turns_left. destruct (good f) eqn:Eg; cbn [negb].
  2: { cbn. rewrite Eg. lia. }
  assert (forall b l r, cut_line b = (l, Some r) -> length r < length b)%nat as Hc.
  { intros b. induction b as [|c b IH]; cbn; [done|]. intros l r. destruct (Ascii.eqb c newline).
    - intros [= _ <-]. lia.
    - destruct (cut_line b) as [l' r']. intros [= _ ->]. specialize (IH l' r eq_refl). lia. }
  destruct (cut_line (left_of f)) as [l [r|]] eqn:E; cbn; [|lia]. apply Hc in E. lia.
Qed.

(** The fuel of [read_servers] is enough: more does not read more. *)
Lemma read_servers_fuel fuel f line : (turns_left f <= fuel)%nat ->
  read_servers (S fuel) f line = read_servers fuel f line.
Proof.
  revert f line. induction fuel as [|fuel IH]; intros f line Hf.
  { cbn. unfold turns_left in Hf. unfold getline. by destruct (good f); [lia|]. }
  cbn [read_servers]. pose proof (getline_left f line) as [_ H1].
  destruct (getline f line) as [[f1 l1] []]; cbn [negb fst snd] in *; [|done].
  pose proof (getline_left f1 l1) as [H2 _]. destruct (getline f1 l1) as [[f2 l2] ok2]; cbn [fst] in *.
  specialize (H1 eq_refl). assert (turns_left f2 <= fuel)%nat as H3 by lia.
  destruct (find_colon l2); [f_equal|]; exact (IH f2 l2 H3).
Qed.

(** ** The readers agree *)

Definition lines (ls : list bytes) : bytes := concat ((fun l => l ++ [newline]) <$> ls).

Lemma cut_line_app l r : newline ∉ l -> cut_line (l ++ newline :: r) = (l, Some r).
Proof.
  induction l as [|c l IH]; intros Hn; cbn; [done|]. apply not_elem_of_cons in Hn as [Hc Hl].
  destruct (Ascii.eqb_spec c newline); [congruence|]. by rewrite (IH Hl).
Qed.

Lemma getline_lines l ls line : newline ∉ l ->
  getline (mkIfs (lines (l :: ls)) true) line = (mkIfs (lines ls) true, l, true).
Proof.
  intros Hn. unfold getline. cbn [good left_of negb]. unfold lines. cbn.
  rewrite <-app_assoc. cbn [app]. by rewrite cut_line_app.
Qed.

(** The lines of the replicas. *)
Definition address_lines (l : list (bytes * bytes)) : list bytes := concat ((fun p => [p.1; p.2]) <$> l).
Definition plain_line (p : bytes * bytes) : Prop :=
  (newline ∉ p.1) /\ (newline ∉ p.2) /\ is_Some (find_colon p.2).

Section agree.
Context (q n : bytes) (quota : Z) (l : list (bytes * bytes)).
Context (Hq : stoi q = Some quota) (Hn : stoi n = Some (Z.of_nat (length l))).
Context (Hql : newline ∉ q) (Hnl : newline ∉ n) (Hl : Forall plain_line l).

Definition config_file : bytes := lines (q :: n :: address_lines l).

Lemma read_addresses_ok line k : Forall plain_line k ->
  read_addresses (length k) (mkIfs (lines (address_lines k)) true) line =
    prod_map bytes_str bytes_str <$> k.
Proof.
  intros Hk. revert line. induction Hk as [|[a c] k (Ha & Hc & _) Hk IH]; intros line; [done|].
  cbn [length read_addresses]. change (address_lines ((a, c) :: k)) with (a :: c :: address_lines k).
  rewrite !getline_lines by done. cbn. by rewrite IH.
Qed.

Lemma find_port_ok line k i j p : Forall plain_line k -> k !! j = Some p ->
  find_port (length k) i (i + Z.of_nat j) (mkIfs (lines (address_lines k)) true) line = Some (after_colon p.2).
Proof.
  intros Hk. revert line i j. induction Hk as [|[a c] k (Ha & Hc & _) Hk IH]; intros line i j Hj; [done|].
  cbn [length find_port]. change (address_lines ((a, c) :: k)) with (a :: c :: address_lines k).
  rewrite !getline_lines by done. destruct j as [|j]; cbn in Hj.
  - injection Hj as <-. by rewrite Z.add_0_r, Z.eqb_refl.
  - destruct (Z.eqb_spec i (i + Z.of_nat (S j))); [lia|].
    replace (i + Z.of_nat (S j)) with (i + 1 + Z.of_nat j) by lia. by apply IH.
Qed.

Lemma read_servers_ok line k fuel : Forall plain_line k -> (length k < fuel)%nat ->
  read_servers fuel (mkIfs (lines (address_lines k)) true) line =
    (fun p => (take (default 0%nat (find_colon p.2)) p.2, after_colon p.2)) <$> k.
Proof.
  intros Hk. revert line fuel. induction Hk as [|[a c] k (Ha & Hc & [i Hi]) Hk IH]; intros line fuel Hf.
  { by destruct fuel; [lia|]. }
  destruct fuel as [|fuel]; cbn [length] in Hf; [lia|]. cbn [read_servers].
  change (address_lines ((a, c) :: k)) with (a :: c :: address_lines k).
  rewrite !getline_lines by done. cbn [negb fmap list_fmap snd]. unfold after_colon at 1. cbn [snd] in *.
  rewrite Hi. cbn [default from_option id]. by rewrite IH by lia.
Qed.

(** C31: the replicas, the server and the client library read the same group
    from a configuration file.  The replicas get the quota and all addresses,
    the server of each rank listens on the port of its client address, and the
    client library connects to the client addresses in the order of the ranks,
    with the ports on which the servers listen. *)
Theorem config_readers_agree :
  read_config (Some config_file) = Some (mkConfig quota (prod_map bytes_str bytes_str <$> l)) /\
  (client_servers (Some config_file)).*2 = (after_colon ∘ snd) <$> l /\
  forall i p, l !! i = Some p -> exists host port,
    client_servers (Some config_file) !! i = Some (host, port) /\
    analyzeNetworkAddress p.2 = Some (host, port) /\
    GetServicePort (Some config_file) (Z.of_nat i) = Some port.
Proof.
  assert (client_servers (Some config_file) =
    (fun p => (take (default 0%nat (find_colon p.2)) p.2, after_colon p.2)) <$> l) as Hc.
  { unfold client_servers, config_file, ifs_open. rewrite !getline_lines by done. apply read_servers_ok; [done|].
    cbn [left_of]. clear -l. induction l as [|[a c] k IH]; cbn [length]; [lia|].
    change (address_lines ((a, c) :: k)) with (a :: c :: address_lines k). unfold lines in *. cbn.
    rewrite !length_app. cbn. rewrite ?length_app. cbn. lia. }
  split_and!.
  - unfold read_config, config_file, ifs_open. rewrite getline_lines by done. rewrite Hq. cbn [mbind option_bind].
    rewrite getline_lines by done. rewrite Hn. cbn [mbind option_bind]. by rewrite Nat2Z.id, read_addresses_ok.
  - rewrite Hc, <-list_fmap_compose. done.
  - intros i p Hi. exists (take (default 0%nat (find_colon p.2)) p.2), (after_colon p.2). split_and!.
    + by rewrite Hc, list_lookup_fmap, Hi.
    + destruct (proj1 (Forall_lookup _ _) Hl i p Hi) as (_ & _ & [j Hj]).
      unfold analyzeNetworkAddress, after_colon. by rewrite Hj.
    + unfold GetServicePort, config_file, ifs_open. rewrite !getline_lines by done. rewrite Hn. cbn [mbind option_bind].
      rewrite Nat2Z.id. by apply (find_port_ok n l 0 i p).
Qed.
End agree.

(** A file in the format of [paxos/config.txt]. *)
Definition sample_addresses : list (bytes * bytes) :=
  prod_map str_bytes str_bytes <$>
    [("localhost:8111", "localhost:4004"); ("localhost:8333", "localhost:8444"); ("localhost:8555", "localhost:8666")].

Lemma config_readers_agree_witness :
  GetServicePort (Some (config_file ["1"%char] ["3"%char] sample_addresses)) 1 = Some (str_bytes "8444") /\
  client_servers (Some (config_file ["1"%char] ["3"%char] sample_addresses)) !! 1%nat =
    Some (str_bytes "localhost", str_bytes "8444").
Proof.
  destruct (config_readers_agree ["1"%char] ["3"%char] 1 sample_addresses) as (_ & _ & H).
  - reflexivity.
  - reflexivity.
  - by apply (bool_decide_unpack _).
  - by apply (bool_decide_unpack _).
  - unfold sample_addresses. repeat constructor; try (by apply (bool_decide_unpack _)); by eexists.
  - destruct (H 1%nat (str_bytes "localhost:8333", str_bytes "localhost:8444") eq_refl) as (host & port & Hc & Ha & Hp).
    injection Ha as <- <-. exact (conj Hp Hc).
Defined.
