(* ===== verification/ChubbyClient.v ===== *)
(** * The connection of a client: [server/chubby_client.h], [server/chubby_client.cc]

    A [chubby_client] has three threads: callers, one at a time ([rpclk_]), the
    thread that reads the connection ([poll_loop]) and the thread that runs the
    callbacks of events ([evcb_loop]).  Each turn of a thread is a definition; a
    call takes what the reading thread does while it waits as an argument.  An
    exception that leaves a thread other than the caller's ends the process
    ([Abort]).  The network is the class [ChubbyNet]. *)

From S2P Require Import Prelude Endian Xdr RpcMsg Rpc ServerTypes Interfaces.

(** ** The network

    [tcp_connect], a synchronous call on a descriptor with its transaction
    number, [write_message] and [close]. *)
Class ChubbyNet (W : Type) := {
  net_connect : bytes * bytes -> M W Z;
  net_call : forall p : api_proc, Z -> Z -> api_arg p -> M W (api_res p);
  net_write : Z -> message -> M W unit;
  net_close : Z -> M W unit;
}.

(** ** State *)

(** A pointer to the argument of the caller: [nullptr], a live object, or an
    object that is gone. *)
Inductive bkup_ptr := NoBkup | Bkup (h : FileHandler) | Dangling.

(** The members of [chubby_client] and the counter [xid_counter] of the
    process; [called] records the callbacks that were run and [bad_reads] the
    reads through a dangling pointer. *)
Record Client (W : Type) := mkClient {
  fd_ : Z;
  id_ : string;
  server_addr_ : list (bytes * bytes);
  event_queue_ : list bytes;
  reply_queue_ : list bytes;
  ecbs_ : gset Z;
  lk_acq_fd_bkup_ : bkup_ptr;
  hdr_bkup_ : rpc_msg;
  event_bkup_ : list (FileHandler * Z);
  cl_xid : Z;
  called : list (Z * string);
  bad_reads : nat;
  world : W;
}.
Arguments mkClient {W}.
Arguments fd_ {W}.
Arguments id_ {W}.
Arguments server_addr_ {W}.
Arguments event_queue_ {W}.
Arguments reply_queue_ {W}.
Arguments ecbs_ {W}.
Arguments lk_acq_fd_bkup_ {W}.
Arguments hdr_bkup_ {W}.
Arguments event_bkup_ {W}.
Arguments cl_xid {W}.
Arguments called {W}.
Arguments bad_reads {W}.
Arguments world {W}.

Section updates.
Context {W : Type}.
Implicit Types c : Client W.
Definition on_fd (fd : Z) c : Client W :=
  mkClient fd (id_ c) (server_addr_ c) (event_queue_ c) (reply_queue_ c) (ecbs_ c) (lk_acq_fd_bkup_ c)
    (hdr_bkup_ c) (event_bkup_ c) (cl_xid c) (called c) (bad_reads c) (world c).
Definition on_queues (ev rp : list bytes) c : Client W :=
  mkClient (fd_ c) (id_ c) (server_addr_ c) ev rp (ecbs_ c) (lk_acq_fd_bkup_ c)
    (hdr_bkup_ c) (event_bkup_ c) (cl_xid c) (called c) (bad_reads c) (world c).
Definition on_ecbs (g : gset Z -> gset Z) c : Client W :=
  mkClient (fd_ c) (id_ c) (server_addr_ c) (event_queue_ c) (reply_queue_ c) (g (ecbs_ c)) (lk_acq_fd_bkup_ c)
    (hdr_bkup_ c) (event_bkup_ c) (cl_xid c) (called c) (bad_reads c) (world c).
Definition on_lock_bkup (p : bkup_ptr) (hdr : rpc_msg) c : Client W :=
  mkClient (fd_ c) (id_ c) (server_addr_ c) (event_queue_ c) (reply_queue_ c) (ecbs_ c) p
    hdr (event_bkup_ c) (cl_xid c) (called c) (bad_reads c) (world c).
Definition on_event_bkup (g : list (FileHandler * Z) -> list (FileHandler * Z)) c : Client W :=
  mkClient (fd_ c) (id_ c) (server_addr_ c) (event_queue_ c) (reply_queue_ c) (ecbs_ c) (lk_acq_fd_bkup_ c)
    (hdr_bkup_ c) (g (event_bkup_ c)) (cl_xid c) (called c) (bad_reads c) (world c).
Definition on_xid (x : Z) c : Client W :=
  mkClient (fd_ c) (id_ c) (server_addr_ c) (event_queue_ c) (reply_queue_ c) (ecbs_ c) (lk_acq_fd_bkup_ c)
    (hdr_bkup_ c) (event_bkup_ c) x (called c) (bad_reads c) (world c).
Definition on_called (l : list (Z * string)) (n : nat) c : Client W :=
  mkClient (fd_ c) (id_ c) (server_addr_ c) (event_queue_ c) (reply_queue_ c) (ecbs_ c) (lk_acq_fd_bkup_ c)
    (hdr_bkup_ c) (event_bkup_ c) (cl_xid c) l n (world c).
Definition on_world (w : W) c : Client W :=
  mkClient (fd_ c) (id_ c) (server_addr_ c) (event_queue_ c) (reply_queue_ c) (ecbs_ c) (lk_acq_fd_bkup_ c)
    (hdr_bkup_ c) (event_bkup_ c) (cl_xid c) (called c) (bad_reads c) w.
End updates.

Section client.
Context {W : Type} `{!ChubbyNet W}.
(** What a read through the dangling pointer yields. *)
Context (stale_fd : FileHandler).
Abbreviation Op := (M (Client W)).

(** What never returns. *)
Definition block {A} : Op A := fun _ => Diverge.

Definition net {A} (m : M W A) : Op A := zoom world on_world m.

(** ** Connecting *)

Definition next_xid : Op Z := fun c =>
  let x := wrap32 (cl_xid c + 1) in Ret x (on_xid x c).

(** [synchronous_client_base::invoke] on the connection. *)
Definition sync_invoke (p : api_proc) (a : api_arg p) : Op (api_res p) :=
  x ← next_xid;
  fd ← gets fd_;
  net (net_call p fd x a).

(** The body of the loop over the servers; the result tells whether it ends. *)
Definition try_server (addr : bytes * bytes) : Op bool :=
  try_catch
    (fd ← net (net_connect addr);
     modify (on_fd fd) ;;
     id ← gets id_;
     r ← sync_invoke P_startSession id;
     match (r : RetBool) with
     | RB_val true => mret true
     | _ => net (net_close fd) ;; modify (on_fd (-1)) ;; mret false
     end)
    (fun _ => modify (on_fd (-1)) ;; mret false).

Fixpoint try_servers (l : list (bytes * bytes)) : Op unit :=
  match l with
  | [] => mret tt
  | addr :: l => ok ← try_server addr; if (ok : bool) then mret tt else try_servers l
  end.

(** [while (fd_ == -1)], for at most [rounds] rounds. *)
Fixpoint connect_loop (rounds : nat) : Op unit :=
  fd ← gets fd_;
  if negb (fd =? -1) then mret tt else
  match rounds with
  | O => block
  | S rounds => l ← gets server_addr_; try_servers l ;; connect_loop rounds
  end.

(** The rest of [connect_server_and_recover]. *)
Definition recover : Op unit :=
  l ← gets event_bkup_;
  for_each l (fun it => sync_invoke P_fileReopen (mkArgReopen it.1 it.2) ;; mret tt) ;;
  p ← gets lk_acq_fd_bkup_;
  let resend h :=
    hdr ← gets hdr_bkup_;
    m ← of_msg (xdr_to_msg (hdr, h));
    fd ← gets fd_;
    net (net_write fd m) in
  match p with
  | NoBkup => mret tt
  | Bkup h => resend h
  | Dangling => modify (fun c => on_called (called c) (S (bad_reads c)) c) ;; resend stale_fd
  end.

Definition connect_server_and_recover (rounds : nat) : Op unit :=
  connect_loop rounds ;; recover.

(** ** The reading thread *)

(** The deletion of the [msg_sock] closes the descriptor a first time. *)
Definition poll_recv_cb (rounds : nat) (mp : option bytes) : Op unit :=
  match mp with
  | None =>
      fd ← gets fd_;
      net (net_close fd) ;;
      net (net_close fd) ;;
      modify (on_fd (-1)) ;;
      connect_server_and_recover rounds
  | Some m =>
      if negb (Z.land (blen m) 3 =? 0) then throw exn_xdr else
      match load m with
      | XErr _ => throw exn_xdr
      | XOob => abort
      | XOk (hdr, _) =>
          match body (hdr : rpc_msg) with
          | REPLY _ => modify (fun c => on_queues (event_queue_ c) (reply_queue_ c ++ [m]) c)
          | CALL _ => modify (fun c => on_queues (event_queue_ c ++ [m]) (reply_queue_ c) c)
          end
      end
  end.

(** A turn of a thread: an exception that leaves it ends the process. *)
Definition thread {A} (m : Op A) : Op A := fun c => match m c with Throw _ _ => Abort | r => r end.

Definition poll_loop (rounds : nat) (ms : list (option bytes)) : Op unit :=
  for_each ms (fun m => thread (poll_recv_cb rounds m)).

(** ** The thread of the callbacks *)

Definition register_callback (e : Z) : Op unit := modify (on_ecbs (fun X => {[e]} ∪ X)).
Definition delete_callback (e : Z) : Op unit := modify (on_ecbs (fun X => X ∖ {[e]})).

(** The [try] block of [evcb_loop]. *)
Definition run_event (hdr : rpc_msg) (g : bytes) : Op unit :=
  match body hdr with
  | REPLY _ => throw exn_wrong_union
  | CALL c =>
      if negb (cb_rpcvers c =? 2) then throw exn_xdr else
      if negb (cb_prog c =? program handler_v1) then throw exn_xdr else
      if negb (cb_vers c =? version handler_v1) then throw exn_xdr else
      arg ← load_all g;
      registered ← gets ecbs_;
      when (bool_decide (evc_event arg ∈ registered))
        (modify (fun s => on_called (called s ++ [(evc_event arg, evc_fname arg)]) (bad_reads s) s))
  end.

(** One turn of the loop; it waits for ever when no event comes. *)
Definition evcb_turn : Op unit :=
  q ← gets event_queue_;
  match q with
  | [] => block
  | m :: q =>
      modify (fun c => on_queues q (reply_queue_ c) c) ;;
      if negb (Z.land (blen m) 3 =? 0) then throw exn_xdr else
      match load m with
      | XErr _ => throw exn_xdr
      | XOob => abort
      | XOk (hdr, g) => catch_xdr (run_event hdr g) (mret tt)
      end
  end.

(** ** Calls *)

Definition store_bkup_before_call (p : api_proc) (hdr : rpc_msg) : api_arg p -> Op unit :=
  match p with
  | P_acquire => fun a => modify (on_lock_bkup (Bkup a) hdr)
  | _ => fun _ => mret tt
  end.

Definition store_bkup_after_call (p : api_proc) : api_arg p -> api_res p -> Op unit :=
  match p with
  | P_acquire => fun _ _ => modify (fun c => on_lock_bkup NoBkup (hdr_bkup_ c) c)
  | P_fileClose => fun a _ =>
      modify (on_event_bkup (filter (fun it => fh_file_name it.1 <> fh_file_name a)))
  | P_fileOpen => fun a r =>
      match r with
      | RF_val h => modify (on_event_bkup (fun l => l ++ [(h, ao_mode a)]))
      | _ => mret tt
      end
  | _ => fun _ _ => mret tt
  end.

(** [rcv_.wait(...)] and [pop_front] *)
Definition next_reply : Op bytes := fun c =>
  match reply_queue_ c with
  | [] => Diverge
  | m :: q => Ret m (on_queues (event_queue_ c) q c)
  end.

(** [invoke<P>]; [meanwhile] is what the other threads do after the request
    was written. *)
Definition cl_invoke (meanwhile : Op unit) (p : api_proc) (a : arg_wire_type api_v1 p) : Op (res_wire_type api_v1 p) :=
  x ← next_xid;
  let hdr := call_hdr api_v1 p x in
  store_bkup_before_call p hdr a ;;
  try_catch
    (m ← of_msg (xdr_to_msg (hdr, a));
     fd ← gets fd_;
     net (net_write fd m) ;;
     meanwhile ;;
     m ← next_reply;
     r ← accept_reply (A := res_wire_type api_v1 p) x m;
     store_bkup_after_call p a r ;;
     mret r)
    (fun e =>
      (* the argument of an [acquire] goes away with the caller's frame *)
      when (bool_decide (p = P_acquire)) (modify (fun c => on_lock_bkup Dangling (hdr_bkup_ c) c)) ;;
      throw e).
End client.

(** ** The queues *)

(** A message that the reading thread takes for an event or a reply. *)
Definition is_event (m : bytes) : Prop := aligned (blen m) /\
  exists hdr g c, load m = XOk (hdr : rpc_msg, g) /\ body hdr = CALL c.
Definition is_reply_to (x : Z) (m : bytes) : Prop := aligned (blen m) /\
  exists g, load m = XOk (reply_hdr x, g).

Lemma reply_to_wire {R} `{!Xdr R, !XdrLaws R} x (r : R) : u32 x -> xdr_valid r ->
  is_reply_to x (wire (reply_hdr x, r)).
Proof.
  intros Hx Hr. destruct (reply_hdr_valid x Hx) as [Hv _].
  assert (xdr_valid (reply_hdr x, r)) as Hvr by by split. split; [by apply wire_aligned|].
  exists (wire r). change (wire (reply_hdr x, r)) with (wire (reply_hdr x) ++ wire r). by apply load_wire.
Qed.

Lemma event_wire p x (a : arg_wire_type handler_v1 p) : u32 x -> xdr_valid a ->
  is_event (wire (call_hdr handler_v1 p x, a)).
Proof.
  intros Hx Ha. destruct (call_hdr_valid handler_v1 p x Hx) as [Hv _].
  assert (xdr_valid (call_hdr handler_v1 p x, a)) as Hva by by split. split; [by apply wire_aligned|].
  exists (call_hdr handler_v1 p x), (wire a). eexists. split; [|reflexivity].
  change (wire (call_hdr handler_v1 p x, a)) with (wire (call_hdr handler_v1 p x) ++ wire a). by apply load_wire.
Qed.

Lemma accept_other {S R} `{!Xdr R} x y m (s : S) : is_reply_to y m -> y <> x ->
  (accept_reply x m : M S R) s = Throw exn_xdr s.
Proof.
  intros [Ha [g Hg]] Hne. unfold accept_reply. rewrite land_3, Ha. cbn [negb Z.eqb]. rewrite Hg.
  change (check_call_hdr (reply_hdr y)) with (@None call_error). cbn [xid reply_hdr set_accepted].
  by destruct (Z.eqb_spec y x).
Qed.

Section queues.
Context {W : Type} `{!ChubbyNet W} (stale_fd : FileHandler) (rounds : nat).
Implicit Types c : Client W.

Lemma poll_event m c : is_event m ->
  thread (poll_recv_cb stale_fd rounds (Some m)) c =
    Ret tt (on_queues (event_queue_ c ++ [m]) (reply_queue_ c) c).
Proof.
  intros [Ha (hdr & g & k & Hl & Hb)]. unfold thread, poll_recv_cb. rewrite land_3, Ha. cbn [negb Z.eqb].
  by rewrite Hl, Hb.
Qed.
Lemma poll_reply x m c : is_reply_to x m ->
  thread (poll_recv_cb stale_fd rounds (Some m)) c =
    Ret tt (on_queues (event_queue_ c) (reply_queue_ c ++ [m]) c).
Proof.
  intros [Ha [g Hl]]. unfold thread, poll_recv_cb. rewrite land_3, Ha. cbn [negb Z.eqb]. by rewrite Hl.
Qed.

Lemma on_queues_twice a b a' b' c : on_queues a b (on_queues a' b' c) = on_queues a b c.
Proof. done. Qed.
Lemma on_queues_same c : on_queues (event_queue_ c) (reply_queue_ c) c = c.
Proof. by destruct c. Qed.

Lemma poll_events evs c : Forall is_event evs ->
  poll_loop stale_fd rounds (Some <$> evs) c = Ret tt (on_queues (event_queue_ c ++ evs) (reply_queue_ c) c).
Proof.
  intros He. revert c. induction He as [|m evs Hm He IH]; intros c.
  { cbn. by rewrite app_nil_r, on_queues_same. }
  unfold poll_loop in *. cbn [fmap list_fmap for_each]. rewrite (bind_Ret _ _ _ _ _ (poll_event m c Hm)).
  rewrite IH, on_queues_twice. cbn [event_queue_ reply_queue_ on_queues]. by rewrite <-app_assoc.
Qed.

Lemma for_each_app {S A} (l1 l2 : list A) (f : A -> M S unit) s :
  for_each (l1 ++ l2) f s = (for_each l1 f ;; for_each l2 f) s.
Proof.
  revert s. induction l1 as [|x l1 IH]; intros s; [done|]. cbn [app for_each].
  rewrite bind_assoc. unfold mbind, M_bind in *. destruct (f x s); [apply IH|done..].
Qed.

(** A reply between events. *)
Lemma poll_mixed x evs1 evs2 m c : Forall is_event evs1 -> Forall is_event evs2 -> is_reply_to x m ->
  poll_loop stale_fd rounds (Some <$> (evs1 ++ m :: evs2)) c =
    Ret tt (on_queues (event_queue_ c ++ evs1 ++ evs2) (reply_queue_ c ++ [m]) c).
Proof.
  intros H1 H2 Hm. rewrite fmap_app, fmap_cons. unfold poll_loop. rewrite for_each_app.
  pose proof (poll_events evs1 c H1) as E1. unfold poll_loop in E1. rewrite (bind_Ret _ _ _ _ _ E1).
  cbn [for_each]. rewrite (bind_Ret _ _ _ _ _ (poll_reply x m _ Hm)).
  etrans; [apply (poll_events evs2 _ H2)|]. rewrite !on_queues_twice. cbn [event_queue_ reply_queue_ on_queues].
  by rewrite <-app_assoc.
Qed.
End queues.
