(* ===== verification/ClientProps.v ===== *)
(** * What a connection of the client guarantees, and where it fails

    Calls get their own replies and events reach their callbacks in order; a
    client connects as long as some server accepts it.  A reply too many makes
    every later call fail. *)

From S2P Require Import Prelude Endian Xdr RpcMsg Rpc ServerTypes Interfaces ChubbyClient.

(** What the backups do not touch. *)
Definition same_conn {W} (c c' : Client W) : Prop :=
  fd_ c' = fd_ c /\ event_queue_ c' = event_queue_ c /\ reply_queue_ c' = reply_queue_ c /\
  cl_xid c' = cl_xid c /\ called c' = called c /\ world c' = world c.

Section calls.
Context {W : Type} `{!ChubbyNet W} (stale_fd : FileHandler) (rounds : nat).
Implicit Types c : Client W.
Abbreviation Op := (M (Client W)).

Lemma before_run p hdr (a : api_arg p) c : exists c', store_bkup_before_call p hdr a c = Ret tt c' /\
  same_conn c c' /\ event_bkup_ c' = event_bkup_ c /\ (p <> P_acquire -> lk_acq_fd_bkup_ c' = lk_acq_fd_bkup_ c).
Proof. destruct p; (eexists; split; [reflexivity|by split_and!]). Qed.

Lemma after_run p (a : api_arg p) (r : api_res p) c : exists c', store_bkup_after_call p a r c = Ret tt c' /\
  same_conn c c' /\ (p = P_acquire \/ lk_acq_fd_bkup_ c = NoBkup -> lk_acq_fd_bkup_ c' = NoBkup).
Proof.
  destruct p; try (eexists; split; [reflexivity|split; [by split_and!|intros [?|?]; done]]).
  destruct r; (eexists; split; [reflexivity|split; [by split_and!|intros [?|?]; done]]).
Qed.

(** A call up to the moment when it looks for its reply [m]. *)
Definition look p (a : arg_wire_type api_v1 p) (x : Z) : Op (res_wire_type api_v1 p) :=
  try_catch (m ← next_reply; r ← accept_reply (A := res_wire_type api_v1 p) x m;
             store_bkup_after_call p a r ;; mret r)
    (fun e => when (bool_decide (p = P_acquire)) (modify (fun c => on_lock_bkup Dangling (hdr_bkup_ c) c)) ;; throw e).

Lemma try_bind_Ret {A B} (m : Op A) (k : A -> Op B) h c a c' : m c = Ret a c' ->
  try_catch (m ≫= k) h c = try_catch (k a) h c'.
Proof. intros H. unfold try_catch. by rewrite (bind_Ret _ _ _ _ _ H). Qed.

Lemma invoke_look meanwhile p (a : arg_wire_type api_v1 p) w c :
  let x := wrap32 (cl_xid c + 1) in
  xdr_valid a -> blen (wire a) + 40 < 2 ^ 31 ->
  net_write (fd_ c) (framed (wire (call_hdr api_v1 p x, a))) (world c) = Ret tt w ->
  exists c1, (forall c2, meanwhile c1 = Ret tt c2 -> cl_invoke meanwhile p a c = look p a x c2) /\
    reply_queue_ c1 = reply_queue_ c /\ event_queue_ c1 = event_queue_ c /\ cl_xid c1 = x /\ world c1 = w /\
    fd_ c1 = fd_ c /\ (p <> P_acquire -> lk_acq_fd_bkup_ c1 = lk_acq_fd_bkup_ c).
Proof.
  intros x Ha Hl Hw. pose proof (wrap32_u32 (cl_xid c + 1)) as Hx. fold x in Hx.
  destruct (call_hdr_valid api_v1 p x Hx) as [Hv Hvl].
  assert (xdr_valid (call_hdr api_v1 p x, a)) as Hva by by split.
  assert (blen (wire (call_hdr api_v1 p x, a)) < 2 ^ 31) as Hlt by (cbn [wire xdr_argpack fst snd]; rewrite blen_app; lia).
  destruct (before_run p (call_hdr api_v1 p x) a (on_xid x c)) as (c1 & H1 & (Ef & Ev & Er & Ex & Ec & Ew) & Eb & El).
  exists (on_world w c1). split.
  - intros c2 Hm. unfold cl_invoke. rewrite (bind_Ret next_xid _ c x (on_xid x c) eq_refl), (bind_Ret _ _ _ _ _ H1).
    erewrite try_bind_Ret by (apply (of_msg_ok (call_hdr api_v1 p x, a) c1 Hva Hlt)).
    fold (framed (wire (call_hdr api_v1 p x, a))). rewrite (try_bind_Ret (gets fd_) _ _ c1 (fd_ c1) c1 eq_refl).
    assert (net (net_write (fd_ c1) (framed (wire (call_hdr api_v1 p x, a)))) c1 = Ret tt (on_world w c1)) as Hn.
    { unfold net, zoom. rewrite Ef, Ew. cbn [on_xid fd_ world]. by rewrite Hw. }
    by rewrite (try_bind_Ret _ _ _ _ _ _ Hn), (try_bind_Ret _ _ _ _ _ _ Hm).
  - cbn [on_world reply_queue_ event_queue_ cl_xid world fd_ lk_acq_fd_bkup_]. rewrite Ev, Er, Ex, Ef. by split_and!.
Qed.

(** The reply is first in the queue. *)
Lemma look_reply p (a : arg_wire_type api_v1 p) (r : res_wire_type api_v1 p) x c q :
  u32 x -> xdr_valid r -> reply_queue_ c = wire (reply_hdr x, r) :: q ->
  exists c', look p a x c = Ret r c' /\ reply_queue_ c' = q /\ event_queue_ c' = event_queue_ c /\
    cl_xid c' = cl_xid c /\ world c' = world c /\ fd_ c' = fd_ c /\
    (p = P_acquire \/ lk_acq_fd_bkup_ c = NoBkup -> lk_acq_fd_bkup_ c' = NoBkup).
Proof.
  intros Hx Hr Hq. set (m := wire (reply_hdr x, r)) in *. unfold look, try_catch.
  rewrite (bind_Ret next_reply _ c m (on_queues (event_queue_ c) q c)) by (unfold next_reply; by rewrite Hq).
  rewrite (bind_Ret _ _ _ _ _ (accept_reply_wire x r _ Hx Hr)).
  destruct (after_run p a r (on_queues (event_queue_ c) q c)) as (c2 & H2 & (Ff & Fv & Fr & Fx & _ & Fw) & Fl).
  rewrite (bind_Ret _ _ _ _ _ H2). exists c2. split; [reflexivity|]. by split_and!.
Qed.

(** C8: a call on a connection that stays open returns its own reply.  If no
    reply is left over from before, then whatever events arrive before and
    after the reply, the call returns the result that the reply carries, no
    reply is left, every event waits for its callback in order of arrival, and
    the pointer for the recovery of an [acquire] is cleared. *)
Theorem call_gets_reply p (a : arg_wire_type api_v1 p) (r : res_wire_type api_v1 p) evs1 evs2 w c :
  let x := wrap32 (cl_xid c + 1) in
  reply_queue_ c = [] -> xdr_valid a -> blen (wire a) + 40 < 2 ^ 31 -> xdr_valid r ->
  net_write (fd_ c) (framed (wire (call_hdr api_v1 p x, a))) (world c) = Ret tt w ->
  Forall is_event evs1 -> Forall is_event evs2 ->
  exists c', cl_invoke (poll_loop stale_fd rounds (Some <$> (evs1 ++ wire (reply_hdr x, r) :: evs2))) p a c = Ret r c' /\
    reply_queue_ c' = [] /\ event_queue_ c' = event_queue_ c ++ evs1 ++ evs2 /\
    cl_xid c' = x /\ world c' = w /\ fd_ c' = fd_ c /\
    (lk_acq_fd_bkup_ c = NoBkup -> lk_acq_fd_bkup_ c' = NoBkup).
Proof.
  intros x Hq Ha Hl Hr Hw He1 He2. pose proof (wrap32_u32 (cl_xid c + 1)) as Hx. fold x in Hx.
  destruct (invoke_look (poll_loop stale_fd rounds (Some <$> (evs1 ++ wire (reply_hdr x, r) :: evs2))) p a w c Ha Hl Hw)
    as (c1 & Hrun & Eq & Ee & Ex & Ew & Ef & El).
  rewrite (Hrun _ (poll_mixed stale_fd rounds x evs1 evs2 _ c1 He1 He2 (reply_to_wire x r Hx Hr))).
  rewrite Eq, Hq. set (c2 := on_queues _ _ c1).
  destruct (look_reply p a r x c2 [] Hx Hr eq_refl) as (c' & Hr' & Fq & Fe & Fx & Fw & Ff & Fl).
  exists c'. cbn [c2 on_queues event_queue_ cl_xid world fd_ lk_acq_fd_bkup_] in *. rewrite Fe, Fx, Fw, Ff, Ee.
  split_and!; try done. intros Hn. apply Fl.
  destruct (decide (p = P_acquire)) as [->|Hp]; [by left|]. right. by rewrite El.
Qed.

(** A connection whose reply queue is behind by one reply. *)
Definition lagging c : Prop := exists y m, reply_queue_ c = [m] /\ is_reply_to y m /\ y <> wrap32 (cl_xid c + 1).

(** A reply too many is never got rid of.  When a reply to an earlier call
    is left in the queue, a call takes it, fails and leaves its own reply for
    the next one: although the server answers every call, every call from then
    on throws. *)
Lemma lagging_forever p (a : arg_wire_type api_v1 p) (r : res_wire_type api_v1 p) evs1 evs2 w c :
  let x := wrap32 (cl_xid c + 1) in
  lagging c -> xdr_valid a -> blen (wire a) + 40 < 2 ^ 31 -> xdr_valid r ->
  net_write (fd_ c) (framed (wire (call_hdr api_v1 p x, a))) (world c) = Ret tt w ->
  Forall is_event evs1 -> Forall is_event evs2 ->
  exists c', cl_invoke (poll_loop stale_fd rounds (Some <$> (evs1 ++ wire (reply_hdr x, r) :: evs2))) p a c =
    Throw exn_xdr c' /\ lagging c'.
Proof.
  intros x (y & m0 & Hq & Hm0 & Hy) Ha Hl Hr Hw He1 He2.
  pose proof (wrap32_u32 (cl_xid c + 1)) as Hx. fold x in Hx, Hy.
  pose proof (reply_to_wire x r Hx Hr) as Hm. set (m := wire (reply_hdr x, r)) in *.
  destruct (invoke_look (poll_loop stale_fd rounds (Some <$> (evs1 ++ m :: evs2))) p a w c Ha Hl Hw)
    as (c1 & Hrun & Eq & Ee & Ex & Ew & Ef & _).
  rewrite (Hrun _ (poll_mixed stale_fd rounds x evs1 evs2 m c1 He1 He2 Hm)). rewrite Eq, Hq. cbn [app].
  set (c2 := on_queues _ _ c1). unfold look, try_catch.
  rewrite (bind_Ret next_reply _ c2 m0 (on_queues (event_queue_ c2) [m] c2) eq_refl).
  unfold mbind at 1, M_bind at 1. rewrite (accept_other x y m0 _ Hm0 Hy).
  assert (x <> wrap32 (x + 1)) as Hne.
  { unfold wrap32, u32 in *. destruct (Z.eq_dec x (2 ^ 32 - 1)) as [->|]; [done|]. rewrite Z.mod_small by lia. lia. }
  destruct (bool_decide (p = P_acquire)); (eexists; split; [reflexivity|]); exists x, m; cbn; by rewrite Ex.
Qed.

(** ** Events *)

Definition event_of (x : Z) (evc : EventContent) : bytes := wire (call_hdr handler_v1 P_event_callback x, evc).

(** C29: events reach the callbacks in the order of their arrival: as many turns
    of the thread as there are events run the callbacks registered for them,
    each once, and leave the queue empty. *)
Theorem callbacks_in_order (l : list (Z * EventContent)) c :
  event_queue_ c = (fun e => event_of e.1 e.2) <$> l -> Forall (fun e => u32 e.1 /\ xdr_valid e.2) l ->
  exists c', for_each l (fun _ => thread evcb_turn) c = Ret tt c' /\ event_queue_ c' = [] /\
    reply_queue_ c' = reply_queue_ c /\
    called c' = called c ++ filter (fun e => e.1 ∈ ecbs_ c) ((fun e => (evc_event e.2, evc_fname e.2)) <$> l).
Proof.
  revert c. induction l as [|[x evc] l IH]; intros c Hq Hl; cbn [for_each].
  { exists c. cbn in Hq |- *. by rewrite app_nil_r. }
  apply Forall_cons_1 in Hl as [[Hx Hv] Hl]. cbn [fst snd fmap list_fmap] in *.
  set (q := (fun e => event_of e.1 e.2) <$> l) in *. destruct (event_wire P_event_callback x evc Hx Hv) as [Ha _].
  change (aligned (blen (event_of x evc))) in Ha.
  destruct (call_hdr_valid handler_v1 P_event_callback x Hx) as [Hvh _].
  assert (load (event_of x evc) = XOk (call_hdr handler_v1 P_event_callback x, wire evc)) as Hload.
  { exact (load_wire (call_hdr handler_v1 P_event_callback x) Hvh (wire evc)). }
  assert (exists c1, thread evcb_turn c = Ret tt c1 /\ event_queue_ c1 = q /\ reply_queue_ c1 = reply_queue_ c /\
    ecbs_ c1 = ecbs_ c /\
    called c1 = called c ++ filter (fun e => e.1 ∈ ecbs_ c) [(evc_event evc, evc_fname evc)]) as (c1 & H1 & E1 & E2 & E3 & E4).
  { unfold thread, evcb_turn. rewrite (bind_Ret (gets event_queue_) _ c _ c eq_refl). rewrite Hq.
    erewrite bind_Ret by reflexivity.
    rewrite land_3, Ha. cbn [negb Z.eqb]. rewrite Hload. unfold catch_xdr, try_catch, run_event.
    cbn [body call_hdr prepare_call cb_rpcvers cb_prog cb_vers]. rewrite !Z.eqb_refl. cbn [negb].
    rewrite (bind_Ret _ _ _ _ _ (load_all_wire evc _ Hv)).
    erewrite bind_Ret by reflexivity. cbn [filter list_filter fst ecbs_ on_queues].
    case_bool_decide as He; [rewrite decide_True by done|rewrite decide_False by done].
    - eexists. split; [reflexivity|]. by split_and!.
    - eexists. split; [reflexivity|]. split_and!; try done. cbn. by rewrite app_nil_r. }
  rewrite (bind_Ret _ _ _ _ _ H1). destruct (IH c1 E1 Hl) as (c' & Hr & F1 & F2 & F3).
  exists c'. split_and!; [done|done|congruence|]. rewrite F3, E4, E3, <-app_assoc. f_equal.
  by rewrite <-list.filter_app.
Qed.
End calls.

(** ** Connecting *)

Section connect.
Context {W : Type} `{!ChubbyNet W}.
Implicit Types c : Client W.

Definition ends {A} (m : M W A) : Prop := forall w, match m w with Ret _ _ | Throw _ _ => True | _ => False end.

(** Attempts end, and [tcp_connect] returns a descriptor or throws. *)
Class TameNet : Prop := {
  connect_ends addr : ends (net_connect addr);
  session_ends fd x id : ends (net_call P_startSession fd x id);
  close_ends fd : ends (net_close fd);
  close_quiet fd w e w' : net_close fd w <> Throw e w';
  connect_fd addr w fd w' : net_connect addr w = Ret fd w' -> fd <> -1;
}.

(** A server that accepts connections and sessions, as the leader does. *)
Definition accepting (addr : bytes * bytes) : Prop := forall w, exists fd w1,
  net_connect addr w = Ret fd w1 /\ forall x id, exists w2, net_call P_startSession fd x id w1 = Ret (RB_val true) w2.

Definition untouched c c' : Prop :=
  server_addr_ c' = server_addr_ c /\ id_ c' = id_ c /\ event_bkup_ c' = event_bkup_ c /\
  reply_queue_ c' = reply_queue_ c /\ event_queue_ c' = event_queue_ c /\ lk_acq_fd_bkup_ c' = lk_acq_fd_bkup_ c.

(** The client has just connected to one of its servers, which accepted its
    session on the descriptor. *)
Definition session_open c : Prop := exists addr w w1 x, addr ∈ server_addr_ c /\
  net_connect addr w = Ret (fd_ c) w1 /\ net_call P_startSession (fd_ c) x (id_ c) w1 = Ret (RB_val true) (world c).

Context {Htame : TameNet}.

Lemma bind_Throw {S A B} (m : M S A) (k : A -> M S B) s e s' : m s = Throw e s' -> (m ≫= k) s = Throw e s'.
Proof. unfold mbind, M_bind. by intros ->. Qed.
Lemma net_Ret {A} (m : M W A) c a w : m (world c) = Ret a w -> net m c = Ret a (on_world w c).
Proof. unfold net, zoom. by intros ->. Qed.
Lemma net_Throw {A} (m : M W A) c e w : m (world c) = Throw e w -> net m c = Throw e (on_world w c).
Proof. unfold net, zoom. by intros ->. Qed.

Lemma try_server_run addr c : addr ∈ server_addr_ c -> exists b c', try_server addr c = Ret b c' /\ untouched c c' /\
  (if b then fd_ c' <> -1 /\ session_open c' else fd_ c' = -1) /\ (accepting addr -> b = true).
Proof.
  intros Hin. unfold try_server, try_catch.
  pose proof (connect_ends addr (world c)) as Hc.
  destruct (net_connect addr (world c)) as [fd w1|e w1| |] eqn:E1; try done.
  2: { rewrite (bind_Throw _ _ _ _ _ (net_Throw _ c _ _ E1)).
       do 2 eexists. split; [reflexivity|]. split_and!; try done. intros Ha.
       destruct (Ha (world c)) as (fd & w & Hf & _). congruence. }
  rewrite (bind_Ret _ _ _ _ _ (net_Ret _ c _ _ E1)). set (c1 := on_fd fd (on_world w1 c)).
  rewrite (bind_Ret (modify (on_fd fd)) _ (on_world w1 c) tt c1 eq_refl), (bind_Ret (gets id_) _ c1 (id_ c) c1 eq_refl).
  unfold sync_invoke. set (x := wrap32 (cl_xid c + 1)).
  rewrite bind_assoc, (bind_Ret next_xid _ c1 x (on_xid x c1) eq_refl).
  rewrite bind_assoc, (bind_Ret (gets fd_) _ (on_xid x c1) fd (on_xid x c1) eq_refl).
  pose proof (session_ends fd x (id_ c) w1) as Hs.
  assert (forall r w, accepting addr -> net_call P_startSession fd x (id_ c) w1 = Ret r w -> r = RB_val true) as Hacc.
  { intros r w Ha Hr. destruct (Ha (world c)) as (fd' & w' & Hf & Hw).
    assert (fd' = fd /\ w' = w1) as [-> ->] by (by split; congruence).
    destruct (Hw x (id_ c)) as [w3 H3]. congruence. }
  destruct (net_call P_startSession fd x (id_ c) w1) as [r w2|e w2| |] eqn:E2; try done.
  2: { rewrite (bind_Throw _ _ _ _ _ (net_Throw _ (on_xid x c1) _ _ E2)).
       do 2 eexists. split; [reflexivity|]. split_and!; try done. intros Ha.
       destruct (Ha (world c)) as (fd' & w' & Hf & Hw).
       assert (fd' = fd /\ w' = w1) as [-> ->] by (by split; congruence).
       destruct (Hw x (id_ c)) as [w3 H3]. congruence. }
  rewrite (bind_Ret _ _ _ _ _ (net_Ret _ (on_xid x c1) _ _ E2)).
  specialize (Hacc r w2). pose proof (close_ends fd w2) as He. pose proof (close_quiet fd w2) as Hq.
  set (c2 := on_world w2 (on_xid x c1)).
  change (api_res P_startSession) with RetBool in *.
  assert (r = RB_val true \/ r <> RB_val true) as [->|Hr] by (destruct r as [[]| |]; (by left) || by right).
  { do 2 eexists. split; [reflexivity|]. split_and!; try done; [by apply (connect_fd addr (world c) fd w1)|].
    by exists addr, (world c), w1, x. }
  assert (exists w3, net_close fd w2 = Ret tt w3) as [w3 E3].
  { destruct (net_close fd w2) as [[] w3|e w3| |]; try done; [by exists w3|by destruct (Hq e w3)]. }
  exists false, (on_fd (-1) (on_world w3 c2)). split_and!; try done.
  2: { intros Ha. by destruct Hr, Hacc. }
  destruct r as [[]| |]; try done; by rewrite (bind_Ret _ _ _ _ _ (net_Ret _ c2 _ _ E3)).
Qed.

Lemma untouched_trans c1 c2 c3 : untouched c1 c2 -> untouched c2 c3 -> untouched c1 c3.
Proof. unfold untouched. intros (?&?&?&?&?&?) (?&?&?&?&?&?). split_and!; congruence. Qed.

Lemma try_servers_run l c : fd_ c = -1 -> l ⊆ server_addr_ c -> exists c', try_servers l c = Ret tt c' /\ untouched c c' /\
  (fd_ c' <> -1 -> session_open c') /\ ((exists addr, addr ∈ l /\ accepting addr) -> fd_ c' <> -1).
Proof.
  revert c. induction l as [|addr l IH]; intros c Hc Hl; cbn [try_servers].
  { exists c. split_and!; try done. intros (addr & Ha & _). by apply elem_of_nil in Ha. }
  destruct (try_server_run addr c) as (b & c1 & H1 & U1 & F1 & A1); [apply Hl; by left|]. rewrite (bind_Ret _ _ _ _ _ H1).
  destruct b; [exists c1; by destruct F1|].
  destruct (IH c1 F1) as (c' & H2 & U2 & S2 & F2).
  { destruct U1 as (-> & _). intros a Ha. apply Hl. by right. }
  exists c'. split_and!; [done| |done|].
  - by eapply untouched_trans.
  - intros (a & Ha & Hacc). apply F2. apply elem_of_cons in Ha as [->|Ha]; [by specialize (A1 Hacc)|by exists a].
Qed.

End connect.

(** ** A scripted network *)

(** What the network did, in order. *)
Inductive net_op :=
| NConnect (addr : bytes * bytes)
| NCall (p : api_proc) (fd x : Z) (h : option FileHandler)
| NWrite (fd : Z) (bs : bytes)
| NClose (fd : Z).

(** What the next connections and the next synchronous calls find: a
    descriptor or an error, a reply or an error. *)
Record Script := mkScript {
  connects : list (option Z);
  replies : list (option RetBool);
  ops : list net_op;
}.

Definition logged (o : net_op) (w : Script) : Script := mkScript (connects w) (replies w) (ops w ++ [o]).
Definition next_answer (o : net_op) : M Script RetBool := fun w =>
  let w := logged o w in
  match replies w with
  | Some r :: l => Ret r (mkScript (connects w) l (ops w))
  | None :: l => Throw exn_xdr (mkScript (connects w) l (ops w))
  | [] => Throw exn_xdr w
  end.

#[local] Instance scripted : ChubbyNet Script := {|
  net_connect addr w :=
    let w := logged (NConnect addr) w in
    match connects w with
    | Some fd :: l => Ret fd (mkScript l (replies w) (ops w))
    | None :: l => Throw (exn_runtime "connect") (mkScript l (replies w) (ops w))
    | [] => Throw (exn_runtime "connect") w
    end;
  net_call p fd x :=
    match p return api_arg p -> M Script (api_res p) with
    | P_startSession => fun _ => next_answer (NCall P_startSession fd x None)
    | P_fileReopen => fun a => next_answer (NCall P_fileReopen fd x (Some (ar_fd a)))
    | _ => fun _ => throw exn_xdr
    end;
  net_write fd m w := Ret tt (logged (NWrite fd (raw_data m)) w);
  net_close fd w := Ret tt (logged (NClose fd) w);
|}.

Definition no_fd : FileHandler := mkFileHandler 0 0 "" 0 false.
Definition node : FileHandler := mkFileHandler 7 0 "/d/f" 2 true.
Definition two_servers : list (bytes * bytes) :=
  prod_map str_bytes str_bytes <$> [("localhost", "4004"); ("localhost", "8444")].

(** A client connected on descriptor 5, before its transaction number 2. *)
Definition connected (w : Script) : Client Script :=
  mkClient 5 "17" two_servers [] [] ∅ NoBkup (mkrpc_msg 0 (CALL new_call)) [] 1 [] 0 w.

Definition reply (x : Z) {R} `{!Xdr R} (r : R) : option bytes := Some (wire (reply_hdr x, r)).

(** How a reply too many arises.  The server grants an [acquire] and the
    connection ends before the caller has taken the reply: the reading thread
    connects to the next leader and sends the [acquire] again, since the call is
    still recorded as waiting.  Both calls return true; but the server has
    queued the second [acquire] and answers it as soon as the client releases
    the lock, so that from then on the client is behind by one reply. *)
Lemma resent_acquire_lags :
  let w := mkScript [None; Some 6] [Some (RB_val true)] [] in
  match (r1 ← cl_invoke (poll_loop no_fd 1 [reply 2 (RB_val true); None]) P_acquire node;
         r2 ← cl_invoke (poll_loop no_fd 1 [reply 4 (RB_val true); reply 2 (RB_val true)]) P_release node;
         mret (r1, r2)) (connected w) with
  | Ret r c => r = (RB_val true, RB_val true) /\ lagging c /\ fd_ c = 6 /\
      omap (fun o => match o with NWrite fd _ => Some fd | _ => None end) (ops (world c)) = [5; 6; 6]
  | _ => False
  end.
Proof.
  cbv zeta. set (w := mkScript _ _ _).
  assert (exists c, (r1 ← cl_invoke (poll_loop no_fd 1 [reply 2 (RB_val true); None]) P_acquire node;
    r2 ← cl_invoke (poll_loop no_fd 1 [reply 4 (RB_val true); reply 2 (RB_val true)]) P_release node;
    mret (r1, r2)) (connected w) = Ret (RB_val true, RB_val true) c /\
    fd_ c = 6 /\ cl_xid c = 4 /\ reply_queue_ c = [wire (reply_hdr 2, RB_val true)] /\
    omap (fun o => match o with NWrite fd _ => Some fd | _ => None end) (ops (world c)) = [5; 6; 6])
    as (c & -> & Hf & Hx & Hq & Hn).
  { eexists. split; [vm_compute; reflexivity|]. by vm_compute. }
  split; [reflexivity|]. split; [|exact (conj Hf Hn)].
  exists 2, (wire (reply_hdr 2, RB_val true)). split; [exact Hq|]. rewrite Hx. clear. split; [|by vm_compute].
  assert (u32 2 /\ xdr_valid (RB_val true)) as [H2 Hv] by by vm_compute. exact (reply_to_wire 2 (RB_val true) H2 Hv).
Qed.

(** The record for the recovery of handles is kept by file name.  A client
    opens a node twice, for its contents and for its events, and closes the
    first handle; when the leader changes, the handle that is still open is not
    reopened, so that its events no longer arrive. *)
Lemma close_forgets_other_handles :
  let w := mkScript [Some 6] [Some (RB_val true)] [] in
  let c0 := connected w in
  match (cl_invoke (poll_loop no_fd 1 [reply 2 (RF_val node)]) P_fileOpen (mkArgOpen "/d/f" 0x2) ;;
         cl_invoke (poll_loop no_fd 1 [reply 3 (RF_val node)]) P_fileOpen (mkArgOpen "/d/f" 0x202) ;;
         cl_invoke (poll_loop no_fd 1 [reply 4 (RB_val true)]) P_fileClose node ;;
         poll_loop no_fd 1 [None]) c0 with
  | Ret _ c => event_bkup_ c = [] /\ fd_ c = 6 /\
      omap (fun o => match o with NCall p _ _ h => Some (p, h) | _ => None end) (ops (world c)) = [(P_startSession, None)] /\
      omap (fun o => match o with NClose fd => Some fd | _ => None end) (ops (world c)) = [5; 5]
  | _ => False
  end.
Proof. vm_compute. done. Qed.

(** ** The theorems on concrete states *)

Definition no_script : Script := mkScript [] [] [].
Definition hello : EventContent := mkEventContent 2 "hello".

Lemma hello_event : Forall is_event [event_of 1 hello].
Proof.
  constructor; [|constructor]. apply event_wire; [done|]. by vm_compute.
Qed.

Lemma call_gets_reply_witness : exists c',
  cl_invoke (poll_loop no_fd 0 (Some <$> ([event_of 1 hello] ++ wire (reply_hdr 2, RB_val true) :: [])))
    P_tryAcquire node (connected no_script) = Ret (RB_val true) c' /\
  reply_queue_ c' = [] /\ event_queue_ c' = [event_of 1 hello].
Proof.
  assert (xdr_valid node /\ xdr_valid (RB_val true)) as [Hn Hv] by by vm_compute.
  destruct (call_gets_reply no_fd 0 P_tryAcquire node (RB_val true) [event_of 1 hello] []
    (logged (NWrite 5 (raw_data (framed (wire (call_hdr api_v1 P_tryAcquire 2, node))))) no_script)
    (connected no_script) eq_refl Hn) as (c' & Hr & Hq & He & _).
  - by vm_compute.
  - exact Hv.
  - vm_compute. reflexivity.
  - exact hello_event.
  - constructor.
  - exists c'. exact (conj Hr (conj Hq He)).
Defined.

Lemma lagging_forever_witness : exists c c', reply_queue_ c = [wire (reply_hdr 2, RB_val true)] /\
  cl_invoke (poll_loop no_fd 0 (Some <$> ([] ++ wire (reply_hdr 5, RB_val true) :: []))) P_tryAcquire node c =
    Throw exn_xdr c' /\ lagging c'.
Proof.
  assert (xdr_valid node /\ xdr_valid (RB_val true) /\ u32 2) as (Hn & Hv & H2) by by vm_compute.
  set (c := on_xid 4 (on_queues [] [wire (reply_hdr 2, RB_val true)] (connected no_script))).
  assert (lagging c) as Hc.
  { exists 2, (wire (reply_hdr 2, RB_val true)). split; [reflexivity|]. split; [exact (reply_to_wire 2 _ H2 Hv)|].
    clear. by vm_compute. }
  destruct (lagging_forever no_fd 0 P_tryAcquire node (RB_val true) [] []
    (logged (NWrite 5 (raw_data (framed (wire (call_hdr api_v1 P_tryAcquire 5, node))))) no_script)
    c Hc Hn) as (c' & Hr & Hl).
  - by vm_compute.
  - exact Hv.
  - vm_compute. reflexivity.
  - constructor.
  - constructor.
  - exists c, c'. exact (conj eq_refl (conj Hr Hl)).
Defined.

Lemma callbacks_in_order_witness : exists c',
  (thread evcb_turn ;; thread evcb_turn ;; mret tt)
    (on_ecbs (fun _ => {[2]}) (on_queues [event_of 1 hello; event_of 2 (mkEventContent 3 "x")] [] (connected no_script)))
    = Ret tt c' /\ called c' = [(2, "hello")].
Proof.
  destruct (callbacks_in_order [(1, hello); (2, mkEventContent 3 "x")]
    (on_ecbs (fun _ => {[2]}) (on_queues [event_of 1 hello; event_of 2 (mkEventContent 3 "x")] [] (connected no_script)))
    eq_refl) as (c' & Hr & _ & _ & Hc).
  - apply Forall_fold_right. by vm_compute.
  - exists c'. exact (conj Hr Hc).
Defined.

(** A network in which only the last server accepts. *)
#[local] Instance one_leader : ChubbyNet unit := {|
  net_connect addr w := if bool_decide (addr.2 = str_bytes "8444") then Ret 6 w else Throw (exn_runtime "connect") w;
  net_call p fd x :=
    match p return api_arg p -> M unit (api_res p) with
    | P_startSession => fun _ => mret (RB_val true)
    | _ => fun _ => throw exn_xdr
    end;
  net_write fd m := mret tt;
  net_close fd := mret tt;
|}.
#[local] Instance one_leader_tame : TameNet (W := unit).
Proof.
  split; try done.
  - intros addr w. cbn. by case_bool_decide.
  - intros addr w fd w'. cbn. case_bool_decide; [by intros [= <- _]|done].
Qed.

