(* ===== verification/ClientLib.v ===== *)
(** * The client library: [libclient/client.cc]

    [Client] numbers the handles that the server returns and gives the numbers
    to the program.  Its calls go through a connection, the class [ChubbyCalls]
    ([xdr::chubby_client_handler<api_v1>]). *)

From S2P Require Import Prelude ServerTypes Interfaces.

Class ChubbyCalls (C : Type) := {
  cc_call : forall p : api_proc, api_arg p -> M C (api_res p);
  cc_register : Z -> M C unit;
  cc_delete_callback : Z -> M C unit;
}.

Definition FAIL : Z := 0.
(** [enum ClientError] of [include/client.h] *)
Definition CE_BAD_ARG : Z := 0.

(** The members of [Client]; [client] is [None] for a null pointer. *)
Record Lib (C : Type) := mkLib {
  client : option C;
  fdList : gmap Z FileHandler;
  nextFdId : Z;
}.
Arguments mkLib {C}.
Arguments client {C}.
Arguments fdList {C}.
Arguments nextFdId {C}.

Section lib.
Context {C : Type} `{!ChubbyCalls C}.
(** What a function returns that runs off its end. *)
Context (junk : bool).
Abbreviation Op := (M (Lib C)).

Definition set_fdList (m : gmap Z FileHandler) (l : Lib C) : Lib C := mkLib (client l) m (nextFdId l).

(** [client->f(...)]; a null pointer crashes. *)
Definition on_client {A} (m : M C A) : Op A := fun l =>
  match client l with
  | None => Abort
  | Some c =>
      match m c with
      | Ret a c' => Ret a (mkLib (Some c') (fdList l) (nextFdId l))
      | Throw e c' => Throw e (mkLib (Some c') (fdList l) (nextFdId l))
      | Abort => Abort
      | Diverge => Diverge
      end
  end.
Definition call p (a : api_arg p) : Op (api_res p) := on_client (cc_call p a).

(** [r->val()] and [r->errCode()], which throw on another arm. *)
Definition bool_val (r : RetBool) : Op bool :=
  match r with RB_val b => mret b | _ => throw exn_wrong_union end.
Definition bool_errCode (r : RetBool) : Op Z :=
  match r with RB_errCode e => mret e | _ => throw exn_wrong_union end.
Definition contents_errCode (r : RetContentsAndStat) : Op Z :=
  match r with RC_errCode e => mret e | _ => throw exn_wrong_union end.

(** [if (r->discriminant() == 0) ... else throw ClientException(...)] *)
Definition val_or_throw (r : RetBool) : Op bool :=
  if rb_discriminant r =? 0 then bool_val r else e ← bool_errCode r; throw (exn_client e).

Definition isConnected (l : Lib C) : bool := match client l with Some _ => true | None => false end.

Definition new_Client : Lib C := mkLib None ∅ 1.

(** [open] when the constructor of the connection returns [c]; a second [open]
    exits. *)
Definition open (c : C) : Op unit := fun l =>
  if isConnected l then Abort else Ret tt (mkLib (Some c) (fdList l) (nextFdId l)).

Definition close : Op unit := fun l =>
  if isConnected l then
    (for_each (in_order (fdList l)) (fun kv => call P_fileClose kv.2 ;; mret tt) ;;
     modify (fun _ => mkLib None ∅ 1)) l
  else Ret tt l.

(** [*r] *)
Definition increment (input : Z) : Op Z := call P_increment input.
Definition decrement (input : Z) : Op Z := call P_decrement input.

(** ** Handles *)

Definition fileOpen (file_name : string) (mode : Z) : Op Z :=
  r ← call P_fileOpen (mkArgOpen file_name mode);
  match (r : RetFd) with
  | RF_val fd =>
      fdId ← gets nextFdId;
      modify (fun l => mkLib (client l) (<[fdId := fd]> (fdList l)) (wrap64 (fdId + 1))) ;;
      mret fdId
  | _ => mret FAIL
  end.

(** [fdList.find(fdId)] *)
Definition find (fdId : Z) : Op (option FileHandler) := gets (fun l => fdList l !! fdId).

Definition fileClose (fdId : Z) : Op unit :=
  it ← find fdId;
  match it with
  | Some args =>
      modify (fun l => set_fdList (delete fdId (fdList l)) l) ;;
      call P_fileClose args ;;
      mret tt
  | None => mret tt
  end.

Definition fileDelete (fdId : Z) : Op bool :=
  it ← find fdId;
  match it with
  | Some args =>
      r ← call P_fileDelete args;
      if rb_discriminant r =? 1 then e ← bool_errCode r; throw (exn_client e) else bool_val r
  | None => throw (exn_client CE_BAD_ARG)
  end.

(** The contents that are stored through the pointers; [None] is [false]. *)
Definition getContentsAndStat (fdId : Z) : Op (option ContentsAndStat) :=
  it ← find fdId;
  match it with
  | Some args =>
      r ← call P_getContentsAndStat args;
      match (r : RetContentsAndStat) with
      | RC_val v => mret (Some v)
      | _ => e ← contents_errCode r; throw (exn_client e)
      end
  | None => mret None
  end.

Definition setContents (fdId : Z) (file_content : string) : Op bool :=
  it ← find fdId;
  match it with
  | Some fd => r ← call P_setContents (mkArgSetContents fd file_content); val_or_throw r
  | None => mret false
  end.

Definition acquire (fdId : Z) : Op unit :=
  it ← find fdId;
  match it with
  | Some args => r ← call P_acquire args; b ← val_or_throw r; cassert b
  | None => mret tt
  end.

Definition tryAcquire (fdId : Z) : Op bool :=
  it ← find fdId;
  match it with
  | Some args => r ← call P_tryAcquire args; val_or_throw r
  | None => mret junk
  end.

Definition release (fdId : Z) : Op unit :=
  it ← find fdId;
  match it with
  | Some args => r ← call P_release args; b ← val_or_throw r; cassert b
  | None => mret tt
  end.

Definition registerCallback (e : Z) : Op unit := on_client (cc_register e).
Definition deleteCallback (e : Z) : Op unit := on_client (cc_delete_callback e).
End lib.

(** ** What programs do *)

Inductive lib_op :=
| L_fileOpen (file_name : string) (mode : Z)
| L_fileClose (fdId : Z)
| L_fileDelete (fdId : Z)
| L_getContentsAndStat (fdId : Z)
| L_setContents (fdId : Z) (file_content : string)
| L_acquire (fdId : Z)
| L_tryAcquire (fdId : Z)
| L_release (fdId : Z)
| L_increment (input : Z)
| L_registerCallback (e : Z)
| L_deleteCallback (e : Z).

#[export] Instance lib_op_eq_dec : EqDecision lib_op.
Proof. solve_decision. Defined.

(** What a library call returns. *)
Inductive lib_val :=
| V_unit
| V_bool (b : bool)
| V_fd (fdId : Z)
| V_contents (r : option ContentsAndStat)
| V_int (i : Z).

Section exec.
Context {C : Type} `{!ChubbyCalls C} (junk : bool).

Definition lib_exec (o : lib_op) : M (Lib C) lib_val :=
  match o with
  | L_fileOpen f mode => r ← fileOpen f mode; mret (V_fd r)
  | L_fileClose i => fileClose i ;; mret V_unit
  | L_fileDelete i => r ← fileDelete i; mret (V_bool r)
  | L_getContentsAndStat i => r ← getContentsAndStat i; mret (V_contents r)
  | L_setContents i s => r ← setContents i s; mret (V_bool r)
  | L_acquire i => acquire i ;; mret V_unit
  | L_tryAcquire i => r ← tryAcquire junk i; mret (V_bool r)
  | L_release i => release i ;; mret V_unit
  | L_increment n => r ← increment n; mret (V_int r)
  | L_registerCallback e => registerCallback e ;; mret V_unit
  | L_deleteCallback e => deleteCallback e ;; mret V_unit
  end.
End exec.

Section programs.
Context {C : Type} `{!ChubbyCalls C} (junk : bool).
Implicit Types l : Lib C.
Abbreviation Op := (M (Lib C)).

(** One call; the number of a new handle, 0 for other calls. *)
Definition lib_step (o : lib_op) : Op Z :=
  match o with
  | L_fileOpen f mode => fileOpen f mode
  | L_fileClose i => fileClose i ;; mret 0
  | L_fileDelete i => fileDelete i ;; mret 0
  | L_getContentsAndStat i => getContentsAndStat i ;; mret 0
  | L_setContents i s => setContents i s ;; mret 0
  | L_acquire i => acquire i ;; mret 0
  | L_tryAcquire i => tryAcquire junk i ;; mret 0
  | L_release i => release i ;; mret 0
  | L_increment n => increment n ;; mret 0
  | L_registerCallback e => registerCallback e ;; mret 0
  | L_deleteCallback e => deleteCallback e ;; mret 0
  end.

(** A program that goes on after an exception: the numbers it was given. *)
Fixpoint lib_run (os : list lib_op) : Op (list Z) :=
  match os with
  | [] => mret []
  | o :: os =>
      i ← try_catch (lib_step o) (fun _ => mret 0);
      rest ← lib_run os;
      mret (if i =? FAIL then rest else i :: rest)
  end.

(** The handles whose numbers the program may use. *)
Definition numbered l : Prop :=
  1 <= nextFdId l /\ forall i, is_Some (fdList l !! i) -> 1 <= i < nextFdId l.

(** [m] keeps the numbers that were given out, but for those in [closed]. *)
Definition keeps_numbers (closed : list Z) {A} (m : Op A) (opened : A -> Z) : Prop := forall l,
  numbered l -> nextFdId l + 1 < 2 ^ 64 ->
  sat (m l) (fun a l' => numbered l' /\ nextFdId l <= nextFdId l' <= nextFdId l + 1 /\
      (opened a <> FAIL -> opened a = nextFdId l /\ nextFdId l' = nextFdId l + 1 /\ is_Some (fdList l' !! opened a)) /\
      forall i fd, fdList l !! i = Some fd -> i ∉ closed -> fdList l' !! i = Some fd)
    (fun _ l' => numbered l' /\ nextFdId l' = nextFdId l /\
      forall i fd, fdList l !! i = Some fd -> i ∉ closed -> fdList l' !! i = Some fd).

(** [m] does not touch the handles. *)
Definition no_handles {A} (m : Op A) : Prop := forall l,
  sat (m l) (fun _ l' => fdList l' = fdList l /\ nextFdId l' = nextFdId l)
    (fun _ l' => fdList l' = fdList l /\ nextFdId l' = nextFdId l).

Lemma no_ret {A} (a : A) : no_handles (mret a).
Proof. by intros l. Qed.
Lemma no_throw {A} e : no_handles (throw e : Op A).
Proof. by intros l. Qed.
Lemma no_assert b : no_handles (cassert b : Op unit).
Proof. by destruct b; intros l. Qed.
Lemma no_bind {A B} (m : Op A) (k : A -> Op B) : no_handles m -> (forall a, no_handles (k a)) -> no_handles (m ≫= k).
Proof.
  intros Hm Hk l. apply sat_bind. eapply sat_mono; [apply Hm| |done].
  intros a l1 [E1 E2]. eapply sat_mono; [apply (Hk a l1)|..]; intros ? l2 [? ?]; split; congruence.
Qed.
Lemma no_client {A} (m : M C A) : no_handles (on_client m).
Proof. intros l. unfold on_client. destruct (client l) as [c|]; [|done]. by destruct (m c). Qed.

Lemma numbered_same l l' : fdList l' = fdList l -> nextFdId l' = nextFdId l -> numbered l -> numbered l'.
Proof. unfold numbered. by intros -> ->. Qed.

Lemma keeps_no {A} closed (m : Op A) : no_handles m -> keeps_numbers closed m (fun _ => FAIL).
Proof.
  intros Hm l Hl Hn. eapply sat_mono; [apply Hm|..]; intros ? l' [E1 E2]; rewrite E1.
  - split_and!; [by eapply numbered_same|lia|lia|done|done].
  - split_and!; [by eapply numbered_same|done|done].
Qed.

Definition closes (o : lib_op) : list Z := match o with L_fileClose i => [i] | _ => [] end.

End programs.

(** Proving [no_handles] step by step. *)
Ltac no_steps := repeat first [apply no_client | apply no_ret | apply no_throw | apply no_assert
    | (intros ?; by split) | apply no_bind; [|intros ?] | match goal with |- no_handles (match ?x with _ => _ end) => destruct x end].

Ltac solve_no_handles :=
  unfold fileDelete, getContentsAndStat, setContents, acquire, tryAcquire, release, increment, registerCallback,
    deleteCallback, val_or_throw, bool_val, bool_errCode, contents_errCode, call, find; no_steps.

Section numbers.
Context {C : Type} `{!ChubbyCalls C} (junk : bool).
Implicit Types l : Lib C.
Abbreviation Op := (M (Lib C)).

Lemma step_numbers o : keeps_numbers (closes o) (lib_step junk o) id.
Proof.
  assert (forall m : Op Z, no_handles m -> (forall l, sat (m l) (fun a _ => a = 0) (fun _ _ => True)) ->
    keeps_numbers (closes o) m id) as Hno.
  { intros m Hm H0 l Hl Hn. specialize (Hm l). specialize (H0 l). destruct (m l) as [a l'|e l'| |]; try done; cbn in *.
    - destruct Hm as [E1 E2]. rewrite E1. split_and!; [by eapply numbered_same|lia|lia|by rewrite H0|done].
    - destruct Hm as [E1 E2]. rewrite E1. split_and!; [by eapply numbered_same|done|done]. }
  assert (forall A (m : Op A) l, sat ((m ;; mret 0) l) (fun a _ => a = 0) (fun _ _ => True)) as Hz.
  { intros A m l. unfold mbind, M_bind. by destruct (m l). }
  destruct o; cbn [lib_step closes]; try solve [apply Hno; [|apply Hz]; solve_no_handles].
  - (* fileOpen *)
    intros l Hl Hn. unfold fileOpen. apply sat_bind. eapply sat_mono; [apply no_client|..].
    2: { intros e l' [E1 E2]. rewrite E1. split_and!; [by eapply numbered_same|done|done]. }
    intros r l1 [E1 E2]. assert (numbered l1) as H1 by by eapply numbered_same.
    destruct r as [fd| |].
    2, 3: unfold sat, mret, M_ret; rewrite E1, E2; by split_and!; [done|lia|lia|..].
    rewrite (bind_Ret (gets nextFdId) _ l1 _ l1 eq_refl). erewrite bind_Ret by reflexivity.
    unfold sat, mret, M_ret. cbn [fdList nextFdId id]. rewrite E1, E2.
    destruct Hl as [Hpos Hlt]. rewrite wrap64_small by (unfold u64; lia). split_and!; [|lia|lia| |].
    + split; cbn; [lia|]. intros i. rewrite lookup_insert_is_Some. intros [<-|[_ Hi]]; [lia|]. apply Hlt in Hi. lia.
    + intros _. split_and!; [done|done|]. rewrite lookup_insert_eq. by eexists.
    + intros i h Hi _. rewrite lookup_insert_ne; [done|]. intros <-. destruct (Hlt (nextFdId l)); [by eexists|lia].
  - (* fileClose *)
    intros l Hl Hn. unfold fileClose, find. rewrite bind_assoc. rewrite (bind_Ret (gets _) _ l _ l eq_refl).
    destruct (fdList l !! fdId) as [args|] eqn:E.
    2: { cbn. split_and!; [done|lia|lia|done|done]. }
    set (l1 := set_fdList (delete fdId (fdList l)) l).
    assert (numbered l1 /\ forall i fd, fdList l !! i = Some fd -> i ∉ [fdId] -> fdList l1 !! i = Some fd) as [H1 Hk].
    { split; [split; [exact (proj1 Hl)|]|].
      - cbn. intros i [h Hi]. rewrite lookup_delete_Some in Hi. destruct Hi as [_ Hi]. destruct Hl as [_ Hl]. apply Hl. by eexists.
      - cbn. intros i fd Hi Hc. rewrite lookup_delete_ne; [done|]. intros ->. by apply Hc; left. }
    rewrite bind_assoc. erewrite bind_Ret by reflexivity. rewrite bind_assoc. fold l1. apply sat_bind.
    eapply sat_mono; [apply (no_client _ l1)|..]; intros ? l' [E1 E2]; change (nextFdId l1) with (nextFdId l) in E2; cbn.
    + split_and!; [by eapply numbered_same|lia|lia|done|]. by rewrite E1.
    + split_and!; [by eapply numbered_same|done|]. by rewrite E1.
Qed.

Lemma run_numbers os l : numbered l -> nextFdId l + Z.of_nat (length os) < 2 ^ 64 ->
  sat (lib_run junk os l) (fun ids l' => numbered l' /\ nextFdId l <= nextFdId l' <= nextFdId l + Z.of_nat (length os) /\ NoDup ids /\
      Forall (fun i => nextFdId l <= i < nextFdId l') ids /\
      forall i fd, fdList l !! i = Some fd -> i ∉ concat (closes <$> os) -> fdList l' !! i = Some fd)
    (fun _ _ => False).
Proof.
  revert l. induction os as [|o os IH]; intros l Hl Hn.
  { cbn. split_and!; [done|lia|lia|constructor|constructor|done]. }
  cbn [length] in Hn. cbn [lib_run]. apply sat_bind, sat_try.
  eapply sat_mono; [apply (step_numbers o l Hl); lia|..].
  - intros i l1 (H1 & [Hle Hle'] & Ho & Hk). apply sat_bind.
    eapply sat_mono; [apply (IH l1 H1); lia| |done].
    intros rest l' (H2 & Hle2 & Hnd & Hf & Hk2). unfold sat, mret, M_ret.
    assert (forall j fd, fdList l !! j = Some fd -> j ∉ concat (closes <$> o :: os) -> fdList l' !! j = Some fd) as Hkeep.
    { intros j fd Hj Hc. cbn in Hc. rewrite elem_of_app in Hc. apply Hk2; [apply Hk; [done|]|]; intros ?; apply Hc; tauto. }
    assert (Forall (fun j => nextFdId l <= j < nextFdId l') rest) as Hf'.
    { eapply list.Forall_impl; [exact Hf|]. cbn. lia. }
    cbn [length id] in *. destruct (Z.eqb_spec i FAIL) as [->|Hi]; [split_and!; [done|lia|lia|done|done|done]|].
    destruct (Ho Hi) as (-> & Hs & _). split_and!; [done|lia|lia| |constructor; [lia|done]|done].
    constructor; [|done]. intros Hin. pose proof (proj1 (list.Forall_forall _ _) Hf _ Hin) as Hr. cbn in Hr. lia.
  - intros e l1 (H1 & E1 & Hk). unfold sat at 1, mret at 1, M_ret. apply sat_bind.
    eapply sat_mono; [apply (IH l1 H1); lia| |done].
    intros rest l' (H2 & Hle2 & Hnd & Hf & Hk2). cbn. rewrite <-E1. split_and!; [done|lia|lia|done|done|].
    intros j fd Hj Hc. cbn in Hc. rewrite elem_of_app in Hc. apply Hk2; [apply Hk; [done|]|]; intros ?; apply Hc; tauto.
Qed.

(** C15: the numbers of handles.  Whatever a program does with an opened
    library, whatever the server answers and whichever calls throw, as long as
    fewer than 2^64 - 1 calls are made: the numbers that [fileOpen] returned are
    different from each other and from [FAIL], also after handles were closed,
    and a number stands for the handle it was given for until the program closes
    it. *)
Theorem handle_numbers c os1 os2 : Z.of_nat (length os1) + Z.of_nat (length os2) + 1 < 2 ^ 64 ->
  match lib_run junk os1 (mkLib (Some c) ∅ 1) with
  | Ret is1 l1 =>
      match lib_run junk os2 l1 with
      | Ret is2 l2 => NoDup (is1 ++ is2) /\ ~ (FAIL ∈ is1 ++ is2) /\
          forall i fd, fdList l1 !! i = Some fd -> L_fileClose i ∉ os2 -> fdList l2 !! i = Some fd
      | Throw _ _ => False
      | Abort | Diverge => True
      end
  | Throw _ _ => False
  | Abort | Diverge => True
  end.
Proof.
  intros Hn. set (l0 := mkLib (Some c) ∅ 1).
  assert (numbered l0) as H0.
  { split; cbn; [lia|]. intros i. rewrite lookup_empty. by intros [? ?]. }
  pose proof (run_numbers os1 l0 H0) as H1. change (nextFdId l0) with 1 in H1.
  destruct (lib_run junk os1 l0) as [is1 l1|e l1| |] eqn:E1; try done.
  2: { apply H1. lia. }
  destruct H1 as (Hl1 & Hle1 & Hnd1 & Hf1 & _); [lia|].
  pose proof (run_numbers os2 l1 Hl1) as H2. destruct (lib_run junk os2 l1) as [is2 l2|e l2| |]; try done.
  2: { apply H2. lia. }
  destruct H2 as (Hl2 & Hle2 & Hnd2 & Hf2 & Hk); [lia|]. split_and!.
  - apply list.NoDup_app. split_and!; [done| |done]. intros i Hi1 Hi2.
    pose proof (proj1 (list.Forall_forall _ _) Hf1 _ Hi1). pose proof (proj1 (list.Forall_forall _ _) Hf2 _ Hi2).
    cbn in *. lia.
  - intros Hi. apply elem_of_app in Hi as [Hi|Hi]; [pose proof (proj1 (list.Forall_forall _ _) Hf1 _ Hi)|
      pose proof (proj1 (list.Forall_forall _ _) Hf2 _ Hi)]; unfold FAIL in *; cbn in *; lia.
  - intros i fd Hi Hc. apply Hk; [done|]. intros Hin. apply Hc.
    apply list_elem_of_In, in_concat in Hin as (k & Hk1 & Hk2). apply list_elem_of_In, list_elem_of_fmap in Hk1 as (o & -> & Ho).
    apply list_elem_of_In in Hk2. destruct o; cbn in Hk2; try by apply elem_of_nil in Hk2.
    apply list_elem_of_singleton in Hk2 as ->. done.
Qed.
End numbers.

(** ** A connection that opens every name and fails to close *)

Definition opening : ChubbyCalls Z := {|
  cc_call p := match p return api_arg p -> M Z (api_res p) with
    | P_fileOpen => fun a => n ← gets id; modify (Z.add 1) ;; mret (RF_val (mkFileHandler n 1 (ao_name a) 1 true))
    | P_fileClose => fun _ => throw exn_xdr
    | _ => fun _ _ => Diverge
    end;
  cc_register _ _ := Diverge;
  cc_delete_callback _ _ := Diverge;
|}.
Definition early : list lib_op := [L_fileOpen "/a" 1; L_fileOpen "/b" 1; L_fileClose 1].
Definition late : list lib_op := [L_fileOpen "/c" 1; L_fileDelete 9].

Lemma handle_numbers_witness :
  Z.of_nat (length early) + Z.of_nat (length late) + 1 < 2 ^ 64 /\
  (exists l1 l2, lib_run (ChubbyCalls0 := opening) false early (mkLib (Some 5) ∅ 1) = Ret [1; 2] l1 /\
    lib_run (ChubbyCalls0 := opening) false late l1 = Ret [3] l2 /\
    fdList l2 !! 2 = Some (mkFileHandler 6 1 "/b" 1 true)).
Proof.
  assert (Z.of_nat (length early) + Z.of_nat (length late) + 1 < 2 ^ 64) as H by done.
  split; [exact H|].
  pose proof (handle_numbers (ChubbyCalls0 := opening) false 5 early late H) as Hp.
  destruct (lib_run (ChubbyCalls0 := opening) false early (mkLib (Some 5) ∅ 1)) as [is1 l1|e l1| |] eqn:E1; try done;
    vm_compute in E1; try done.
  injection E1 as <- <-.
  match type of Hp with context [lib_run _ late ?l] => destruct (lib_run (ChubbyCalls0 := opening) false late l) as [is2 l2|e l2| |] eqn:E2 end;
    vm_compute in E2; try done.
  injection E2 as <- <-. do 2 eexists. split_and!; [reflexivity|vm_compute; reflexivity|].
  apply Hp; [reflexivity|]. apply (bool_decide_unpack _). reflexivity.
Defined.
