(* ===== verification/EndToEnd.v ===== *)
(** * From the client library to the handlers and back

    The layers in one system: the connection of a client ([ChubbyClient]) and a
    server process ([ChubbyApp]), joined by two streams of bytes that the
    readers of [MsgSock] cut into messages again. *)

From S2P Require Import Prelude Endian Xdr RpcMsg Rpc MsgSock ServerTypes Interfaces ChubbyServer.
From S2P Require Import DbApi ServerLogic LogicInv LogicErrors LogicProps LogicTypes.
From S2P Require Import ChubbyApp ChubbyClient ClientProps ClientLib.
From S2P Require Import ServerDB ServerDBProps Backstore BackstoreRefine ChubbyProps.

(** ** One connection of one server process *)

(** The process: running, gone, or in a handler that does not return. *)
Inductive process (A : Type) := Up (s : Server A) | Down | Hung.
Arguments Up {A}.
Arguments Down {A}.
Arguments Hung {A}.

(** The world of a client: the server, the session of the open connection, if
    there is one, and how much of its stream the client has read. *)
Record Net (A : Type) := mkNet {
  proc_ : process A;
  session : option Z;
  seen : nat;
}.
Arguments mkNet {A}.
Arguments proc_ {A}.
Arguments session {A}.
Arguments seen {A}.

(** What the server has written to a session. *)
Definition stream_to {A} (i : Z) (s : Server A) : bytes :=
  default [] (ms ← sessionid_to_msgsock_map_ s !! i; k ← socks s !! ms; Some (stream (sk_out k))).

(** An exception that leaves a callback leaves [chubby_server::run]; [main]
    ends. *)
Definition after {A} (r : outcome (Server A) unit) : process A :=
  match r with Ret _ s => Up s | Throw _ _ | Abort => Down | Diverge => Hung end.

Section link.
Context {D : Type} `{!DbApi D} (str_hash : string -> Z) (stale : Z -> FileHandler) (write_ok : Z -> bytes -> bool).
(** How the network cuts bytes, what the length word of a reader holds before
    it is read, the answers of [writev] on new connections, and what a read
    through a dangling pointer yields. *)
Context (cut : bytes -> list bytes) (lens : bytes) (kernel : list written) (stale_fd : FileHandler).
Implicit Types w : Net (Api D).

(** What a [msg_sock] with an empty buffer receives when [b] arrives: every
    call of [input] that finds something. *)
Definition delivered (b : bytes) : list (option bytes) :=
  received (polls (fun _ (u : unit) => (u, false)) (length b) (new_reader 0x100000 lens tt (cut b))).

Definition receive (i : Z) (m : option bytes) : M (Server (Api D)) unit :=
  srv_receive_cb (chubby_services str_hash stale write_ok) i m.

(** The descriptor that [accept] returns. *)
Definition server_fd (s : Server (Api D)) : Z := 4 + next_sock s.

(** [tcp_connect] *)
Definition link_connect (addr : bytes * bytes) : M (Net (Api D)) Z := fun w =>
  match proc_ w with
  | Up s =>
      match accept_cb (server_fd s) "client" kernel s with
      | Ret i s' => Ret 3 (mkNet (Up s') (Some i) 0)
      | _ => Throw (exn_runtime "tcp_connect") (mkNet Down None 0)
      end
  | _ => Throw (exn_runtime "tcp_connect") w
  end.

(** [write] on the connection; the server runs until it has handled what has
    arrived. *)
Definition link_write (fd : Z) (m : message) : M (Net (Api D)) unit := fun w =>
  match session w with
  | None => Throw exn_xdr w
  | Some i =>
      match proc_ w with
      | Up s => Ret tt (mkNet (after (for_each (delivered (raw_data m)) (receive i) s)) (Some i) (seen w))
      | _ => Ret tt w
      end
  end.

(** [close]; a second one finds no descriptor. *)
Definition link_close (fd : Z) : M (Net (Api D)) unit := fun w =>
  match session w, proc_ w with
  | Some i, Up s => Ret tt (mkNet (after (receive i None s)) None 0)
  | _, _ => Ret tt (mkNet (proc_ w) None 0)
  end.

(** The bytes that the client has not read. *)
Definition in_flight w : bytes :=
  match session w, proc_ w with Some i, Up s => drop (seen w) (stream_to i s) | _, _ => [] end.

(** [synchronous_client_base::invoke] on the connection. *)
Definition link_call (p : api_proc) (fd x : Z) (a : api_arg p) : M (Net (Api D)) (api_res p) := fun w =>
  match (m ← of_msg (xdr_to_msg (A := rpc_msg * arg_wire_type api_v1 p) (call_hdr api_v1 p x, a)); link_write fd m) w with
  | Ret _ w =>
      let is_up := match proc_ w with Down => false | _ => true end in
      let got k := mkNet (proc_ w) (session w) (seen w + (length (in_flight w) - length (concat (inbox k)))) in
      match (m ← read_message; accept_reply (A := res_wire_type api_v1 p) x m)
          (Conn (S := unit) x (cut (in_flight w)) is_up None) with
      | Ret r k => Ret r (got k)
      | Throw e k => Throw e (got k)
      | Abort => Abort
      | Diverge => Diverge
      end
  | Throw e w => Throw e w
  | Abort => Abort
  | Diverge => Diverge
  end.

#[local] Instance link : ChubbyNet (Net (Api D)) := {|
  net_connect := link_connect;
  net_call := link_call;
  net_write := link_write;
  net_close := link_close;
|}.

(** The reading thread takes what is in flight; whole messages count as read. *)
Definition arriving w : list (option bytes) :=
  match proc_ w with Up _ => delivered (in_flight w) | Down => [None] | Hung => [] end.
Definition read_on w : Net (Api D) :=
  mkNet (proc_ w) (session w) (seen w + length (frames (omap id (arriving w)))).
Definition arrive : M (Client (Net (Api D))) unit := fun c =>
  poll_loop stale_fd 1 (arriving (world c)) (on_world (read_on (world c)) c).

(** The library on this connection. *)
#[local] Instance linked : ChubbyCalls (Client (Net (Api D))) := {|
  cc_call p a := cl_invoke arrive p a;
  cc_register := register_callback;
  cc_delete_callback := delete_callback;
|}.
End link.

(** ** What reaches a session *)

(** The messages among [l] for session [i], when [x] is the counter of events. *)
Fixpoint messages_for (i x : Z) (l : list output) : list bytes :=
  match l with
  | [] => []
  | OReply id xid r :: l => (if i =? id then [wire (reply_hdr xid) ++ reply_wire r] else []) ++ messages_for i x l
  | OEvent id evc :: l =>
      let x := wrap32 (x + 1) in
      (if i =? id then [wire (call_hdr handler_v1 P_event_callback x) ++ wire evc] else []) ++ messages_for i x l
  end.

(** An idle connection whose next [n] writes take at least [cap] bytes. *)
Definition ready (cap n : nat) (w : Writer) : Prop :=
  wqueue_ w = [] /\ wsize_ w = 0 /\ wstart_ w = 0%nat /\ wfail_ w = false /\ (n <= length (answers w))%nat /\
  Forall (fun a => exists m, a = Wrote m /\ (cap <= m)%nat) (answers w).

Lemma ready_less cap n n' w : (n' <= n)%nat -> ready cap n w -> ready cap n' w.
Proof. unfold ready. intros ? (? & ? & ? & ? & ? & ?). split_and!; try done. lia. Qed.

Lemma putmsg_ready cap n m w : (0 < length (raw_data m) <= cap)%nat -> ready cap (S n) w ->
  exists w', putmsg m w = Some w' /\ ready cap n w' /\ stream w' = stream w ++ raw_data m.
Proof.
  intros Hm (Hq & Hz & Hst & Hf & Hn & Ha). unfold putmsg. rewrite Hf, Hz, Hq, Hst. set (bs := raw_data m) in *.
  destruct (answers w) as [|a l]; [cbn in Hn; lia|]. apply Forall_cons_1 in Ha as [(q & -> & Hc) Ha].
  change (0 =? 0) with true. cbv iota beta. unfold MsgSock.output, iov.
  cbn [Datatypes.app wqueue_ wstart_ wsize_ answers stream wfail_ write_cb take concat drop sys_writev].
  rewrite app_nil_r, drop_0, Nat.min_r by lia.
  destruct (length bs) as [|k] eqn:El; [lia|]. rewrite <-El. rewrite take_ge by lia.
  unfold pop_wbytes. cbn [wqueue_ wstart_ wsize_ answers stream wfail_ write_cb].
  rewrite (proj2 (Nat.eqb_neq (length bs) 0)) by lia. rewrite (proj2 (Z.ltb_ge (0 + Z.of_nat (length bs)) _)) by lia.
  rewrite (proj2 (Nat.ltb_ge (length bs) (length bs - 0))) by lia.
  replace (length bs - (length bs - 0))%nat with 0%nat by lia. cbn [pop_messages Nat.eqb].
  cbn [mbind option_bind wsize_]. replace (0 + Z.of_nat (length bs) - Z.of_nat (length bs)) with 0 by lia.
  eexists. split; [reflexivity|]. cbn. split; [|done]. split_and!; try done. cbn in *. lia.
Qed.

Lemma frame_of_app h b : frame_of (h ++ b) <> [].
Proof. intros H. discriminate H. Qed.
Lemma length_frame m : length (frame_of m) = (4 + length m)%nat.
Proof. reflexivity. Qed.
Lemma frames_one m : frames [m] = frame_of m.
Proof. apply app_nil_r. Qed.

Lemma messages_app i x l1 l2 fds :
  messages_for i x (l1 ++ l2) = messages_for i x l1 ++ messages_for i (event_writes fds x l1).1 l2.
Proof.
  revert x. induction l1 as [|[id xid r|id evc] l1 IH]; intros x; [done|..]; cbn [Datatypes.app messages_for event_writes].
  - by rewrite IH, app_assoc.
  - rewrite IH, app_assoc. by destruct (event_writes fds (wrap32 (x + 1)) l1).
Qed.

Section stream.
Context {A : Type} (write_ok : Z -> bytes -> bool).
Implicit Types s : Server A.

(** Session [i] has socket [ms], idle after the bytes [b]. *)
Definition idle (cap n : nat) (i ms : Z) (b : bytes) s : Prop :=
  sessionid_to_msgsock_map_ s !! i = Some ms /\
  exists k, socks s !! ms = Some k /\ ready cap n (sk_out k) /\ stream (sk_out k) = b.

Lemma idle_stream cap n i ms b s : idle cap n i ms b s -> stream_to i s = b.
Proof. intros (H1 & k & H2 & _ & H3). unfold stream_to. by rewrite H1; cbn; rewrite H2. Qed.

Lemma reply_stream {R} `{!Xdr R, !XdrLaws R} id x (r : R) cap n i ms b s s' :
  sessions_ok s -> u32 x -> x <> 2 ^ 32 - 1 -> xdr_valid r -> blen (wire r) + 24 < 2 ^ 31 ->
  is_Some (sessionid_to_msgsock_map_ s !! id) ->
  (i = id -> length (frame_of (wire (reply_hdr x) ++ wire r)) <= cap)%nat ->
  idle cap (S n) i ms b s -> srv_reply id x r s = Ret tt s' ->
  idle cap n i ms (b ++ if i =? id then frame_of (wire (reply_hdr x) ++ wire r) else []) s'.
Proof.
  intros Hs Hx Hx' Hr Hl [m Hm] Hc (Hi & k & Hk & Hready & Hb). destruct (reply_hdr_valid x Hx) as [Hv Hvl].
  assert (blen (wire (reply_hdr x, r)) < 2 ^ 31) as Hlt by (cbn [wire xdr_argpack fst snd]; rewrite blen_app; lia).
  assert (xdr_valid (reply_hdr x, r)) as Hvr by by split.
  set (g := framed (wire (reply_hdr x, r))).
  assert (raw_data g = frame_of (wire (reply_hdr x) ++ wire r)) as Hraw by reflexivity.
  assert (of_msg (xdr_to_msg (reply_hdr x, r)) s = Ret g s) as Hmake by exact (of_msg_ok (reply_hdr x, r) s Hvr Hlt).
  assert (0 < length (raw_data g))%nat as Hpos by (rewrite Hraw, length_frame; lia).
  clearbody g. rewrite <-Hraw in *.
  unfold srv_reply. destruct (Z.eqb_spec x (2 ^ 32 - 1)); [done|].
  rewrite (bind_Ret _ _ s g s Hmake).
  rewrite (bind_Ret (msgsock_of id) _ s m s) by (unfold msgsock_of; by rewrite Hm).
  unfold ms_putmsg. destruct (Z.eqb_spec i id) as [->|Hne].
  - assert (m = ms) as -> by congruence. rewrite Hk.
    destruct (putmsg_ready cap n g (sk_out k)) as (w' & -> & Hr' & Hst'); [by auto|done|].
    intros [= <-]. split; [done|]. cbn. rewrite lookup_insert_eq. eexists. split; [done|]. cbn. by rewrite Hst', Hb.
  - assert (m <> ms) as Hms by (intros ->; by apply Hne, (socks_disjoint s i id ms)).
    destruct (socks s !! m) as [k'|]; [|done]. destruct (putmsg g (sk_out k')); [|done].
    intros [= <-]. rewrite app_nil_r. split; [done|]. cbn. rewrite lookup_insert_ne by done.
    exists k. split_and!; [done| |done]. eapply ready_less; [|done]. lia.
Qed.

Lemma event_stream id evc cap n i ms b s s' :
  let x := wrap32 (xid_send_counter_ s + 1) in let f := event_frame x evc in
  sessions_ok s -> is_Some (sessionid_to_msgsock_map_ s !! id) -> xdr_valid evc -> blen (wire evc) + 40 < 2 ^ 31 ->
  idle cap n i ms b s -> srv_send write_ok handler_v1 P_event_callback id evc s = Ret tt s' ->
  idle cap n i ms (b ++ if i =? id then f else []) s'.
Proof.
  intros x f Hs [m Hm] Hv Hl (Hi & k & Hk & Hready & Hb). pose proof (wrap32_u32 (xid_send_counter_ s + 1)) as Hx. fold x in Hx.
  destruct (call_hdr_valid handler_v1 P_event_callback x Hx) as [Hvh Hvl].
  set (a := evc : arg_wire_type handler_v1 P_event_callback).
  assert (blen (wire (call_hdr handler_v1 P_event_callback x, a)) < 2 ^ 31) as Hlt
    by (cbn [wire xdr_argpack fst snd]; rewrite blen_app; unfold a; cbn in *; lia).
  assert (xdr_valid (call_hdr handler_v1 P_event_callback x, a)) as Hva by by split.
  assert (raw_data (framed (wire (call_hdr handler_v1 P_event_callback x, a))) = f) as Hraw by reflexivity.
  destruct (so_live s Hs id m Hm) as (fd & k2 & F1 & F2 & F3 & F4 & _).
  destruct (so_live s Hs i ms Hi) as (fd' & k' & G1 & G2 & G3 & G4 & _). assert (k' = k) as -> by congruence.
  unfold srv_send. erewrite bind_Ret by reflexivity. erewrite bind_Ret by reflexivity.
  rewrite (bind_Ret (fd_of id) _ (set_xid x s) fd (set_xid x s)) by (unfold fd_of; cbn; by rewrite F1).
  rewrite (bind_Ret _ _ (set_xid x s) _ (set_xid x s) (of_msg_ok (call_hdr handler_v1 P_event_callback x, a) _ Hva Hlt)).
  fold (framed (wire (call_hdr handler_v1 P_event_callback x, a))). rewrite Hraw. clear Hva Hlt Hraw. clearbody f.
  unfold sys_write. destruct (write_ok fd f); [|done].
  intros [= <-]. split; [done|]. cbn. rewrite lookup_fmap, Hk. cbn.
  eexists. split; [done|]. unfold write_after. rewrite G4.
  destruct (Z.eqb_spec i id) as [->|Hne].
  - assert (fd' = fd) as -> by congruence. rewrite Z.eqb_refl. cbn. by rewrite Hb.
  - destruct (Z.eqb_spec fd' fd) as [->|]; [congruence|]. by rewrite app_nil_r.
Qed.
End stream.

Section calls.
Context {D : Type} `{!DbApi D} (str_hash : string -> Z) (stale : Z -> FileHandler) (write_ok : Z -> bytes -> bool).
Context (cut : bytes -> list bytes) (lens : bytes) (kernel : list written) (stale_fd : FileHandler).
(** The network loses nothing. *)
Context (Hlens : length lens = 4%nat).
Context (Hcut : forall b, concat (cut b) = b /\ Forall (fun bs => bs <> []) (cut b)).
Implicit Types s : Server (Api D).
Abbreviation the_net := (link str_hash stale write_ok cut lens kernel).
Abbreviation arrivals_here := (arrive str_hash stale write_ok cut lens kernel stale_fd).

Lemma delivered_frames ms : Forall (fun m => blen m <= 0x100000) ms -> delivered cut lens (frames ms) = Some <$> ms.
Proof.
  intros Hms. destruct (Hcut (frames ms)) as [Hc Hf]. unfold delivered.
  refine (stream_delivered (fun _ (u : unit) => (u, false)) (fun _ _ => eq_refl) 0x100000 ms _ lens tt _ Hlens Hf Hc).
  eapply list.Forall_impl; [exact Hms|]. cbn. lia.
Qed.

Lemma deliver_stream l cap n i ms b s : sessions_ok s -> Forall (deliverable write_ok s) l ->
  Forall (fun m => 4 + length m <= cap)%nat (messages_for i (xid_send_counter_ s) l) ->
  (length l <= n)%nat -> idle cap n i ms b s ->
  exists s', for_each l (deliver write_ok) s = Ret tt s' /\ sessions_ok s' /\ app s' = app s /\
    idle cap (n - length l) i ms (b ++ frames (messages_for i (xid_send_counter_ s) l)) s'.
Proof.
  revert n b s. induction l as [|o l IH]; intros n b s Hs Hl Hc Hn Hi.
  { exists s. cbn [messages_for length]. rewrite Nat.sub_0_r. unfold frames. cbn. by rewrite app_nil_r. }
  apply Forall_cons_1 in Hl as [Ho Hl]. pose proof (deliver_run write_ok o s Hs Ho) as H.
  change (o :: l) with ([o] ++ l) in Hc |- *.
  rewrite (messages_app _ _ _ _ (sessionid_to_fd_map_ s)) in Hc |- *.
  destruct (event_writes _ _ [o]) as [x1 w1] eqn:Ew. cbn [fst] in *.
  destruct H as (s1 & Hr & ((Hs1 & E1 & E2 & _) & E3 & E4 & E5 & E6) & _).
  assert (Forall (deliverable write_ok s1) l) as Hl1.
  { eapply list.Forall_impl; [exact Hl|]. intros []; unfold deliverable; by rewrite E1, ?E4. }
  apply Forall_app in Hc as [Hc1 Hc2]. destruct n as [|n]; [cbn in Hn; lia|].
  assert (idle cap n i ms (b ++ frames (messages_for i (xid_send_counter_ s) [o])) s1) as Hi1.
  { destruct o as [id x r|id evc]; cbn [messages_for] in Hc1 |- *; rewrite app_nil_r in Hc1 |- *.
    - destruct Ho as (Hid & Hx & Hni & Hv & Hlen).
      assert (b ++ frames (if i =? id then [wire (reply_hdr x) ++ reply_wire r] else []) =
        b ++ if i =? id then frame_of (wire (reply_hdr x) ++ reply_wire r) else []) as ->.
      { destruct (i =? id); [by rewrite frames_one|done]. }
      assert (i = id -> length (frame_of (wire (reply_hdr x) ++ reply_wire r)) <= cap)%nat as Hcap.
      { intros ->. rewrite Z.eqb_refl in Hc1. by apply Forall_cons_1 in Hc1 as [? _]. }
      destruct r as [r|r|r|r]; cbn [deliver reply_wire reply_valid] in *; exact (reply_stream id x r cap n i ms b s s1 Hs Hx Hni Hv Hlen Hid Hcap Hi Hr).
    - destruct Ho as (Hid & _ & Hv & Hlen).
      assert (b ++ frames (if i =? id then [wire (call_hdr handler_v1 P_event_callback (wrap32 (xid_send_counter_ s + 1))) ++ wire evc] else []) =
        b ++ if i =? id then event_frame (wrap32 (xid_send_counter_ s + 1)) evc else []) as ->.
      { destruct (i =? id); [by rewrite frames_one|done]. }
      eapply event_stream; try done. destruct Hi as (? & k & ? & Hrd & ?). split; [done|]. exists k.
      split_and!; [done| |done]. eapply ready_less; [|exact Hrd]. lia. }
  rewrite <-E5 in Hc2 |- *. destruct (IH n _ s1 Hs1 Hl1 Hc2 ltac:(cbn in Hn; lia) Hi1) as (s' & Hr' & Hs' & Ea & Hi').
  exists s'. split_and!; [cbn; by rewrite (bind_Ret _ _ _ _ _ Hr)|done|by rewrite Ea, E3|].
  rewrite E5 in Hi' |- *. change (length ([o] ++ l)) with (S (length l)). cbn [Nat.sub].
  unfold frames in *. by rewrite fmap_app, concat_app, app_assoc.
Qed.

(** Session [i] of a running server is connected to the client, which has read
    everything and has no call pending; the kernel will take [n] more messages of [cap] bytes at once. *)
Definition connected (cap n : nat) (i : Z) s (c : Client (Net (Api D))) : Prop :=
  proc_ (world c) = Up s /\ session (world c) = Some i /\ sessions_ok s /\ reply_queue_ c = [] /\
  exists ms b, idle cap n i ms b s /\ seen (world c) = length b.

(** The replies of [out] to session [i]. *)
Definition no_reply (i : Z) (l : list output) : Prop :=
  Forall (fun o => match o with OReply id _ _ => id <> i | OEvent _ _ => True end) l.

Lemma reply_of_wire p (r : res_wire_type api_v1 p) x : wire (reply_hdr x) ++ reply_wire (reply_of p r) = wire (reply_hdr x, r).
Proof. by destruct p. Qed.
Lemma reply_of_valid p (r : res_wire_type api_v1 p) : reply_valid (reply_of p r) = xdr_valid r.
Proof. by destruct p. Qed.

Lemma messages_events i x l : no_reply i l -> Forall (fun o => match o with OEvent _ evc => xdr_valid evc | _ => True end) l ->
  Forall is_event (messages_for i x l).
Proof.
  intros Hn Hl. revert x. induction Hn as [|o l Ho Hn IH]; intros x; [constructor|].
  apply Forall_cons_1 in Hl as [Hv Hl]. destruct o as [id y r|id evc]; cbn [messages_for].
  - destruct (Z.eqb_spec i id); [congruence|]. by apply IH.
  - apply Forall_app. split; [|by apply IH]. destruct (i =? id); [|constructor]. constructor; [|constructor].
    apply (event_wire P_event_callback _ (evc : arg_wire_type handler_v1 P_event_callback)); [apply wrap32_u32|done].
Qed.
Lemma omap_some {A} (l : list A) : omap id (Some <$> l) = l.
Proof. induction l as [|a l IH]; [done|]. cbn. by rewrite IH. Qed.

(** The server has handled the request when [write] returns. *)
Lemma write_served p (a : arg_wire_type api_v1 p) x fd cap n i s ms b w a' :
  proc_ w = Up s -> session w = Some i -> sessions_ok s -> idle cap n i ms b s -> u32 x ->
  xdr_valid a -> blen (wire a) + 40 <= 0x100000 ->
  handle str_hash stale (api_request p a) i x (on_out (fun _ => []) (app s)) = Ret tt a' ->
  Forall (deliverable write_ok s) (out a') -> (length (out a') <= n)%nat ->
  Forall (fun m => 4 + length m <= cap)%nat (messages_for i (xid_send_counter_ s) (out a')) ->
  exists s', net_write (ChubbyNet := the_net) fd
      (framed (wire (call_hdr api_v1 p x, a))) w = Ret tt (mkNet (Up s') (Some i) (seen w)) /\
    sessions_ok s' /\ app s' = on_out (fun _ => []) a' /\
    idle cap (n - length (out a')) i ms (b ++ frames (messages_for i (xid_send_counter_ s) (out a'))) s'.
Proof.
  intros Hp Hw Hs Hi Hx Ha Hl Hrun Hout Hn Hcap. set (s1 := set_app (on_out (fun _ => []) a') s).
  destruct (deliver_stream (out a') cap n i ms b s1 (ok_app _ s Hs) Hout Hcap Hn Hi) as (s' & Hr & Hs' & Happ & Hi').
  exists s'. split; [|by split_and!]. cbn [net_write link]. unfold link_write. rewrite Hw, Hp.
  destruct (call_hdr_valid api_v1 p x Hx) as [_ Hvl].
  set (m := wire (call_hdr api_v1 p x, a)).
  assert (blen m <= 0x100000) as Hm by (unfold m; cbn [wire xdr_argpack fst snd]; rewrite blen_app; lia).
  assert (delivered cut lens (raw_data (framed m)) = [Some m]) as ->.
  { change (raw_data (framed m)) with (frame_of m). rewrite <-frames_one. apply delivered_frames. by constructor. }
  cbn [for_each]. assert (receive str_hash stale write_ok i (Some m) s = Ret tt s') as Hrec.
  { apply request_runs; [|done..|].
    - destruct Hi as [E _]. rewrite E. by eexists.
    - unfold api_method, run_logic. by rewrite Hrun. }
  by rewrite (bind_Ret _ _ _ _ _ Hrec).
Qed.

(** C2: a call of the library is a call of the handler.  On an open connection
    to a running server, whatever the network does to the bytes: when the
    handler of the procedure returns with one reply for the call, the library
    returns what that reply carries, the server is left in the state of the
    handler, the events that the handler sent to this session wait for their
    callbacks in order, and the connection is ready for the next call. *)
Theorem library_call_served p (a : arg_wire_type api_v1 p) (l : Lib (Client (Net (Api D)))) c s cap n i a' l1
    (r : res_wire_type api_v1 p) l2 :
  let x := wrap32 (cl_xid c + 1) in let y := xid_send_counter_ s in
  client l = Some c -> connected cap n i s c -> xdr_valid a -> blen (wire a) + 40 <= 0x100000 ->
  handle str_hash stale (api_request p a) i x (on_out (fun _ => []) (app s)) = Ret tt a' ->
  out a' = l1 ++ OReply i x (reply_of p r) :: l2 -> no_reply i l1 -> no_reply i l2 ->
  Forall (deliverable write_ok s) (out a') -> (length (out a') <= n)%nat ->
  Forall (fun m => blen m <= 0x100000 /\ (4 + length m <= cap)%nat) (messages_for i y (out a')) ->
  exists s' c', ClientLib.call (ChubbyCalls0 := linked str_hash stale write_ok cut lens kernel stale_fd) p a l =
      Ret r (mkLib (Some c') (fdList l) (nextFdId l)) /\
    app s' = on_out (fun _ => []) a' /\ connected cap (n - length (out a')) i s' c' /\ cl_xid c' = x /\
    exists y', event_queue_ c' = event_queue_ c ++ messages_for i y l1 ++ messages_for i y' l2.
Proof.
  intros x y Hc (Hp & Hw & Hs & Hq & ms & b & Hi & Hb) Ha Hl Hrun Hout Hn1 Hn2 Hdel Hn Hm.
  pose proof (wrap32_u32 (cl_xid c + 1)) as Hx. fold x in Hx.
  assert (Forall (fun m => 4 + length m <= cap)%nat (messages_for i y (out a'))) as Hcap.
  { eapply list.Forall_impl; [exact Hm|]. by intros ? [_ ?]. }
  destruct (write_served p a x (fd_ c) cap n i s ms b (world c) a' Hp Hw Hs Hi Hx Ha Hl Hrun Hdel Hn Hcap)
    as (s' & Hwrite & Hs' & Happ & Hi'). fold y in Hi'.
  set (w' := mkNet (Up s') (Some i) (seen (world c))) in *.
  destruct (invoke_look (ChubbyNet0 := the_net) arrivals_here p a w' c Ha ltac:(lia) Hwrite) as (c1 & Hinv & Eq & Ee & Ex & Ew & Ef & _).
  set (msgs := messages_for i y (out a')) in *.
  assert (in_flight w' = frames msgs) as Hfl.
  { unfold in_flight. cbn [w' session proc_ seen]. by rewrite (idle_stream _ _ _ _ _ _ Hi'), Hb, drop_app_length. }
  assert (arriving cut lens w' = Some <$> msgs) as Harr.
  { unfold arriving. cbn [w' proc_]. rewrite Hfl. apply delivered_frames.
    eapply list.Forall_impl; [exact Hm|]. by intros ? [? _]. }
  set (y' := (event_writes ∅ y l1).1).
  assert (msgs = messages_for i y l1 ++ wire (reply_hdr x, r) :: messages_for i y' l2) as Hmsgs.
  { unfold msgs. rewrite Hout, (messages_app _ _ _ _ ∅). cbn [messages_for]. rewrite Z.eqb_refl. cbn [Datatypes.app].
    by rewrite reply_of_wire. }
  rewrite Hout in Hdel. apply Forall_app in Hdel as [Hd1 Hd2]. apply Forall_cons_1 in Hd2 as [Hdr Hd2].
  assert (xdr_valid r) as Hr by (rewrite <-reply_of_valid; apply Hdr).
  assert (forall l, Forall (deliverable write_ok s) l ->
    Forall (fun o => match o with OEvent _ evc => xdr_valid evc | _ => True end) l) as Hev.
  { intros l' Hl'. eapply list.Forall_impl; [exact Hl'|]. intros [|]; [done|]. by intros (_ & _ & ? & _). }
  set (c2 := on_world (read_on cut lens w') c1).
  pose proof (poll_mixed (ChubbyNet0 := the_net) stale_fd 1 x _ _ _ c2 (messages_events i y l1 Hn1 (Hev _ Hd1))
    (messages_events i y' l2 Hn2 (Hev _ Hd2)) (reply_to_wire x r Hx Hr)) as Hpoll.
  rewrite <-Hmsgs, <-Harr in Hpoll.
  assert (arrivals_here c1 = poll_loop (ChubbyNet0 := the_net) stale_fd 1 (arriving cut lens w') c2) as Harrive.
  { unfold arrive. by rewrite Ew. }
  rewrite Hpoll in Harrive. specialize (Hinv _ Harrive).
  cbn [c2 on_world event_queue_ reply_queue_] in Hinv. rewrite Eq, Hq in Hinv. cbn [Datatypes.app] in Hinv.
  match type of Hinv with _ = look _ _ _ ?c3 =>
    destruct (look_reply p a r x c3 [] Hx Hr eq_refl) as (c' & Hlook & Fq & Fe & Fx & Fw & Ff & _) end.
  exists s', c'. split_and!.
  - unfold ClientLib.call, on_client. rewrite Hc. cbn [cc_call linked].
    rewrite Hinv.
    fold x. by rewrite Hlook.
  - done.
  - unfold connected. rewrite Fw. cbn [on_queues on_world world read_on proc_ session]. split_and!; try done.
    exists ms, (b ++ frames msgs). split; [done|].
    change (seen (world c2)) with (seen (world c) + length (frames (omap id (arriving cut lens w'))))%nat.
    by rewrite Harr, omap_some, length_app, Hb.
  - rewrite Fx. cbn. done.
  - exists y'. rewrite Fe. cbn [on_queues event_queue_]. by rewrite Ee.
Qed.
End calls.

(** ** A client that connects and asks for a lock *)

#[local] Existing Instance strict_engine.
#[local] Existing Instance one_server.

(** At most 40 bytes arrive at once. *)
Definition in_two (b : bytes) : list bytes := filter (fun x => x <> []) [take 40 b; drop 40 b].
Lemma concat_filter (l : list bytes) : concat (filter (fun x => x <> []) l) = concat l.
Proof.
  induction l as [|x l IH]; [done|]. rewrite filter_cons. destruct (decide (x <> [])) as [_|Hx]; cbn; rewrite IH; [done|].
  by destruct x; [|destruct Hx].
Qed.
Lemma in_two_cuts b : concat (in_two b) = b /\ Forall (fun bs => bs <> []) (in_two b).
Proof.
  unfold in_two. split.
  - rewrite concat_filter. cbn. by rewrite app_nil_r, take_drop.
  - apply list.Forall_forall. by intros x [Hx _]%list_elem_of_filter.
Qed.
Definition four : bytes := ["a"; "b"; "c"; "d"]%char.

#[local] Instance sample_net : ChubbyNet (Net (Api Db)) :=
  link sample_hash no_stale (fun _ _ => true) in_two four fluent.
Definition unconnected : Client (Net (Api Db)) :=
  mkClient (-1) "42" [(str_bytes "host", str_bytes "8444")] [] [] ∅ NoBkup (call_hdr api_v1 P_acquire 0) [] 0 [] 0
    (mkNet (Up fresh) None 0).
Definition session_events : list srv_event :=
  EvAccept 5 "client" fluent :: asks 1 P_startSession "42" 1.
Definition lock_granted_2 : output := OReply 1 2 (RepBool (RB_val true)).

Lemma session_runs : exists c s a', connect_server_and_recover forged 1 unconnected = Ret tt c /\
  runs_to session_events fresh = Some s /\ proc_ (world c) = Up s /\ session (world c) = Some 1 /\
  reply_queue_ c = [] /\ (exists b, idle 4000 9 1 1 b s /\ seen (world c) = length b) /\
  cl_xid c = 1 /\ xid_send_counter_ s = 0 /\
  handle sample_hash no_stale (Q_tryAcquire forged) 1 2 (on_out (fun _ => []) (app s)) = Ret tt a' /\
  out a' = [lock_granted_2] /\ deliverable (fun _ _ => true) s lock_granted_2.
Proof.
  do 3 eexists. split; [vm_compute; reflexivity|]. split; [vm_compute; reflexivity|].
  split; [vm_compute; reflexivity|]. split; [reflexivity|]. split; [reflexivity|].
  split.
  { eexists. split; [split; [reflexivity|]; eexists; split; [reflexivity|]; split; [|reflexivity]|vm_compute; reflexivity].
    split_and!; try (vm_compute; reflexivity).
    cbn [sk_out answers]. repeat (constructor; [eexists; split; [reflexivity|apply Nat.leb_le; vm_compute; reflexivity]|]).
    constructor. }
  split; [reflexivity|]. split; [reflexivity|]. split; [vm_compute; reflexivity|]. split; [reflexivity|].
  split_and!; [by eexists|done..].
Qed.

Lemma library_call_served_witness : exists c l', connect_server_and_recover forged 1 unconnected = Ret tt c /\
  ClientLib.call (ChubbyCalls0 := linked sample_hash no_stale (fun _ _ => true) in_two four fluent forged)
    P_tryAcquire forged (mkLib (Some c) ∅ 1) = Ret (RB_val true) l' /\ fdList l' = ∅.
Proof.
  destruct session_runs as (c & s & a' & Hc & Hs & Hp & Hi & Hq & (b & Hidle & Hb) & Hx & Hy & Hrun & Hout & Hdel).
  destruct (library_call_served sample_hash no_stale (fun _ _ => true) in_two four fluent forged eq_refl in_two_cuts
    P_tryAcquire forged (mkLib (Some c) ∅ 1) c s 4000 9 1 a' [] (RB_val true) []) as (s' & c' & Hcall & _).
  - reflexivity.
  - refine (conj Hp (conj Hi (conj _ (conj Hq (ex_intro _ 1 (ex_intro _ b (conj Hidle Hb))))))).
    exact (runs_to_ok session_events fresh s (new_server_ok _) (api_init_inv _ _) Hs).
  - clear. vm_compute. done.
  - clear. vm_compute. done.
  - rewrite Hx. exact Hrun.
  - rewrite Hx. exact Hout.
  - constructor.
  - constructor.
  - rewrite Hout. constructor; [exact Hdel|constructor].
  - rewrite Hout. cbn. lia.
  - rewrite Hout, Hy. clear. cbn [messages_for lock_granted_2]. constructor; [|constructor].
    split; [by vm_compute|apply Nat.leb_le; vm_compute; reflexivity].
  - exists c. eexists. split; [exact Hc|]. split; [exact Hcall|]. reflexivity.
Defined.
