(* ===== verification/Shell.v ===== *)
(** * The shell: [shell/shell.cc]

    Commands as the shell reads them: a line in a buffer of 256 characters, cut
    at its blanks; one definition per [Cmd_...] function, over the client
    library of [ClientLib]; the loops of [Prompt] and [RunScript] over a stream
    of characters; [main]. *)

From S2P Require Import Prelude Numbers ServerTypes Interfaces ClientLib.

(** [DEBUG_MAX_ARGS] and [DEBUG_MAX_LINE] *)
Definition DEBUG_MAX_ARGS : nat := 5.
Definition DEBUG_MAX_LINE : nat := 256.

Definition newline : ascii := "010"%char.
Definition nul : ascii := "000"%char.
Definition endl : string := String newline "".

(** ** Streams *)

(** A [std::istream]: what is left of it, [eofbit] and [failbit]. *)
Record istream := mkIn { left_in : bytes; eofbit : bool; failbit : bool }.
Definition in_good (f : istream) : bool := negb (eofbit f) && negb (failbit f).

(** The file that [fstream fin {file}] opens; [None] when that fails. *)
Definition open_in (file : option bytes) : istream :=
  match file with Some b => mkIn b false false | None => mkIn [] false true end.

(** At most [n] characters up to a newline, and the rest. *)
Fixpoint scan (n : nat) (b : bytes) : bytes * bytes :=
  match n, b with
  | S n, c :: b' => if Ascii.eqb c newline then ([], b) else let (l, r) := scan n b' in (c :: l, r)
  | _, _ => ([], b)
  end.

(** [istream::getline(buf, n)]: the stream and what is stored. *)
Definition getline (n : nat) (f : istream) : istream * bytes :=
  if negb (in_good f) then (mkIn (left_in f) (eofbit f) true, []) else
  let (l, r) := scan (n - 1) (left_in f) in
  match r with
  | [] => (mkIn [] true (match l with [] => true | _ => false end), l)
  | c :: r' => if Ascii.eqb c newline then (mkIn r' false false, l) else (mkIn r false true, l)
  end.

(** A character array read as a C string. *)
Fixpoint c_str (b : bytes) : bytes :=
  match b with [] => [] | c :: b => if Ascii.eqb c nul then [] else c :: c_str b end.

(** ** Arguments *)

(** [strchr(arg, ' ')]: the characters before the blank and those behind it. *)
Fixpoint cut_blank (b : bytes) : bytes * option bytes :=
  match b with
  | [] => ([], None)
  | c :: b => if Ascii.eqb c " " then ([], Some b) else let (l, r) := cut_blank b in (c :: l, r)
  end.

(** The loop of [DispatchCommand]: [argv], when [n] more entries fit. *)
Fixpoint split_args (n : nat) (b : bytes) : list bytes :=
  match n with
  | O => [b]
  | S n => match cut_blank b with (_, None) => [b] | (l, Some r) => l :: split_args n r end
  end.
Definition args_of (buf : bytes) : list string := bytes_str <$> split_args (DEBUG_MAX_ARGS - 1) (c_str buf).

(** [int fd = strtol(argv, 0, 10)], as it is passed on for an unsigned number
    of 64 bits. *)
Definition int_arg (s : string) : Z := wrap64 (sint32 (strtol (str_bytes s))).

(** [std::stoi(argv)]: the exception names the function. *)
Definition stoi_arg {S} (s : string) : M S Z :=
  match stoi (str_bytes s) with Some n => mret n | None => throw (exn_logic "stoi") end.

(** [ClientException::what] *)
Definition client_what (code : Z) : string :=
  if code =? 0 then "BAD ARGUMENT" else if code =? 1 then "FAILS IN FILESYSTEM" else "UNKNOWN ERROR CODE".

(** ** Commands *)

(** The shell: the global [client], and what was printed. *)
Record Shell (C : Type) := mkShell { sh_lib : Lib C; sh_out : string }.
Arguments mkShell {C}.
Arguments sh_lib {C}.
Arguments sh_out {C}.

(** Whether [exit(0)] was called. *)
Inductive going := Go_on | Exited.

Section shell.
Context {C : Type} `{!ChubbyCalls C} (junk : bool).
Abbreviation Op := (M (Shell C)).

Definition cout (s : string) : Op unit := modify (fun x => mkShell (sh_lib x) (sh_out x +:+ s)).
Definition with_client {A} (m : M (Lib C) A) : Op A := zoom sh_lib (fun l x => mkShell l (sh_out x)) m.

(** [catch (ClientException &e) { cout << e.what() << endl; }] *)
Definition catch_client (m : Op unit) : Op unit := fun x =>
  match m x with Throw (exn_client e) x' => cout (client_what e +:+ endl) x' | r => r end.

Definition usage (text : string) : Op unit := cout ("Usage: " +:+ text +:+ endl).

Definition Cmd_Echo (argv : list string) : Op unit :=
  for_each (tail argv) (fun a => cout (a +:+ " ")) ;; cout endl.

Definition Cmd_Increment (argv : list string) : Op unit :=
  match argv with
  | [_; a] => n ← stoi_arg a; result ← with_client (ClientLib.increment n); cout (to_string result +:+ endl)
  | _ => usage "increment INT"
  end.
Definition Cmd_Decrement (argv : list string) : Op unit :=
  match argv with
  | [_; a] => n ← stoi_arg a; result ← with_client (ClientLib.decrement n); cout (to_string result +:+ endl)
  | _ => usage "decrement INT"
  end.

Definition Cmd_FileOpen (argv : list string) : Op unit :=
  match argv with
  | [_; name; a] => result ← with_client (ClientLib.fileOpen name (int_arg a)); cout (to_string result +:+ endl)
  | _ => usage "fileOpen FILENAME MODE"
  end.
Definition Cmd_FileClose (argv : list string) : Op unit :=
  match argv with
  | [_; a] => with_client (ClientLib.fileClose (int_arg a))
  | _ => usage "fileClose FD_ID"
  end.

Definition Cmd_FileDelete (argv : list string) : Op unit :=
  match argv with
  | [_; a] =>
      catch_client (r ← with_client (ClientLib.fileDelete (int_arg a));
                    cout ((if r : bool then "Deleted" else "Failed") +:+ endl))
  | _ => usage "fileDelete FD_ID"
  end.

(** [getContentsAndStat] stores the contents when it returns [true]. *)
Definition Cmd_Get (argv : list string) : Op unit :=
  match argv with
  | [_; a] =>
      catch_client (r ← with_client (ClientLib.getContentsAndStat (int_arg a));
                    cout (match r with Some v => cas_content v | None => "Failed" end +:+ endl))
  | _ => usage "get FD_ID"
  end.

Definition Cmd_Set (argv : list string) : Op unit :=
  match argv with
  | [_; a; content] =>
      catch_client (r ← with_client (ClientLib.setContents (int_arg a) content);
                    cout ((if r : bool then "Succeeded" else "Failed") +:+ endl))
  | _ => usage "set FD_ID content"
  end.

Definition Cmd_Acquire (argv : list string) : Op unit :=
  match argv with
  | [_; a] => catch_client (with_client (ClientLib.acquire (int_arg a)))
  | _ => usage "acquire FD_ID"
  end.
Definition Cmd_TryAcquire (argv : list string) : Op unit :=
  match argv with
  | [_; a] =>
      catch_client (r ← with_client (ClientLib.tryAcquire junk (int_arg a));
                    cout ((if r : bool then "Deleted" else "Failed") +:+ endl))
  | _ => usage "tryAcquire FD_ID"
  end.
Definition Cmd_Release (argv : list string) : Op unit :=
  match argv with
  | [_; a] => catch_client (with_client (ClientLib.release (int_arg a)))
  | _ => usage "release FD_ID"
  end.

Definition DispatchCommand (buf : bytes) : Op going :=
  let argv := args_of buf in
  let cmd := default "" (head argv) in
  let go m := m ;; mret Go_on in
  if String.eqb cmd "increment" then go (Cmd_Increment argv) else
  if String.eqb cmd "decrement" then go (Cmd_Decrement argv) else
  if String.eqb cmd "fileOpen" then go (Cmd_FileOpen argv) else
  if String.eqb cmd "fileClose" then go (Cmd_FileClose argv) else
  if String.eqb cmd "fileDelete" then go (Cmd_FileDelete argv) else
  if String.eqb cmd "get" then go (Cmd_Get argv) else
  if String.eqb cmd "set" then go (Cmd_Set argv) else
  if String.eqb cmd "acquire" then go (Cmd_Acquire argv) else
  if String.eqb cmd "tryAcquire" then go (Cmd_TryAcquire argv) else
  if String.eqb cmd "release" then go (Cmd_Release argv) else
  if String.eqb cmd "echo" then go (Cmd_Echo argv) else
  if String.eqb cmd "exit" then mret Exited else
  if String.eqb cmd "#" then mret Go_on else
  if negb (String.eqb cmd "") then go (cout ("Unknown command '" +:+ cmd +:+ "'" +:+ endl)) else mret Go_on.

(** ** Loops *)

(** [k] unless the process has ended. *)
Definition unless_exited (g : going) (k : Op going) : Op going := match g with Go_on => k | Exited => mret Exited end.

(** The loop of [Prompt], of which [fuel] turns are run. *)
Fixpoint prompt_loop (fuel : nat) (f : istream) : Op going :=
  if negb (in_good f) then mret Go_on else
  match fuel with
  | O => fun _ => Diverge
  | S fuel =>
      cout "> " ;;
      let (f, buf) := getline DEBUG_MAX_LINE f in
      g ← DispatchCommand buf; unless_exited g (prompt_loop fuel f)
  end.
Definition Prompt (f : istream) : Op going :=
  cout ("Client Shell" +:+ endl) ;; prompt_loop (S (length (left_in f))) f.

(** The loop of [RunScript]. *)
Fixpoint script_loop (fuel : nat) (f : istream) : Op going :=
  if eofbit f then mret Go_on else
  match fuel with
  | O => fun _ => Diverge
  | S fuel =>
      let (f, buf) := getline DEBUG_MAX_LINE f in
      g ← DispatchCommand buf; unless_exited g (script_loop fuel f)
  end.
Definition RunScript (file : option bytes) : Op going :=
  let f := open_in file in script_loop (S (length (left_in f))) f.

(** The part of [main] behind [open]: the exit status.  [what] is the text of
    an exception of the library; [what] of [ClientException] does not override
    that of [std::exception]. *)
Definition main (what : exn -> string) (stdin : bytes) (script : option (option bytes)) : Op Z :=
  try_catch
    (match script with None => Prompt (open_in (Some stdin)) | Some file => RunScript file end ;; mret 0)
    (fun e => cout (match e with exn_client _ => "std::exception" | _ => what e end +:+ endl) ;; mret 1).
End shell.
