(* ===== verification/ShellProps.v ===== *)
(** * What the shell does with its input

    A script runs line by line, unless a line is longer than the buffer, after
    which it never ends ([script_reads_lines]); the prompt stops there
    ([prompt_reads_lines]).  A command written with its arguments is the call of
    the library ([shell_commands]). *)

From S2P Require Import Prelude Numbers ServerTypes Interfaces ClientLib Shell.

(** ** Lines *)

(** The lines of a text: what is between its newlines. *)
Fixpoint lines_of (b : bytes) : list bytes :=
  match b with
  | [] => [[]]
  | c :: b =>
      if Ascii.eqb c newline then [] :: lines_of b else
      match lines_of b with l :: ls => (c :: l) :: ls | [] => [[c]] end
  end.

Definition fits (n : nat) (l : bytes) : bool := (length l <=? n)%nat.

Lemma lines_of_cons b : exists l ls, lines_of b = l :: ls.
Proof.
  induction b as [|c b (l & ls & IH)]; [by eexists _, _|]. cbn. destruct (Ascii.eqb c newline); [by eexists _, _|].
  rewrite IH. by eexists _, _.
Qed.

Lemma lines_of_length b : (length (lines_of b) <= S (length b))%nat.
Proof.
  induction b as [|c b IH]; [done|]. cbn. destruct (Ascii.eqb c newline); cbn; [lia|].
  destruct (lines_of b) as [|l ls]; cbn in *; lia.
Qed.

(** [scan] finds the first line, or the beginning of it. *)
Lemma scan_line b n l ls : lines_of b = l :: ls ->
  exists r, scan n b = (take n l, r) /\
    if fits n l then match ls with [] => r = [] | _ => exists b', r = newline :: b' /\ lines_of b' = ls end
    else exists c r', r = c :: r' /\ c <> newline.
Proof.
  revert n l ls. induction b as [|c b IH]; intros n l ls E.
  { cbn in E. injection E as <- <-. exists []. by destruct n. }
  cbn in E. destruct (Ascii.eqb_spec c newline) as [->|Hc].
  - injection E as <- <-. exists (newline :: b). split; [by destruct n|]. destruct (lines_of_cons b) as (l & ls & E).
    rewrite E. cbn. by exists b.
  - destruct (lines_of_cons b) as (l' & ls' & E'). rewrite E' in E. injection E as <- <-. destruct n as [|n].
    + exists (c :: b). split; [done|]. by exists c, b.
    + destruct (IH n l' ls' E') as (r & Hs & Hr). exists r. cbn. destruct (Ascii.eqb_spec c newline); [done|].
      by rewrite Hs.
Qed.

Lemma getline_line b l ls : lines_of b = l :: ls -> exists f', getline DEBUG_MAX_LINE (mkIn b false false) = (f', take 255 l) /\
  if fits 255 l
  then match ls with [] => eofbit f' = true | _ => exists b', f' = mkIn b' false false /\ lines_of b' = ls end
  else exists r, f' = mkIn r false true.
Proof.
  intros E. destruct (scan_line b 255 l ls E) as (r & Hs & Hr). unfold getline. cbn [in_good left_in eofbit failbit negb andb].
  change (DEBUG_MAX_LINE - 1)%nat with 255%nat. rewrite Hs. destruct (fits 255 l).
  - destruct ls as [|l2 ls]; [subst r; by eexists|]. destruct Hr as (b' & -> & Hb). cbn. eexists. split; [done|]. by exists b'.
  - destruct Hr as (c & r' & -> & Hc). destruct (Ascii.eqb_spec c newline); [done|]. eexists. split; [done|]. by eexists.
Qed.

Section shell.
Context {C : Type} `{!ChubbyCalls C} (junk : bool).
Abbreviation Op := (M (Shell C)).
Implicit Types x : Shell C.

Lemma empty_line x : DispatchCommand junk [] x = Ret Go_on x.
Proof. done. Qed.

(** What a script of the lines [ls] does: a line that does not fit is a command
    cut at 255 characters, and the last one. *)
Fixpoint script_of (ls : list bytes) : Op going :=
  match ls with
  | [] => mret Go_on
  | l :: ls =>
      g ← DispatchCommand junk (take 255 l);
      unless_exited g (if fits 255 l then script_of ls else fun _ => Diverge)
  end.

(** A stream that has failed never ends. *)
Lemma script_stuck fuel r x : script_loop junk fuel (mkIn r false true) x = Diverge.
Proof. revert x. induction fuel as [|fuel IH]; intros x; [done|]. cbn [script_loop eofbit]. exact (IH x). Qed.

Lemma bind_ext {A B} (m : Op A) (k1 k2 : A -> Op B) x : (forall a x', k1 a x' = k2 a x') -> (m ≫= k1) x = (m ≫= k2) x.
Proof. intros H. unfold mbind, M_bind. by destruct (m x). Qed.

Lemma script_loop_lines ls b fuel x : lines_of b = ls -> (length ls <= fuel)%nat ->
  script_loop junk fuel (mkIn b false false) x = script_of ls x.
Proof.
  revert b fuel x. induction ls as [|l ls IH]; intros b fuel x E Hf; [by destruct (lines_of_cons b) as (? & ? & ?); congruence|].
  destruct fuel as [|fuel]; [cbn in Hf; lia|]. destruct (getline_line b l ls E) as (f' & Hg & Hr).
  cbn [script_loop eofbit script_of]. rewrite Hg. apply bind_ext. intros [|] x'; [|done]. cbn [unless_exited].
  destruct (fits 255 l).
  - destruct ls as [|l2 ls].
    + destruct fuel; cbn; by rewrite Hr.
    + destruct Hr as (b' & -> & Hb). apply IH; [done|cbn in *; lia].
  - destruct Hr as (r & ->). apply script_stuck.
Qed.

(** C40: scripts.  The lines of the file are run as commands in order, up to
    one that exits; the loop ends then or with the last line, after no more turns
    than there are lines.  At a line of more than 255 characters it does not
    end: the line is cut and run, and then the stream stays in error without
    reaching its end.  A file that cannot be opened is like such a line. *)
Theorem script_reads_lines b x :
  RunScript junk (Some b) x = script_of (lines_of b) x /\
  (forall more, script_loop junk (S (length b) + more) (open_in (Some b)) x = script_of (lines_of b) x) /\
  (forall fuel, script_loop junk fuel (open_in None) x = Diverge).
Proof.
  pose proof (lines_of_length b). split_and!.
  - by apply script_loop_lines.
  - intros more. apply script_loop_lines; [done|lia].
  - intros fuel. apply script_stuck.
Qed.

(** The prompt: the same, but it ends at a line that does not fit. *)
Fixpoint prompt_of (ls : list bytes) : Op going :=
  match ls with
  | [] => mret Go_on
  | l :: ls =>
      cout "> " ;;
      g ← DispatchCommand junk (take 255 l);
      unless_exited g (if fits 255 l then prompt_of ls else mret Go_on)
  end.

Lemma prompt_loop_lines ls b fuel x : lines_of b = ls -> (length ls <= fuel)%nat ->
  prompt_loop junk fuel (mkIn b false false) x = prompt_of ls x.
Proof.
  revert b fuel x. induction ls as [|l ls IH]; intros b fuel x E Hf; [by destruct (lines_of_cons b) as (? & ? & ?); congruence|].
  destruct fuel as [|fuel]; [cbn in Hf; lia|]. destruct (getline_line b l ls E) as (f' & Hg & Hr).
  cbn [prompt_loop in_good eofbit failbit negb andb prompt_of]. rewrite Hg. apply bind_ext. intros [] x1.
  apply bind_ext. intros [|] x'; [|done]. cbn [unless_exited].
  destruct (fits 255 l).
  - destruct ls as [|l2 ls].
    + destruct fuel; cbn; unfold in_good; by rewrite Hr.
    + destruct Hr as (b' & -> & Hb). apply IH; [done|cbn in *; lia].
  - destruct Hr as (r & ->). by destruct fuel.
Qed.

(** The prompt always ends, after the first line that does not fit. *)
Lemma prompt_reads_lines b x :
  Prompt junk (open_in (Some b)) x = (cout ("Client Shell" +:+ endl) ;; prompt_of (lines_of b)) x.
Proof.
  pose proof (lines_of_length b). apply bind_ext. intros [] x'. by apply prompt_loop_lines.
Qed.
End shell.

(** ** Commands *)

(** No blank and no null character. *)
Definition word (s : string) : Prop := Forall (fun c => c <> " "%char /\ c <> nul) (str_bytes s).

Lemma cut_blank_word l : Forall (fun c => c <> " "%char /\ c <> nul) l -> cut_blank l = (l, None).
Proof.
  induction 1 as [|c l [Hc _] Hl IH]; [done|]. cbn. rewrite IH. by destruct (Ascii.eqb_spec c " ").
Qed.
Lemma cut_blank_app l r : Forall (fun c => c <> " "%char /\ c <> nul) l -> cut_blank (l ++ " "%char :: r) = (l, Some r).
Proof.
  induction 1 as [|c l [Hc _] Hl IH]; [done|]. cbn. rewrite IH. by destruct (Ascii.eqb_spec c " ").
Qed.
Lemma c_array_clean l : Forall (fun c => c <> nul) l -> c_str l = l.
Proof. induction 1 as [|c l Hc Hl IH]; [done|]. cbn. rewrite IH. by destruct (Ascii.eqb_spec c nul). Qed.

Lemma concat_cons w w' ws : String.concat " " (w :: w' :: ws) = w +:+ " " +:+ String.concat " " (w' :: ws).
Proof. done. Qed.

Lemma split_args_words ws n : ws <> [] -> (length ws <= S n)%nat -> Forall word ws ->
  split_args n (str_bytes (String.concat " " ws)) = str_bytes <$> ws.
Proof.
  revert n. induction ws as [|w [|w' ws] IH]; intros n Hne Hl Hw; [done| |].
  - apply list.Forall_cons in Hw as [Hw _]. cbn [String.concat fmap list_fmap]. destruct n as [|n]; [done|].
    cbn [split_args]. by rewrite cut_blank_word.
  - apply list.Forall_cons in Hw as [Hw Hws]. destruct n as [|n]; [cbn in Hl; lia|].
    rewrite concat_cons, !str_bytes_app. cbn [split_args]. change (str_bytes " ") with [" "%char]. cbn [app].
    rewrite cut_blank_app by done. cbn [fmap list_fmap]. f_equal. apply IH; [done|cbn in *; lia|done].
Qed.

Lemma words_clean ws : Forall word ws -> Forall (fun c => c <> nul) (str_bytes (String.concat " " ws)).
Proof.
  assert (forall w, word w -> Forall (fun c => c <> nul) (str_bytes w)) as H1.
  { intros w Hw. eapply list.Forall_impl; [exact Hw|]. by intros c []. }
  induction ws as [|w [|w' ws] IH]; intros Hw; [constructor| |].
  - apply list.Forall_cons in Hw as [Hw _]. by apply H1.
  - apply list.Forall_cons in Hw as [Hw Hws]. rewrite concat_cons, !str_bytes_app. rewrite !Forall_app.
    split_and!; [by apply H1| |by apply IH]. by constructor.
Qed.

(** Up to five words come back as they were joined. *)
Lemma args_of_words ws : ws <> [] -> (length ws <= 5)%nat -> Forall word ws ->
  args_of (str_bytes (String.concat " " ws)) = ws.
Proof.
  intros Hne Hl Hw. unfold args_of. rewrite c_array_clean by by apply words_clean.
  change (DEBUG_MAX_ARGS - 1)%nat with 4%nat. rewrite split_args_words by done.
  rewrite <-list_fmap_compose. clear -ws. induction ws as [|w ws IH]; [done|]. cbn. f_equal; [apply bytes_str_bytes|apply IH].
Qed.

(** The words of the command for a call. *)
Definition words_of (o : lib_op) : option (list string) :=
  match o with
  | L_fileOpen f mode => Some ["fileOpen"; f; to_string mode]
  | L_fileClose i => Some ["fileClose"; to_string i]
  | L_fileDelete i => Some ["fileDelete"; to_string i]
  | L_getContentsAndStat i => Some ["get"; to_string i]
  | L_setContents i s => Some ["set"; to_string i; s]
  | L_acquire i => Some ["acquire"; to_string i]
  | L_tryAcquire i => Some ["tryAcquire"; to_string i]
  | L_release i => Some ["release"; to_string i]
  | L_increment n => Some ["increment"; to_string n]
  | L_registerCallback _ | L_deleteCallback _ => None
  end.

Definition in_int (n : Z) : Prop := 0 <= n < 2 ^ 31.
Definition writable (o : lib_op) : Prop :=
  match o with
  | L_fileOpen f mode => word f /\ in_int mode
  | L_setContents i s => word s /\ in_int i
  | L_fileClose i | L_fileDelete i | L_getContentsAndStat i | L_acquire i | L_tryAcquire i | L_release i | L_increment i => in_int i
  | L_registerCallback _ | L_deleteCallback _ => True
  end.

(** What is printed behind the call. *)
Definition answer (o : lib_op) (v : lib_val) : option string :=
  match o, v with
  | _, V_fd i => Some (to_string i)
  | _, V_int i => Some (to_string i)
  | _, V_contents (Some c) => Some (cas_content c)
  | _, V_contents None => Some "Failed"
  | L_setContents _ _, V_bool true => Some "Succeeded"
  | _, V_bool true => Some "Deleted"
  | _, V_bool false => Some "Failed"
  | _, V_unit => None
  end.

(** The commands that catch [ClientException]. *)
Definition catches (o : lib_op) : bool :=
  match o with L_fileOpen _ _ | L_fileClose _ | L_increment _ => false | _ => true end.

Section commands.
Context {C : Type} `{!ChubbyCalls C} (junk : bool).
Abbreviation Op := (M (Shell C)).

Definition shell_call (o : lib_op) : Op unit :=
  (if catches o then catch_client else id)
    (v ← with_client (lib_exec junk o);
     match answer o v with Some s => cout (s +:+ endl) | None => mret tt end).

Lemma digit_in_word c : is_digit c = true -> c <> " "%char /\ c <> nul.
Proof. intros Hc. by split; intros ->. Qed.

Lemma number_word n : in_int n -> word (to_string n).
Proof.
  intros Hn. unfold in_int in Hn. destruct (to_string_digits n) as [Hf _]; [unfold u64; lia|].
  eapply list.Forall_impl; [exact Hf|]. apply digit_in_word.
Qed.

Lemma int_arg_number n : in_int n -> int_arg (to_string n) = n.
Proof.
  intros Hn. unfold in_int, int_arg in *. rewrite strtol_to_string by lia. rewrite sint32_small by lia.
  apply wrap64_small. unfold u64. lia.
Qed.
Lemma stoi_arg_number n : in_int n -> @stoi_arg (Shell C) (to_string n) = mret n.
Proof.
  intros Hn. unfold in_int, stoi_arg, stoi in *. rewrite parse_to_string by lia. cbn.
  destruct (Z.leb_spec (- 2 ^ 31) n), (Z.ltb_spec n (2 ^ 31)); try lia. done.
Qed.

Lemma words_ok o ws : words_of o = Some ws -> writable o -> ws <> [] /\ (length ws <= 5)%nat /\ Forall word ws.
Proof.
  destruct o; cbn; intros [= <-] Hw; (split; [done|split; [cbn; lia|]]); repeat constructor; try done.
  all: try (by apply number_word; tauto). all: by destruct Hw.
Qed.

(** C33: a command.  The line made of the name of a command and its arguments,
    numbers in decimal and texts without blanks, makes the call of the library
    and prints its result; a [ClientException] is printed by the commands that
    catch it, every other exception is passed on. *)
Theorem shell_commands o ws x : words_of o = Some ws -> writable o ->
  DispatchCommand junk (str_bytes (String.concat " " ws)) x = (shell_call o ;; mret Go_on) x.
Proof.
  intros Ho Hw. destruct (words_ok o ws Ho Hw) as (H1 & H2 & H3). unfold DispatchCommand. rewrite args_of_words by done.
  assert (forall (m1 m2 : Op unit), (forall x, m1 x = m2 x) -> (m1 ;; mret Go_on) x = (m2 ;; mret Go_on) x) as Hgo
    by (intros m1 m2 E; unfold mbind, M_bind; by rewrite E).
  destruct o; cbn in Ho, Hw; try discriminate Ho; injection Ho as <-; cbn [head default String.eqb Ascii.eqb Bool.eqb];
    apply Hgo; intros y; unfold shell_call; cbn [catches];
    unfold Cmd_FileOpen, Cmd_FileClose, Cmd_FileDelete, Cmd_Get, Cmd_Set, Cmd_Acquire, Cmd_TryAcquire, Cmd_Release, Cmd_Increment;
    rewrite ?int_arg_number, ?stoi_arg_number by tauto; unfold catch_client, id, lib_exec, with_client, zoom, mbind, M_bind, mret, M_ret;
    cbn; match goal with |- context [match ?m (sh_lib y) with _ => _ end] => destruct (m (sh_lib y)) as [v l|e l| |] end; try done.
  all: by destruct v.
Qed.
End commands.

(** A number that does not fit into an [int] stands for another one. *)
Lemma numbers_are_cut : int_arg "4294967297" = 1 /\ int_arg "9223372036854775808" = 2 ^ 64 - 1 /\ int_arg "x" = 0.
Proof. by vm_compute. Qed.

(** ** Examples *)

Definition fresh_shell : Shell Z := mkShell (mkLib (Some 5) ∅ 1) "".

Lemma shell_commands_witness : exists x,
  DispatchCommand (ChubbyCalls0 := opening) false (str_bytes "fileOpen /a 3") fresh_shell = Ret Go_on x /\ sh_out x = "1" +:+ endl.
Proof.
  pose proof (shell_commands (ChubbyCalls0 := opening) false (L_fileOpen "/a" 3) ["fileOpen"; "/a"; "3"] fresh_shell) as H.
  eexists. split.
  - etransitivity; [apply (H eq_refl); split; [by repeat constructor|done]|vm_compute; reflexivity].
  - vm_compute. reflexivity.
Defined.

(** A script that opens, echoes, and exits before its last line. *)
Lemma script_sample : exists x,
  RunScript (ChubbyCalls0 := opening) false
    (Some (str_bytes ("fileOpen /a 3" +:+ endl +:+ "echo a  b" +:+ endl +:+ "exit" +:+ endl +:+ "echo c"))) fresh_shell = Ret Exited x /\ sh_out x = "1" +:+ endl +:+ "a  b " +:+ endl.
Proof. eexists. split; vm_compute; reflexivity. Qed.
