(* ===== verification/BarrierSpec.v ===== *)
(** * A barrier with a counter and no lock

    The abstract machine behind [apps/double_barrier.cc]: members read a shared
    counter, write it back increased, and the one that writes the number of
    members clears it and gives every member a token, which lets it pass.  No
    lock protects the counter.  Still no member passes a round before all have
    written in it ([reachable_together]). *)

From S2P Require Import Prelude.

(** ** The machine *)

(** Where a member is in its program; [In...] is inside a call that has taken
    effect. *)
Inductive point :=
| Before (n : nat)      (* the steps before the round *)
| AtAcquire | InAcquire
| AtGet | InGet (v : Z) (* the number read *)
| AtSet (w : Z)         (* the number to write *)
| InSet (w : Z)
| AtClear | InClear
| AtTouch | InTouch
| AtRegion | AtRelease | InRelease
| AtWait
| Over.

Record member := Member {
  round : nat;          (* the rounds passed *)
  at_point : point;
  tokens : nat;
}.

Definition goes_to (p : point) (m : member) : member := Member (round m) p (tokens m).
Definition give_token (m : member) : member := Member (round m) (at_point m) (S (tokens m)).

Section machine.
Context (num : Z).

(** The steps that change neither the counter nor the tokens, the counter being
    [c]. *)
Inductive quiet_move (c : Z) : point -> point -> Prop :=
| q_before n : quiet_move c (Before (S n)) (Before n)
| q_begin : quiet_move c (Before 0) AtAcquire
| q_acquire : quiet_move c AtAcquire InAcquire
| q_acquired : quiet_move c InAcquire AtGet
| q_get : quiet_move c AtGet (InGet c)
| q_got v : quiet_move c (InGet v) (AtSet (v + 1))
| q_set w : w <> num -> quiet_move c (InSet w) AtRelease
| q_last : quiet_move c (InSet num) AtClear
| q_cleared : quiet_move c InClear AtTouch
| q_touched : quiet_move c InTouch AtRegion
| q_region : quiet_move c AtRegion AtRelease
| q_release : quiet_move c AtRelease InRelease
| q_released : quiet_move c InRelease AtWait.

(** Where a member that has passed a round goes on. *)
Definition fresh (p : point) : Prop := match p with Before _ | Over => True | _ => False end.

Inductive moves : Z * list member -> Z * list member -> Prop :=
| m_quiet c ms i m p : ms !! i = Some m -> quiet_move c (at_point m) p -> moves (c, ms) (c, <[i := goes_to p m]> ms)
| m_write c ms i m w : ms !! i = Some m -> at_point m = AtSet w -> moves (c, ms) (w, <[i := goes_to (InSet w) m]> ms)
| m_clear c ms i m : ms !! i = Some m -> at_point m = AtClear -> moves (c, ms) (0, <[i := goes_to InClear m]> ms)
| m_touch c ms i m : ms !! i = Some m -> at_point m = AtTouch ->
    moves (c, ms) (c, give_token <$> <[i := goes_to InTouch m]> ms)
| m_pass c ms i m k p : ms !! i = Some m -> at_point m = AtWait -> tokens m = S k -> fresh p ->
    moves (c, ms) (c, <[i := Member (S (round m)) p k]> ms).

(** ** The invariant *)

Definition written (p : point) : bool :=
  match p with
  | InSet _ | AtClear | InClear | AtTouch | InTouch | AtRegion | AtRelease | InRelease | AtWait => true
  | _ => false
  end.
(** Points of the member that wrote the last number, up to the tokens. *)
Definition closing (p : point) : bool :=
  match p with InSet w => w =? num | AtClear | InClear | AtTouch => true | _ => false end.
(** Points that only a member of a round whose tokens are out can be at. *)
Definition touched (p : point) : bool := match p with InTouch | AtRegion => true | _ => false end.
Definition cleared (p : point) : bool := match p with InClear | AtTouch => true | _ => false end.

Definition writer (t : nat) (m : member) : bool := bool_decide (round m = t) && written (at_point m).

Fixpoint count {A} (f : A -> bool) (l : list A) : nat :=
  match l with [] => 0 | x :: l => (if f x then 1 else 0) + count f l end.

Lemma count_insert {A} (f : A -> bool) l i x y : l !! i = Some x ->
  (count f (<[i := y]> l) + (if f x then 1 else 0) = count f l + (if f y then 1 else 0))%nat.
Proof.
  revert i. induction l as [|z l IH]; intros [|i] Hi; try done; cbn in *.
  - injection Hi as ->. destruct (f x), (f y); lia.
  - specialize (IH i Hi). rewrite <-!Nat.add_assoc. by f_equal.
Qed.
Lemma count_length {A} (f : A -> bool) l : (count f l <= length l)%nat.
Proof. induction l as [|z l IH]; cbn; [done|]. destruct (f z); lia. Qed.
Lemma count_full {A} (f : A -> bool) l : (length l <= count f l)%nat -> forall i x, l !! i = Some x -> f x = true.
Proof.
  induction l as [|z l IH]; intros Hl i x Hi; [done|]. cbn in *. pose proof (count_length f l).
  destruct (f z) eqn:E; [|lia]. destruct i as [|i]; [by injection Hi as <-|]. by apply (IH ltac:(lia) i).
Qed.
Lemma count_none {A} (f : A -> bool) l : (forall i x, l !! i = Some x -> f x = false) -> count f l = 0%nat.
Proof.
  induction l as [|z l IH]; intros H; [done|]. cbn. rewrite (H 0%nat z eq_refl). apply IH. intros i. apply (H (S i)).
Qed.

(** The number of members that have written in round [t]. *)
Definition writers (t : nat) (ms : list member) : Z := Z.of_nat (count (writer t) ms).

(** A member when [t] rounds have ended, [w] members have written since and the
    counter is [c]. *)
Record member_ok (t : nat) (w c : Z) (m : member) : Prop := {
  mo_round : (round m <= t <= round m + 1)%nat;
  mo_tokens : (tokens m + round m = t)%nat;
  mo_behind : (round m < t)%nat -> written (at_point m) = true /\ closing (at_point m) = false;
  mo_untouched : round m = t -> touched (at_point m) = false;
  mo_read v : at_point m = InGet v \/ at_point m = AtSet (v + 1) -> 0 <= v <= w;
  mo_closing : round m = t -> closing (at_point m) = true -> num <= w;
  mo_cleared : round m = t -> cleared (at_point m) = true -> c = 0;
}.

Record barrier_inv (t : nat) (s : Z * list member) : Prop := {
  bi_size : Z.of_nat (length s.2) <= num;
  bi_count : 0 <= s.1 <= writers t s.2;
  bi_member i m : s.2 !! i = Some m -> member_ok t (writers t s.2) s.1 m;
  bi_one i j mi mj : s.2 !! i = Some mi -> s.2 !! j = Some mj ->
    closing (at_point mi) = true -> closing (at_point mj) = true -> i = j;
}.

Lemma writers_insert t ms i m m' : ms !! i = Some m ->
  writers t (<[i := m']> ms) + (if writer t m then 1 else 0) = writers t ms + (if writer t m' then 1 else 0).
Proof. intros Hi. unfold writers. pose proof (count_insert (writer t) ms i m m' Hi). destruct (writer t m), (writer t m'); lia. Qed.

Lemma writer_true t m : writer t m = true <-> round m = t /\ written (at_point m) = true.
Proof. unfold writer. by rewrite andb_true_iff, bool_decide_eq_true. Qed.

(** A member that has not written leaves room for it. *)
Lemma writers_below t ms i m : ms !! i = Some m -> writer t m = false -> writers t ms + 1 <= Z.of_nat (length ms).
Proof.
  intros Hi Hw. assert (~ (length ms <= count (writer t) ms)%nat) as Hn.
  { intros Hl. pose proof (count_full _ _ Hl i m Hi). congruence. }
  unfold writers. lia.
Qed.

(** Replacing a member at index [i]: what has to be shown. *)
Lemma inv_replace t c c' ms i m m' : barrier_inv t (c, ms) -> ms !! i = Some m ->
  0 <= c' <= writers t (<[i := m']> ms) -> writers t ms <= writers t (<[i := m']> ms) ->
  member_ok t (writers t (<[i := m']> ms)) c' m' ->
  (closing (at_point m') = true -> forall j mj, j <> i -> ms !! j = Some mj -> closing (at_point mj) = false) ->
  (c' = c \/ forall j mj, j <> i -> ms !! j = Some mj -> closing (at_point mj) = false) ->
  barrier_inv t (c', <[i := m']> ms).
Proof.
  intros [Hsz Hc Hm Ho] Hi Hc' Hle Hok Hone Hcc. cbn in *. split; cbn.
  - by rewrite length_insert.
  - done.
  - intros j mj Hj. destruct (decide (j = i)) as [->|Hne].
    + rewrite list_lookup_insert_eq in Hj by by eapply lookup_lt_Some. by injection Hj as <-.
    + rewrite list_lookup_insert_ne in Hj by done. destruct (Hm j mj Hj) as [O1 O2 O3 O4 O5 O6 O7].
      split; [done..| | |].
      * intros v Hv. specialize (O5 v Hv). lia.
      * intros H1 H2. specialize (O6 H1 H2). lia.
      * intros H1 H2. destruct Hcc as [->|Hcc]; [by apply O7|]. specialize (Hcc j mj Hne Hj).
        by destruct (at_point mj).
  - intros j k mj mk Hj Hk Cj Ck. destruct (decide (j = i)) as [->|Hji], (decide (k = i)) as [->|Hki]; [done|..].
    + rewrite list_lookup_insert_eq in Hj by by eapply lookup_lt_Some. injection Hj as <-.
      rewrite list_lookup_insert_ne in Hk by done. rewrite (Hone Cj k mk Hki Hk) in Ck. done.
    + rewrite list_lookup_insert_eq in Hk by by eapply lookup_lt_Some. injection Hk as <-.
      rewrite list_lookup_insert_ne in Hj by done. rewrite (Hone Ck j mj Hji Hj) in Cj. done.
    + rewrite list_lookup_insert_ne in Hj, Hk by done. by apply (Ho j k mj mk).
Qed.

(** A member closing means that all have written. *)
Lemma closing_all t c ms i m : barrier_inv t (c, ms) -> ms !! i = Some m -> closing (at_point m) = true ->
  round m = t /\ forall j mj, ms !! j = Some mj -> round mj = t /\ written (at_point mj) = true.
Proof.
  intros [Hsz Hc Hm Ho] Hi Hcl. cbn in *. destruct (Hm i m Hi) as [O1 O2 O3 O4 O5 O6 O7].
  assert (round m = t) as Hr.
  { destruct (decide (round m = t)) as [|Hne]; [done|]. destruct (O3 ltac:(lia)) as [_ E]. congruence. }
  split; [done|]. intros j mj Hj. apply writer_true. apply (count_full (writer t) ms) with j; [|done].
  specialize (O6 Hr Hcl). unfold writers in O6. lia.
Qed.

Lemma quiet_facts c p p' : quiet_move c p p' -> written p' = written p /\ (closing p' = true -> closing p = true) /\
  (touched p' = true -> touched p = true) /\ (cleared p' = true -> cleared p = true).
Proof. intros [n| | | | |v|w Hw| | | | | |]; cbn; rewrite ?Z.eqb_refl; by repeat split. Qed.

(** The others are not closing when one is. *)
Lemma others_open t s i m : barrier_inv t s -> s.2 !! i = Some m -> closing (at_point m) = true ->
  forall j mj, j <> i -> s.2 !! j = Some mj -> closing (at_point mj) = false.
Proof.
  intros [_ _ _ Ho] Hi Hc j mj Hne Hj. destruct (closing (at_point mj)) eqn:E; [|done]. by destruct (Hne (Ho j i mj m Hj Hi E Hc)).
Qed.

Lemma quiet_inv t c ms i m p : barrier_inv t (c, ms) -> ms !! i = Some m -> quiet_move c (at_point m) p ->
  barrier_inv t (c, <[i := goes_to p m]> ms).
Proof.
  intros Hinv Hi Hq. destruct (quiet_facts c _ _ Hq) as (Ew & Ec & Et & El).
  pose proof (bi_count _ _ Hinv) as Hc. destruct (bi_member _ _ Hinv i m Hi) as [O1 O2 O3 O4 O5 O6 O7]. cbn in *.
  assert (writers t (<[i := goes_to p m]> ms) = writers t ms) as Ews.
  { pose proof (writers_insert t ms i m (goes_to p m) Hi) as H.
    assert (writer t (goes_to p m) = writer t m) as E by (unfold writer; cbn; by rewrite Ew). rewrite E in H. lia. }
  apply (inv_replace t c c ms i m); [done|done|lia|lia| | |by left]; rewrite ?Ews.
  - split; cbn; [done|done| | | | |].
    + intros Hr. destruct (O3 Hr) as [H1 H2]. split; [by rewrite Ew|]. destruct (closing p) eqn:E; [|done]. rewrite Ec in H2; done.
    + intros Hr. specialize (O4 Hr). destruct (touched p) eqn:E; [|done]. rewrite Et in O4; done.
    + intros v Hv. inversion Hq; subst; destruct Hv as [Hv|Hv]; try done.
      * injection Hv as <-. lia.
      * injection Hv as Hv. assert (v0 = v) as -> by lia. apply O5. by left.
    + intros Hr Hcl. by apply O6; [|apply Ec].
    + intros Hr Hcl. by apply O7; [|apply El].
  - cbn. intros Hcl. by apply (others_open t (c, ms) i m Hinv Hi), Ec.
Qed.

(** A member that writes the number it has read plus one. *)
Lemma write_inv t c ms i m w : barrier_inv t (c, ms) -> ms !! i = Some m -> at_point m = AtSet w ->
  barrier_inv t (w, <[i := goes_to (InSet w) m]> ms).
Proof.
  intros Hinv Hi Hp. pose proof (bi_count _ _ Hinv) as Hc. pose proof (bi_size _ _ Hinv) as Hsz. cbn in Hc, Hsz.
  destruct (bi_member _ _ Hinv i m Hi) as [O1 O2 O3 O4 O5 O6 O7]. cbn in *. rewrite Hp in *. cbn in *.
  assert (round m = t) as Hr.
  { destruct (decide (round m = t)); [done|]. by destruct (O3 ltac:(lia)). }
  pose proof (O5 (w - 1) ltac:(right; f_equal; lia)) as Hw.
  assert (writer t m = false) as Wm by (unfold writer; rewrite Hp; by rewrite andb_false_r).
  assert (writer t (goes_to (InSet w) m) = true) as Wm' by by apply writer_true.
  pose proof (writers_insert t ms i m (goes_to (InSet w) m) Hi) as Hws. rewrite Wm, Wm' in Hws.
  pose proof (writers_below t ms i m Hi Wm) as Hroom.
  assert (forall j mj, j <> i -> ms !! j = Some mj -> closing (at_point mj) = false) as Hopen.
  { intros j mj _ Hj. destruct (closing (at_point mj)) eqn:E; [|done].
    destruct (closing_all t c ms j mj Hinv Hj E) as [_ Hall]. destruct (Hall i m Hi) as [_ H]. by rewrite Hp in H. }
  apply (inv_replace t c w ms i m); [done|done|lia|lia| |done|by right].
  split; cbn; [done|done|lia|done| | |done].
  - intros v [?|?]; done.
  - intros _ Hcl%Z.eqb_eq. lia.
Qed.

Lemma clear_inv t c ms i m : barrier_inv t (c, ms) -> ms !! i = Some m -> at_point m = AtClear ->
  barrier_inv t (0, <[i := goes_to InClear m]> ms).
Proof.
  intros Hinv Hi Hp. pose proof (bi_count _ _ Hinv) as Hc. cbn in Hc.
  assert (closing (at_point m) = true) as Hcl by by rewrite Hp.
  destruct (closing_all t c ms i m Hinv Hi Hcl) as [Hr _].
  destruct (bi_member _ _ Hinv i m Hi) as [O1 O2 O3 O4 O5 O6 O7]. cbn in *. rewrite Hp in *. cbn in *.
  assert (writers t (<[i := goes_to InClear m]> ms) = writers t ms) as Ews.
  { pose proof (writers_insert t ms i m (goes_to InClear m) Hi) as H.
    assert (writer t (goes_to InClear m) = writer t m) as E by (unfold writer; cbn; by rewrite Hp). rewrite E in H. lia. }
  assert (forall j mj, j <> i -> ms !! j = Some mj -> closing (at_point mj) = false) as Hopen
    by (apply (others_open t (c, ms) i m Hinv Hi); by rewrite Hp).
  apply (inv_replace t c 0 ms i m); [done|done|lia|lia| |done|by right]. rewrite Ews.
  split; cbn; [done|done|lia|done| |auto|done]. intros v [?|?]; done.
Qed.

(** The tokens go out: a new round begins. *)
Lemma touch_inv t c ms i m : barrier_inv t (c, ms) -> ms !! i = Some m -> at_point m = AtTouch ->
  barrier_inv (S t) (c, give_token <$> <[i := goes_to InTouch m]> ms).
Proof.
  intros Hinv Hi Hp. pose proof Hinv as [Hsz Hc Hm Ho]. cbn in *.
  assert (closing (at_point m) = true) as Hcl by by rewrite Hp.
  destruct (closing_all t c ms i m Hinv Hi Hcl) as [Hr Hall].
  pose proof (others_open t (c, ms) i m Hinv Hi Hcl) as Hopen. cbn in Hopen.
  assert (c = 0) as -> by (apply (mo_cleared _ _ _ _ (Hm i m Hi)); [done|by rewrite Hp]).
  set (ms' := give_token <$> <[i := goes_to InTouch m]> ms).
  assert (forall j mj', ms' !! j = Some mj' -> exists mj, ms !! j = Some mj /\ round mj' = t /\ tokens mj' = 1%nat /\
    written (at_point mj') = true /\ closing (at_point mj') = false /\
    (at_point mj' = at_point mj \/ at_point mj' = InTouch)) as Hnew.
  { intros j mj' Hj. unfold ms' in Hj. rewrite list_lookup_fmap in Hj. destruct (decide (j = i)) as [->|Hne].
    - rewrite list_lookup_insert_eq in Hj by by eapply lookup_lt_Some. injection Hj as <-. cbn. exists m.
      pose proof (mo_tokens _ _ _ _ (Hm i m Hi)). split_and!; [done|done|lia|done|done|by right].
    - rewrite list_lookup_insert_ne in Hj by done. destruct (ms !! j) as [mj|] eqn:E; [|done]. injection Hj as <-. cbn.
      exists mj. destruct (Hall j mj E) as [Hrj Hwj]. pose proof (mo_tokens _ _ _ _ (Hm j mj E)).
      split_and!; [done|done|lia|done|by apply (Hopen j)|by left]. }
  assert (writers (S t) ms' = 0) as Hws.
  { unfold writers. rewrite count_none; [done|]. intros j mj' Hj. destruct (Hnew j mj' Hj) as (_ & _ & Hrj & _).
    unfold writer. rewrite bool_decide_false by lia. done. }
  split; cbn; fold ms'.
  - unfold ms'. by rewrite length_fmap, length_insert.
  - lia.
  - intros j mj' Hj. destruct (Hnew j mj' Hj) as (mj & _ & Hrj & Htj & Hwj & Hcj & _).
    split; [lia|lia|by intros _|lia| |lia|lia]. intros v [E|E]; by rewrite E in Hwj.
  - intros j k mj mk Hj _ Cj _. destruct (Hnew j mj Hj) as (_ & _ & _ & _ & _ & Hcj & _). congruence.
Qed.

Lemma pass_inv t c ms i m k p : barrier_inv t (c, ms) -> ms !! i = Some m -> at_point m = AtWait -> tokens m = S k ->
  fresh p -> barrier_inv t (c, <[i := Member (S (round m)) p k]> ms).
Proof.
  intros Hinv Hi Hp Hk Hf. pose proof (bi_count _ _ Hinv) as Hc. cbn in Hc.
  destruct (bi_member _ _ Hinv i m Hi) as [O1 O2 O3 O4 O5 O6 O7].
  assert (round m + 1 = t)%nat as Hr by lia.
  assert (written p = false /\ closing p = false /\ touched p = false /\ cleared p = false) as (F1 & F2 & F3 & F4)
    by by destruct p.
  pose proof (writers_insert t ms i m (Member (S (round m)) p k) Hi) as Hws.
  assert (writer t m = false) as W1 by (unfold writer; by rewrite bool_decide_false by lia).
  assert (writer t (Member (S (round m)) p k) = false) as W2 by (unfold writer; cbn; by rewrite F1, andb_false_r).
  rewrite W1, W2 in Hws.
  apply (inv_replace t c c ms i m); [done|done|lia|lia| |by cbn; rewrite F2|by left].
  split; cbn; [lia|lia|lia|by intros _| |by rewrite F2|by rewrite F4].
  intros v [E|E]; by subst p.
Qed.

Lemma moves_inv t s s' : barrier_inv t s -> moves s s' -> exists t', barrier_inv t' s'.
Proof.
  intros Hinv Hm. destruct Hm as [c ms i m p Hi Hq|c ms i m w Hi Hp|c ms i m Hi Hp|c ms i m Hi Hp|c ms i m k p Hi Hp Hk Hf].
  - exists t. by apply quiet_inv.
  - exists t. by apply (write_inv t c).
  - exists t. by apply (clear_inv t c).
  - exists (S t). by apply touch_inv.
  - exists t. by apply pass_inv.
Qed.

(** No member is ahead of another that has not come to the round. *)
Lemma reachable_together t s i j mi mj : barrier_inv t s -> s.2 !! i = Some mi -> s.2 !! j = Some mj ->
  (round mj < round mi)%nat -> (round mi = S (round mj)) /\ written (at_point mj) = true.
Proof.
  intros Hinv Hi Hj Hlt. pose proof (mo_round _ _ _ _ (bi_member _ _ Hinv i mi Hi)).
  pose proof (mo_round _ _ _ _ (bi_member _ _ Hinv j mj Hj)). split; [lia|].
  apply (mo_behind _ _ _ _ (bi_member _ _ Hinv j mj Hj)). lia.
Qed.

(** The members before the first round. *)
Definition start (p : point) : member := Member 0 p 0.

Lemma start_inv (ps : list point) : Z.of_nat (length ps) <= num -> Forall fresh ps -> barrier_inv 0 (0, start <$> ps).
Proof.
  intros Hl Hf. assert (forall i m, (start <$> ps) !! i = Some m -> exists p, m = start p /\ fresh p) as Hm.
  { intros i m Hi. rewrite list_lookup_fmap in Hi. destruct (ps !! i) as [p|] eqn:E; [|done]. injection Hi as <-.
    exists p. split; [done|]. by eapply (proj1 (Forall_lookup _ _) Hf). }
  assert (writers 0 (start <$> ps) = 0) as Hw.
  { unfold writers. rewrite count_none; [done|]. intros i m Hi. destruct (Hm i m Hi) as (p & -> & Hp). by destruct p. }
  split; cbn.
  - by rewrite length_fmap.
  - lia.
  - intros i m Hi. destruct (Hm i m Hi) as (p & -> & Hp). split; cbn; [lia|lia|lia|by destruct p| |by destruct p|by destruct p].
    intros v [E|E]; by subst p.
  - intros i j mi mj Hi _ Ci _. destruct (Hm i mi Hi) as (p & -> & Hp). by destruct p.
Qed.
End machine.
