(* ===== verification/Programs.v ===== *)
(** * Programs that use the client library

    The processes of [apps/]: each runs its [main] and the thread that calls its
    callbacks ([chubby_client::evcb_loop]) over one connection, and all of them
    share the server of [ServerLogic].  A run is an interleaving of their
    steps.  The library is the one of [ClientLib]; the connection is reduced to
    its two queues, which [EndToEnd] and [ClientProps] justify: a request is
    handled by the server when it is sent, its reply and the events it causes
    are queued at their clients and taken from there at any later time. *)

From S2P Require Import Prelude ServerTypes Interfaces ClientLib DbApi ServerLogic LogicInv LogicTypes ChubbyApp.

(** ** A library call that is suspended *)

(** The connection that the library sees during a call: the reply has not
    arrived, the request the library made, or the reply. *)
Inductive conn :=
| NoAnswer
| Asked (p : api_proc) (a : api_arg p)
| Answered (r : reply_val).

(** The result of a procedure in a reply; a reply of another type does not
    decode. *)
Definition res_of (p : api_proc) (r : reply_val) : option (api_res p) :=
  match p, r with
  | P_fileOpen, RepFd v => Some v
  | P_getContentsAndStat, RepContents v => Some v
  | P_increment, RepInt v | P_decrement, RepInt v => Some v
  | P_fileClose, RepBool v | P_fileDelete, RepBool v | P_setContents, RepBool v | P_acquire, RepBool v
  | P_tryAcquire, RepBool v | P_release, RepBool v | P_startSession, RepBool v | P_fileReopen, RepBool v => Some v
  | _, _ => None
  end.

Lemma res_of_reply p v : res_of p (reply_of p v) = Some v.
Proof. by destruct p. Qed.

(** A call without an answer leaves the library by an exception that nobody
    sees: the call is made again when the reply is there. *)
#[export] Instance suspended : ChubbyCalls conn := {|
  cc_call p a c :=
    match c with
    | Answered r => match res_of p r with Some v => Ret v NoAnswer | None => Throw exn_xdr NoAnswer end
    | _ => Throw exn_xdr (Asked p a)
    end;
  cc_register _ := mret tt;
  cc_delete_callback _ := mret tt;
|}.

(** The calls that leave the handles of the library alone. *)
Definition no_handle_op (o : lib_op) : bool :=
  match o with L_fileOpen _ _ | L_fileClose _ => false | _ => true end.

Lemma lib_exec_handles junk o l v l' : no_handle_op o = true -> lib_exec junk o l = Ret v l' -> fdList l' = fdList l.
Proof.
  intros Ho Hr. assert (no_handles (lib_exec junk o)) as Hn by (destruct o; try done; cbn [lib_exec]; solve_no_handles).
  specialize (Hn l). rewrite Hr in Hn. apply Hn.
Qed.

(** The request of a call on a known handle. *)
Definition request_of (o : lib_op) (h : FileHandler) : option (request * Z) :=
  match o with
  | L_fileClose i => Some (Q_fileClose h, i)
  | L_getContentsAndStat i => Some (Q_getContentsAndStat h, i)
  | L_setContents i s => Some (Q_setContents (mkArgSetContents h s), i)
  | L_acquire i => Some (Q_acquire h, i)
  | L_tryAcquire i => Some (Q_tryAcquire h, i)
  | L_release i => Some (Q_release h, i)
  | _ => None
  end.

Lemma lib_exec_asks junk o (l : Lib conn) h q i : request_of o h = Some (q, i) -> fdList l !! i = Some h ->
  exists p a l', lib_exec junk o (mkLib (Some NoAnswer) (fdList l) (nextFdId l)) = Throw exn_xdr l' /\
    client l' = Some (Asked p a) /\ api_request p a = q.
Proof.
  intros Ho Hh. destruct o as [| |j|j|j c|j|j|j| | |]; try done; injection Ho as <- <-;
    unfold lib_exec, ClientLib.fileClose, ClientLib.getContentsAndStat, ClientLib.setContents, ClientLib.acquire,
      ClientLib.tryAcquire, ClientLib.release, ClientLib.find, ClientLib.call, on_client, set_fdList, gets, modify,
      mbind, M_bind, mret, M_ret; cbn; rewrite Hh; cbn.
  - by exists P_fileClose, h; eexists.
  - by exists P_getContentsAndStat, h; eexists.
  - by exists P_setContents, (mkArgSetContents h c); eexists.
  - by exists P_acquire, h; eexists.
  - by exists P_tryAcquire, h; eexists.
  - by exists P_release, h; eexists.
Qed.

(** ** Threads *)

(** The code of a thread over the variables [L] of its process, up to its next
    action.  Critical sections of the process's mutexes are single steps. *)
Inductive prog (L : Type) :=
| Stop                                                    (* the thread returns *)
| Exit                                                    (* exit(1), or an exception that nobody catches *)
| Call (o : lib_op) (k : lib_val -> prog L)
| Step (ready : L -> bool) (f : L -> L) (k : L -> prog L) (* waits for [ready], then runs [f] *)
| Info (msg : string) (k : prog L)                        (* info(msg) *)
| Input (k : prog L).                                     (* cin >> c *)
Arguments Stop {L}.
Arguments Exit {L}.
Arguments Call {L}.
Arguments Step {L}.
Arguments Info {L}.
Arguments Input {L}.

(** [checkErr] of [apps/common.h] *)
Definition checkErr {L} (ret : bool) (k : prog L) : prog L := if ret then k else Exit.

(** What a call returned, as a truth value and as the number of a handle. *)
Definition val_bool (r : lib_val) : bool := match r with V_bool b => b | _ => false end.
Definition val_fd (r : lib_val) : Z := match r with V_fd i => i | _ => FAIL end.

Inductive thread_id := T_main | T_callback.

(** A process: the code left of its threads ([Stop] when no callback runs), its
    variables, the library, and of the connection the session, the next
    transaction number, the call that holds [rpclk_], and the queues. *)
Record Proc (L : Type) := mkProc {
  p_main : prog L;
  p_callback : prog L;
  p_vars : L;
  p_lib : Lib conn;
  p_session : Z;
  p_xid : Z;
  p_pending : option (thread_id * Z);
  p_replies : list (Z * reply_val);
  p_events : list EventContent;
  p_log : list string;
}.
Arguments mkProc {L}.
Arguments p_main {L}.
Arguments p_callback {L}.
Arguments p_vars {L}.
Arguments p_lib {L}.
Arguments p_session {L}.
Arguments p_xid {L}.
Arguments p_pending {L}.
Arguments p_replies {L}.
Arguments p_events {L}.
Arguments p_log {L}.

Section proc.
Context {L : Type}.
Implicit Types P : Proc L.

Definition thread P (t : thread_id) : prog L := match t with T_main => p_main P | T_callback => p_callback P end.
(** The thread goes on with [k], the library in the state [l]. *)
Definition continue (t : thread_id) (k : prog L) (l : Lib conn) P : Proc L :=
  mkProc (match t with T_main => k | _ => p_main P end) (match t with T_callback => k | _ => p_callback P end)
    (p_vars P) l (p_session P) (p_xid P) (p_pending P) (p_replies P) (p_events P) (p_log P).
Definition set_vars (v : L) P : Proc L :=
  mkProc (p_main P) (p_callback P) v (p_lib P) (p_session P) (p_xid P) (p_pending P) (p_replies P) (p_events P) (p_log P).
Definition set_pending x (c : option (thread_id * Z)) P : Proc L :=
  mkProc (p_main P) (p_callback P) (p_vars P) (p_lib P) (p_session P) x c (p_replies P) (p_events P) (p_log P).
Definition set_queues rs es P : Proc L :=
  mkProc (p_main P) (p_callback P) (p_vars P) (p_lib P) (p_session P) (p_xid P) (p_pending P) rs es (p_log P).
Definition print (msg : string) P : Proc L :=
  mkProc (p_main P) (p_callback P) (p_vars P) (p_lib P) (p_session P) (p_xid P) (p_pending P) (p_replies P) (p_events P)
    (p_log P ++ [msg]).

(** The process ends when [main] does, and when a thread exits. *)
Definition alive P : bool :=
  match p_main P, p_callback P with
  | Stop, _ | Exit, _ | _, Exit => false
  | _, _ => true
  end.

Definition set_client (c : conn) (l : Lib conn) : Lib conn := mkLib (Some c) (fdList l) (nextFdId l).

(** What the server sends to the session of [P]. *)
Definition deliver_one (o : output) P : Proc L :=
  match o with
  | OReply se x r => if se =? p_session P then set_queues (p_replies P ++ [(x, r)]) (p_events P) P else P
  | OEvent se evc => if se =? p_session P then set_queues (p_replies P) (p_events P ++ [evc]) P else P
  end.
Definition deliver_to (os : list output) P : Proc L := foldl (fun P o => deliver_one o P) P os.

Definition replies_for (se : Z) (os : list output) : list (Z * reply_val) :=
  omap (fun o => match o with OReply se' x r => if se' =? se then Some (x, r) else None | _ => None end) os.
Definition events_for (se : Z) (os : list output) : list EventContent :=
  omap (fun o => match o with OEvent se' e => if se' =? se then Some e else None | _ => None end) os.

Lemma deliver_to_eq os P : deliver_to os P =
  set_queues (p_replies P ++ replies_for (p_session P) os) (p_events P ++ events_for (p_session P) os) P.
Proof.
  revert P. induction os as [|o os IH]; intros P.
  { cbn. rewrite !app_nil_r. by destruct P. }
  cbn. unfold deliver_to in IH. rewrite IH. destruct o as [se x r|se e]; cbn; destruct (se =? p_session P); cbn;
    unfold set_queues; cbn; by rewrite <-?app_assoc.
Qed.

Lemma elem_of_replies_for se x r os : (x, r) ∈ replies_for se os <-> OReply se x r ∈ os.
Proof.
  unfold replies_for. rewrite list_elem_of_omap. split.
  - intros (o & Ho & E). destruct o as [se' x' r'|]; [|done]. destruct (Z.eqb_spec se' se); [|done]. by simplify_eq.
  - intros Ho. exists (OReply se x r). by rewrite Z.eqb_refl.
Qed.

(** A process whose thread has sent a request. *)
Definition ask (t : thread_id) P : Proc L := set_pending (wrap32 (p_xid P + 1)) (Some (t, p_xid P)) P.

(** A step of a thread that needs neither the server nor the connection. *)
Definition local_step (t : thread_id) P : option (Proc L) :=
  match thread P t with
  | Step ready f k =>
      if ready (p_vars P) then Some (set_vars (f (p_vars P)) (continue t (k (p_vars P)) (p_lib P) P)) else None
  | Info msg k => Some (print msg (continue t k (p_lib P) P))
  | Input k => Some (continue t k (p_lib P) P)
  | _ => None
  end.

(** The reply at the head of the queue ends the call that waits for it; a reply
    to another call is an exception, like a reply the library throws at. *)
Definition take_reply (junk : bool) P : option (Proc L) :=
  match p_pending P, p_replies P with
  | Some (t, x), (x', r) :: rest =>
      match thread P t with
      | Call o k =>
          let P1 := set_queues rest (p_events P) (set_pending (p_xid P) None P) in
          Some (match (if x' =? x then lib_exec junk o (set_client (Answered r) (p_lib P)) else Abort) with
                | Ret v l => continue t (k v) l P1
                | _ => continue t Exit (p_lib P) P1
                end)
      | _ => None
      end
  | _, _ => None
  end.
End proc.

(** ** The server and its clients *)

Record World (D L : Type) := mkWorld {
  w_server : Api D;
  w_procs : list (Proc L);
}.
Arguments mkWorld {D L}.
Arguments w_server {D L}.
Arguments w_procs {D L}.

Inductive action :=
| Act_call (i : nat) (t : thread_id)    (* a thread begins a library call *)
| Act_reply (i : nat)                   (* a call returns *)
| Act_event (i : nat)                   (* the callback of an event begins *)
| Act_local (i : nat) (t : thread_id)
| Act_end (i : nat).                    (* the server finds the connection closed *)

Section world.
Context {D L : Type} `{!DbApi D} (str_hash : string -> Z) (stale : Z -> FileHandler) (junk : bool).
(** The callback of an event in the process [i]. *)
Context (callback : nat -> EventContent -> prog L).
Implicit Types w : World D L.

(** The server handles a request of a session, and what it sends arrives. *)
Definition serve_request (q : request) (se x : Z) w : option (World D L) :=
  match handle str_hash stale q se x (on_out (fun _ => []) (w_server w)) with
  | Ret _ s => Some (mkWorld (on_out (fun _ => []) s) (deliver_to (out s) <$> w_procs w))
  | _ => None
  end.

Definition begin_call (i : nat) (t : thread_id) (P : Proc L) w : option (World D L) :=
  match thread P t, p_pending P with
  | Call o k, None =>
      match lib_exec junk o (set_client NoAnswer (p_lib P)) with
      | Ret v l => Some (mkWorld (w_server w) (<[i := continue t (k v) l P]> (w_procs w)))
      | Throw _ l =>
          match client l with
          | Some (Asked p a) =>
              serve_request (api_request p a) (p_session P) (p_xid P)
                (mkWorld (w_server w) (<[i := ask t P]> (w_procs w)))
          | _ => Some (mkWorld (w_server w) (<[i := continue t Exit l P]> (w_procs w)))
          end
      | _ => Some (mkWorld (w_server w) (<[i := continue t Exit (p_lib P) P]> (w_procs w)))
      end
  | _, _ => None
  end.

(** A call on a known handle that is begun: the server handles its request. *)
Lemma begin_asks o k h q idx i t P w w' : thread P t = Call o k -> request_of o h = Some (q, idx) ->
  fdList (p_lib P) !! idx = Some h -> p_pending P = None -> begin_call i t P w = Some w' ->
  exists s', handle str_hash stale q (p_session P) (p_xid P) (on_out (fun _ => []) (w_server w)) = Ret tt s' /\
    w' = mkWorld (on_out (fun _ => []) s') (deliver_to (out s') <$> <[i := ask t P]> (w_procs w)).
Proof.
  intros Hc Ho Hh Hp. unfold begin_call. rewrite Hc, Hp.
  destruct (lib_exec_asks junk o (p_lib P) h q idx Ho Hh) as (p & a & l & He & Hl & Hq).
  change (set_client NoAnswer (p_lib P)) with (mkLib (Some NoAnswer) (fdList (p_lib P)) (nextFdId (p_lib P))).
  rewrite He, Hl, Hq. unfold serve_request. cbn [w_server w_procs].
  destruct (handle _ _ _ _ _ _) as [[] s'| | |]; [|done..]. intros [= <-]. by exists s'.
Qed.

Definition take_event (i : nat) (P : Proc L) : option (Proc L) :=
  match p_callback P, p_events P with
  | Stop, e :: rest => Some (continue T_callback (callback i e) (p_lib P) (set_queues (p_replies P) rest P))
  | _, _ => None
  end.

(** A step; [None] when it cannot be taken.  A server that stops or hangs
    takes no more requests. *)
Definition step (a : action) w : option (World D L) :=
  let local i f :=
    P ← w_procs w !! i;
    if alive P then P' ← f P; Some (mkWorld (w_server w) (<[i := P']> (w_procs w))) else None in
  match a with
  | Act_call i t => P ← w_procs w !! i; if alive P then begin_call i t P w else None
  | Act_reply i => local i (take_reply junk)
  | Act_event i => local i (take_event i)
  | Act_local i t => local i (local_step t)
  | Act_end i =>
      (* whatever ended the process *)
      P ← w_procs w !! i;
      serve_request Q_disconnect (p_session P) 0
        (mkWorld (w_server w) (<[i := continue T_main Exit (p_lib P) P]> (w_procs w)))
  end.

Fixpoint run (acts : list action) w : option (World D L) :=
  match acts with
  | [] => Some w
  | a :: acts => w1 ← step a w; run acts w1
  end.

(** Rule induction on runs. *)
Lemma run_invariant (I : World D L -> Prop) (ok : action -> Prop) acts w w' :
  (forall a w w', I w -> ok a -> step a w = Some w' -> I w') ->
  I w -> Forall ok acts -> run acts w = Some w' -> I w'.
Proof.
  intros Hs. revert w. induction acts as [|a acts IH]; intros w Hw Hok Hr.
  { cbn in Hr. by injection Hr as <-. }
  apply list.Forall_cons in Hok as [Ha Hok]. cbn in Hr. destruct (step a w) as [w1|] eqn:E; [|done]. cbn in Hr.
  by eapply (IH w1); [eapply Hs|..].
Qed.
End world.
