(* ===== verification/Runs.v ===== *)
(** * Runs of programs

    What the concrete runs of the sample programs share: the server after
    clients have logged in, its handle tables, and values that are computed
    once. *)

From S2P Require Import Prelude Numbers ServerTypes ServerDB ServerDBWf ServerDBProps BackstoreRefine Interfaces ClientLib.
From S2P Require Import DbApi TreeStore ServerLogic LogicInv LogicProps ChubbyApp Programs.

(** ** The handle tables *)

(** The server keeps its tables of handles in order in every run. *)
Lemma step_fd_inv {D L : Type} `{!DbApi D} str_hash stale junk (callback : nat -> EventContent -> prog L) a (w w' : World D L) :
  fd_inv (w_server w) -> step str_hash stale junk callback a w = Some w' -> fd_inv (w_server w').
Proof.
  intros Hw. assert (forall q se x (v : World D L), fd_inv (w_server v) -> serve_request str_hash stale q se x v = Some w' -> fd_inv (w_server w')) as Hs.
  { intros q se x v Hv. unfold serve_request. pose proof (handle_sat str_hash stale q se x (on_out (fun _ => []) (w_server v)) Hv) as H.
    destruct (handle _ _ _ _ _ _) as [[] s| | |]; try done. intros [= <-]. exact H. }
  destruct a as [i t|i|i|i t|i]; cbn; destruct (w_procs w !! i) as [P|]; try done; cbn;
    [destruct (alive P); [|done]..|].
  - unfold begin_call. destruct (thread P t); try done. destruct (p_pending P); [done|].
    destruct (lib_exec _ _ _) as [v l|e l| |]; try (by intros [= <-]).
    destruct (client l) as [[|p a|]|]; try (by intros [= <-]). by apply Hs.
  - destruct (take_reply _ _); [|done]. by intros [= <-].
  - destruct (take_event _ _ _); [|done]. by intros [= <-].
  - destruct (local_step _ _); [|done]. by intros [= <-].
  - by apply Hs.
Qed.

Lemma run_fd_inv {D L : Type} `{!DbApi D} str_hash stale junk (callback : nat -> EventContent -> prog L) acts (w w' : World D L) :
  fd_inv (w_server w) -> run str_hash stale junk callback acts w = Some w' -> fd_inv (w_server w').
Proof.
  intros Hw Hr. apply (run_invariant str_hash stale junk callback (fun w => fd_inv (w_server w)) (fun _ => True) acts w); [|done| |done].
  - intros a v v' Hv _. by apply step_fd_inv.
  - by apply list.Forall_true.
Qed.

(** ** The start *)

#[local] Existing Instance strict_engine.
#[local] Instance runs_api : DbApi Db := single_api sample_hash 0.

(** The server after [n] sessions have started. *)
Definition log_in (i : nat) : request * Z * Z := (Q_startSession ("c" +:+ to_string (Z.of_nat i)), Z.of_nat i + 1, 1).
Definition logged_in (n : nat) : option (Api Db) :=
  match serve sample_hash no_stale (log_in <$> seq 0 n) (api_init create_db 0) with
  | Ret _ s => Some (on_out (fun _ => []) s)
  | _ => None
  end.

Lemma logged_in_fd_inv k s : logged_in k = Some s -> fd_inv s.
Proof.
  unfold logged_in. pose proof (serve_sat sample_hash no_stale (log_in <$> seq 0 k) (api_init create_db 0) (api_init_inv create_db 0)) as H.
  destruct (serve _ _ _ _) as [[] s1| | |]; try done. by intros [= <-].
Qed.

(** ** Computed values *)

(** A computed value, of which only what can be read off it is used; the
    record keeps tactics from evaluating it. *)
Record computed {A} (o : option A) (a : A) : Prop := Computed { computed_eq : o = Some a }.

Lemma computes {A} (o : option A) : bool_decide (is_Some o) = true -> exists a, computed o a.
Proof. intros [a Ha]%bool_decide_eq_true. by exists a. Qed.

Lemma read_off {A B} (f : A -> B) o a v : computed o a -> f <$> o = Some v -> f a = v.
Proof. intros [->]. by intros [= <-]. Qed.

Lemma bind_computed {A B} (o : option A) (f : A -> option B) a b : computed o a -> computed (o ≫= f) b -> f a = Some b.
Proof. by intros [->] [<-]. Qed.

(** What can be read off a process of it. *)
Lemma read_proc {B L} (f : Proc L -> B) v i o (w : World Db L) P : computed o w -> w_procs w !! i = Some P ->
  (w ← o; f <$> w_procs w !! i) = Some v -> f P = v.
Proof. intros [->] HP. cbn. rewrite HP. by intros [= <-]. Qed.
