(* ===== verification/Barrier.v ===== *)
(** * The double barrier: [apps/double_barrier.cc]

    The members of the class [chubby_dbar], its constructor, [sync], its
    callback and destructor, and [main], as code of the threads of
    [Programs]. *)

From S2P Require Import Prelude Numbers ServerTypes ClientLib ServerLogic Programs.

(** The members that do not change after the constructor. *)
Record dbar := mkDbar {
  num : Z;
  fcount : string;
  fpassed : string;
  countfdId : Z;
  passedfdId : Z;
}.

(** The members that do. *)
Record bar_vars := mkBar {
  inRegion : bool;
  passed : bool;
}.

Abbreviation code := (prog bar_vars).

Definition set_inRegion (v : bool) (b : bar_vars) : bar_vars := mkBar v (passed b).
Definition set_passed (v : bool) (b : bar_vars) : bar_vars := mkBar (inRegion b) v.

(** The callback that the constructor registers for CONTENT_MODIFIED, and no
    other. *)
Definition bar_callback (fpassed : string) (e : EventContent) : code :=
  if (evc_event e =? EV_CONTENT_MODIFIED) && String.eqb (evc_fname e) fpassed
  then Step (fun _ => true) (set_passed true) (fun _ => Stop) else Stop.

(** ** [sync] *)

(** [numInBar] as it is written back; [None] when [stoul] throws. *)
Definition next_number (numInBar : string) : option string :=
  if String.eqb numInBar "" then Some "1"
  else n ← stoul (str_bytes numInBar); Some (to_string (wrap64 (n + 1))).

Section dbar.
Context (b : dbar).

(** [cv.wait(lock, [this](){ return passed; }); passed = false;] *)
Definition wait_passed (k : code) : code := Step passed (set_passed false) (fun _ => k).

Definition release_and_wait (k : code) : code := Call (L_release (countfdId b)) (fun _ => wait_passed k).

(** The branch of the process that comes last. *)
Definition enter_region (isEnter : bool) (k : code) : code :=
  Step (fun _ => true) (set_inRegion isEnter) (fun _ => release_and_wait k).
Definition touch_passed (isEnter : bool) (k : code) : code :=
  Call (L_setContents (passedfdId b) "") (fun r => checkErr (val_bool r) (enter_region isEnter k)).
Definition clear_count (isEnter : bool) (k : code) : code :=
  Call (L_setContents (countfdId b) "") (fun r => checkErr (val_bool r) (touch_passed isEnter k)).

Definition write_number (isEnter : bool) (numInBar : string) (k : code) : code :=
  Call (L_setContents (countfdId b) numInBar) (fun r => checkErr (val_bool r) (
  if String.eqb numInBar (to_string (num b)) then clear_count isEnter k else release_and_wait k)).

Definition read_number (isEnter : bool) (k : code) : code :=
  Call (L_getContentsAndStat (countfdId b)) (fun r =>
  match r with
  | V_contents (Some v) =>
      match next_number (cas_content v) with
      | Some numInBar => write_number isEnter numInBar k
      | None => Exit
      end
  | _ => Exit
  end).

Definition sync (isEnter : bool) (k : code) : code :=
  Call (L_acquire (countfdId b)) (fun _ => read_number isEnter k).

Definition enter : code -> code := sync true.
Definition leave : code -> code := sync false.

(** The destructor; [close] finds no handle left. *)
Definition dbar_delete (k : code) : code :=
  Call (L_fileClose (countfdId b)) (fun _ => Call (L_fileClose (passedfdId b)) (fun _ => k)).

(** [main], from the end of the constructor. *)
Definition after_left (myId : string) : code := Info (myId +:+ " left") (dbar_delete Stop).
Definition wait_to_leave (myId : string) : code := Info (myId +:+ " wait to leave") (leave (after_left myId)).
Definition after_entered (myId : string) : code := Info (myId +:+ " entered") (Input (wait_to_leave myId)).
Definition bar_main (myId : string) : code := Info (myId +:+ " wait to enter") (enter (after_entered myId)).
End dbar.

(** ** The constructor *)

(** [fdId = c->fileOpen(f, CREATE_FILE); if (fdId != FAIL) c->fileClose(fdId);] *)
Definition create_file (f : string) (k : code) : code :=
  Call (L_fileOpen f CREATE_FILE) (fun r =>
  if val_fd r =? FAIL then k else Call (L_fileClose (val_fd r)) (fun _ => k)).

(** On an open connection. *)
Definition chubby_dbar (n : Z) (name : string) (k : dbar -> code) : code :=
  let fcount := "/" +:+ name +:+ "count" in
  let fpassed := "/" +:+ name +:+ "passed" in
  Call (L_registerCallback EV_CONTENT_MODIFIED) (fun _ =>
  create_file fcount (create_file fpassed (
  Call (L_fileOpen fcount (Z.lor READ WRITE)) (fun r => let countfdId := val_fd r in
  checkErr (negb (countfdId =? FAIL)) (
  Call (L_fileOpen fpassed (Z.lor (Z.lor READ WRITE) EV_CONTENT_MODIFIED)) (fun r => let passedfdId := val_fd r in
  checkErr (negb (passedfdId =? FAIL)) (
  k (mkDbar n fcount fpassed countfdId passedfdId)))))))).

Definition bar_program (n : Z) (myId : string) : code := chubby_dbar n "bar" (fun b => bar_main b myId).
