(* ===== verification/BarrierServer.v ===== *)
(** * What the server does for a barrier

    The calls that [apps/double_barrier.cc] makes, on a server whose database is
    a [TreeStore]: what they do to the two files of a barrier, to the
    registrations for events and to the queues, and what they send. *)

From stdpp Require Import functions.
From S2P Require Import Prelude Names ServerTypes ServerDB ServerDBWf Tree BackstoreRefine DbApi TreeStore.
From S2P Require Import ServerLogic LogicInv LogicSpec CloseSpec.

Section server.
Context {D : Type} `{!DbApi D} {str_hash : string -> Z} {junk : Z} `{!TreeStore D str_hash junk}.
Context (stale : Z -> FileHandler).
Implicit Types s : Api D.

(** The files and the sessions of a barrier. *)
Context (fc fp : string) (ic ip : Z) (clients : gmap Z string).
Context (Hfc : name_ok fc = true) (Hfp : name_ok fp = true) (Hne : fc <> fp) (Hic : u32 ic) (Hip : u32 ip).
Context (Hclients : forall se cl, clients !! se = Some cl -> cl <> "" /\ plain cl = true).

(** The server between two calls, the counter file holding [text]. *)
Record bar_server (text : string) s : Prop := {
  bs_inv : fd_inv s;
  bs_out : out s = [];
  bs_store : store_ok (db s);
  bs_count : file_at fc ic text (db s);
  bs_passed : exists t, file_at fp ip t (db s);
  bs_clients : session2client_map s = clients;
  bs_once : NoDup (lst (file2contentChange_map s) fp);
  bs_kept cl : (fc ∉ default ∅ (client2ephemeral_map s !! cl)) /\ (fp ∉ default ∅ (client2ephemeral_map s !! cl));
}.

(** A handle on one of the two files. *)
Definition count_handle (h : FileHandler) : Prop := fh_file_name h = fc /\ fh_instance_number h = ic.
Definition passed_handle (h : FileHandler) : Prop := fh_file_name h = fp /\ fh_instance_number h = ip.

(** The event that lets processes pass. *)
Definition pass_event (e : EventContent) : bool :=
  (evc_event e =? EV_CONTENT_MODIFIED) && String.eqb (evc_fname e) fp.

(** What a call number [x] of the session [se] may send that is not a pass
    event: replies to itself, and to the calls that were queued. *)
Definition plain_output s (se x : Z) (o : output) : Prop :=
  match o with
  | OReply se' x' _ => (se', x') = (se, x) \/ exists f, (se', x') ∈ lst (file2lockQueue_map s) f
  | OEvent _ e => pass_event e = false
  end.

(** The effect of a call that sends no pass event. *)
Record calm (se x : Z) (text : string) s s' : Prop := {
  cm_server : bar_server text (on_out (fun _ => []) s');
  cm_output : Forall (plain_output s se x) (out s');
  cm_queue f e : e ∈ lst (file2lockQueue_map s') f -> e ∈ lst (file2lockQueue_map s) f \/ e = (se, x);
}.

(** The end of a handler, as the specifications of the handlers give it. *)
Lemma calm_intro se x text text' s s' (m : outcome (Api D) unit) d l (g : Api D -> Api D) u :
  bar_server text s -> m = Ret tt s' -> returns m d (out s ++ l) (maps (g s)) u ->
  store_ok d -> file_at fc ic text' d -> (exists t, file_at fp ip t d) ->
  session2client_map (g s) = session2client_map s ->
  NoDup (lst (file2contentChange_map (g s)) fp) ->
  (forall cl, (fc ∉ default ∅ (client2ephemeral_map (g s) !! cl)) /\ (fp ∉ default ∅ (client2ephemeral_map (g s) !! cl))) ->
  Forall (plain_output s se x) l ->
  (forall f e, e ∈ lst (file2lockQueue_map (g s)) f -> e ∈ lst (file2lockQueue_map s) f \/ e = (se, x)) ->
  calm se x text' s s'.
Proof.
  intros [B1 B2 B3 B4 B5 B6 B7 B8] Hm (s2 & E & I2 & D2 & O2 & M2 & _) Hd Hc Hp Hcl Hnd He Ho Hq.
  rewrite Hm in E. injection E as <-. rewrite B2 in O2. cbn in O2.
  pose proof M2 as (E1 & E2 & _ & E4 & _ & E6)%maps_fields. split.
  - split; cbn; [exact I2|done|by rewrite D2|by rewrite D2|by rewrite D2|congruence|by rewrite E6|by rewrite E4].
  - by rewrite O2.
  - rewrite E2. exact Hq.
Qed.

Lemma event_plain s se x m ev f : ev <> EV_CONTENT_MODIFIED \/ f <> fp ->
  Forall (plain_output s se x) (event_msgs m ev f).
Proof.
  intros H. apply list.Forall_forall. intros o (t & -> & _)%list_elem_of_fmap. cbn. unfold pass_event. cbn.
  destruct (Z.eqb_spec ev EV_CONTENT_MODIFIED), (String.eqb_spec f fp); by destruct H.
Qed.
Lemma reply_plain s se x r : Forall (plain_output s se x) (bool_msgs se x r).
Proof. unfold bool_msgs, reply_msgs. destruct (x =? INTERNAL); by repeat constructor. Qed.

Lemma hold_maps c f s : session2client_map (hold c f s) = session2client_map s /\
  file2contentChange_map (hold c f s) = file2contentChange_map s /\
  client2ephemeral_map (hold c f s) = client2ephemeral_map s /\ file2lockQueue_map (hold c f s) = file2lockQueue_map s.
Proof. done. Qed.

Lemma enqueue_queue f se x s g e : e ∈ lst (file2lockQueue_map (enqueue f se x s)) g ->
  e ∈ lst (file2lockQueue_map s) g \/ e = (se, x).
Proof.
  cbn. rewrite lst_insert. destruct (decide (g = f)) as [->|Hg].
  - rewrite fn_lookup_insert, elem_of_app, list_elem_of_singleton. tauto.
  - rewrite fn_lookup_insert_ne by done. tauto.
Qed.

Lemma acquire_calm arg se x text s s' : bar_server text s -> count_handle arg -> is_Some (clients !! se) ->
  acquire stale arg se x s = Ret tt s' -> calm se x text s s'.
Proof.
  intros Hs [Hf Hi] [cl Hcl] Hm. pose proof Hs as [B1 B2 B3 B4 B5 B6 B7 B8].
  destruct (Hclients se cl Hcl) as [Hcn Hcp].
  pose proof (acquire_spec stale arg se x cl s B1 ltac:(by rewrite B6) Hcn) as Hsp. cbv zeta in Hsp.
  unfold lock_spec in Hsp. rewrite Hf, Hi in Hsp.
  destruct (lock_files fc ic cl (db s) B3 Hfc Hcp Hic) as (b & d & Hdb & Hd & Hfiles). rewrite Hdb in Hsp.
  assert (exists t, file_at fp ip t d) as Hp by (destruct B5 as [t Ht]; eexists; by apply Hfiles).
  destruct b.
  - destruct (file2lockQueue_map s !! fc); [congruence|].
    eapply (calm_intro se x text text s s' _ d _ (hold cl fc)); [done|exact Hm|exact Hsp|done|by apply Hfiles|done..| |intros f e He; by left].
    apply Forall_app. split; [apply reply_plain|]. apply event_plain. by left.
  - rewrite <-(app_nil_r (out s)) in Hsp.
    eapply (calm_intro se x text text s s' _ d [] (enqueue fc se x)); [done|exact Hm|exact Hsp|done|by apply Hfiles|done..|].
    intros f e. apply enqueue_queue.
Qed.

(** What handing on the lock does to the queues and sends. *)
Lemma granted_calm f se x s l g : granted f s = Some (l, g) -> Forall (plain_output s se x) l /\
  forall y k e, file2lockQueue_map y = file2lockQueue_map s ->
    e ∈ lst (file2lockQueue_map (g y)) k -> e ∈ lst (file2lockQueue_map s) k.
Proof.
  unfold granted. destruct (file2lockQueue_map s !! f) as [[|[se' x'] q]|] eqn:Eq; [done| |].
  - destruct (session2client_map s !! se') as [c|]; [|done]. case_bool_decide; [done|]. intros [= <- <-].
    assert (lst (file2lockQueue_map s) f = (se', x') :: q) as El by (unfold lst; by rewrite Eq). split.
    + unfold bool_msgs, reply_msgs. destruct (x' =? INTERNAL); [constructor|]. apply list.Forall_singleton. right. exists f.
      rewrite El. by left.
    + intros y k e Ey. cbn. rewrite Ey. destruct (decide (k = f)) as [->|Hk].
      * rewrite El. destruct (list_empty q) eqn:Eqq; unfold lst.
        { rewrite lookup_delete_eq. cbn. by intros He%elem_of_nil. }
        { rewrite lookup_insert_eq. cbn. by right. }
      * unfold lst. destruct (list_empty q); [by rewrite lookup_delete_ne|by rewrite lookup_insert_ne].
  - intros [= <- <-]. split; [constructor|]. cbn. intros y k e E. by rewrite E.
Qed.

Lemma granted_other f s l g y : granted f s = Some (l, g) -> session2client_map (g y) = session2client_map y /\
  file2contentChange_map (g y) = file2contentChange_map y /\ client2ephemeral_map (g y) = client2ephemeral_map y.
Proof.
  unfold granted. destruct (file2lockQueue_map s !! f) as [[|[se' x'] q]|]; [done| |by intros [= <- <-]].
  destruct (session2client_map s !! se') as [c|]; [|done]. case_bool_decide; [done|]. by intros [= <- <-].
Qed.

Lemma release_calm arg se x text s s' : bar_server text s -> count_handle arg -> is_Some (clients !! se) ->
  release stale arg se x s = Ret tt s' -> calm se x text s s'.
Proof.
  intros Hs [Hf Hi] [cl Hcl] Hm. pose proof Hs as [B1 B2 B3 B4 B5 B6 B7 B8].
  destruct (Hclients se cl Hcl) as [Hcn Hcp].
  pose proof (release_spec stale arg se x cl s B1 ltac:(by rewrite B6) Hcn) as Hsp. cbv zeta in Hsp.
  rewrite Hf, Hi in Hsp.
  destruct (reset_files fc ic (db s) B3 Hfc Hic) as (b & d & Hdb & Hd & Hfiles). rewrite Hdb in Hsp.
  assert (exists t, file_at fp ip t d) as Hp by (destruct B5 as [t Ht]; eexists; by apply Hfiles).
  destruct b.
  - destruct (granted fc s) as [[l g]|] eqn:Hg; [|congruence]. destruct (granted_calm fc se x s l g Hg) as [Hl Hq].
    destruct (granted_other fc s l g (unhold cl fc s) Hg) as (G1 & G2 & G3).
    eapply (calm_intro se x text text s s' _ d _ (fun y => g (unhold cl fc y))); [done|exact Hm|exact Hsp|done|by apply Hfiles|done|..].
    + exact G1.
    + by rewrite G2.
    + by rewrite G3.
    + repeat (apply Forall_app; split); [apply reply_plain|done|]. apply event_plain. by left.
    + intros f e He. left. by apply (Hq (unhold cl fc s)).
  - eapply (calm_intro se x text text s s' _ d _ id); [done|exact Hm|exact Hsp|done|by apply Hfiles|done..|apply reply_plain|intros f e He; by left].
Qed.

Lemma read_calm arg se x text s s' : bar_server text s -> count_handle arg -> Z.of_nat (String.length text) <= 2 ^ 30 ->
  getContentsAndStat stale arg se x s = Ret tt s' ->
  calm se x text s s' /\ file2lockQueue_map s' = file2lockQueue_map s /\
  exists meta, out s' = reply_msgs se x (RepContents (RC_val (mkContentsAndStat text meta))).
Proof.
  intros Hs [Hf Hi] Hl Hm. pose proof Hs as [B1 B2 B3 B4 B5 B6 B7 B8].
  pose proof (getContentsAndStat_spec stale arg se x s B1) as Hsp. cbv zeta in Hsp. rewrite Hf, Hi in Hsp.
  destruct (read_file fc ic text (db s) B3 Hfc Hic B4 Hl) as (meta & d & Hdb & Hd & Ht). rewrite Hdb in Hsp.
  assert (forall g i c, file_at g i c (db s) -> file_at g i c d) as Hfiles by (unfold file_at; by rewrite Ht).
  assert (exists t, file_at fp ip t d) as Hp by (destruct B5 as [t Hpt]; eexists; by apply Hfiles). split_and!.
  - eapply (calm_intro se x text text s s' _ d _ id); [done|exact Hm|exact Hsp|done|by apply Hfiles|done..| |intros f e He; by left].
    unfold reply_msgs. destruct (x =? INTERNAL); by repeat constructor.
  - destruct Hsp as (s2 & E & _ & _ & _ & M2 & _). rewrite Hm in E. injection E as <-.
    by apply maps_fields in M2 as (_ & -> & _).
  - exists meta. destruct Hsp as (s2 & E & _ & _ & O2 & _). rewrite Hm in E. injection E as <-. by rewrite O2, B2.
Qed.

(** An update that the database accepts. *)
Lemma write_accepted arg se x s d : fd_inv s ->
  db_checkAndUpdate (fh_file_name (asc_fd arg)) (fh_instance_number (asc_fd arg)) (asc_content arg) (db s) = Ret true d ->
  returns (setContents stale arg se x s) d (out s ++ bool_msgs se x (RB_val true) ++
    event_msgs (file2contentChange_map s) EV_CONTENT_MODIFIED (fh_file_name (asc_fd arg))) (maps s) (ub s).
Proof.
  intros Hs Hd. destruct (findFd_run stale se (asc_fd arg) s Hs) as (p & s1 & Hf & Hi & Hh & _ & _ & Hr & _).
  rewrite (setContents_run stale arg se x s p s1 Hf Hh). pose proof (rest_split _ _ Hr) as (Hm & Hdb & _).
  apply maps_fields in Hm as (_ & _ & _ & _ & _ & ->). rewrite Hdb, Hd. by apply returns_emit.
Qed.

Lemma write_calm h new se x text s s' : bar_server text s -> count_handle h -> plain new = true ->
  setContents stale (mkArgSetContents h new) se x s = Ret tt s' -> calm se x new s s'.
Proof.
  intros Hs [Hf Hi] Hn Hm. pose proof Hs as [B1 B2 B3 B4 B5 B6 B7 B8].
  destruct (update_file fc ic new text (db s) B3 Hfc Hn Hic B4) as (d & Hdb & Hd & Hat & Hother).
  pose proof (write_accepted (mkArgSetContents h new) se x s d B1) as Hsp. cbn [asc_fd asc_content] in Hsp.
  rewrite Hf, Hi in Hsp. specialize (Hsp Hdb).
  assert (exists t, file_at fp ip t d) as Hp by (destruct B5 as [t Hpt]; eexists; by apply Hother).
  eapply (calm_intro se x text new s s' _ d _ id); [done|exact Hm|exact Hsp|done|done|done..| |intros f e He; by left].
  apply Forall_app. split; [apply reply_plain|]. apply event_plain. by right.
Qed.

(** Writing the second file: a pass event for every session that is registered
    for it. *)
Lemma touch_effect h se x text s s' : bar_server text s -> passed_handle h ->
  setContents stale (mkArgSetContents h "") se x s = Ret tt s' ->
  bar_server text (on_out (fun _ => []) s') /\
  out s' = bool_msgs se x (RB_val true) ++ event_msgs (file2contentChange_map s) EV_CONTENT_MODIFIED fp /\
  file2lockQueue_map s' = file2lockQueue_map s.
Proof.
  intros Hs [Hf Hi] Hm. pose proof Hs as [B1 B2 B3 B4 [t B5] B6 B7 B8].
  destruct (update_file fp ip "" t (db s) B3 Hfp ltac:(by vm_compute) Hip B5) as (d & Hdb & Hd & Hat & Hother).
  pose proof (write_accepted (mkArgSetContents h "") se x s d B1) as Hsp. cbn [asc_fd asc_content] in Hsp.
  rewrite Hf, Hi in Hsp. destruct (Hsp Hdb) as (s2 & E & I2 & D2 & O2 & M2 & _). rewrite Hm in E. injection E as <-.
  rewrite B2 in O2. pose proof M2 as (E1 & E2 & _ & E4 & _ & E6)%maps_fields. split_and!; [|done|done].
  split; cbn; [exact I2|done|by rewrite D2|rewrite D2; by apply Hother|rewrite D2; by eexists|congruence|by rewrite E6|by rewrite E4].
Qed.

(** ** Closing *)

Lemma unregistered_nodup f se m : NoDup (lst m fp) -> NoDup (lst (unregistered f se m) fp).
Proof.
  intros Hn. unfold unregistered. destruct (m !! f) as [l|] eqn:E; [|done]. unfold lst in *.
  destruct (decide (fp = f)) as [->|Hf].
  - rewrite E in Hn. cbn in Hn. destruct (list_empty _).
    + rewrite lookup_delete_eq. constructor.
    + rewrite lookup_insert_eq. by apply list.NoDup_filter.
  - destruct (list_empty _); [by rewrite lookup_delete_ne|by rewrite lookup_insert_ne].
Qed.

Lemma queue_closed_sub f se m q g e : queue_closed f se m = Some q -> e ∈ lst q g -> e ∈ lst m g.
Proof.
  unfold queue_closed. destruct (m !! f) as [[|[first y] rest]|] eqn:E; [| |by intros [= <-]].
  - intros [= <-]. unfold lst. destruct (decide (g = f)) as [->|Hg].
    + rewrite lookup_delete_eq. by intros He%elem_of_nil.
    + by rewrite lookup_delete_ne.
  - destruct (first =? se); [|done]. destruct (list_empty rest); intros [= <-]; [|done]. unfold lst.
    destruct (decide (g = f)) as [->|Hg]; [rewrite lookup_delete_eq; by intros He%elem_of_nil|by rewrite lookup_delete_ne].
Qed.

(** The end of [fileClose], from a state [s1] that a release may have left. *)
Lemma finishes_calm arg se x cl text s s1 s' (m : outcome (Api D) unit) l : bar_server text s -> m = Ret tt s' ->
  finishes m arg se x cl s1 -> store_ok (db s1) -> file_at fc ic text (db s1) -> (exists t, file_at fp ip t (db s1)) ->
  session2client_map s1 = session2client_map s -> file2contentChange_map s1 = file2contentChange_map s ->
  client2ephemeral_map s1 = client2ephemeral_map s -> out s1 = out s ++ l -> Forall (plain_output s se x) l ->
  (forall f e, e ∈ lst (file2lockQueue_map s1) f -> e ∈ lst (file2lockQueue_map s) f) -> calm se x text s s'.
Proof.
  intros Hs Hm Hfin Hd Hc Hp E1 E2 E3 Ho Hl Hq. pose proof Hs as [B1 B2 B3 B4 B5 B6 B7 B8]. unfold finishes in Hfin.
  destruct (queue_closed _ _ _) as [q|] eqn:Eq; [|congruence]. rewrite Ho, <-app_assoc in Hfin.
  eapply (calm_intro se x text text s s' _ (db s1) _ (fun _ => closed (fh_file_name arg) se cl q s1));
    [done|exact Hm|exact Hfin|done|done|done|done|..]; cbn.
  - rewrite E2. by apply unregistered_nodup.
  - intros c. rewrite E3. destruct (client2ephemeral_map s !! cl); [apply B8|].
    destruct (decide (c = cl)) as [->|Hn]; [rewrite lookup_insert_eq; cbn; set_solver|rewrite lookup_insert_ne by done; apply B8].
  - apply Forall_app. split; [done|apply reply_plain].
  - intros f e He. left. apply Hq. by eapply queue_closed_sub.
Qed.

Lemma close_calm arg se x text s s' : bar_server text s -> count_handle arg \/ passed_handle arg ->
  is_Some (clients !! se) -> fileClose stale arg se x s = Ret tt s' -> calm se x text s s'.
Proof.
  intros Hs Ha [cl Hcl] Hm. pose proof Hs as [B1 B2 B3 B4 B5 B6 B7 B8]. destruct (Hclients se cl Hcl) as [Hcn Hcp].
  assert (name_ok (fh_file_name arg) = true /\ u32 (fh_instance_number arg)) as [Hn Hu]
    by (by destruct Ha as [[-> ->]|[-> ->]]).
  assert (fh_file_name arg ∉ default ∅ (client2ephemeral_map s !! cl)) as He
    by (destruct Ha as [[-> _]|[-> _]]; apply B8).
  pose proof (fileClose_spec stale arg se x cl s B1 ltac:(by rewrite B6) Hcn He) as Hsp. cbv zeta in Hsp.
  case_bool_decide.
  2: { apply (finishes_calm arg se x cl text s s s' _ [] Hs Hm Hsp); rewrite ?app_nil_r; done. }
  destruct (reset_files (fh_file_name arg) (fh_instance_number arg) (db s) B3 Hn Hu) as (b & d & Hdb & Hd & Hfiles).
  rewrite Hdb in Hsp.
  assert (exists t, file_at fp ip t d) as Hp by (destruct B5 as [t Ht]; eexists; by apply Hfiles).
  destruct b.
  2: { apply (finishes_calm arg se x cl text s (set_db d s) s' _ [] Hs Hm Hsp); rewrite ?app_nil_r; try done. by apply Hfiles. }
  destruct (granted _ s) as [[l g]|] eqn:Hg; [|congruence].
  destruct (granted_calm _ se x s l g Hg) as [Hl Hq].
  destruct (granted_other _ s l g (unhold cl (fh_file_name arg) (set_db d s)) Hg) as (G1 & G2 & G3).
  destruct (granted_change _ s l g Hg) as (_ & _ & G4 & G5 & _).
  eapply (finishes_calm arg se x cl text s _ s'); [done|exact Hm|exact Hsp|..]; cbn; rewrite ?G1, ?G2, ?G3, ?G4, ?G5; try done.
  - by apply Hfiles.
  - apply Forall_app. split; [done|]. apply event_plain. by left.
  - intros f e He2. by apply (Hq (unhold cl (fh_file_name arg) (set_db d s))).
Qed.
End server.
