(* ===== verification/BarrierRel.v ===== *)
(** * The double barrier follows its abstract machine

    [proc_rel]: a process of [Barrier] against a member of the machine of
    [BarrierSpec], and the steps of one process: what its threads do on their
    own, and the replies it takes.  The calls, the server and all processes
    together are in [BarrierProps]. *)

From S2P Require Import Prelude Numbers Names ServerTypes ServerDB ServerDBWf ServerDBRefine ServerDBProps Tree.
From S2P Require Import BackstoreRefine Interfaces ClientLib DbApi TreeStore ServerLogic LogicInv LogicSpec LogicProps CloseSpec.
From S2P Require Import ChubbyApp BarrierSpec Programs Barrier BarrierServer.

(** ** The counter in its file *)

Definition shows (c : Z) (text : string) : Prop := (c = 0 /\ text = "") \/ (1 <= c /\ text = to_string c).

Lemma shows_next c text : shows c text -> 0 <= c < 2 ^ 32 -> next_number text = Some (to_string (c + 1)).
Proof.
  intros Hs Hc. unfold next_number. destruct Hs as [[-> ->]|[Hp ->]]; [done|].
  destruct (String.eqb_spec (to_string c) "") as [E|_]; [by apply to_string_not_empty in E; [|lia]|].
  rewrite stoul_to_string by (unfold u64; lia). cbn. by rewrite wrap64_small by (unfold u64; lia).
Qed.

Lemma digit_clean c : is_digit c = true -> clean c = true /\ marks c = true.
Proof.
  intros [H1%Z.leb_le H2%Z.leb_le]%andb_true_iff. destruct c as [[] [] [] [] [] [] [] []]; try by split.
  all: exfalso; clear -H1 H2; vm_compute in H1, H2; congruence.
Qed.

Lemma to_string_plain c : 0 <= c < 2 ^ 33 -> plain (to_string c) = true /\ Z.of_nat (String.length (to_string c)) <= 20.
Proof.
  intros Hc. destruct (to_string_digits c) as [Hf Hl]; [unfold u64; lia|]. split; [|lia].
  pose proof (to_string_not_empty c ltac:(lia)) as Hne. destruct (to_string c) as [|a s] eqn:E; [done|].
  apply plain_marked.
  - apply list.Forall_cons in Hf as [Ha _]. by apply digit_clean.
  - apply forallb_forall. intros d Hd. rewrite list.Forall_forall in Hf. apply digit_clean, Hf. by apply list_elem_of_In.
  - unfold operand_max. lia.
Qed.

Lemma shows_text c text : shows c text -> 0 <= c < 2 ^ 33 -> plain text = true /\ Z.of_nat (String.length text) <= 20.
Proof. intros [[-> ->]|[_ ->]] Hc; [by vm_compute|by apply to_string_plain]. Qed.

(** ** The processes and the members of the machine *)

(** What is fixed of a process: its name, its barrier, the handles that the
    numbers of the barrier stand for, and its session. *)
Record place := Place {
  pl_name : string;
  pl_bar : dbar;
  pl_count : FileHandler;
  pl_passed : FileHandler;
  pl_session : Z;
}.

Section code.
Context (pl : place).
Abbreviation b := (pl_bar pl).

(** The argument of the [sync] of a round and what follows it. *)
Definition round_code (r : nat) : bool * code :=
  match r with O => (true, after_entered b (pl_name pl)) | _ => (false, after_left b (pl_name pl)) end.

Definition sync_code (p : point) (e : bool) (k : code) : option code :=
  match p with
  | AtAcquire | InAcquire => Some (sync b e k)
  | AtGet | InGet _ => Some (read_number b e k)
  | AtSet w | InSet w => Some (write_number b e (to_string w) k)
  | AtClear | InClear => Some (clear_count b e k)
  | AtTouch | InTouch => Some (touch_passed b e k)
  | AtRegion => Some (enter_region b e k)
  | AtRelease | InRelease => Some (release_and_wait b k)
  | AtWait => Some (wait_passed k)
  | Before _ | Over => None
  end.

(** The code of the main thread at a point of a round. *)
Definition code_at (r : nat) (p : point) : option code :=
  match r, p with
  | 0%nat, Before 0 => Some (bar_main b (pl_name pl))
  | 1%nat, Before 2 => Some (after_entered b (pl_name pl))
  | 1%nat, Before 1 => Some (Input (wait_to_leave b (pl_name pl)))
  | 1%nat, Before 0 => Some (wait_to_leave b (pl_name pl))
  | 0%nat, _ | 1%nat, _ => let '(e, k) := round_code r in sync_code p e k
  | _, _ => None
  end.
End code.

(** Inside a library call. *)
Definition in_call (p : point) : bool :=
  match p with InAcquire | InGet _ | InSet _ | InClear | InTouch | InRelease => true | _ => false end.

(** The calls that are still to be made in the round. *)
Definition calls_left (p : point) : Z :=
  match p with
  | Before _ | AtAcquire => 6
  | InAcquire | AtGet => 5
  | InGet _ | AtSet _ => 4
  | InSet _ | AtClear => 3
  | InClear | AtTouch => 2
  | InTouch | AtRegion | AtRelease => 1
  | _ => 0
  end.
Definition calls_of (m : member) : Z :=
  calls_left (at_point m) + match round m with O => 8 | 1%nat => 2 | _ => 0 end.

(** The largest transaction number of a call. *)
Definition last_xid : Z := 2 ^ 32 - 2.

Section sim.
Context (lib_junk : bool) (fc fp : string) (ic ip n : Z) (clients : gmap Z string).

Record place_ok (pl : place) : Prop := {
  po_num : num (pl_bar pl) = n;
  po_count : count_handle fc ic (pl_count pl);
  po_passed : passed_handle fp ip (pl_passed pl);
  po_two : countfdId (pl_bar pl) <> passedfdId (pl_bar pl);
  po_client : is_Some (clients !! pl_session pl);
}.
(** The number that a reply to a read carries. *)
Definition reads (v : Z) (r : reply_val) : Prop :=
  exists text meta, r = RepContents (RC_val (mkContentsAndStat text meta)) /\ shows v text.

(** The main thread of a process in the first two rounds. *)
Record running (pl : place) (P : Proc bar_vars) (m : member) : Prop := {
  ru_round : (round m < 2)%nat;
  ru_code : code_at pl (round m) (at_point m) = Some (p_main P);
  ru_idle : in_call (at_point m) = false -> p_pending P = None;
  ru_call : in_call (at_point m) = true -> exists x, p_pending P = Some (T_main, x) /\ x < p_xid P /\
    forall v r, at_point m = InGet v -> (x, r) ∈ p_replies P -> reads v r;
  ru_lib : fdList (p_lib P) !! countfdId (pl_bar pl) = Some (pl_count pl) /\
    fdList (p_lib P) !! passedfdId (pl_bar pl) = Some (pl_passed pl);
  ru_xid : 0 <= p_xid P /\ p_xid P + calls_of m <= last_xid;
}.

(** The same after them. *)
Record leaving (pl : place) (P : Proc bar_vars) (m : member) : Prop := {
  le_round : round m = 2%nat;
  le_over : at_point m = Over;
  le_code :
    (p_main P = after_left (pl_bar pl) (pl_name pl) /\ p_pending P = None /\ p_xid P + 2 <= last_xid) \/
    (p_main P = dbar_delete (pl_bar pl) Stop /\
       (p_pending P = None /\ p_xid P + 2 <= last_xid \/ (exists x, p_pending P = Some (T_main, x)) /\ p_xid P + 1 <= last_xid)) \/
    (p_main P = Call (L_fileClose (passedfdId (pl_bar pl))) (fun _ => Stop) /\
       (p_pending P = None /\ p_xid P + 1 <= last_xid \/ (exists x, p_pending P = Some (T_main, x)) /\ p_xid P <= last_xid)) \/
    p_main P = Stop;
  le_count : p_main P = after_left (pl_bar pl) (pl_name pl) \/ p_main P = dbar_delete (pl_bar pl) Stop ->
    fdList (p_lib P) !! countfdId (pl_bar pl) = Some (pl_count pl);
  le_passed : p_main P <> Stop -> fdList (p_lib P) !! passedfdId (pl_bar pl) = Some (pl_passed pl);
  le_xid : 0 <= p_xid P;
}.

(** The events that will let the process pass. *)
Definition token_events (es : list EventContent) : nat := count (pass_event fp) es.
Definition taken (P : Proc bar_vars) : nat := match p_callback P with Stop => 0 | _ => 1 end.
Definition tokens_of (P : Proc bar_vars) : nat :=
  (token_events (p_events P) + taken P + (if passed (p_vars P) then 1 else 0))%nat.

Definition said (pl : place) (P : Proc bar_vars) (what : string) : Prop := (pl_name pl +:+ what) ∈ p_log P.

(** What a process has printed. *)
Record log_ok (pl : place) (P : Proc bar_vars) (m : member) : Prop := {
  lo_entered : said pl P " entered" -> (1 <= round m)%nat;
  lo_left : said pl P " left" -> (2 <= round m)%nat;
  lo_enter : (1 <= round m)%nat \/ (forall j, at_point m <> Before j) -> said pl P " wait to enter";
  lo_leave : (2 <= round m)%nat \/ round m = 1%nat /\ (forall j, at_point m <> Before j) -> said pl P " wait to leave";
}.

Record proc_rel (pl : place) (P : Proc bar_vars) (m : member) : Prop := {
  pr_session : p_session P = pl_session pl;
  pr_callback : p_callback P = Stop \/ p_callback P = Step (fun _ => true) (set_passed true) (fun _ => Stop);
  pr_tokens : (tokens_of P <= tokens m)%nat;
  pr_log : log_ok pl P m;
  pr_replies x r : (x, r) ∈ p_replies P -> x < p_xid P;
  pr_main : p_main P = Exit \/ running pl P m \/ leaving pl P m;
}.

(** ** Steps of one process *)

(** What a step of a process is for its member, the counter being [c]. *)
Definition member_move (c : Z) (m m' : member) : Prop :=
  m' = m \/ (exists p, quiet_move n c (at_point m) p /\ m' = goes_to p m) \/
  (exists k p, at_point m = AtWait /\ tokens m = S k /\ fresh p /\ m' = Member (S (round m)) p k).

Definition follows (c : Z) (ms : list member) (s' : Z * list member) : Prop := s' = (c, ms) \/ moves n (c, ms) s'.

Lemma move_follows c ms i m m' : ms !! i = Some m -> member_move c m m' -> follows c ms (c, <[i := m']> ms).
Proof.
  intros Hi [->|[(p & Hq & ->)|(k & p & Hp & Hk & Hf & ->)]].
  - left. by rewrite list_insert_id.
  - right. by constructor.
  - right. by constructor.
Qed.

(** A process that exits keeps its place in the machine. *)
Lemma exit_rel pl P m P' : proc_rel pl P m -> p_main P' = Exit -> p_session P' = p_session P -> p_callback P' = p_callback P ->
  p_events P' = p_events P -> p_vars P' = p_vars P -> p_log P' = p_log P -> p_xid P' = p_xid P ->
  p_replies P' ⊆ p_replies P -> proc_rel pl P' m.
Proof.
  intros [H1 H2 H3 [O1 O2 O3 O4] H5 H6] E1 E2 E3 E4 E5 E6 E7 E8. split.
  - congruence.
  - by rewrite E3.
  - unfold tokens_of, taken in *. by rewrite E3, E4, E5.
  - unfold said in *. split; unfold said; by rewrite E6.
  - intros x r Hr. rewrite E7. apply (H5 x r). by apply E8.
  - by left.
Qed.

Lemma message_inj (a x y : string) : a +:+ x = a +:+ y -> x = y.
Proof. intros H. by apply (inj (String.append a)) in H. Qed.

(** A message that is not one of the four. *)
Lemma said_print pl P msg what : said pl (print (pl_name pl +:+ msg) P) what <-> said pl P what \/ what = msg.
Proof.
  unfold said. cbn. rewrite elem_of_app, list_elem_of_singleton. split; intros [H|H]; [by left| |by left|].
  - right. by apply message_inj in H.
  - right. by subst.
Qed.

(** The log after a step that prints nothing. *)
Lemma log_same pl P P' m m' : p_log P' = p_log P -> log_ok pl P m -> (round m <= round m')%nat ->
  ((1 <= round m')%nat \/ (forall j, at_point m' <> Before j) -> (1 <= round m)%nat \/ (forall j, at_point m <> Before j)) ->
  ((2 <= round m')%nat \/ round m' = 1%nat /\ (forall j, at_point m' <> Before j) ->
   (2 <= round m)%nat \/ round m = 1%nat /\ (forall j, at_point m <> Before j)) -> log_ok pl P' m'.
Proof.
  intros E [O1 O2 O3 O4] Hr H1 H2. unfold said in *. split; unfold said; rewrite E.
  - intros H. specialize (O1 H). lia.
  - intros H. specialize (O2 H). lia.
  - tauto.
  - tauto.
Qed.

(** A process whose main thread has gone on. *)
Lemma proc_step pl P m P' m' : proc_rel pl P m -> p_session P' = p_session P -> p_callback P' = p_callback P ->
  p_events P' = p_events P -> p_vars P' = p_vars P -> tokens m' = tokens m -> log_ok pl P' m' ->
  p_xid P' = p_xid P -> p_replies P' ⊆ p_replies P -> running pl P' m' \/ leaving pl P' m' -> proc_rel pl P' m'.
Proof.
  intros [H1 H2 H3 H4 H5 H6] E1 E2 E3 E4 E5 E6 E7 E8 E9. split.
  - congruence.
  - by rewrite E2.
  - unfold tokens_of, taken in *. by rewrite E2, E3, E4, E5.
  - done.
  - intros x r Hr. rewrite E7. apply (H5 x r). by apply E8.
  - by right.
Qed.

Lemma said_other pl P msg what : what <> msg -> said pl (print (pl_name pl +:+ msg) P) what -> said pl P what.
Proof. intros Hw [H|H]%said_print; [done|congruence]. Qed.

(** [running] carried over to another point with the same calls to make. *)
Lemma running_step pl P m P' m' : running pl P m -> (round m' < 2)%nat ->
  code_at pl (round m') (at_point m') = Some (p_main P') -> in_call (at_point m') = false -> p_pending P' = None ->
  fdList (p_lib P') = fdList (p_lib P) -> p_xid P' = p_xid P -> calls_of m' <= calls_of m -> running pl P' m'.
Proof.
  intros [R1 R2 R3 R4 R5 R6] Hr Hc Hi Hp Hl Hx Hcl. split; [done|done|done| |by rewrite Hl|lia].
  by rewrite Hi.
Qed.

Definition local_result (c : Z) (pl : place) (P : Proc bar_vars) (m : member) (P' : Proc bar_vars) : Prop :=
  exists m', member_move c m m' /\ proc_rel pl P' m' /\ p_xid P' = p_xid P /\ forall v, at_point m' <> InGet v.

Lemma info_local c pl P m msg k p : proc_rel pl P m -> running pl P m -> (round m < 2)%nat ->
  quiet_move n c (at_point m) p -> code_at pl (round m) p = Some k -> in_call (at_point m) = false -> in_call p = false ->
  calls_left p <= calls_left (at_point m) -> (forall v, p <> InGet v) ->
  log_ok pl (print msg P) (goes_to p m) -> local_result c pl P m (print msg (continue T_main k (p_lib P) P)).
Proof.
  intros Hrel Hru Hr Hq Hk Hi Hi' Hcl Hv Hlog. exists (goes_to p m). split_and!; [unfold member_move; right; left; by exists p| |done|done].
  apply (proc_step pl P m); try done; [by apply (log_same pl (print msg P) _ (goes_to p m))|].
  left. apply (running_step pl P m); try done.
  - cbn. apply (ru_idle _ _ _ Hru Hi).
  - unfold calls_of. cbn. lia.
Qed.

Lemma region_local c pl P m e : proc_rel pl P m -> running pl P m -> at_point m = AtRegion ->
  local_result c pl P m (set_vars (set_inRegion e (p_vars P))
    (continue T_main (release_and_wait (pl_bar pl) (round_code pl (round m)).2) (p_lib P) P)).
Proof.
  intros Hrel Hru Hp. pose proof (ru_round _ _ _ Hru) as Hr. pose proof (ru_idle _ _ _ Hru) as Hidle. rewrite Hp in Hidle.
  exists (goes_to AtRelease m). split_and!; [right; left; exists AtRelease; rewrite Hp; by split; [constructor|]| |done|done].
  destruct Hrel as [H1 H2 H3 H4 H5 _]. split; try done.
  - apply (log_same pl P _ m); cbn; try done; rewrite Hp; [by right|]. intros [?|[? _]]; [by left|by right].
  - right. left. apply (running_step pl P m); try done; [|by apply Hidle|unfold calls_of; cbn; rewrite Hp; cbn; lia].
    cbn. by destruct (round m) as [|[|r]]; [| |lia].
Qed.

(** The process passes: one of its tokens is spent. *)
Lemma pass_local c pl P m : proc_rel pl P m -> running pl P m -> at_point m = AtWait -> passed (p_vars P) = true ->
  local_result c pl P m (set_vars (set_passed false (p_vars P))
    (continue T_main (round_code pl (round m)).2 (p_lib P) P)).
Proof.
  intros Hrel Hru Hp Hpass. pose proof (ru_idle _ _ _ Hru) as Hidle. rewrite Hp in Hidle.
  destruct Hrel as [H1 H2 H3 H4 H5 _]. destruct Hru as [R1 R2 R3 R4 [R5 R5'] [R6 R6']]. unfold calls_of in R6'.
  destruct m as [r p tk]. cbn [round at_point tokens] in *. subst p.
  unfold tokens_of in H3. rewrite Hpass in H3. destruct tk as [|tk]; [lia|].
  pose proof H4 as [O1 O2 O3 O4]. cbn [round at_point] in *.
  exists (Member (S r) (match r with O => Before 2 | _ => Over end) tk).
  split_and!; [|split; try done|done|by destruct r].
  - right. right. exists tk, (match r with O => Before 2 | _ => Over end). cbn. split_and!; [done|done|by destruct r|done].
  - unfold tokens_of, taken, token_events in *. cbn in *. lia.
  - apply (log_same pl P _ (Member r AtWait (S tk))); cbn; try done; [lia|by right|]. destruct r as [|[|r]]; [|by right|lia].
    intros [?|[_ Hb]]; [lia|by destruct (Hb 2%nat)].
  - right. destruct r as [|[|r]]; [left|right|lia].
    + split; cbn; [lia|done|by intros _; apply Hidle|done|done|]. unfold calls_of. cbn in *. lia.
    + split; cbn; try done. left. split_and!; [done|by apply Hidle|cbn in *; lia].
Qed.

Lemma main_local c pl P m P' : proc_rel pl P m -> local_step T_main P = Some P' -> p_main P <> Exit ->
  local_result c pl P m P'.
Proof.
  intros Hrel Hl Hex. pose proof Hrel as [H1 H2 H3 H4 H5 [H6|[H6|H6]]]; [done| |].
  - pose proof H6 as [R1 R2 R3 R4 R5 R6]. destruct H4 as [O1 O2 O3 O4].
    destruct m as [r p tk]. cbn [round at_point tokens] in *.
    destruct r as [|[|r]]; [| |lia]; unfold local_step, thread in Hl;
      destruct p as [[|[|[|j]]]| | | | | | | | | | | | | | |]; cbn in R2; try done; injection R2 as R2; rewrite <-R2 in Hl;
      cbn in Hl; try done; try (destruct (passed (p_vars P)) eqn:Hpass; [|done]); injection Hl as <-;
      try exact (region_local c pl P _ _ Hrel H6 eq_refl); try exact (pass_local c pl P _ Hrel H6 eq_refl Hpass).
    + apply (info_local c pl P _ _ _ AtAcquire); try done; [by constructor|].
      split; cbn; [intros Hs; by apply said_other, O1 in Hs|intros Hs; by apply said_other, O2 in Hs| |lia].
      intros _. apply said_print. by right.
    + apply (info_local c pl P _ _ _ AtAcquire); try done; [by constructor|].
      split; cbn; [intros Hs; lia|intros Hs; by apply said_other, O2 in Hs| |].
      * intros _. apply said_print. left. apply O3. by left.
      * intros _. apply said_print. by right.
    + exists (Member 1 (Before 0) tk). split_and!; [right; left; exists (Before 0); by split; [constructor|]| |done|done].
      apply (proc_step pl P (Member 1 (Before 1) tk)); try done.
      * apply (log_same pl P _ (Member 1 (Before 1) tk)); cbn; try done; [by left; lia|].
        intros [?|[_ Hb]]; [lia|by destruct (Hb 0%nat)].
      * left. apply (running_step pl P (Member 1 (Before 1) tk)); try done. cbn. by apply R3.
    + apply (info_local c pl P _ _ _ (Before 1)); try done; [by constructor|].
      split; cbn; [lia|intros Hs; by apply said_other, O2 in Hs| |].
      * intros _. apply said_print. left. apply O3. by left.
      * intros [?|[_ Hb]]; [lia|by destruct (Hb 1%nat)].
  - pose proof H6 as [L1 L2 L3 L4 L5 L6]. unfold local_step, thread in Hl.
    destruct L3 as [(Hc & Hp & Hx)|[(Hc & _)|[(Hc & _)|Hc]]]; rewrite Hc in Hl; cbn in Hl; try done. injection Hl as <-.
    exists m. split_and!; [by left| |done|by rewrite L2]. destruct H4 as [O1 O2 O3 O4].
    apply (proc_step pl P m); try done.
    + split; [lia|lia| |]; intros _; apply said_print; left; [apply O3|apply O4]; left; lia.
    + right. split; try done; cbn; [|by intros _; apply L4; left|by intros _; apply L5; rewrite Hc].
      right. left. split; [done|]. by left.
Qed.

(** ** The thread of callbacks *)

(** A step of the other thread leaves the main thread and its call alone. *)
Lemma callback_rel pl P m P' : proc_rel pl P m ->
  (p_main P', p_pending P', p_lib P', p_replies P', p_xid P', p_session P', p_log P') =
  (p_main P, p_pending P, p_lib P, p_replies P, p_xid P, p_session P, p_log P) ->
  (p_callback P' = Stop \/ p_callback P' = Step (fun _ => true) (set_passed true) (fun _ => Stop)) ->
  (tokens_of P' <= tokens_of P)%nat -> proc_rel pl P' m.
Proof.
  intros [H1 H2 H3 [O1 O2 O3 O4] H5 H6] [= E1 E2 E3 E4 E5 E6 E7] Hc Ht. unfold said in *.
  split; [congruence|done|lia| |by rewrite E4, E5|].
  - split; unfold said; by rewrite E7.
  - rewrite E1. destruct H6 as [H6|[[R1 R2 R3 R4 R5 R6]|[L1 L2 L3 L4 L5 L6]]]; [by left|right; left|right; right].
    + split; rewrite ?E1, ?E2, ?E3, ?E4, ?E5; done.
    + split; rewrite ?E1, ?E2, ?E3, ?E5; done.
Qed.

Lemma event_rel pl P m P' i : proc_rel pl P m -> take_event (fun _ => bar_callback fp) i P = Some P' -> proc_rel pl P' m.
Proof.
  intros Hrel. unfold take_event. destruct (p_callback P) eqn:Ec; try done. destruct (p_events P) as [|e es] eqn:Ee; [done|].
  intros [= <-]. apply (callback_rel pl P m); [done|done| |]; unfold bar_callback; cbn.
  - destruct (_ && _); [by right|by left].
  - unfold tokens_of, taken, token_events. rewrite Ec, Ee. cbn. destruct (pass_event fp e) eqn:Ep; unfold pass_event in Ep; rewrite Ep; cbn; lia.
Qed.

Lemma callback_local_rel pl P m P' : proc_rel pl P m -> local_step T_callback P = Some P' -> proc_rel pl P' m.
Proof.
  intros Hrel. unfold local_step, thread. destruct (pr_callback _ _ _ Hrel) as [Hc|Hc]; rewrite Hc; [done|]. intros [= <-].
  apply (callback_rel pl P m); [done|done|by left|].
  unfold tokens_of, taken, token_events. rewrite Hc. cbn. destruct (passed (p_vars P)); lia.
Qed.

(** ** Replies *)

(** The state of a process that has taken the first reply, before it goes on. *)
Definition took (rest : list (Z * reply_val)) (P : Proc bar_vars) : Proc bar_vars :=
  set_queues rest (p_events P) (set_pending (p_xid P) None P).

Definition reply_result (c : Z) (pl : place) (P : Proc bar_vars) (m : member) (P' : Proc bar_vars) : Prop :=
  exists m', member_move c m m' /\ proc_rel pl P' m' /\ p_xid P' = p_xid P /\ p_pending P' = None.

Lemma reply_exit c pl P m y rest l : proc_rel pl P m -> p_replies P = y :: rest ->
  reply_result c pl P m (continue T_main Exit l (took rest P)).
Proof.
  intros Hrel Hr. exists m. split_and!; [by left| |done|done].
  apply (exit_rel pl P m); try done. rewrite Hr. cbn. intros z Hz. by right.
Qed.

Lemma reply_next c pl P m y rest k l p : proc_rel pl P m -> running pl P m -> p_replies P = y :: rest ->
  fdList l = fdList (p_lib P) -> quiet_move n c (at_point m) p -> code_at pl (round m) p = Some k ->
  in_call (at_point m) = true -> in_call p = false -> calls_left p <= calls_left (at_point m) -> (forall j, p <> Before j) ->
  reply_result c pl P m (continue T_main k l (took rest P)).
Proof.
  intros Hrel Hru Hr Hl Hq Hk Hi Hi' Hcl Hb. exists (goes_to p m). split_and!; [right; left; by exists p| |done|done].
  assert (forall j, at_point m <> Before j) as Hbm by (intros j E; by rewrite E in Hi).
  apply (proc_step pl P m); try done.
  - apply (log_same pl P _ m); try done; [apply Hrel|by right|]. cbn. intros [?|[? _]]; [by left|by right].
  - rewrite Hr. cbn. intros z Hz. by right.
  - left. apply (running_step pl P m); try done; [apply Hru|]. unfold calls_of. cbn. lia.
Qed.

(** What the library makes of the reply, for a call that is inside the round. *)
Lemma lib_get_result i l text meta v l' h : fdList l !! i = Some h ->
  lib_exec lib_junk (L_getContentsAndStat i) (set_client (Answered (RepContents (RC_val (mkContentsAndStat text meta)))) l) =
  Ret v l' -> v = V_contents (Some (mkContentsAndStat text meta)).
Proof.
  intros Hh. unfold lib_exec, ClientLib.getContentsAndStat, ClientLib.find, ClientLib.call, on_client, gets, mbind, M_bind.
  cbn. rewrite Hh. cbn. by intros [= <- _].
Qed.

Ltac next_by pt := eapply (reply_next _ _ _ _ _ _ _ _ pt); try done; first [by constructor|cbn; lia].

Lemma get_reply c pl P rd tk v0 e k v x r rest l : proc_rel pl P (Member rd (InGet v0) tk) ->
  running pl P (Member rd (InGet v0) tk) -> p_replies P = (x, r) :: rest -> 0 <= v0 < 2 ^ 32 -> reads v0 r ->
  code_at pl rd (AtSet (v0 + 1)) = Some (write_number (pl_bar pl) e (to_string (v0 + 1)) k) ->
  lib_exec lib_junk (L_getContentsAndStat (countfdId (pl_bar pl))) (set_client (Answered r) (p_lib P)) = Ret v l ->
  reply_result c pl P (Member rd (InGet v0) tk) (continue T_main
    match v with
    | V_contents (Some v1) =>
        match next_number (cas_content v1) with Some numInBar => write_number (pl_bar pl) e numInBar k | None => Exit end
    | _ => Exit
    end l (took rest P)).
Proof.
  intros Hrel Hru Hr Hv (text & meta & -> & Ht) Hk El. pose proof (lib_exec_handles _ (L_getContentsAndStat _) _ _ _ eq_refl El) as Hl.
  destruct (ru_lib _ _ _ Hru) as [Hh _]. rewrite (lib_get_result _ _ _ _ _ _ _ Hh El). cbn.
  rewrite (shows_next v0 text Ht Hv). by next_by (AtSet (v0 + 1)).
Qed.

Lemma set_reply c pl P rd tk w e k v x r rest l : place_ok pl -> proc_rel pl P (Member rd (InSet w) tk) ->
  running pl P (Member rd (InSet w) tk) -> p_replies P = (x, r) :: rest -> fdList l = fdList (p_lib P) ->
  code_at pl rd AtClear = Some (clear_count (pl_bar pl) e k) -> code_at pl rd AtRelease = Some (release_and_wait (pl_bar pl) k) ->
  reply_result c pl P (Member rd (InSet w) tk) (continue T_main
    (checkErr (val_bool v) (if String.eqb (to_string w) (to_string (num (pl_bar pl)))
      then clear_count (pl_bar pl) e k else release_and_wait (pl_bar pl) k)) l (took rest P)).
Proof.
  intros Hpl Hrel Hru Hr Hl Hk1 Hk2. destruct (val_bool v); [|by eapply reply_exit]. cbn [checkErr].
  rewrite (po_num _ Hpl). destruct (String.eqb_spec (to_string w) (to_string n)) as [E|E].
  - apply to_string_inj in E as ->. by next_by AtClear.
  - eapply (reply_next _ _ _ _ _ _ _ _ AtRelease); try done. apply q_set. intros ->. by apply E.
Qed.

Lemma running_reply c pl P m P' : place_ok pl -> proc_rel pl P m -> running pl P m ->
  (forall v, at_point m = InGet v -> 0 <= v < 2 ^ 32) -> take_reply lib_junk P = Some P' -> reply_result c pl P m P'.
Proof.
  intros Hpl Hrel Hru Hv. unfold take_reply. destruct (p_pending P) as [[t x]|] eqn:Ep; [|done].
  destruct (p_replies P) as [|[x' r] rest] eqn:Er; [done|].
  destruct (in_call (at_point m)) eqn:Ei; [|by rewrite (ru_idle _ _ _ Hru Ei) in Ep].
  destruct (ru_call _ _ _ Hru Ei) as (x0 & Ep' & _ & Hgood). rewrite Ep in Ep'. injection Ep' as -> <-.
  pose proof (ru_code _ _ _ Hru) as Hc. pose proof (ru_round _ _ _ Hru) as Hr. cbn [thread].
  destruct (p_main P) as [| |o k| | |] eqn:Em; try done. intros [= <-]. fold (took rest P).
  destruct (Z.eqb_spec x' x) as [->|_]; [|by eapply reply_exit].
  destruct (lib_exec lib_junk o _) as [v l|e l| |] eqn:El; try by eapply reply_exit.
  assert (no_handle_op o = true -> fdList l = fdList (p_lib P)) as Hl by (intros Ho; by apply (lib_exec_handles _ _ _ _ _ Ho) in El).
  destruct m as [rd p tk]. cbn [round at_point tokens] in *.
  destruct p; try done; destruct rd as [|[|rd]]; try lia; injection Hc as <- <-; specialize (Hl eq_refl).
  1, 2: by next_by AtGet.
  1, 2: (eapply get_reply; [done|done|done|by apply Hv| |done|done]; apply (Hgood v0 r eq_refl); rewrite Er; by left).
  1, 2: (by eapply set_reply).
  1, 2: by destruct (val_bool v); [next_by AtTouch|eapply reply_exit].
  1, 2: by destruct (val_bool v); [next_by AtRegion|eapply reply_exit].
  all: by next_by AtWait.
Qed.

(** Closing forgets the handle. *)
Lemma lib_close_result i h (l : Lib conn) r v l' : fdList l !! i = Some h ->
  lib_exec lib_junk (L_fileClose i) (set_client (Answered r) l) = Ret v l' -> fdList l' = delete i (fdList l).
Proof.
  intros Hh. unfold lib_exec, ClientLib.fileClose, ClientLib.find, ClientLib.call, on_client, set_fdList, gets, modify,
    mbind, M_bind, mret, M_ret. cbn. rewrite Hh. cbn. destruct r; cbn; try done. by intros [= _ <-].
Qed.

Lemma leaving_step pl P m k l rest : place_ok pl -> proc_rel pl P m -> leaving pl P m -> rest ⊆ p_replies P ->
  (k = Stop \/ k = Call (L_fileClose (passedfdId (pl_bar pl))) (fun _ => Stop) /\ p_xid P + 1 <= last_xid /\
    fdList l !! passedfdId (pl_bar pl) = Some (pl_passed pl)) ->
  proc_rel pl (continue T_main k l (took rest P)) m.
Proof.
  intros Hpl Hrel [L1 L2 L3 L4 L5 L6] Hrest Hk. apply (proc_step pl P m); try done.
  - by apply (log_same pl P _ m); [|apply Hrel|..].
  - right. split; try done; cbn.
    + destruct Hk as [->|(-> & Hx & _)]; [by do 3 right|]. right. right. left. split; [done|]. by left.
    + destruct Hk as [->|(-> & _)]; intros [?|E]; try done. injection E as E _. by destruct (po_two _ Hpl).
    + destruct Hk as [->|(-> & _ & Hl)]; done.
Qed.

Lemma leaving_reply c pl P m P' : place_ok pl -> proc_rel pl P m -> leaving pl P m ->
  take_reply lib_junk P = Some P' -> reply_result c pl P m P'.
Proof.
  intros Hpl Hrel Hle. pose proof Hle as [L1 L2 L3 L4 L5 L6]. unfold take_reply. destruct (p_pending P) as [[t x]|] eqn:Ep; [|done].
  destruct (p_replies P) as [|[x' r] rest] eqn:Er; [done|].
  assert (rest ⊆ p_replies P) as Hrest by (rewrite Er; intros z Hz; by right).
  destruct L3 as [(_ & ? & _)|[(Hc & [[? _]|[[x0 E] Hx]])|[(Hc & [[? _]|[[x0 E] Hx]])|Hc]]]; [done|done| |done| |].
  1, 2: (injection E as -> <-).
  3: { destruct t; cbn [thread]; [by rewrite Hc|]. by destruct (pr_callback _ _ _ Hrel) as [->| ->]. }
  all: cbn [thread]; rewrite Hc; intros <-%(inj Some); fold (took rest P);
    destruct (Z.eqb_spec x' x) as [->|_]; [|by eapply reply_exit];
    destruct (lib_exec lib_junk _ _) as [v l|e l| |] eqn:El; try by eapply reply_exit.
  all: exists m; split_and!; [by left| |done|done].
  - assert (fdList l = delete (countfdId (pl_bar pl)) (fdList (p_lib P))) as Hd
      by (eapply lib_close_result; [apply L4; by right|done]).
    apply leaving_step; try done. right. split_and!; [done|done|].
    rewrite Hd, lookup_delete_ne by apply (po_two _ Hpl). apply L5. by rewrite Hc.
  - apply leaving_step; try done. by left.
Qed.
End sim.
