(* ===== verification/BarrierProps.v ===== *)
(** * What the double barrier guarantees, and where it fails

    Processes of [Barrier] over the server of [ServerLogic] follow the abstract
    machine of [BarrierSpec], whatever the interleaving ([step_follows]): no
    process enters before all have come, and none leaves before all want to
    ([barrier_safe]).  The locks of the server are not needed for this.  They
    are needed for the processes to get through, and fail ([barrier_hangs]). *)

From stdpp Require Import functions.
From S2P Require Import Prelude Numbers Names ServerTypes ServerDB ServerDBWf Tree BackstoreRefine Interfaces ClientLib.
From S2P Require Import DbApi TreeStore ServerLogic LogicInv LogicSpec CloseSpec ChubbyApp.
From S2P Require Import BarrierSpec Programs Barrier BarrierServer BarrierRel.

(** ** Deliveries *)

Definition add_tokens (k : nat) (m : member) : member := Member (round m) (at_point m) (k + tokens m).

Lemma count_concat {A} (f : A -> bool) l1 l2 : count f (l1 ++ l2) = (count f l1 + count f l2)%nat.
Proof. induction l1 as [|x l1 IH]; cbn; [done|]. rewrite IH. lia. Qed.

Abbreviation asks := (ask T_main).

Section procs.
Context (fp : string).

(** What the server sends to a process, with at most [k] pass events. *)
Lemma deliver_rel pl P m os k : proc_rel fp pl P m ->
  (forall x r, OReply (p_session P) x r ∈ os -> x < p_xid P /\
     forall v, at_point m = InGet v -> p_pending P = Some (T_main, x) -> reads v r) ->
  (token_events fp (events_for (p_session P) os) <= k)%nat -> proc_rel fp pl (deliver_to os P) (add_tokens k m).
Proof.
  intros [H1 H2 H3 [O1 O2 O3 O4] H5 H6] Hr Hk. rewrite deliver_to_eq. split; try done.
  - unfold tokens_of, token_events, taken in *. cbn. rewrite count_concat. lia.
  - intros x r [Hx|Hx]%elem_of_app; [by apply (H5 x r)|]. apply (Hr x r). by apply elem_of_replies_for.
  - destruct H6 as [H6|[[R1 R2 R3 R4 R5 R6]|[L1 L2 L3 L4 L5 L6]]]; [by left|right; left|right; right]; split; try done.
    cbn. intros Hi. destruct (R4 Hi) as (x & Hx & Hlt & Hv). exists x. split_and!; [done|done|].
    intros v r Hp [Hm|Hm]%elem_of_app; [by apply (Hv v r)|]. apply elem_of_replies_for in Hm. by apply (Hr x r Hm).
Qed.

Lemma asks_running pl P m p : proc_rel fp pl P m -> running pl P m -> in_call p = true ->
  code_at pl (round m) p = code_at pl (round m) (at_point m) -> calls_left p + 1 <= calls_left (at_point m) ->
  (forall j, at_point m <> Before j) -> proc_rel fp pl (asks P) (goes_to p m) /\ p_xid (asks P) = p_xid P + 1.
Proof.
  intros [H1 H2 H3 H4 H5 _] [R1 R2 R3 R4 R5 R6] Hi Hc Hl Hb.
  assert (p_xid (asks P) = p_xid P + 1) as Hx.
  { cbn. apply wrap32_small. unfold u32, last_xid, calls_of in *. destruct p, (round m) as [|[|?]]; cbn in *; lia. }
  split; [|done]. split; try done.
  - apply (log_same pl P _ m); try done; [by right|]. intros [?|[? _]]; [by left|by right].
  - intros x r Hxr. specialize (H5 x r Hxr). lia.
  - right. left. split; try done; cbn.
    + congruence.
    + by rewrite Hi.
    + intros _. exists (p_xid P). split_and!; [done|cbn in Hx; lia|]. intros v r _ Hr. specialize (H5 _ _ Hr). lia.
    + unfold calls_of in *. cbn in *. lia.
Qed.

Lemma asks_leaving pl P m : proc_rel fp pl P m -> leaving pl P m -> p_pending P = None ->
  p_main P <> after_left (pl_bar pl) (pl_name pl) -> p_main P <> Stop ->
  proc_rel fp pl (asks P) m /\ p_xid (asks P) = p_xid P + 1.
Proof.
  intros [H1 H2 H3 H4 H5 _] [L1 L2 L3 L4 L5 L6] Hp Ha Hs.
  assert (p_xid P + 1 <= last_xid) as Hlast.
  { destruct L3 as [(? & _)|[(_ & [[_ ?]|[[? ?] _]])|[(_ & [[_ ?]|[[? ?] _]])|?]]]; try done; try congruence. lia. }
  assert (p_xid (asks P) = p_xid P + 1) as Hx by (cbn; apply wrap32_small; unfold u32, last_xid in *; lia).
  split; [|done]. split; try done.
  - by apply (log_same pl P _ m).
  - intros x r Hxr. specialize (H5 x r Hxr). lia.
  - right. right. split; try done; [|lia]. rewrite Hx. cbn [p_main p_pending ask set_pending].
    destruct L3 as [(? & _)|[(Hc & [[_ ?]|[[? ?] _]])|[(Hc & [[_ ?]|[[? ?] _]])|?]]]; try done; try congruence.
    + right. left. split; [done|]. right. split; [by eexists|lia].
    + right. right. left. split; [done|]. right. split; [by eexists|lia].
Qed.
End procs.

(** ** All processes and the server *)

Section sim.
Context {D : Type} `{!DbApi D} {str_hash : string -> Z} {junk : Z} `{!TreeStore D str_hash junk}.
Context (stale : Z -> FileHandler) (lib_junk : bool).
Context (fc fp : string) (ic ip n : Z) (clients : gmap Z string) (places : list place).

Record rel (w : World D bar_vars) (s : Z * list member) : Prop := {
  re_server : exists text, shows s.1 text /\ bar_server fc fp ic ip clients text (w_server w);
  re_procs i pl : places !! i = Some pl -> exists P m, w_procs w !! i = Some P /\ s.2 !! i = Some m /\ proc_rel fp pl P m;
  re_length : length (w_procs w) = length places /\ length s.2 = length places;
  re_queue f e i P : e ∈ lst (file2lockQueue_map (w_server w)) f -> w_procs w !! i = Some P -> e.1 = p_session P ->
    e.2 < p_xid P /\ forall m v, s.2 !! i = Some m -> at_point m = InGet v -> p_pending P <> Some (T_main, e.2);
}.

(** A step that the server does not take part in. *)
Lemma rel_local w c ms i pl P m P' m' : rel w (c, ms) -> places !! i = Some pl -> w_procs w !! i = Some P ->
  ms !! i = Some m -> proc_rel fp pl P' m' -> p_xid P' = p_xid P -> p_session P = pl_session pl ->
  (forall v, at_point m' = InGet v -> p_pending P' = None \/ m' = m /\ p_pending P' = p_pending P) ->
  rel (mkWorld (w_server w) (<[i := P']> (w_procs w))) (c, <[i := m']> ms).
Proof.
  intros [R1 R2 [L1 L2] R4] Hpl HP Hm Hrel Hx Hse Hget. cbn in *. split; cbn.
  - done.
  - intros j plj Hj. destruct (decide (j = i)) as [->|Hji].
    + assert (plj = pl) as -> by congruence. exists P', m'.
      rewrite !list_lookup_insert_eq by (by eapply lookup_lt_Some). done.
    + rewrite !list_lookup_insert_ne by done. by apply R2.
  - by rewrite !length_insert.
  - intros f e j Q He HQ Hes. destruct (decide (j = i)) as [->|Hji].
    + rewrite list_lookup_insert_eq in HQ by (by eapply lookup_lt_Some). injection HQ as <-.
      destruct (R4 f e i P He HP) as [H1 H2]; [rewrite Hes, (pr_session _ _ _ _ Hrel); congruence|]. rewrite Hx. split; [done|].
      intros m2 v Hm2 Hv. rewrite list_lookup_insert_eq in Hm2 by (by eapply lookup_lt_Some). injection Hm2 as <-.
      destruct (Hget v Hv) as [->|[-> ->]]; [done|]. by eapply H2.
    + rewrite list_lookup_insert_ne in HQ by done. destruct (R4 f e j Q He HQ Hes) as [H1 H2]. split; [done|].
      intros m2 v Hm2. rewrite list_lookup_insert_ne in Hm2 by done. by apply H2.
Qed.

Lemma same_session j i plj pl : NoDup (pl_session <$> places) -> places !! j = Some plj -> places !! i = Some pl ->
  pl_session plj = pl_session pl -> j = i.
Proof.
  intros Hnd Hj Hi E. apply (NoDup_lookup (pl_session <$> places) j i (pl_session pl)); [done|..]; rewrite list_lookup_fmap.
  - rewrite Hj. cbn. by f_equal.
  - by rewrite Hi.
Qed.

Lemma insert_at {A} (l : list A) i x j : (i < length l)%nat -> <[i := x]> l !! j = if decide (j = i) then Some x else l !! j.
Proof. intros Hi. case_decide as E; [subst j; by apply list_lookup_insert_eq|by apply list_lookup_insert_ne]. Qed.

(** A request of the process [i], as the server handles it. *)
Lemma serve_rel w c ms i pl P P1 m1 c' text s' k : rel w (c, ms) -> NoDup (pl_session <$> places) ->
  places !! i = Some pl -> w_procs w !! i = Some P -> p_session P = pl_session pl ->
  proc_rel fp pl P1 m1 -> p_xid P1 = p_xid P + 1 -> p_pending P1 = Some (T_main, p_xid P) ->
  shows c' text -> bar_server fc fp ic ip clients text (on_out (fun _ => []) s') ->
  (forall se x r, OReply se x r ∈ out s' ->
     se = pl_session pl /\ x = p_xid P /\ (forall v, at_point m1 = InGet v -> reads v r) \/
     exists f, (se, x) ∈ lst (file2lockQueue_map (w_server w)) f) ->
  (forall j plj, places !! j = Some plj -> (token_events fp (events_for (pl_session plj) (out s')) <= k)%nat) ->
  (forall f e, e ∈ lst (file2lockQueue_map s') f -> e ∈ lst (file2lockQueue_map (w_server w)) f \/
     e = (pl_session pl, p_xid P) /\ forall v, at_point m1 <> InGet v) ->
  rel (mkWorld (on_out (fun _ => []) s') (deliver_to (out s') <$> <[i := P1]> (w_procs w)))
      (c', add_tokens k <$> <[i := m1]> ms).
Proof.
  intros [R1 R2 [L1 L2] R4] Hnd Hpl HP Hse H1 Hx Hpend Hc Hsrv Hrep Hev Hq. cbn in *.
  pose proof (lookup_lt_Some _ _ _ Hpl) as Hlt.
  pose proof (insert_at (w_procs w) i P1) as EP. pose proof (insert_at ms i m1) as Em. rewrite L1 in EP. rewrite L2 in Em.
  split; cbn.
  - by exists text.
  - intros j plj Hj. rewrite !list_lookup_fmap, EP, Em by done. case_decide as Hji.
    + subst j. assert (plj = pl) as -> by congruence. exists (deliver_to (out s') P1), (add_tokens k m1). split_and!; [done|done|].
      apply deliver_rel; [done| |rewrite (pr_session _ _ _ _ H1); by eapply Hev].
      intros x r Hr. rewrite (pr_session _ _ _ _ H1) in Hr. destruct (Hrep _ _ _ Hr) as [(_ & -> & Hv)|[f Hf]].
      * split; [lia|]. intros v Hp _. by apply Hv.
      * destruct (R4 f _ i P Hf HP ltac:(by rewrite Hse)) as [Hl _]. cbn in Hl. split; [lia|].
        intros v _ E. rewrite Hpend in E. injection E as E. lia.
    + destruct (R2 j plj Hj) as (Pj & mj & HPj & Hmj & Hrelj). rewrite HPj, Hmj.
      exists (deliver_to (out s') Pj), (add_tokens k mj). split_and!; [done|done|].
      pose proof (pr_session _ _ _ _ Hrelj) as Hsj. apply deliver_rel; [done| |rewrite Hsj; by eapply Hev].
      intros x r Hr. rewrite Hsj in Hr. destruct (Hrep _ _ _ Hr) as [(Hs2 & _)|[f Hf]].
      * destruct Hji. by apply (same_session j i plj pl).
      * destruct (R4 f _ j Pj Hf HPj (eq_sym Hsj)) as [Hl Hn]. split; [done|]. intros v Hp E. by destruct (Hn mj v Hmj Hp).
  - by rewrite !length_fmap, !length_insert.
  - intros f e j Q He HQ Hes. rewrite list_lookup_fmap, EP in HQ by done. rewrite list_lookup_fmap, Em by done. case_decide as Hji.
    + subst j. injection HQ as <-. rewrite deliver_to_eq in Hes |- *. cbn in *. rewrite (pr_session _ _ _ _ H1) in Hes.
      destruct (Hq f e He) as [He'|[-> Hg]].
      * destruct (R4 f e i P He' HP ltac:(by rewrite Hse)) as [Hl _]. split; [lia|]. intros m v _ _. rewrite Hpend.
        intros E. injection E as E. lia.
      * split; [cbn; lia|]. intros m v [= <-] Hp. by destruct (Hg v).
    + destruct (w_procs w !! j) as [Pj|] eqn:HPj; [|done]. injection HQ as <-. rewrite deliver_to_eq in Hes |- *. cbn in *.
      destruct (Hq f e He) as [He'|[-> _]].
      * destruct (R4 f e j Pj He' HPj Hes) as [Hl Hn]. split; [done|]. intros m v Hm Hp.
        destruct (ms !! j) as [mj|] eqn:Emj; [|done]. injection Hm as <-. by apply (Hn mj v).
      * destruct Hji. assert (exists plj, places !! j = Some plj) as [plj Hplj].
        { apply lookup_lt_is_Some. rewrite <-L1. by eapply lookup_lt_Some. }
        destruct (R2 j plj Hplj) as (Pj' & mj & HPj' & _ & Hrelj). assert (Pj' = Pj) as -> by congruence.
        apply (same_session j i plj pl); try done. by rewrite <-(pr_session _ _ _ _ Hrelj).
Qed.

(** ** Calls *)

Abbreviation cleared_server w := (on_out (fun _ => []) (w_server w)).

Lemma begin_main o k h q idx i P (w w' : World D bar_vars) : p_main P = Call o k -> request_of o h = Some (q, idx) ->
  fdList (p_lib P) !! idx = Some h -> p_pending P = None ->
  begin_call str_hash stale lib_junk i T_main P w = Some w' ->
  exists s', handle str_hash stale q (p_session P) (p_xid P) (cleared_server w) = Ret tt s' /\
    w' = mkWorld (on_out (fun _ => []) s') (deliver_to (out s') <$> <[i := asks P]> (w_procs w)).
Proof.
  apply (begin_asks str_hash stale lib_junk o k h q idx i T_main P w w').
Qed.

Lemma cleared_ok text s : bar_server fc fp ic ip clients text s -> bar_server fc fp ic ip clients text (on_out (fun _ => []) s).
Proof. intros [B1 B2 B3 B4 B5 B6 B7 B8]. by split. Qed.

Lemma add_no_tokens (ms : list member) : add_tokens 0 <$> ms = ms.
Proof. induction ms as [|[r p t] ms IH]; cbn; [done|]. by rewrite IH. Qed.

Lemma no_tokens se os : (forall o, o ∈ os -> match o with OEvent _ e => pass_event fp e = false | _ => True end) ->
  token_events fp (events_for se os) = 0%nat.
Proof.
  induction os as [|o os IH]; intros H; [done|].
  assert (token_events fp (events_for se os) = 0%nat) as E by (apply IH; intros o' Ho; apply H; by right).
  specialize (H o ltac:(by left)). destruct o as [|se' e]; [done|]. cbn. destruct (se' =? se); [|done]. cbn. by rewrite H.
Qed.

(** A call that sends no pass event. *)
Lemma calm_rel w c ms i pl P P1 m1 c' text s' : rel w (c, ms) -> NoDup (pl_session <$> places) ->
  places !! i = Some pl -> w_procs w !! i = Some P -> p_session P = pl_session pl ->
  proc_rel fp pl P1 m1 -> p_xid P1 = p_xid P + 1 -> p_pending P1 = Some (T_main, p_xid P) -> shows c' text ->
  calm fc fp ic ip clients (p_session P) (p_xid P) text (cleared_server w) s' ->
  (forall v, at_point m1 = InGet v -> file2lockQueue_map s' = file2lockQueue_map (w_server w) /\
     forall x r, OReply (p_session P) x r ∈ out s' -> reads v r) ->
  rel (mkWorld (on_out (fun _ => []) s') (deliver_to (out s') <$> <[i := P1]> (w_procs w))) (c', <[i := m1]> ms).
Proof.
  intros Hrel Hnd Hpl HP Hse H1 Hx Hpend Hc [C1 C2 C3] Hg. rewrite list.Forall_forall in C2. rewrite Hse in *.
  assert (forall v, at_point m1 = InGet v -> forall se x f, (se, x) ∈ lst (file2lockQueue_map s') f ->
    (se, x) ∈ lst (file2lockQueue_map (w_server w)) f) as Hqs by (intros v Hv; by rewrite (proj1 (Hg v Hv))).
  rewrite <-(add_no_tokens (<[i := m1]> ms)). eapply (serve_rel w c ms i pl P P1 m1 c' text s' 0); try done.
  - intros se x r Hr. destruct (C2 _ Hr) as [[= -> ->]|Hf]; [|by right]. left. split_and!; [done|done|].
    intros v Hv. by apply (proj2 (Hg v Hv) (p_xid P)).
  - intros j plj _. rewrite no_tokens; [done|]. intros o Ho. specialize (C2 o Ho). by destruct o.
  - intros f [se x] He. destruct (C3 f _ He) as [Hq|[= -> ->]]; [by left|].
    assert ((exists v, at_point m1 = InGet v) \/ forall v, at_point m1 <> InGet v) as [[v Hv]|Hn]
      by (destruct (at_point m1); (right; intros v E; discriminate E) || (left; by eexists)); [left; by eapply Hqs|right].
    by split.
Qed.

Context (Hfc : name_ok fc = true) (Hfp : name_ok fp = true) (Hne : fc <> fp) (Hic : u32 ic) (Hip : u32 ip).
Context (Hclients : forall se cl, clients !! se = Some cl -> cl <> "" /\ plain cl = true).
Context (Hn : u32 n) (Hsessions : NoDup (pl_session <$> places)) (Hplaces : Forall (place_ok fc fp ic ip n clients) places).

(** The process [i] at a call of the round, with the point inside it. *)
Record calling (w : World D bar_vars) c ms i pl P m o k h q idx p : Prop := {
  ca_rel : rel w (c, ms);
  ca_place : places !! i = Some pl;
  ca_proc : w_procs w !! i = Some P;
  ca_member : ms !! i = Some m;
  ca_ok : proc_rel fp pl P m;
  ca_running : running pl P m;
  ca_idle : p_pending P = None;
  ca_call : p_main P = Call o k;
  ca_request : request_of o h = Some (q, idx);
  ca_handle : fdList (p_lib P) !! idx = Some h;
  ca_in : in_call p = true;
  ca_code : code_at pl (round m) p = code_at pl (round m) (at_point m);
  ca_left : calls_left p + 1 <= calls_left (at_point m);
  ca_round : forall j, at_point m <> Before j;
}.

Lemma calling_calm w c ms i pl P m o k h q idx p w' : calling w c ms i pl P m o k h q idx p ->
  begin_call str_hash stale lib_junk i T_main P w = Some w' ->
  exists s', handle str_hash stale q (p_session P) (p_xid P) (cleared_server w) = Ret tt s' /\
    w' = mkWorld (on_out (fun _ => []) s') (deliver_to (out s') <$> <[i := asks P]> (w_procs w)) /\
    forall c' text, shows c' text -> calm fc fp ic ip clients (p_session P) (p_xid P) text (cleared_server w) s' ->
      (forall v, p = InGet v -> file2lockQueue_map s' = file2lockQueue_map (w_server w) /\
         forall x r, OReply (p_session P) x r ∈ out s' -> reads v r) ->
      rel w' (c', <[i := goes_to p m]> ms).
Proof.
  intros [C1 C2 C3 C4 C5 C6 C7 C8 C9 C10 C11 C12 C13 C14] Hb.
  destruct (begin_main _ _ _ _ _ _ _ _ _ C8 C9 C10 C7 Hb) as (s' & Hh & ->). exists s'. split_and!; [done|done|].
  destruct (asks_running fp pl P m p C5 C6 C11 C12 C13 C14) as [Ha Hx].
  intros c' text Hs Hcalm Hg. eapply calm_rel; try done. by rewrite (pr_session _ _ _ _ C5).
Qed.

Lemma place_at i pl : places !! i = Some pl -> place_ok fc fp ic ip n clients pl.
Proof. apply Forall_lookup_1. exact Hplaces. Qed.

Lemma client_at i pl P m : places !! i = Some pl -> proc_rel fp pl P m -> is_Some (clients !! p_session P).
Proof. intros Hi Hr. rewrite (pr_session _ _ _ _ Hr). by eapply po_client, place_at. Qed.

Definition call_result (c : Z) (ms : list member) (w' : World D bar_vars) : Prop :=
  exists s', follows n c ms s' /\ rel w' s'.

(** The lock. *)
Lemma acquire_call w c ms i pl P m k w' :
  calling w c ms i pl P m (L_acquire (countfdId (pl_bar pl))) k (pl_count pl) (Q_acquire (pl_count pl)) (countfdId (pl_bar pl)) InAcquire ->
  at_point m = AtAcquire -> begin_call str_hash stale lib_junk i T_main P w = Some w' -> call_result c ms w'.
Proof.
  intros Hca Hp Hb. destruct (calling_calm _ _ _ _ _ _ _ _ _ _ _ _ _ _ Hca Hb) as (s' & Hh & _ & Hrel).
  destruct (re_server _ _ (ca_rel _ _ _ _ _ _ _ _ _ _ _ _ _ Hca)) as (text & Ht & Hs).
  exists (c, <[i := goes_to InAcquire m]> ms). split.
  - right. constructor; [apply Hca|]. rewrite Hp. constructor.
  - apply (Hrel c text Ht); [|done]. eapply acquire_calm; try done; [by apply cleared_ok| |].
    + by eapply po_count, place_at, Hca.
    + eapply client_at; by eapply Hca.
Qed.

Lemma release_call w c ms i pl P m k w' :
  calling w c ms i pl P m (L_release (countfdId (pl_bar pl))) k (pl_count pl) (Q_release (pl_count pl)) (countfdId (pl_bar pl)) InRelease ->
  at_point m = AtRelease -> begin_call str_hash stale lib_junk i T_main P w = Some w' -> call_result c ms w'.
Proof.
  intros Hca Hp Hb. destruct (calling_calm _ _ _ _ _ _ _ _ _ _ _ _ _ _ Hca Hb) as (s' & Hh & _ & Hrel).
  destruct (re_server _ _ (ca_rel _ _ _ _ _ _ _ _ _ _ _ _ _ Hca)) as (text & Ht & Hs).
  exists (c, <[i := goes_to InRelease m]> ms). split.
  - right. constructor; [apply Hca|]. rewrite Hp. constructor.
  - apply (Hrel c text Ht); [|done]. eapply release_calm; try done; [by apply cleared_ok| |].
    + by eapply po_count, place_at, Hca.
    + eapply client_at; by eapply Hca.
Qed.

(** Reading the counter: the reply carries it. *)
Lemma get_call w c ms i pl P m k w' :
  calling w c ms i pl P m (L_getContentsAndStat (countfdId (pl_bar pl))) k (pl_count pl)
    (Q_getContentsAndStat (pl_count pl)) (countfdId (pl_bar pl)) (InGet c) ->
  at_point m = AtGet -> 0 <= c <= n -> begin_call str_hash stale lib_junk i T_main P w = Some w' -> call_result c ms w'.
Proof.
  intros Hca Hp Hc Hb. destruct (calling_calm _ _ _ _ _ _ _ _ _ _ _ _ _ _ Hca Hb) as (s' & Hh & _ & Hrel).
  destruct (re_server _ _ (ca_rel _ _ _ _ _ _ _ _ _ _ _ _ _ Hca)) as (text & Ht & Hs).
  destruct (shows_text c text Ht) as [_ Hl]; [unfold u32 in *; lia|].
  destruct (read_calm stale fc fp ic ip clients Hfc Hic (pl_count pl) (p_session P) (p_xid P) text (cleared_server w) s')
    as (Hcalm & Hq & meta & Ho); [by apply cleared_ok|by eapply po_count, place_at, Hca|lia|done|].
  exists (c, <[i := goes_to (InGet c) m]> ms). split.
  - right. constructor; [apply Hca|]. rewrite Hp. constructor.
  - apply (Hrel c text Ht Hcalm). intros v [= <-]. split; [done|]. intros x r Hr. rewrite Ho in Hr.
    unfold reply_msgs in Hr. destruct (_ =? _); [by apply elem_of_nil in Hr|]. apply list_elem_of_singleton in Hr as [= -> ->].
    by exists text, meta.
Qed.

(** Writing it. *)
Lemma write_call w c ms i pl P m k new c' p w' :
  calling w c ms i pl P m (L_setContents (countfdId (pl_bar pl)) new) k (pl_count pl)
    (Q_setContents (mkArgSetContents (pl_count pl) new)) (countfdId (pl_bar pl)) p ->
  plain new = true -> shows c' new -> (forall v, p <> InGet v) -> moves n (c, ms) (c', <[i := goes_to p m]> ms) ->
  begin_call str_hash stale lib_junk i T_main P w = Some w' -> call_result c ms w'.
Proof.
  intros Hca Hnew Hs' Hp Hm Hb. destruct (calling_calm _ _ _ _ _ _ _ _ _ _ _ _ _ _ Hca Hb) as (s' & Hh & _ & Hrel).
  destruct (re_server _ _ (ca_rel _ _ _ _ _ _ _ _ _ _ _ _ _ Hca)) as (text & Ht & Hs).
  exists (c', <[i := goes_to p m]> ms). split; [by right|].
  apply (Hrel c' new Hs'); [|by intros v Hv%Hp]. eapply write_calm; try done; [by apply cleared_ok|].
  by eapply po_count, place_at, Hca.
Qed.

Lemma token_event_cons se t e os : token_events fp (events_for se (OEvent t e :: os)) =
  ((if (t =? se)%Z then if pass_event fp e then 1 else 0 else 0) + token_events fp (events_for se os))%nat.
Proof. cbn. by destruct (t =? se). Qed.

(** Touching the other file: an event for every process at most. *)
Lemma pass_events_once se m x :
  NoDup (lst m fp) -> (token_events fp (events_for se (bool_msgs x.1 x.2 (RB_val true) ++ event_msgs m EV_CONTENT_MODIFIED fp)) <= 1)%nat.
Proof.
  intros Hnd.
  assert (forall l, NoDup l ->
    (token_events fp (events_for se ((fun t => OEvent t (mkEventContent EV_CONTENT_MODIFIED fp)) <$> l)) <= if bool_decide (se ∈ l) then 1 else 0)%nat) as H.
  { induction 1 as [|t l Ht Hl IH]; [done|]. rewrite fmap_cons, token_event_cons. destruct (Z.eqb_spec t se) as [->|Hts].
    - rewrite bool_decide_true by by left. rewrite bool_decide_false in IH by done.
      destruct (pass_event fp (mkEventContent EV_CONTENT_MODIFIED fp)); lia.
    - rewrite (bool_decide_ext (se ∈ t :: l) (se ∈ l)); [exact IH|]. rewrite elem_of_cons. split; [intros [?|?]; congruence|by right]. }
  specialize (H _ Hnd). unfold event_msgs, bool_msgs, reply_msgs. unfold token_events, events_for in *.
  destruct (_ =? _); cbn; case_bool_decide; lia.
Qed.

Lemma touch_call w c ms i pl P m k w' :
  calling w c ms i pl P m (L_setContents (passedfdId (pl_bar pl)) "") k (pl_passed pl)
    (Q_setContents (mkArgSetContents (pl_passed pl) "")) (passedfdId (pl_bar pl)) InTouch ->
  at_point m = AtTouch -> begin_call str_hash stale lib_junk i T_main P w = Some w' -> call_result c ms w'.
Proof.
  intros Hca Hp Hb. pose proof Hca as [C1 C2 C3 C4 C5 C6 C7 C8 C9 C10 C11 C12 C13 C14].
  destruct (begin_main _ _ _ _ _ _ _ _ _ C8 C9 C10 C7 Hb) as (s' & Hh & ->).
  destruct (asks_running fp pl P m InTouch C5 C6 C11 C12 C13 C14) as [Ha Hx].
  destruct (re_server _ _ C1) as (text & Ht & Hs).
  destruct (touch_effect stale fc fp ic ip clients Hfp Hne Hip (pl_passed pl) (p_session P) (p_xid P) text (cleared_server w) s')
    as (Hs' & Ho & Hq); [by apply cleared_ok|by eapply po_passed, place_at|done|].
  exists (c, give_token <$> <[i := goes_to InTouch m]> ms). split; [right; by constructor|].
  eapply (serve_rel w c ms i pl P (asks P) (goes_to InTouch m) c text s' 1); try done; [by apply C5| | |].
  - intros se x r Hr. rewrite Ho in Hr. apply elem_of_app in Hr as [Hr|Hr].
    + unfold bool_msgs, reply_msgs in Hr. destruct (_ =? _); [by apply elem_of_nil in Hr|].
      apply list_elem_of_singleton in Hr as [= -> -> ->]. left. by rewrite (pr_session _ _ _ _ C5).
    + by apply list_elem_of_fmap in Hr as (t & ? & _).
  - intros j plj _. rewrite Ho. apply (pass_events_once _ _ (p_session P, p_xid P)). apply Hs.
  - intros f e He. left. by rewrite Hq in He.
Qed.

(** Closing, after the last round. *)
Lemma close_call w c ms i pl P m idx h k w' : rel w (c, ms) -> places !! i = Some pl -> w_procs w !! i = Some P ->
  ms !! i = Some m -> proc_rel fp pl P m -> leaving pl P m -> p_pending P = None ->
  p_main P = Call (L_fileClose idx) k -> fdList (p_lib P) !! idx = Some h -> count_handle fc ic h \/ passed_handle fp ip h ->
  begin_call str_hash stale lib_junk i T_main P w = Some w' -> call_result c ms w'.
Proof.
  intros Hrel Hpl HP Hm Hok Hle Hp Hc Hh Hf Hb.
  destruct (begin_main _ _ _ _ _ _ _ _ _ Hc eq_refl Hh Hp Hb) as (s' & Hs & ->).
  destruct (asks_leaving fp pl P m Hok Hle Hp) as [Ha Hx]; [by rewrite Hc..|].
  destruct (re_server _ _ Hrel) as (text & Ht & Hsrv). exists (c, <[i := m]> ms). split.
  - left. by rewrite list_insert_id.
  - eapply calm_rel; try done; [by eapply pr_session| |].
    + eapply close_calm; try done; [by apply cleared_ok|by eapply client_at].
    + intros v Hv. by rewrite (le_over _ _ _ Hle) in Hv.
Qed.

Lemma leaving_call w c ms i pl P m w' : rel w (c, ms) -> places !! i = Some pl -> w_procs w !! i = Some P ->
  ms !! i = Some m -> proc_rel fp pl P m -> leaving pl P m ->
  begin_call str_hash stale lib_junk i T_main P w = Some w' -> call_result c ms w'.
Proof.
  intros Hrel Hpl HP Hm Hok Hle Hb. pose proof Hle as [L1 L2 L3 L4 L5 L6]. pose proof (place_at i pl Hpl) as [Q1 Q2 Q3 Q4 Q5].
  assert (p_pending P = None) as Hp.
  { unfold begin_call in Hb. destruct (thread P T_main); try done. by destruct (p_pending P). }
  destruct L3 as [(Hc & _)|[(Hc & _)|[(Hc & _)|Hc]]].
  - unfold begin_call in Hb. cbn [thread] in Hb. by rewrite Hc in Hb.
  - eapply close_call; try done; [by apply L4; right|by left].
  - eapply close_call; try done; [by apply L5; rewrite Hc|by right].
  - unfold begin_call in Hb. cbn [thread] in Hb. by rewrite Hc in Hb.
Qed.

(** The calls of a round. *)
Lemma running_call w c ms i pl P m w' : rel w (c, ms) -> places !! i = Some pl -> w_procs w !! i = Some P ->
  ms !! i = Some m -> proc_rel fp pl P m -> running pl P m -> 0 <= c <= n -> (forall v, at_point m = AtSet v -> 1 <= v <= n + 1) ->
  begin_call str_hash stale lib_junk i T_main P w = Some w' -> call_result c ms w'.
Proof.
  intros Hrel Hpl HP Hm Hok Hru Hcn Hset Hb. pose proof Hru as [R1 R2 R3 R4 [R5 R6] R7].
  assert (p_pending P = None /\ exists o k, p_main P = Call o k) as [Hp (o & k & Hc)].
  { unfold begin_call in Hb. cbn [thread] in Hb. destruct (p_main P); try done. destruct (p_pending P); [done|by eauto]. }
  destruct (in_call (at_point m)) eqn:Ei; [by destruct (R4 eq_refl) as (x & Hx & _); rewrite Hp in Hx|].
  destruct m as [r p tk]. cbn [round at_point tokens] in *.
  assert (forall q h idx p', request_of o h = Some (q, idx) -> fdList (p_lib P) !! idx = Some h -> in_call p' = true ->
    code_at pl r p' = code_at pl r p -> calls_left p' + 1 <= calls_left p -> (forall j, p <> Before j) ->
    calling w c ms i pl P (Member r p tk) o k h q idx p') as Hca by (intros; by split).
  destruct r as [|[|r]]; [| |lia]; destruct p as [[|[|[|j]]]| | | | |v| | | | | | | | | |]; cbn in R2; try done;
    rewrite Hc in R2; (injection R2 as <- <- || (injection R2 as R2; discriminate R2)).
  all: first [ by eapply acquire_call; [apply Hca|..]
             | by eapply release_call; [apply Hca|..]
             | by eapply get_call; [apply Hca|..]
             | by eapply touch_call; [apply Hca|..]
             | idtac ].
  1, 3: specialize (Hset v eq_refl); destruct (to_string_plain v) as [Ht _]; [unfold u32 in *; lia|];
    eapply (write_call _ _ _ _ _ _ _ _ _ v (InSet v)); [by apply Hca|done| |done|by constructor|done]; right; split; [lia|done].
  all: eapply (write_call _ _ _ _ _ _ _ _ _ 0 InClear); [by apply Hca|done| |done|by constructor|done]; by left.
Qed.

(** ** Steps *)

Lemma inv_bounds t c ms i m : barrier_inv n t (c, ms) -> ms !! i = Some m ->
  0 <= c <= n /\ (forall v, at_point m = AtSet v -> 1 <= v <= n + 1) /\ (forall v, at_point m = InGet v -> 0 <= v < 2 ^ 32).
Proof.
  intros Hinv Hm. pose proof (bi_size _ _ _ Hinv) as Hs. pose proof (bi_count _ _ _ Hinv) as Hc. cbn in *.
  assert (writers t ms <= n) as Hw by (unfold writers; pose proof (count_length (writer t) ms); lia).
  pose proof (mo_read _ _ _ _ _ (bi_member _ _ _ Hinv i m Hm)) as Hr. cbn in Hr. unfold u32 in Hn. split_and!; [lia|lia|..].
  - intros v Hv. specialize (Hr (v - 1)). replace (v - 1 + 1) with v in Hr by lia. specialize (Hr ltac:(by right)). lia.
  - intros v Hv. specialize (Hr v ltac:(by left)). lia.
Qed.

Lemma alive_main {L} (P : Proc L) : alive P = true -> p_main P <> Exit.
Proof. intros Ha E. unfold alive in Ha. by rewrite E in Ha. Qed.

(** A step of one process alone. *)
Lemma local_follows w c ms i pl P m P' m' : rel w (c, ms) -> places !! i = Some pl -> w_procs w !! i = Some P ->
  ms !! i = Some m -> proc_rel fp pl P m -> member_move n c m m' -> proc_rel fp pl P' m' -> p_xid P' = p_xid P ->
  (forall v, at_point m' = InGet v -> p_pending P' = None \/ m' = m /\ p_pending P' = p_pending P) ->
  call_result c ms (mkWorld (w_server w) (<[i := P']> (w_procs w))).
Proof.
  intros Hrel Hpl HP Hm Hok Hmv Hok' Hx Hg. exists (c, <[i := m']> ms). split; [by eapply move_follows|].
  eapply rel_local; try done. by eapply pr_session.
Qed.

(** A step that the member does not see. *)
Lemma unseen_follows w c ms i pl P m P' : rel w (c, ms) -> places !! i = Some pl -> w_procs w !! i = Some P ->
  ms !! i = Some m -> proc_rel fp pl P m -> proc_rel fp pl P' m -> p_xid P' = p_xid P -> p_pending P' = p_pending P ->
  call_result c ms (mkWorld (w_server w) (<[i := P']> (w_procs w))).
Proof. intros ????? ? Hx Hp. eapply local_follows; try done; [by left|]. intros _ _. by right. Qed.

Lemma event_keeps i P P' : take_event (fun _ => bar_callback fp) i P = Some P' -> p_xid P' = p_xid P /\ p_pending P' = p_pending P.
Proof. unfold take_event. destruct (p_callback P); try done. destruct (p_events P); [done|]. by intros [= <-]. Qed.

Lemma local_keeps t (P P' : Proc bar_vars) : local_step t P = Some P' -> p_xid P' = p_xid P /\ p_pending P' = p_pending P.
Proof.
  unfold local_step. destruct (thread P t); try done; [|by intros [= <-]..].
  destruct (ready (p_vars P)); [by intros [= <-]|done].
Qed.

(** Every step of the program is one of the machine, or none. *)
Lemma step_follows a w c ms t w' : rel w (c, ms) -> barrier_inv n t (c, ms) -> (forall i, a <> Act_end i) ->
  step str_hash stale lib_junk (fun _ => bar_callback fp) a w = Some w' -> call_result c ms w'.
Proof.
  intros Hrel Hinv Hend Hs. pose proof Hrel as [_ R2 [L1 L2] _]. cbn in R2, L2.
  assert (exists i P, w_procs w !! i = Some P /\ alive P = true /\
    (a = Act_call i T_main \/ a = Act_call i T_callback \/ a = Act_reply i \/ a = Act_event i \/ a = Act_local i T_main \/
     a = Act_local i T_callback)) as (i & P & HP & Hal & Ha).
  { destruct a as [i [|]|i|i|i [|]|i]; try (by destruct (Hend i)); cbn in Hs; destruct (w_procs w !! i) as [P|] eqn:HP;
      try done; cbn in Hs; destruct (alive P) eqn:Hal; try done; exists i, P; by tauto. }
  assert (is_Some (places !! i)) as [pl Hpl] by (apply lookup_lt_is_Some; rewrite <-L1; by eapply lookup_lt_Some).
  destruct (R2 i pl Hpl) as (P' & m & HP' & Hm & Hok). assert (P' = P) as -> by congruence. clear HP'.
  destruct (inv_bounds t c ms i m Hinv Hm) as (Hc & Hset & Hget). pose proof (alive_main P Hal) as Hex.
  pose proof (place_at i pl Hpl) as Hpo.
  destruct Ha as [->|[->|[->|[->|[->| ->]]]]]; cbn in Hs; rewrite HP in Hs; cbn in Hs; rewrite Hal in Hs.
  - destruct (pr_main _ _ _ _ Hok) as [|[Hru|Hle]]; [done|by eapply running_call|by eapply leaving_call].
  - unfold begin_call in Hs. cbn [thread] in Hs. by destruct (pr_callback _ _ _ _ Hok) as [E|E]; rewrite E in Hs.
  - destruct (take_reply lib_junk P) as [P1|] eqn:E; [|done]. injection Hs as <-.
    assert (reply_result fp n c pl P m P1) as (m' & Hmv & Hok' & Hx & Hp).
    { destruct (pr_main _ _ _ _ Hok) as [|[Hru|Hle]]; [done|by eapply running_reply|by eapply leaving_reply]. }
    eapply local_follows; try done. intros v _. by left.
  - destruct (take_event _ i P) as [P1|] eqn:E; [|done]. injection Hs as <-. destruct (event_keeps _ _ _ E).
    eapply unseen_follows; try done. by eapply event_rel.
  - destruct (local_step T_main P) as [P1|] eqn:E; [|done]. injection Hs as <-.
    destruct (main_local fp n c pl P m P1 Hok E Hex) as (m' & Hmv & Hok' & Hx & Hg).
    eapply local_follows; try done. intros v Hv. by destruct (Hg v).
  - destruct (local_step T_callback P) as [P1|] eqn:E; [|done]. injection Hs as <-. destruct (local_keeps _ _ _ E).
    eapply unseen_follows; try done. by eapply callback_local_rel.
Qed.

(** ** From the end of the constructor *)

(** A process before [main] goes to the barrier. *)
Record comes (pl : place) (P : Proc bar_vars) : Prop := {
  co_session : p_session P = pl_session pl;
  co_main : p_main P = bar_main (pl_bar pl) (pl_name pl);
  co_callback : p_callback P = Stop;
  co_passed : passed (p_vars P) = false;
  co_idle : p_pending P = None /\ p_replies P = [];
  co_events : token_events fp (p_events P) = 0%nat;
  co_log : p_log P = [];
  co_handles : fdList (p_lib P) !! countfdId (pl_bar pl) = Some (pl_count pl) /\
    fdList (p_lib P) !! passedfdId (pl_bar pl) = Some (pl_passed pl);
  co_xid : 0 <= p_xid P <= last_xid - 14;
}.

Record ready (w : World D bar_vars) : Prop := {
  rd_server : bar_server fc fp ic ip clients "" (w_server w);
  rd_queue f : lst (file2lockQueue_map (w_server w)) f = [];
  rd_length : length (w_procs w) = length places;
  rd_proc i pl P : places !! i = Some pl -> w_procs w !! i = Some P -> comes pl P;
}.

Definition all_come : list member := start <$> replicate (length places) (Before 0).

Lemma comes_rel pl P : comes pl P -> proc_rel fp pl P (start (Before 0)).
Proof.
  intros [C1 C2 C3 C4 [C5 C5'] C6 C7 C8 C9]. split; [done|by left| | | |].
  - unfold tokens_of, taken. by rewrite C3, C4, C6.
  - split; unfold said; rewrite C7; cbn; try (by intros ?%elem_of_nil); [|lia]. intros [?|H]; [lia|by destruct (H 0%nat)].
  - rewrite C5'. by intros x r ?%elem_of_nil.
  - right. left. split; cbn; [lia|by rewrite C2|done|done|done|]. unfold calls_of. cbn. lia.
Qed.

Lemma ready_rel w : ready w -> rel w (0, all_come).
Proof.
  intros [R1 R2 R3 R4]. unfold all_come. split; cbn.
  - exists "". split; [by left|done].
  - intros i pl Hi. assert (is_Some (w_procs w !! i)) as [P HP] by (apply lookup_lt_is_Some; rewrite R3; by eapply lookup_lt_Some).
    exists P, (start (Before 0)). split_and!; [done| |by eapply comes_rel, R4].
    rewrite list_lookup_fmap, lookup_replicate_2; [done|by eapply lookup_lt_Some].
  - by rewrite length_fmap, length_replicate.
  - intros f e i P He. rewrite R2 in He. by apply elem_of_nil in He.
Qed.

Lemma run_follows acts w w' : Z.of_nat (length places) <= n -> ready w -> Forall (fun a => forall i, a <> Act_end i) acts ->
  run str_hash stale lib_junk (fun _ => bar_callback fp) acts w = Some w' ->
  exists c ms t, rel w' (c, ms) /\ barrier_inv n t (c, ms).
Proof.
  intros Hl Hr. apply (run_invariant str_hash stale lib_junk (fun _ => bar_callback fp)
    (fun w => exists c ms t, rel w (c, ms) /\ barrier_inv n t (c, ms)) (fun a => forall i, a <> Act_end i)).
  - intros a w1 w2 (c & ms & t & Hrel & Hinv) Ha Hs. destruct (step_follows a w1 c ms t w2 Hrel Hinv Ha Hs) as ([c' ms'] & Hf & Hrel').
    exists c', ms'. destruct Hf as [[= -> ->]|Hm]; [by exists t|]. destruct (moves_inv n t _ _ Hinv Hm) as [t' Ht']. by exists t'.
  - exists 0, all_come, 0%nat. split; [by apply ready_rel|]. apply start_inv; [by rewrite length_replicate|by apply Forall_replicate].
Qed.

(** Nobody is through a round before all have come to it. *)
Lemma nobody_ahead w c ms t i j pi pj Pi Pj : rel w (c, ms) -> barrier_inv n t (c, ms) ->
  places !! i = Some pi -> w_procs w !! i = Some Pi -> places !! j = Some pj -> w_procs w !! j = Some Pj ->
  (said pi Pi " entered" -> said pj Pj " wait to enter") /\ (said pi Pi " left" -> said pj Pj " wait to leave").
Proof.
  intros [_ R2 _ _] Hinv Hi HPi Hj HPj. cbn in R2.
  destruct (R2 i pi Hi) as (Pi' & mi & E1 & Hmi & [_ _ _ [I1 I2 _ _] _ _]). assert (Pi' = Pi) as -> by congruence.
  destruct (R2 j pj Hj) as (Pj' & mj & E2 & Hmj & [_ _ _ [_ _ J3 J4] _ _]). assert (Pj' = Pj) as -> by congruence.
  assert (written (at_point mj) = true -> forall k, at_point mj <> Before k) as Hw by (intros H k E; by rewrite E in H).
  pose proof (reachable_together n t _ i j mi mj Hinv Hmi Hmj) as Ht. split.
  - intros H%I1. apply J3. destruct (decide (1 <= round mj)%nat); [by left|right]. apply Hw, Ht. lia.
  - intros H%I2. apply J4. destruct (decide (2 <= round mj)%nat); [by left|right]. destruct (Ht ltac:(lia)) as [E Hwr].
    pose proof (mo_round _ _ _ _ _ (bi_member _ _ _ Hinv j mj Hmj)). pose proof (mo_round _ _ _ _ _ (bi_member _ _ _ Hinv i mi Hmi)).
    split; [lia|by apply Hw].
Qed.
End sim.
