(* ===== verification/BarrierSafe.v ===== *)
(** * The double barrier: the result

    [barrier_safe]: whatever the interleaving, nobody enters the region of
    [apps/double_barrier.cc] before all have come, and nobody has left it before
    all want to.  [barrier_hangs]: two processes that enter may both be stuck
    on the way out.  The runs of two processes start where [main] does. *)

From S2P Require Import Prelude Numbers Names ServerTypes ServerDB ServerDBWf ServerDBRefine ServerDBProps Tree BackstoreRefine.
From S2P Require Import Interfaces ClientLib DbApi TreeStore ServerLogic LogicInv LogicSpec LogicProps ChubbyApp.
From S2P Require Import BarrierSpec Programs Runs Barrier BarrierServer BarrierRel BarrierProps.

(** ** Processes at one barrier *)

Record setup (fc fp : string) (ic ip n : Z) (clients : gmap Z string) (places : list place) : Prop := {
  su_count : name_ok fc = true;
  su_passed : name_ok fp = true;
  su_two : fc <> fp;
  su_ic : u32 ic;
  su_ip : u32 ip;
  su_clients : map_Forall (fun _ cl => cl <> "" /\ plain cl = true) clients;
  su_num : u32 n;
  su_size : Z.of_nat (length places) <= n;
  su_sessions : NoDup (pl_session <$> places);
  su_places : Forall (place_ok fc fp ic ip n clients) places;
}.

Definition no_end (a : action) : Prop := match a with Act_end _ => False | _ => True end.

(** C5: the double barrier.  Processes that [main] has brought to the barrier
    of [n], at most [n] of them, run in any interleaving of their calls, the
    replies, the events and their threads, without one being ended from
    outside.  When one of them has said that it entered, all have said that
    they wait to enter; when one has said that it left, all have said that they
    wait to leave. *)
Theorem barrier_safe {D : Type} `{!DbApi D} {str_hash : string -> Z} {junk : Z} `{!TreeStore D str_hash junk}
  (stale : Z -> FileHandler) (lib_junk : bool) fc fp ic ip n clients places (w w' : World D bar_vars) acts i j pi pj Pi Pj :
  setup fc fp ic ip n clients places -> ready fc fp ic ip clients places w -> Forall no_end acts ->
  run str_hash stale lib_junk (fun _ => bar_callback fp) acts w = Some w' ->
  places !! i = Some pi -> w_procs w' !! i = Some Pi -> places !! j = Some pj -> w_procs w' !! j = Some Pj ->
  (said pi Pi " entered" -> said pj Pj " wait to enter") /\ (said pi Pi " left" -> said pj Pj " wait to leave").
Proof.
  intros [S1 S2 S3 S4 S5 S6 S7 S8 S9 S10] Hr Ha Hrun Hi HPi Hj HPj.
  assert (Forall (fun a => forall i, a <> Act_end i) acts) as Ha'.
  { eapply list.Forall_impl; [exact Ha|]. intros a Hok k ->. done. }
  destruct (run_follows stale lib_junk fc fp ic ip n clients places S1 S2 S3 S4 S5 S6 S7 S9 S10 acts w w' S8 Hr Ha' Hrun)
    as (c & ms & t & Hrel & Hinv).
  by eapply nobody_ahead.
Qed.

(** ** Two processes *)

#[local] Existing Instance strict_engine.
#[local] Instance bar_api : DbApi Db := single_api sample_hash 0.

Definition bar_process (se : Z) (c : code) : Proc bar_vars :=
  mkProc c Stop (mkBar false false) (mkLib (Some NoAnswer) ∅ 1) se 2 None [] [] [].

Definition bar_world (n : nat) (code_of : nat -> code) : option (World Db bar_vars) :=
  s ← logged_in n; Some (mkWorld s ((fun i => bar_process (Z.of_nat i + 1) (code_of i)) <$> seq 0 n)).
Definition bar_step := step (D := Db) sample_hash no_stale false (fun _ => bar_callback "/barpassed").
Definition bar_run := run (D := Db) sample_hash no_stale false (fun _ => bar_callback "/barpassed").

Definition calls (k i : nat) : list action := concat (replicate k [Act_call i T_main; Act_reply i]).
Definition local (k i : nat) : list action := replicate k (Act_local i T_main).
Definition passes (i : nat) : list action := [Act_event i; Act_local i T_callback; Act_local i T_main].

Definition constructors : list action := Act_call 0 T_main :: calls 6 0 ++ Act_call 1 T_main :: calls 4 1.
(** Both enter. *)
Definition entering : list action :=
  local 1 0 ++ calls 4 0 ++ local 1 1 ++ calls 5 1 ++ passes 0 ++ local 1 0 ++ local 1 1 ++ calls 1 1 ++ passes 1 ++ local 1 1.
Definition built_with (k : nat -> dbar -> code) : option (World Db bar_vars) :=
  w ← bar_world 2 (fun i => chubby_dbar 2 "bar" (k i)); bar_run constructors w.
Definition built : option (World Db bar_vars) := built_with (fun i b => bar_main b (to_string (Z.of_nat i))).

Lemma built_programs : built = (w ← bar_world 2 (fun i => bar_program 2 (to_string (Z.of_nat i))); bar_run constructors w).
Proof. reflexivity. Qed.

(** The places of the two. *)
Definition bar_handle (magic inst : Z) (f : string) : FileHandler := mkFileHandler magic 0 f inst true.
Definition bar_place (i : Z) (count passed : Z) : place :=
  Place (to_string i) (mkDbar 2 "/barcount" "/barpassed" count passed) (bar_handle 11 1 "/barcount")
    (bar_handle 12 2 "/barpassed") (i + 1).
Definition two_places : list place := [bar_place 0 3 4; bar_place 1 1 2].
Definition two_clients : gmap Z string := {[ 1 := "c0"; 2 := "c1" ]}.

Lemma two_setup : setup "/barcount" "/barpassed" 1 2 2 two_clients two_places.
Proof.
  split; [by vm_compute|by vm_compute|by intros ?|by vm_compute|by vm_compute| |by vm_compute|by vm_compute| |].
  - apply (bool_decide_unpack _). by vm_compute.
  - apply (bool_decide_unpack _). by vm_compute.
  - assert (forall i count passed, count <> passed -> is_Some (two_clients !! (i + 1)) ->
      place_ok "/barcount" "/barpassed" 1 2 2 two_clients (bar_place i count passed)) as H by (intros; by split).
    constructor; [|constructor; [|constructor]]; apply H; try done; by eexists.
Qed.

(** The database that the constructors leave. *)
Definition bar_db : Db := created sample_hash "/barpassed" false 2 (created sample_hash "/barcount" false 1 create_db).

Lemma bar_db_wf : db_wf bar_db.
Proof.
  assert (db_wf (created sample_hash "/barcount" false 1 create_db)) as H1.
  { apply (created_wf sample_hash create_db "/barcount" false 0); [exact create_db_wf|done|done|done|done|].
    intros H. by vm_compute in H. }
  apply (created_wf sample_hash _ "/barpassed" false 1); [exact H1|done|done|done|done|]. intros H. by vm_compute in H.
Qed.

Lemma bar_db_files : file_at "/barcount" 1 "" bar_db /\ file_at "/barpassed" 2 "" bar_db.
Proof. split; (eexists; split; [vm_compute; reflexivity|done]). Qed.

(** The constructor is run whatever comes after it. *)
Lemma built_main k i pl : two_places !! i = Some pl ->
  (w ← built_with k; p_main <$> w_procs w !! i) = Some (k i (pl_bar pl)).
Proof. destruct i as [|[|i]]; [| |done]; intros [= <-]; vm_compute; reflexivity. Qed.

Lemma built_fd_inv w : built = Some w -> fd_inv (w_server w).
Proof.
  pose proof (logged_in_fd_inv 2) as Hl. unfold built, built_with, bar_world. destruct (logged_in 2) as [s|]; [|discriminate].
  cbn [mbind option_bind]. intros Hr. eapply (run_fd_inv sample_hash no_stale false _ _ _ w); [|exact Hr]. exact (Hl s eq_refl).
Qed.

Lemma built_ready w : computed built w -> ready "/barcount" "/barpassed" 1 2 two_clients two_places w.
Proof.
  intros Hw.
  assert (db (w_server w) = bar_db) as Hdb by (apply (read_off (fun w => db (w_server w)) built w _ Hw); by vm_compute).
  split.
  - split.
    + apply built_fd_inv, computed_eq, Hw.
    + apply (read_off (fun w => out (w_server w)) built w _ Hw). by vm_compute.
    + rewrite Hdb. exact bar_db_wf.
    + rewrite Hdb. apply bar_db_files.
    + rewrite Hdb. exists "". apply bar_db_files.
    + apply (read_off (fun w => session2client_map (w_server w)) built w _ Hw). by vm_compute.
    + rewrite (read_off (fun w => lst (file2contentChange_map (w_server w)) "/barpassed") built w [1; 2] Hw) by (by vm_compute).
      apply (bool_decide_unpack _). by vm_compute.
    + intros cl. assert (map_Forall (fun _ (fs : gset string) => fs = ∅) (client2ephemeral_map (w_server w))) as H.
      { apply (bool_decide_eq_true_1 _), (read_off (fun w => bool_decide (map_Forall (fun _ (fs : gset string) => fs = ∅)
          (client2ephemeral_map (w_server w)))) built w true Hw). by vm_compute. }
      destruct (client2ephemeral_map (w_server w) !! cl) as [fs|] eqn:E; [|set_solver].
      rewrite (H cl fs E). set_solver.
  - intros f. unfold lst. rewrite (read_off (fun w => file2lockQueue_map (w_server w)) built w ∅ Hw) by (by vm_compute).
    by rewrite lookup_empty.
  - apply (read_off (fun w => length (w_procs w)) built w _ Hw). by vm_compute.
  - intros i pl P Hi HP. pose proof (read_proc p_main _ _ _ _ _ Hw HP (built_main _ i pl Hi)) as Hmain.
    destruct i as [|[|i]]; [| |done]; injection Hi as <-; (split;
      [ apply (read_proc p_session _ _ _ _ _ Hw HP) | exact Hmain | apply (read_proc p_callback _ _ _ _ _ Hw HP)
      | apply (read_proc (fun P => passed (p_vars P)) _ _ _ _ _ Hw HP)
      | split; [apply (read_proc p_pending _ _ _ _ _ Hw HP)|apply (read_proc p_replies _ _ _ _ _ Hw HP)]
      | apply (read_proc (fun P => token_events "/barpassed" (p_events P)) _ _ _ _ _ Hw HP)
      | apply (read_proc p_log _ _ _ _ _ Hw HP)
      | split; apply (read_proc (fun P => fdList (p_lib P) !! _) _ _ _ _ _ Hw HP)
      | ]).
    10: rewrite (read_proc p_xid 8 _ _ _ _ Hw HP) by (by vm_compute).
    20: rewrite (read_proc p_xid 6 _ _ _ _ Hw HP) by (by vm_compute).
    all: clear Hmain; vm_compute; try reflexivity; by split.
Qed.

Abbreviation entered := (built ≫= bar_run entering).

Lemma built_computes : exists w, computed built w.
Proof. apply computes. vm_compute. reflexivity. Qed.
Lemma entered_computes : exists w, computed entered w.
Proof. apply computes. vm_compute. reflexivity. Qed.

(** Both have entered, as their output says. *)
Lemma entered_logs w' : computed entered w' -> exists P0 P1, w_procs w' = [P0; P1] /\
  p_log P0 = ["0 wait to enter"; "0 entered"] /\ p_log P1 = ["1 wait to enter"; "1 entered"].
Proof.
  intros Hw'.
  assert (p_log <$> w_procs w' = [["0 wait to enter"; "0 entered"]; ["1 wait to enter"; "1 entered"]]) as Hl
    by (apply (read_off (fun w => p_log <$> w_procs w) entered w' _ Hw'); by vm_compute).
  destruct (w_procs w') as [|P0 [|P1 [|P2 l]]]; [discriminate Hl|discriminate Hl| |discriminate Hl]. exists P0, P1.
  by injection Hl as -> ->.
Qed.

Lemma entered_run w w' : computed built w -> computed entered w' -> bar_run entering w = Some w'.
Proof. apply bind_computed. Qed.

Lemma barrier_safe_witness : exists w w' P0 P1, built = Some w /\ bar_run entering w = Some w' /\
  w_procs w' !! 0%nat = Some P0 /\ w_procs w' !! 1%nat = Some P1 /\
  said (bar_place 0 3 4) P0 " entered" /\ said (bar_place 1 1 2) P1 " wait to enter".
Proof.
  destruct built_computes as [w Hw]. destruct entered_computes as [w' Hw'].
  pose proof (entered_run w w' Hw Hw') as Hr. destruct (entered_logs w' Hw') as (P0 & P1 & E & L0 & L1).
  assert (said (bar_place 0 3 4) P0 " entered") as H0 by (unfold said; rewrite L0; right; left).
  exists w, w', P0, P1. split; [exact (computed_eq _ _ Hw)|]. split; [exact Hr|]. rewrite E.
  split; [exact eq_refl|]. split; [exact eq_refl|]. split; [exact H0|].
  refine (proj1 (barrier_safe no_stale false "/barcount" "/barpassed" 1 2 2 two_clients two_places w w' entering 0 1
    (bar_place 0 3 4) (bar_place 1 1 2) P0 P1 two_setup (built_ready w Hw) _ Hr eq_refl _ eq_refl _) H0); [|by rewrite E..].
  by repeat constructor.
Defined.

(** ** Stuck *)

Definition lost_update : list action :=
  local 1 0 ++ calls 4 0 ++ local 1 1 ++ calls 5 1 ++ passes 0 ++ local 3 0 ++ [Act_call 0 T_main] ++
  local 1 1 ++ calls 1 1 ++ [Act_reply 0] ++ calls 1 0 ++ passes 1 ++ local 3 1 ++ calls 2 1 ++ calls 2 0 ++ calls 2 1.
Abbreviation left_waiting := (built ≫= bar_run lost_update).

Definition stuck (w : World Db bar_vars) : bool :=
  forallb (fun a => match bar_step a w with None => true | Some _ => false end)
    (concat ((fun i => [Act_call i T_main; Act_call i T_callback; Act_reply i; Act_event i; Act_local i T_main; Act_local i T_callback])
       <$> seq 0 (length (w_procs w)))).

Lemma lost_computes : exists w, computed left_waiting w.
Proof. apply computes. vm_compute. reflexivity. Qed.

Lemma stuck_step w a : stuck w = true -> no_end a -> bar_step a w = None.
Proof.
  intros Hs Ha.
  assert (forall i, (i < length (w_procs w))%nat -> (fun a => match bar_step a w with None => true | Some _ => false end) a = true ->
    bar_step a w = None) as Hin by (intros i _; by destruct (bar_step a w)).
  unfold stuck in Hs. rewrite forallb_forall in Hs.
  assert (exists i, a = Act_call i T_main \/ a = Act_call i T_callback \/ a = Act_reply i \/ a = Act_event i \/
    a = Act_local i T_main \/ a = Act_local i T_callback) as [i Hi] by (destruct a as [i [|]|i|i|i [|]|i]; try done; exists i; tauto).
  destruct (decide (i < length (w_procs w))%nat) as [Hlt|Hge].
  - apply (Hin i Hlt), Hs, in_concat. eexists. split; [apply in_map_iff; exists i; split; [done|apply in_seq; lia]|]. cbn.
    destruct Hi as [->|[->|[->|[->|[->| ->]]]]]; repeat first [by left|right].
  - assert (w_procs w !! i = None) as HP by (apply lookup_ge_None; lia).
    destruct Hi as [->|[->|[->|[->|[->| ->]]]]]; cbn; by rewrite HP.
Qed.

(** A run of two processes that both enter and then wait in [leave] for
    ever.  The second enters while the first asks for the lock again: its
    [release] hands the lock on without telling the database, so that its next
    [acquire] succeeds as well, both read the empty counter, and both write 1.
    No step is left: nobody waits for a call, and no event is under way. *)
Lemma barrier_hangs : exists w, built ≫= bar_run lost_update = Some w /\
  (forall a, no_end a -> bar_step a w = None) /\
  alive <$> w_procs w = [true; true] /\
  p_log <$> w_procs w = [["0 wait to enter"; "0 entered"; "0 wait to leave"]; ["1 wait to enter"; "1 entered"; "1 wait to leave"]] /\
  n_kind <$> t_nodes (tree_of (db (w_server w))) !! "/barcount" = Some (File "1").
Proof.
  destruct lost_computes as [w Hw]. exists w. split; [exact (computed_eq _ _ Hw)|]. split_and!.
  - intros a. apply stuck_step. apply (read_off stuck left_waiting w _ Hw). by vm_compute.
  - apply (read_off (fun w => alive <$> w_procs w) left_waiting w _ Hw). by vm_compute.
  - apply (read_off (fun w => p_log <$> w_procs w) left_waiting w _ Hw). by vm_compute.
  - apply (read_off (fun w => n_kind <$> t_nodes (tree_of (db (w_server w))) !! "/barcount") left_waiting w _ Hw). by vm_compute.
Qed.
