(* ===== verification/LeaderElect.v ===== *)
(** * The leader election: [apps/leader_elect.cc]

    [main], its two callbacks and its loop, as code of the threads of
    [Programs]. *)

From S2P Require Import Prelude ServerTypes ClientLib ServerLogic Programs.

(** The variables of [main] that its callbacks share with it. *)
Record lead_vars := mkLead {
  leader : string;
  fdId : Z;
}.

Abbreviation code := (prog lead_vars).

Definition set_leader (s : string) (v : lead_vars) : lead_vars := mkLead s (fdId v).
Definition set_fdId (i : Z) (v : lead_vars) : lead_vars := mkLead (leader v) i.

(** Reading the variables and assigning to one; neither waits. *)
Definition read_vars (k : lead_vars -> code) : code := Step (fun _ => true) id k.
Definition assign (f : lead_vars -> lead_vars) (k : code) : code := Step (fun _ => true) f (fun _ => k).

Definition leaderfile : string := "/leader".

(** What a process says when it has won. *)
Definition claim (name : string) : string := "set " +:+ name +:+ " as the leader".

(** What a process says when it has found another name in the file. *)
Definition found (name : string) : string := "find out current leader is " +:+ name.

(** ** Callbacks *)

(** [compete]: [leader] is assigned and read without the mutex. *)
Definition compete (myId fname : string) (k : code) : code :=
  if negb (String.eqb fname leaderfile) then k else
  read_vars (fun v => Call (L_tryAcquire (fdId v)) (fun r =>
  if val_bool r then
    assign (set_leader myId) (
    read_vars (fun v => Call (L_setContents (fdId v) (leader v)) (fun r => checkErr (val_bool r) (
    read_vars (fun v => Info (claim (leader v)) k)))))
  else k)).

(** [renew]: the comparison reads [leader] without the mutex. *)
Definition renew (fname : string) (k : code) : code :=
  if negb (String.eqb fname leaderfile) then k else
  read_vars (fun v => Call (L_getContentsAndStat (fdId v)) (fun r =>
  match r with
  | V_contents (Some c) =>
      let newleader := cas_content c in
      read_vars (fun v =>
        if negb (String.eqb newleader (leader v))
        then assign (set_leader newleader) (Info (found newleader) k)
        else k)
  | _ => Exit
  end)).

(** What is registered for the two kinds of events. *)
Definition lead_callback (myId : string) (e : EventContent) : code :=
  if evc_event e =? EV_LOCK_CHANGED then compete myId (evc_fname e) Stop else
  if evc_event e =? EV_CONTENT_MODIFIED then renew (evc_fname e) Stop else Stop.

(** ** [main] *)

(** The loop that shows the leader, of which [turns] turns are looked at:
    [while(true)] never comes to the [Stop]. A dot is printed without the prefix
    of [info]. *)
Fixpoint watch (turns : nat) (lastleader : string) (dotPrinted : Z) : code :=
  match turns with
  | O => Stop
  | S turns =>
      read_vars (fun v => let curleader := leader v in
      let next := watch turns curleader (dotPrinted + 1) in
      if String.eqb curleader lastleader && negb (Z.rem dotPrinted 20 =? 0)
      then Info "." next
      else Info ("current leader is " +:+ curleader) next)
  end.

(** From the end of the set-up. *)
Definition lead_main (myId : string) (turns : nat) : code :=
  compete myId leaderfile (renew leaderfile (watch turns "" 0)).

(** The set-up, on an open connection. *)
Definition open_leaderfile (k : code) : code :=
  Call (L_registerCallback EV_LOCK_CHANGED) (fun _ =>
  Call (L_registerCallback EV_CONTENT_MODIFIED) (fun _ =>
  Call (L_fileOpen leaderfile (Z.lor (Z.lor (Z.lor READ WRITE) EV_LOCK_CHANGED) EV_CONTENT_MODIFIED)) (fun r =>
  assign (set_fdId (val_fd r)) (checkErr (negb (val_fd r =? FAIL)) k)))).
Definition create_leaderfile (k : code) : code :=
  Call (L_fileOpen leaderfile CREATE_FILE) (fun r =>
  assign (set_fdId (val_fd r)) (
  if val_fd r =? FAIL then k else Call (L_fileClose (val_fd r)) (fun _ => k))).

Definition lead_program (myId : string) (turns : nat) : code :=
  create_leaderfile (open_leaderfile (lead_main myId turns)).
