(* ===== verification/LeaderServer.v ===== *)
(** * What the server does for a lock that is only tried

    A server whose clients all have one handle on one file, ask for its lock
    with [tryAcquire] and never release it: who holds the lock after a call and
    after the end of a session, and what is sent. *)

From stdpp Require Import functions.
From S2P Require Import Prelude Names ServerTypes ServerDB ServerDBWf Tree BackstoreRefine DbApi TreeStore.
From S2P Require Import ServerLogic LogicInv LogicSpec CloseSpec.

(** ** Handlers that find their handle *)

Section found.
Context {D : Type} `{!DbApi D} (stale : Z -> FileHandler).
Implicit Types s : Api D.
Abbreviation Op := (M (Api D)).

(** The session has the handle [arg], and no other. *)
Definition only_handle (arg : FileHandler) (se : Z) s : Prop :=
  exists p, session2fd_map s !! se = Some [p] /\ heap s !! p = Some arg.

Lemma findFd_only arg se s : only_handle arg se s -> exists p, findFd stale se arg s = Ret p s /\
  heap s !! p = Some arg /\ session2fd_map s !! se = Some [p].
Proof.
  intros (p & Hp & Hh). exists p. split_and!; [|done|done]. unfold findFd, index, mbind at 1, M_bind at 1. rewrite Hp.
  cbn [find_in]. rewrite bind_assoc, (bind_Ret _ _ _ _ _ (deref_live stale p arg s Hh)), fields_eq, bool_decide_true by done.
  done.
Qed.

(** A handler that finds its handle leaves the handles alone. *)
Lemma found_quiet {B} arg se (k : Z -> FileHandler -> Op B) s : only_handle arg se s ->
  (forall p, quiet_at p arg (k p arg)) ->
  sat ((p ← findFd stale se arg; h ← deref stale p; k p h) s) (fun _ s' => mem s' = mem s) (fun _ s' => mem s' = mem s).
Proof.
  intros (p & Hf & Hh & _)%findFd_only Hk. rewrite (bind_Ret _ _ _ _ _ Hf), (bind_Ret _ _ _ _ _ (deref_live stale p arg s Hh)).
  by apply Hk.
Qed.

Lemma tried_quiet arg se x c s : only_handle arg se s -> session2client_map s !! se = Some c -> c <> "" ->
  sat (tryAcquire stale arg se x s) (fun _ s' => mem s' = mem s) (fun _ s' => mem s' = mem s).
Proof.
  intros Ho Hc Hne. unfold tryAcquire. rewrite (bind_Ret _ _ _ _ _ (require_client_run se c s Hc Hne)).
  apply found_quiet; [done|]. intros p. unfold try_lock, lock_granted. solve_quiet_at.
Qed.
Lemma read_quiet arg se x s : only_handle arg se s ->
  sat (getContentsAndStat stale arg se x s) (fun _ s' => mem s' = mem s) (fun _ s' => mem s' = mem s).
Proof. intros Ho. apply found_quiet; [done|]. intros p. solve_quiet_at. Qed.
Lemma write_quiet arg se x s : only_handle (asc_fd arg) se s ->
  sat (setContents stale arg se x s) (fun _ s' => mem s' = mem s) (fun _ s' => mem s' = mem s).
Proof. intros Ho. apply found_quiet; [done|]. intros p. solve_quiet_at. Qed.
Lemma release_quiet arg se x c s : only_handle arg se s -> session2client_map s !! se = Some c -> c <> "" ->
  sat (release stale arg se x s) (fun _ s' => mem s' = mem s) (fun _ s' => mem s' = mem s).
Proof.
  intros Ho Hc Hne. unfold release. rewrite (bind_Ret _ _ _ _ _ (require_client_run se c s Hc Hne)).
  apply found_quiet; [done|]. intros p. solve_quiet_at.
Qed.

(** ** Closing a handle frees only that *)

(** Handles are freed, and only those of [se] are listed otherwise. *)
Definition shrinks (se : Z) s s' : Prop :=
  heap s' ⊆ heap s /\ forall t, t <> se -> session2fd_map s' !! t = session2fd_map s !! t.
Definition shrinking se {A} (m : Op A) : Prop := forall s, sat (m s) (fun _ => shrinks se s) (fun _ => shrinks se s).

Lemma shrinks_refl se s : shrinks se s s.
Proof. by split. Qed.
Lemma shrinks_trans se s1 s2 s3 : shrinks se s1 s2 -> shrinks se s2 s3 -> shrinks se s1 s3.
Proof. intros [H1 G1] [H2 G2]. split; [by etrans|]. intros t Ht. by rewrite G2, G1. Qed.
Lemma shrinks_mem se s s' : mem s' = mem s -> shrinks se s s'.
Proof. intros [= _ E1 E2 _ _]. split; [by rewrite E2|]. intros t _. by rewrite E1. Qed.

Lemma shrinking_quiet se {A} (m : Op A) : quiet m -> shrinking se m.
Proof. intros Hq s. eapply sat_mono; [apply Hq| |]; intros ? s'; apply shrinks_mem. Qed.
Lemma shrinking_bind se {A B} (m : Op A) (k : A -> Op B) : shrinking se m -> (forall a, shrinking se (k a)) -> shrinking se (m ≫= k).
Proof.
  intros Hm Hk s. apply sat_bind. eapply sat_mono; [apply Hm| |done]. intros a s1 H1.
  eapply sat_mono; [apply Hk| |]; intros ? s2 H2; by apply (shrinks_trans se s s1).
Qed.
Lemma shrinking_modify se (g : Api D -> Api D) : (forall s, shrinks se s (g s)) -> shrinking se (modify g).
Proof. intros H s. apply H. Qed.
Lemma shrinking_deref se p : shrinking se (deref stale p).
Proof. intros s. unfold deref. destruct (heap s !! p); by split. Qed.
Lemma shrinking_delete se p : shrinking se (delete_fd p : Op unit).
Proof. intros s. unfold delete_fd. destruct (heap s !! p); split; try done. apply delete_subseteq. Qed.
Lemma shrinking_index_mod se f : shrinking se (index_mod on_session2fd_map [] se f : Op unit).
Proof. apply shrinking_modify. intros s. split; [done|]. intros t Ht. cbn. by rewrite lookup_insert_ne. Qed.
Lemma shrinking_erase se e : shrinking se (erase_if_empty on_session2fd_map [] e se : Op unit).
Proof.
  apply shrinking_modify. intros s. split; [done|]. intros t Ht. cbn. destruct (e _);
    [rewrite lookup_delete_ne by done|]; by rewrite lookup_insert_ne.
Qed.

Lemma shrinking_close p se x : shrinking se (close_handle stale p se x).
Proof.
  unfold close_handle. apply shrinking_bind; [apply shrinking_deref|]. intros fd. cbv zeta.
  repeat (apply shrinking_bind; [|intros _]).
  all: try (apply shrinking_modify; by split).
  all: first [apply shrinking_index_mod|apply shrinking_erase|apply shrinking_delete|apply shrinking_quiet].
  all: unfold clear_events; solve_quiet.
Qed.

(** [fileClose] of the only handle of a session, on a file that is not
    ephemeral. *)
Lemma close_shrinks arg se x c s s' : fd_inv s -> only_handle arg se s -> session2client_map s !! se = Some c -> c <> "" ->
  fh_file_name arg ∉ default ∅ (client2ephemeral_map s !! c) -> fileClose stale arg se x s = Ret tt s' -> shrinks se s s'.
Proof.
  intros Hs Ho Hc Hne He. pose proof Ho as (p & Hf & Hh & Hp)%findFd_only. unfold fileClose.
  rewrite (bind_Ret _ _ _ _ _ (require_client_run se c s Hc Hne)), (bind_Ret _ _ _ _ _ Hf),
    (bind_Ret _ _ _ _ _ (deref_live stale p arg s Hh)).
  intros (held & s0 & [= <- <-] & Hm)%bind_Ret_inv. apply bind_Ret_inv in Hm as ([] & s1 & Hrel & Hm).
  assert (mem s1 = mem s /\ client2ephemeral_map s1 = client2ephemeral_map s) as [Em Ee].
  { destruct (match client2heldLock_map s !! c with Some _ => _ | None => _ end); cbn [when] in Hrel; [|by injection Hrel as <-].
    split.
    - pose proof (release_quiet arg se INTERNAL c s Ho Hc Hne) as H. by rewrite Hrel in H.
    - pose proof (release_spec stale arg se INTERNAL c s Hs Hc Hne) as H. cbv zeta in H. rewrite Hrel in H.
      destruct (db_resetLockOwner _ _ _) as [[] d|e d| |]; [|try done..].
      + destruct (granted _ s) as [[l g]|] eqn:Hg; [|done].
        destruct H as (s2 & [= <-] & _ & _ & _ & (_ & _ & _ & E & _)%maps_fields & _). rewrite E.
        by rewrite (granted_ephemeral _ s l g _ Hg).
      + by destruct H as (s2 & [= <-] & _ & _ & _ & (_ & _ & _ & E & _)%maps_fields & _).
      + by destruct H as (s2 & [= <-] & _ & _ & _ & (_ & _ & _ & E & _)%maps_fields & _). }
  apply (shrinks_trans se s s1); [by apply shrinks_mem|]. apply bind_Ret_inv in Hm as (X & s2 & Hx & Hm).
  assert (mem s2 = mem s1 /\ X = default ∅ (client2ephemeral_map s !! c)) as [Em2 ->].
  { rewrite <-Ee. unfold index in Hx. destruct (client2ephemeral_map s1 !! c); by injection Hx as <- <-. }
  apply (shrinks_trans se s1 s2); [by apply shrinks_mem|].
  assert (heap s2 !! p = Some arg) as Hh2 by by rewrite (mem_heap _ _ Em2), (mem_heap _ _ Em).
  rewrite (bind_Ret _ _ _ _ _ (deref_live stale p arg s2 Hh2)), bool_decide_false in Hm by done.
  pose proof (shrinking_close p se x s2) as H. by rewrite Hm in H.
Qed.
End found.

(** ** The server of an election *)

Section server.
Context {D : Type} `{!DbApi D} {str_hash : string -> Z} {junk : Z} `{!TreeStore D str_hash junk}.
Context (stale : Z -> FileHandler).
Implicit Types s : Api D.

(** The file, the handle that every client has on it, and the clients. *)
Context (hdl : FileHandler) (clients : gmap Z string).
Abbreviation f := (fh_file_name hdl).
Abbreviation inst := (fh_instance_number hdl).
Context (Hf : name_ok f = true) (Hinst : u32 inst).
Context (Hclients : forall se c, clients !! se = Some c -> c <> "" /\ c <> NO_OWNER /\ plain c = true).
Context (Hinj : forall se se' c, clients !! se = Some c -> clients !! se' = Some c -> se = se').

Abbreviation nodes d := (t_nodes (store_tree d)).

(** The file holds a text that the database can store, and [owner] its lock. *)
Definition lock_file (owner : option string) (d : D) : Prop :=
  exists n c, nodes d !! f = Some n /\ n_kind n = File c /\ plain c = true /\ n_inst n = inst /\ n_owner n = owner.

(** The server between two calls. *)
Record lock_server (owner : option string) s : Prop := {
  ls_inv : fd_inv s;
  ls_out : out s = [];
  ls_store : store_ok (db s);
  ls_file : lock_file owner (db s);
  ls_clients se c : session2client_map s !! se = Some c -> clients !! se = Some c;
  ls_queue : file2lockQueue_map s !! f = None;
  ls_held c : f ∈ default ∅ (client2heldLock_map s !! c) <-> owner = Some c;
  ls_kept c : f ∉ default ∅ (client2ephemeral_map s !! c);
  ls_handles p h : heap s !! p = Some h -> h = hdl;
  ls_one se : is_Some (session2client_map s !! se) -> only_handle hdl se s;
  ls_holder c : owner = Some c -> exists se, session2client_map s !! se = Some c;
  ls_told se : is_Some (session2client_map s !! se) -> se ∈ lst (file2lockChange_map s) f;
}.

Abbreviation cleared s := (on_out (fun _ => []) s).

(** Only the lock changes. *)
Lemma keeps_server owner owner' s s' : lock_server owner s -> fd_inv s' -> mem s' = mem s -> store_ok (db s') ->
  lock_file owner' (db s') -> session2client_map s' = session2client_map s -> file2lockQueue_map s' = file2lockQueue_map s ->
  client2ephemeral_map s' = client2ephemeral_map s -> file2lockChange_map s' = file2lockChange_map s ->
  (forall c, f ∈ default ∅ (client2heldLock_map s' !! c) <-> owner' = Some c) ->
  (forall c, owner' = Some c -> exists se, session2client_map s !! se = Some c) ->
  lock_server owner' (cleared s').
Proof.
  intros [L1 L2 L3 L4 L5 L6 L7 L8 L9 L10 L11 L12] Hi Hm Hd Hl E1 E2 E3 E4 Hh Ho.
  assert (session2fd_map s' = session2fd_map s /\ heap s' = heap s) as [Es Eh] by (by injection Hm).
  split; try done; cbn.
  - intros se c. rewrite E1. apply L5.
  - by rewrite E2.
  - intros c. rewrite E3. apply L8.
  - intros p h. rewrite Eh. apply L9.
  - intros se. rewrite E1. intros Hse. destruct (L10 se Hse) as (p & Hp & Hhp). exists p. cbn. by rewrite Es, Eh.
  - intros c Hc. rewrite E1. by apply Ho.
  - intros se. rewrite E1, E4. apply L12.
Qed.

(** A read or a write, that leaves the maps. *)
Lemma calm_server owner s s' (m : outcome (Api D) unit) d l : lock_server owner s -> m = Ret tt s' -> returns m d l (maps s) (ub s) ->
  mem s' = mem s -> store_ok d -> lock_file owner d -> lock_server owner (cleared s') /\ out s' = l /\
  session2client_map s' = session2client_map s.
Proof.
  intros Hs -> (s2 & [= <-] & I2 & D2 & O2 & (E1 & E2 & E3 & E4 & E5 & E6)%maps_fields & _) Hm Hd Hl.
  split_and!; [|done|done]. apply (keeps_server owner owner s s'); try done; rewrite ?D2; try done.
  - intros c. rewrite E3. by apply ls_held.
  - intros c Hc. by apply (ls_holder owner).
Qed.

Lemma locked_server owner s : lock_server owner s -> exists n c, nodes (db s) !! f = Some n /\ n_kind n = File c /\
  plain c = true /\ n_inst n = inst /\ n_owner n = owner.
Proof. by intros []. Qed.

Lemma owner_of_client c : c <> NO_OWNER -> owner_of c = Some c.
Proof. intros Hc. unfold owner_of. by rewrite bool_decide_false. Qed.

Lemma plain_short c : plain c = true -> Z.of_nat (String.length c) <= 2 ^ 30.
Proof.
  intros Hc. unfold plain, sql_text_ok in Hc. repeat match goal with H : _ && _ = true |- _ => apply andb_true_iff in H as [? ?] end.
  unfold operand_max in *. lia.
Qed.

(** Trying the lock: it is granted when it is free, and only then. *)
Lemma tried owner se x c s s' : lock_server owner s -> session2client_map s !! se = Some c ->
  tryAcquire stale hdl se x s = Ret tt s' ->
  session2client_map s' = session2client_map s /\
  match owner with
  | None => lock_server (Some c) (cleared s') /\
      out s' = bool_msgs se x (RB_val true) ++ event_msgs (file2lockChange_map s) EV_LOCK_CHANGED f
  | Some _ => lock_server owner (cleared s') /\ out s' = bool_msgs se x (RB_val false)
  end.
Proof.
  intros Hs Hc Hm. pose proof Hs as [L1 L2 L3 L4 L5 L6 L7 L8 L9 L10 L11 L12]. destruct (Hclients se c (L5 se c Hc)) as (Hn1 & Hn2 & Hp).
  pose proof (tried_quiet stale hdl se x c s (L10 se ltac:(by eexists)) Hc Hn1) as Hq. rewrite Hm in Hq. cbn in Hq.
  pose proof (tryAcquire_spec stale hdl se x c s L1 Hc Hn1) as Hsp. cbv zeta in Hsp. unfold lock_spec in Hsp.
  destruct L4 as (n & t & Hn & Hk & Ht & Hi & Ho).
  destruct (lock_run (D := D) (str_hash := str_hash) f inst c (db s) L3) as (b & d & Hdb & Hd & Hb & Hnd); [by apply lock_admissible|].
  rewrite Hdb in Hsp. rewrite Hn, Hi, Z.eqb_refl in Hb. cbn in Hb. unfold unlocked in Hb. rewrite Ho in Hb.
  destruct owner as [o|]; subst b.
  - rewrite L2 in Hsp. destruct (calm_server (Some o) s s' _ d _ Hs Hm Hsp Hq Hd) as (H1 & H2 & H3).
    + exists n, t. by rewrite Hnd.
    + done.
  - rewrite L6, L2 in Hsp. destruct Hsp as (s2 & E & I2 & D2 & O2 & (E1 & E2 & E3 & E4 & E5 & E6)%maps_fields & _).
    rewrite Hm in E. injection E as <-. cbn in E1, E2, E3, E4, E5, E6.
    split; [done|]. split; [|exact O2]. apply (keeps_server None (Some c) s s'); try done; rewrite ?D2; try done.
    + exists (lock_node (owner_of c) n), t. rewrite Hnd, lookup_alter_eq, Hn. split_and!; [done..|]. cbn. by apply owner_of_client.
    + intros c'. rewrite E3. destruct (decide (c' = c)) as [->|Hcc].
      * rewrite lookup_insert_eq. cbn. split; [done|]. intros _. apply elem_of_union. left. by apply elem_of_singleton.
      * rewrite lookup_insert_ne by done. rewrite L7. split; [done|]. by intros [= ->].
    + intros c' [= <-]. by exists se.
Qed.

Lemma read_by owner se x s s' : lock_server owner s -> is_Some (session2client_map s !! se) ->
  getContentsAndStat stale hdl se x s = Ret tt s' ->
  session2client_map s' = session2client_map s /\ lock_server owner (cleared s') /\
  exists c meta, plain c = true /\ out s' = reply_msgs se x (RepContents (RC_val (mkContentsAndStat c meta))).
Proof.
  intros Hs Hc Hm. pose proof Hs as [L1 L2 L3 L4 L5 L6 L7 L8 L9 L10 L11 L12].
  pose proof (read_quiet stale hdl se x s (L10 se Hc)) as Hq. rewrite Hm in Hq. cbn in Hq.
  pose proof (getContentsAndStat_spec stale hdl se x s L1) as Hsp. cbv zeta in Hsp.
  destruct L4 as (n & t & Hn & Hk & Ht & Hi & Ho).
  destruct (read_file (str_hash := str_hash) f inst t (db s) L3 Hf Hinst) as (meta & d & Hdb & Hd & Htree).
  { by exists n. } { by apply plain_short. }
  rewrite Hdb, L2 in Hsp. destruct (calm_server owner s s' _ d _ Hs Hm Hsp Hq Hd) as (H1 & H2 & H3).
  - exists n, t. by rewrite Htree.
  - split_and!; [done|done|]. by exists t, meta.
Qed.

Lemma written_by owner new se x s s' : lock_server owner s -> is_Some (session2client_map s !! se) -> plain new = true ->
  setContents stale (mkArgSetContents hdl new) se x s = Ret tt s' ->
  session2client_map s' = session2client_map s /\ lock_server owner (cleared s') /\
  out s' = bool_msgs se x (RB_val true) ++ event_msgs (file2contentChange_map s) EV_CONTENT_MODIFIED f.
Proof.
  intros Hs Hc Hnew Hm. pose proof Hs as [L1 L2 L3 L4 L5 L6 L7 L8 L9 L10 L11 L12].
  pose proof (write_quiet stale (mkArgSetContents hdl new) se x s (L10 se Hc)) as Hq. rewrite Hm in Hq. cbn in Hq.
  pose proof (setContents_spec stale (mkArgSetContents hdl new) se x s L1) as Hsp. cbv zeta in Hsp. cbn [asc_fd asc_content] in Hsp.
  destruct L4 as (n & t & Hn & Hk & Ht & Hi & Ho).
  destruct (update_run (D := D) (str_hash := str_hash) f inst new (db s) L3) as (b & d & Hdb & Hd & Hb & Hnd).
  { apply (update_admissible f inst new t); try done. by exists n. }
  rewrite Hn, Hi, Z.eqb_refl in Hb. subst b. rewrite Hdb, L2 in Hsp.
  destruct (calm_server owner s s' _ d _ Hs Hm Hsp Hq Hd) as (H1 & H2 & H3); [|done].
  exists (set_kind str_hash (File new) n), new. rewrite Hnd, lookup_alter_eq, Hn. by split_and!.
Qed.

(** ** The end of a session *)

Lemma unregistered_told se t (m : gmap string (list Z)) : t ∈ lst m f -> t <> se -> t ∈ lst (unregistered f se m) f.
Proof.
  unfold unregistered, lst. destruct (m !! f) as [l|]; cbn; [|by intros H%elem_of_nil]. intros Ht Hne.
  assert (t ∈ list_remove se l) as H by (apply elem_of_remove; by split). destruct (list_remove se l) as [|a l']; [by apply elem_of_nil in H|].
  cbn [list_empty]. by rewrite lookup_insert_eq.
Qed.

Lemma unhold_held c c' (s : Api D) : f ∈ default ∅ (client2heldLock_map (unhold c f s) !! c') <->
  f ∈ default ∅ (client2heldLock_map s !! c') /\ c' <> c.
Proof.
  cbn. destruct (decide (c' = c)) as [->|Hc].
  - split; [|by intros []]. unfold set_empty. case_bool_decide as E; [rewrite lookup_delete_eq|rewrite lookup_insert_eq]; cbn.
    + by intros H%elem_of_empty.
    + by intros [_ []%not_elem_of_singleton]%elem_of_difference.
  - destruct (set_empty _); [rewrite lookup_delete_ne by done|rewrite lookup_insert_ne by done]; tauto.
Qed.

(** Everything after the release of the lock: the state [s1] in which it is
    reset, or [s] itself. *)
Lemma session_ends owner owner' se c s s1 s' (m : outcome (Api D) unit) : lock_server owner s ->
  session2client_map s !! se = Some c -> m = Ret tt s' -> finishes m hdl se INTERNAL c s1 -> shrinks se s s' ->
  store_ok (db s1) -> lock_file owner' (db s1) -> session2client_map s1 = session2client_map s ->
  file2lockQueue_map s1 = file2lockQueue_map s -> client2ephemeral_map s1 = client2ephemeral_map s ->
  file2lockChange_map s1 = file2lockChange_map s ->
  (forall c', f ∈ default ∅ (client2heldLock_map s1 !! c') <-> owner' = Some c') ->
  (forall c', owner' = Some c' -> owner = Some c' /\ c' <> c) ->
  lock_server owner' (cleared (on_session2client_map (delete se) s')) /\ out s' = out s1 /\
  session2client_map s' = session2client_map s.
Proof.
  intros [L1 L2 L3 L4 L5 L6 L7 L8 L9 L10 L11 L12] Hc Hm Hfin [Hsub Hother] Hd Hl E1 E2 E3 E4 Hh Ho. unfold finishes in Hfin.
  unfold queue_closed in Hfin. rewrite E2, L6 in Hfin. destruct Hfin as (s2 & E & I2 & D2 & O2 & M2 & _). rewrite Hm in E. injection E as <-.
  apply maps_fields in M2 as (G1 & G2 & G3 & G4 & G5 & G6). cbn in G1, G2, G3, G4, G5, G6.
  assert (session2client_map s' = session2client_map s) as Es by congruence.
  split_and!; [|by rewrite O2; apply app_nil_r|done]. split; cbn; try done.
  - by rewrite D2.
  - by rewrite D2.
  - intros t c'. rewrite Es. intros [_ Ht]%lookup_delete_Some. by apply L5.
  - by rewrite G2.
  - intros c'. by rewrite G3.
  - intros c'. rewrite G4, E3. destruct (client2ephemeral_map s !! c) eqn:E; [apply L8|].
    destruct (decide (c' = c)) as [->|Hn]; [rewrite lookup_insert_eq; cbn; set_solver|rewrite lookup_insert_ne by done; apply L8].
  - intros p h Hp. apply (L9 p h). by eapply lookup_weaken.
  - intros t. rewrite Es. intros [c' [Hne Ht]%lookup_delete_Some]. destruct (L10 t ltac:(by eexists)) as (p & Hp & Hhp).
    exists p. cbn. rewrite (Hother t (not_eq_sym Hne)). split; [done|].
    destruct (ft_live _ _ _ _ I2 t p) as (h & Hh2 & _); [unfold lst; rewrite (Hother t (not_eq_sym Hne)), Hp; by left|].
    rewrite Hh2. f_equal. apply (L9 p h). by eapply lookup_weaken.
  - intros c' Hc'. destruct (Ho c' Hc') as [Ho1 Ho2]. destruct (L11 c' Ho1) as [t Ht]. exists t. rewrite Es.
    apply lookup_delete_Some. split; [|done]. intros ->. congruence.
  - intros t. rewrite Es. intros [c' [Hne Ht]%lookup_delete_Some]. rewrite G5, E4.
    apply unregistered_told; [|done]. apply L12. by eexists.
Qed.

(** A session that the server does not know. *)
Lemma unknown_ended owner se s s' : lock_server owner s -> session2client_map s !! se = None -> disconnect stale se s = Ret tt s' ->
  session2client_map s' = delete se (session2client_map s) /\
  exists owner' told, lock_server owner' (cleared s') /\ out s' = event_msgs told EV_LOCK_CHANGED f /\ owner' = owner.
Proof.
  intros [L1 L2 L3 L4 L5 L6 L7 L8 L9 L10 L11 L12] Hc. unfold disconnect.
  destruct (index_session_run se s L1) as (s1 & Hi & I1 & Hh & Hr & _ & HG). rewrite (bind_Ret _ _ _ _ _ Hi).
  apply rest_split in Hr as ((E1 & E2 & E3 & E4 & E5 & E6)%maps_fields & Ed & _ & Eo).
  destruct (lst (session2fd_map s) se) as [|p l].
  2: { intros ([] & s2 & Hl & _)%bind_Ret_inv. cbn [for_each] in Hl. apply bind_Ret_inv in Hl as ([] & s3 & Hl & _).
    apply bind_Ret_inv in Hl as (fd & s4 & Hd & Hl). apply bind_Ret_inv in Hl as (c & s5 & Hr & _).
    assert (session2client_map s4 !! se = None) as Hn
      by (unfold deref in Hd; destruct (heap s1 !! p); injection Hd as <- <-; cbn; by rewrite E1).
    unfold require_client, index, mbind, M_bind in Hr. by rewrite Hn in Hr. }
  cbn. intros [= <-]. assert (delete se (session2client_map s) = session2client_map s) as Edel by by apply delete_id.
  split; [cbn; by rewrite E1|]. exists owner, ∅. split_and!; [|cbn; by rewrite Eo|done].
  assert (forall t, is_Some (session2client_map s !! t) -> only_handle hdl t s1) as Hone.
  { intros t Ht. destruct (L10 t Ht) as (p & Hp & Hhp). exists p. split; [|by rewrite Hh].
    unfold index in Hi. destruct (session2fd_map s !! se) eqn:E; [by injection Hi as _ <-|]. injection Hi as <-. cbn.
    rewrite lookup_insert_ne; [done|congruence]. }
  split; cbn; rewrite ?Ed, ?E1, ?E2, ?E3, ?E4, ?E5, ?Edel; try done.
  intros q h. rewrite Hh. apply L9.
Qed.

(** The end of the session [se]: its lock is free then, and all that listen
    are told. *)
Lemma ended owner se s s' : lock_server owner s -> disconnect stale se s = Ret tt s' ->
  session2client_map s' = delete se (session2client_map s) /\
  exists owner' told, lock_server owner' (cleared s') /\ out s' = event_msgs told EV_LOCK_CHANGED f /\
    match session2client_map s !! se with
    | Some c => owner' = (if bool_decide (owner = Some c) then None else owner) /\
        (owner = Some c -> told = file2lockChange_map s)
    | None => owner' = owner
    end.
Proof.
  intros Hs Hm. pose proof Hs as [L1 L2 L3 L4 L5 L6 L7 L8 L9 L10 L11 L12]. unfold disconnect in Hm.
  destruct (session2client_map s !! se) as [c|] eqn:Hc.
  2: by apply (unknown_ended owner se s s').
  destruct (Hclients se c (L5 se c Hc)) as (Hn1 & Hn2 & Hp). destruct (L10 se ltac:(by eexists)) as (p & Hfd & Hh).
  rewrite (bind_Ret (index _ _ _ _) _ s [p] s) in Hm by (unfold index; by rewrite Hfd). cbn [for_each] in Hm.
  rewrite !bind_assoc, (bind_Ret _ _ _ _ _ (deref_live stale p hdl s Hh)) in Hm.
  apply bind_Ret_inv in Hm as ([] & s2 & Hclose & [= <-]).
  pose proof (close_shrinks stale hdl se INTERNAL c s s2 L1 (L10 se ltac:(by eexists)) Hc Hn1 (L8 c) Hclose) as Hsh.
  pose proof (fileClose_spec stale hdl se INTERNAL c s L1 Hc Hn1 (L8 c)) as Hsp. cbv zeta in Hsp.
  case_bool_decide as Hheld.
  - assert (owner = Some c) as -> by by apply L7. rewrite bool_decide_true by done.
    destruct L4 as (n & t & Hn & Hk & Ht & Hi & Ho).
    destruct (reset_run (D := D) (str_hash := str_hash) f inst (db s) L3) as (b & d & Hdb & Hd & Hb & Hnd); [by apply reset_admissible|].
    rewrite Hn, Hi, Z.eqb_refl in Hb. subst b. rewrite Hdb in Hsp. unfold granted in Hsp. rewrite L6 in Hsp. cbn [app] in Hsp.
    destruct (session_ends (Some c) None se c s _ s2 _ Hs Hc Hclose Hsp Hsh) as (H1 & H2 & H3); try done.
    + exists (set_node_owner None n), t. cbn. rewrite Hnd, lookup_alter_eq, Hn. by split_and!.
    + intros c'. split; [|done]. intros [Hc' Hne]%(unhold_held c c' (set_db d s)). cbn in Hc'. apply L7 in Hc'. congruence.
    + split; [cbn; by rewrite H3|]. exists None, (file2lockChange_map s). split_and!; [done| |done|done].
      cbn. rewrite H2. cbn. by rewrite L2.
  - assert (owner <> Some c) as Hoc by by intros E%L7. rewrite bool_decide_false by done.
    destruct (session_ends owner owner se c s s s2 _ Hs Hc Hclose Hsp Hsh) as (H1 & H2 & H3); try done.
    + by intros c' ->; split; [done|intros ->].
    + split; [cbn; by rewrite H3|]. exists owner, ∅. split_and!; [done| |done|done]. cbn. by rewrite H2, L2.
Qed.
End server.
