(* ===== verification/LeaderRel.v ===== *)
(** * What a process of an election is up to

    Properties of the code of [apps/leader_elect.cc], the invariant [citizen] of
    a process, and the roles it may play: [innocent] of having won, [elected],
    or [keen] to try. *)

From S2P Require Import Prelude ServerTypes ServerDBWf BackstoreRefine Interfaces ClientLib ServerLogic LogicInv LogicSpec.
From S2P Require Import ChubbyApp Programs LeaderElect.

(** ** Code *)

Definition claims (m : string) : Prop := exists name, m = claim name.

Section code.
(** The number of the handle. *)
Context (fd : Z).
Abbreviation try_it := (L_tryAcquire fd).

Definition good_vars (v : lead_vars) : Prop := fdId v = fd /\ plain (leader v) = true.
Definition good_val (r : lib_val) : Prop := match r with V_contents (Some c) => plain (cas_content c) = true | _ => True end.
Definition good_call (o : lib_op) : Prop :=
  o = try_it \/ o = L_getContentsAndStat fd \/ exists s, o = L_setContents fd s /\ plain s = true.

(** Leads to a claim, unless the process ends before. *)
Fixpoint claiming (p : code) : Prop :=
  match p with
  | Stop => False
  | Exit => True
  | Call _ k => forall r, claiming (k r)
  | Step _ _ k => forall v, good_vars v -> claiming (k v)
  | Info m k => claims m \/ claiming k
  | Input k => claiming k
  end.

(** Makes only these calls, and claims what it has won. *)
Fixpoint polite (p : code) : Prop :=
  match p with
  | Stop | Exit => True
  | Call o k => good_call o /\ (o = try_it -> claiming (k (V_bool true))) /\ forall r, good_val r -> polite (k r)
  | Step _ f k => forall v, good_vars v -> good_vars (f v) /\ polite (k v)
  | Info _ k | Input k => polite k
  end.

(** Claims nothing but what it will win. *)
Fixpoint modest (p : code) : Prop :=
  match p with
  | Stop | Exit => True
  | Call o k => forall r, o = try_it /\ r = V_bool true \/ modest (k r)
  | Step _ _ k => forall v, good_vars v -> modest (k v)
  | Info m k => ~ claims m /\ modest k
  | Input k => modest k
  end.

(** Is about to try. *)
Fixpoint competes (p : code) : Prop :=
  match p with
  | Call o _ => o = try_it
  | Step _ _ k => forall v, good_vars v -> competes (k v)
  | _ => False
  end.

(** Makes no more calls, and does not end. *)
Fixpoint resting (p : code) : Prop :=
  match p with
  | Stop => True
  | Exit | Call _ _ => False
  | Step _ _ k => forall v, resting (k v)
  | Info _ k | Input k => resting k
  end.

Lemma resting_claims p : modest p -> resting p -> ~ claiming p.
Proof.
  induction p as [| |o k IH|ready f k IH|m k IH|k IH]; cbn; try done.
  - by intros _ _ [].
  - intros Hm Hr Hc. by apply (IH (mkLead "" fd)); [apply Hm|apply Hr|apply Hc].
  - intros [Hm Hk] Hr [Hc|Hc]; [done|]. by apply IH.
Qed.

Lemma resting_tries p : resting p -> ~ competes p.
Proof.
  induction p as [| |o k IH|ready f k IH|m k IH|k IH]; cbn; try done.
  all: try (by intros _ []).
  intros Hr Hc. by apply (IH (mkLead "" fd)); [apply Hr|apply Hc].
Qed.

(** *** The program *)

Lemma not_claim c m : Ascii.eqb c "s" = false -> ~ claims (String c m).
Proof. intros Hc [name E]. injection E as -> _. done. Qed.

(** The code is polite and modest. *)
Definition decent (p : code) : Prop := polite p /\ modest p.

Lemma watch_decent n l d : decent (watch n l d) /\ resting (watch n l d).
Proof.
  unfold decent. revert l d. induction n as [|n IH]; intros l d; [done|]. cbn. split_and!; intros v; cbv zeta.
  - intros Hv. split; [done|]. destruct (_ && _); cbn; apply IH.
  - intros _. destruct (_ && _); cbn; (split; [by apply not_claim|apply IH]).
  - destruct (_ && _); cbn; apply IH.
Qed.

Lemma renew_decent fname k : decent k -> decent (renew fname k).
Proof.
  intros [Hp Hm]. unfold renew. destruct (negb _); [done|]. split; cbn.
  - intros v Hv0. split; [done|]. destruct Hv0 as [-> Hv]. split_and!; [by right; left|done|]. intros [| | |[c|]|] Hr; cbn; try done.
    intros v' [H1 H2]. split; [done|]. destruct (negb _); cbn; [|done]. by intros v2 [H3 H4].
  - intros v Hv r. right. destruct r as [| | |[c|]|]; cbn; try done. intros v' Hv'. destruct (negb _); cbn; [|done].
    intros _ _. split; [by apply not_claim|done].
Qed.

Lemma compete_decent myId fname k : plain myId = true -> decent k -> decent (compete myId fname k).
Proof.
  intros Hid [Hp Hm]. unfold compete. destruct (negb _); [done|]. split; cbn.
  - intros v Hv0. split; [done|]. destruct Hv0 as [-> Hv]. split_and!; [by left| |].
    + intros _. cbn. intros v1 Hv1 v2 Hv2 r. destruct (val_bool r); cbn; [|done]. intros v3 Hv3. left. by eexists.
    + intros r Hr. destruct (val_bool r); [|done]. cbn. intros v1 [H1 H2]. split; [done|]. intros v2 Hv2. split; [done|].
      destruct Hv2 as [-> H4]. split_and!; [by right; right; eexists|done|]. intros r2 _. destruct (val_bool r2); cbn; [|done]. by intros v3 Hv3.
  - intros v [-> Hv] r. destruct r as [|[]| | |]; [by right|by left|right; exact Hm..].
Qed.

Lemma compete_competes myId k : competes (compete myId leaderfile k).
Proof. cbn. by intros v [-> _]. Qed.

Lemma callback_decent myId e : plain myId = true -> decent (lead_callback myId e).
Proof.
  intros Hid. unfold lead_callback. destruct (_ =? _); [by apply compete_decent|]. destruct (_ =? _); [|done].
  by apply renew_decent.
Qed.

Lemma main_decent myId n : plain myId = true -> decent (lead_main myId n).
Proof. intros Hid. apply compete_decent; [done|]. apply renew_decent, watch_decent. Qed.
End code.

(** ** Processes *)

(** What is fixed of a process: its id, the number of its handle, its session
    and the name of its client. *)
Record place := Place {
  pl_id : string;
  pl_fd : Z;
  pl_session : Z;
  pl_name : string;
}.

#[export] Instance thread_id_eq_dec : EqDecision thread_id.
Proof. solve_decision. Defined.

Section proc.
Context (hdl : FileHandler) (lib_junk : bool).
Implicit Types (pl : place) (P : Proc lead_vars).

Definition fits (r : reply_val) : Prop :=
  match r with RepContents (RC_val c) => plain (cas_content c) = true | _ => True end.

Record citizen pl P : Prop := {
  ci_session : p_session P = pl_session pl;
  ci_handle : fdList (p_lib P) !! pl_fd pl = Some hdl;
  ci_vars : good_vars (pl_fd pl) (p_vars P);
  ci_code t : polite (pl_fd pl) (thread P t);
  ci_pending :
    match p_pending P with
    | None => p_replies P = []
    | Some (t, x) => (exists o k, thread P t = Call o k) /\
        (p_replies P = [] \/ x <> INTERNAL /\ exists r, p_replies P = [(x, r)] /\ fits r)
    end;
}.

(** The reply that grants the lock is under way. *)
Definition winning pl P : Prop := exists t x k, p_pending P = Some (t, x) /\
  thread P t = Call (L_tryAcquire (pl_fd pl)) k /\ (x, RepBool (RB_val true)) ∈ p_replies P.
(** The process has announced that it set the leader, itself or another
    ([LeaderHonest]). *)
Definition announced P : Prop := exists name, claim name ∈ p_log P.
(** Waits for a reply that is not sent. *)
Definition unanswered P : Prop := exists t, p_pending P = Some (t, INTERNAL).

Definition innocent pl P : Prop :=
  (forall t, modest (pl_fd pl) (thread P t)) /\ ~ winning pl P /\ ~ announced P.
Definition elected pl P : Prop :=
  announced P \/ (exists t, claiming (pl_fd pl) (thread P t)) \/ winning pl P \/ unanswered P.
Definition lock_event (e : EventContent) : Prop := evc_event e = EV_LOCK_CHANGED /\ evc_fname e = leaderfile.
Definition keen pl P : Prop := (exists e, e ∈ p_events P /\ lock_event e) \/
  exists t, competes (pl_fd pl) (thread P t) /\ forall x, p_pending P <> Some (t, x).

(** A step of the process, or what happens to it, keeps its roles. *)
Record goes_on pl P P' : Prop := {
  go_citizen : citizen pl P';
  go_innocent : innocent pl P -> innocent pl P';
  go_elected : elected pl P -> elected pl P';
  go_keen : keen pl P -> keen pl P';
}.

Lemma thread_continue t t' k l P : thread (continue t k l P) t' = if decide (t' = t) then k else thread P t'.
Proof. by destruct t, t'. Qed.

(** A thread that is not in a call moves on to [k]. *)
Record moves (fd : Z) (t : thread_id) (k : code) (said : list string) P P' : Prop := {
  mv_still : p_session P' = p_session P /\ fdList (p_lib P') = fdList (p_lib P) /\ p_pending P' = p_pending P /\
    p_replies P' = p_replies P;
  mv_vars : good_vars fd (p_vars P');
  mv_events e : e ∈ p_events P -> lock_event e -> e ∈ p_events P' \/ competes fd k;
  mv_log : p_log P' = p_log P ++ said;
  mv_thread t' : thread P' t' = if decide (t' = t) then k else thread P t';
  mv_code : forall o k0, thread P t <> Call o k0;
  mv_polite : polite fd k;
  mv_modest : modest fd (thread P t) -> modest fd k /\ Forall (fun m => ~ claims m) said;
  mv_claiming : claiming fd (thread P t) -> claiming fd k \/ exists name, claim name ∈ said;
  mv_competes : competes fd (thread P t) -> competes fd k;
}.

Lemma moves_goes pl t k said P P' : citizen pl P -> moves (pl_fd pl) t k said P P' -> goes_on pl P P'.
Proof.
  intros [C1 C2 C3 C4 C5] [(M1 & M2 & M3 & M4) M5 M6 M7 M8 M9 M10 M11 M12 M13].
  assert (forall t0 x, p_pending P = Some (t0, x) -> thread P' t0 = thread P t0 /\ t0 <> t) as Hpend.
  { intros t0 x E. rewrite E in C5. destruct C5 as [(o & k0 & Hc) _]. rewrite M8. case_decide as Et; [|done]. subst.
    by apply M9 in Hc. }
  split.
  - split; [congruence|by rewrite M2|done| |].
    + intros t'. rewrite M8. case_decide; [done|apply C4].
    + rewrite M3, M4. destruct (p_pending P) as [[t0 x]|] eqn:E; [|done]. destruct (Hpend t0 x eq_refl) as [-> _]. done.
  - intros (I1 & I2 & I3). destruct (M11 (I1 t)) as [Hk Hs]. split_and!.
    + intros t'. rewrite M8. case_decide; [done|apply I1].
    + intros (t0 & x & k0 & Hp & Hc & Hr). apply I2. rewrite M3 in Hp. rewrite M4 in Hr. destruct (Hpend t0 x Hp) as [E _].
      exists t0, x, k0. by rewrite <-E.
    + intros [name Hn]. rewrite M7 in Hn. apply elem_of_app in Hn as [Hn|Hn]; [by apply I3; exists name|]. rewrite list.Forall_forall in Hs.
      apply (Hs _ Hn). by exists name.
  - intros [[name Hn]|[[t' Hc]|[(t0 & x & k0 & Hp & Hc & Hr)|[t0 Hp]]]].
    + left. exists name. rewrite M7. apply elem_of_app. by left.
    + destruct (decide (t' = t)) as [->|Ht].
      * destruct (M12 Hc) as [Hk|[name Hn]].
        { right. left. exists t. by rewrite M8, decide_True. }
        left. exists name. rewrite M7. apply elem_of_app. by right.
      * right. left. exists t'. by rewrite M8, decide_False.
    + right. right. left. exists t0, x, k0. rewrite M3, M4. by destruct (Hpend t0 x Hp) as [-> _].
    + right. right. right. exists t0. by rewrite M3.
  - assert (competes (pl_fd pl) k -> keen pl P') as Hkeen.
    { intros Hk. right. exists t. rewrite M8, decide_True by done. split; [done|]. intros x Hx. rewrite M3 in Hx.
      by apply Hpend in Hx as [_ []]. }
    intros [(e & He & Hl)|(t' & Hc & Hp)].
    + destruct (M6 e He Hl) as [He'|Hk]; [left; by exists e|by apply Hkeen].
    + destruct (decide (t' = t)) as [->|Ht]; [by apply Hkeen, M13|].
      right. exists t'. rewrite M8, decide_False, M3 by done. done.
Qed.

Lemma local_goes pl t P P' : citizen pl P -> local_step t P = Some P' -> goes_on pl P P'.
Proof.
  intros Hc Hl. unfold local_step in Hl. pose proof (ci_code _ _ Hc t) as Hp. destruct (thread P t) as [| |o k|ready g k|m k|k] eqn:Et;
    try done.
  - destruct (ready (p_vars P)); [|done]. injection Hl as <-. cbn in Hp. destruct (Hp _ (ci_vars _ _ Hc)) as [Hg Hk].
    apply (moves_goes pl t (k (p_vars P)) []); [done|]. split; rewrite ?Et; try done; cbn.
    + tauto.
    + by rewrite app_nil_r.
    + intros t'. by destruct t, t'.
    + intros Hm. split; [by apply Hm, Hc|constructor].
    + intros Hm. left. by apply Hm, Hc.
    + intros Hm. by apply Hm, Hc.
  - injection Hl as <-. apply (moves_goes pl t k [m]); [done|]. split; rewrite ?Et; try done; cbn; try apply Hc.
    + tauto.
    + intros t'. by destruct t, t'.
    + intros [Hm Hk]. by split; [|apply list.Forall_singleton].
    + intros [[name ->]|Hk]; [right; exists name; by left|by left].
  - injection Hl as <-. apply (moves_goes pl t k []); [done|]. split; rewrite ?Et; try done; cbn; try apply Hc.
    + tauto.
    + by rewrite app_nil_r.
    + intros t'. by destruct t, t'.
    + intros Hm. by left.
Qed.

Lemma lock_callback pl e : lock_event e -> competes (pl_fd pl) (lead_callback (pl_id pl) e).
Proof. intros [E1 E2]. unfold lead_callback. rewrite E1, E2. apply compete_competes. Qed.

Lemma event_goes pl P P' : plain (pl_id pl) = true -> citizen pl P ->
  take_event (fun _ => lead_callback (pl_id pl)) 0 P = Some P' -> goes_on pl P P'.
Proof.
  intros Hid Hc He. unfold take_event in He. destruct (p_callback P) eqn:Ec; try done. destruct (p_events P) as [|e rest] eqn:Ee; [done|].
  injection He as <-. destruct (callback_decent (pl_fd pl) (pl_id pl) e Hid) as [Hp Hm].
  apply (moves_goes pl T_callback (lead_callback (pl_id pl) e) []); [done|]. split; cbn; rewrite ?Ec; try done.
  - apply Hc.
  - rewrite Ee. intros e' [->|He']%elem_of_cons Hl; [right; by apply lock_callback|by left].
  - by rewrite app_nil_r.
  - by intros [|].
Qed.

(** What is sent to the process, but for replies to it. *)
Lemma deliver_goes pl P os : citizen pl P -> replies_for (pl_session pl) os = [] -> goes_on pl P (deliver_to os P).
Proof.
  intros [C1 C2 C3 C4 C5] Hr. rewrite deliver_to_eq, C1, Hr, app_nil_r. split.
  - by split.
  - intros (I1 & I2 & I3). split_and!; [|exact I2|done]. intros t. specialize (I1 t). by destruct t.
  - done.
  - intros [(e & He & Hl)|Hk]; [|by right]. left. exists e. cbn. split; [apply elem_of_app; by left|done].
Qed.

(** ** Replies *)

(** What the library returns for a reply. *)
Lemma lib_answer (o : lib_op) l r v l' fd : good_call fd o -> fdList l !! fd = Some hdl ->
  lib_exec lib_junk o (set_client (Answered r) l) = Ret v l' -> fits r ->
  fdList l' = fdList l /\ good_val v /\ (o = L_tryAcquire fd -> v = V_bool true -> r = RepBool (RB_val true)).
Proof.
  intros Ho Hh Hr Hf. assert (fdList l' = fdList l) as El
    by (apply (lib_exec_handles lib_junk o (set_client (Answered r) l) v l'); [by destruct Ho as [->|[->|(s & -> & _)]]|done]).
  split; [done|]. clear El.
  destruct Ho as [->|[->|(s & -> & Hs)]]; unfold lib_exec, ClientLib.tryAcquire, ClientLib.getContentsAndStat, ClientLib.setContents,
    ClientLib.find, ClientLib.call, on_client, gets, mbind, M_bind in Hr; cbn in Hr; rewrite Hh in Hr; cbn in Hr; destruct r as [| | |]; cbn in Hr; try done.
  - destruct r as [b| |d]; cbn in Hr; try done; [|by unfold val_or_throw in Hr; destruct (rb_discriminant _ =? 0)].
    injection Hr as <- <-. split; [done|]. by intros _ [= ->].
  - destruct r as [c| |]; cbn in Hr; try done. by injection Hr as <- <-.
  - destruct r as [b| |d]; cbn in Hr; try done; [|by unfold val_or_throw in Hr; destruct (rb_discriminant _ =? 0)].
    injection Hr as <- <-. by split.
Qed.

Lemma granted_val fd l v l' : lib_exec lib_junk (L_tryAcquire fd) (set_client (Answered (RepBool (RB_val true))) l) = Ret v l' ->
  fdList l !! fd = Some hdl -> v = V_bool true.
Proof.
  intros Hr Hh. unfold lib_exec, ClientLib.tryAcquire, ClientLib.find, ClientLib.call, on_client, gets, mbind, M_bind in Hr.
  cbn in Hr. rewrite Hh in Hr. cbn in Hr. by injection Hr as <-.
Qed.

(** A process that has ended has no role. *)
Lemma exit_ends t l P : alive (continue t Exit l P) = false.
Proof. unfold alive, continue. destruct t; cbn; [done|]. by destruct (p_main P). Qed.

Lemma reply_goes pl P P' : citizen pl P -> take_reply lib_junk P = Some P' -> alive P' = true -> goes_on pl P P'.
Proof.
  intros Hc Ht Ha. unfold take_reply in Ht. destruct (p_pending P) as [[t x]|] eqn:Ep; [|done].
  pose proof (ci_pending _ _ Hc) as Hpend. rewrite Ep in Hpend. destruct Hpend as [_ Hrep].
  destruct (p_replies P) as [|[x' r] rest] eqn:Er; [done|]. destruct Hrep as [|(Hx & r' & [= -> -> ->] & Hfit)]; [done|].
  pose proof (ci_code _ _ Hc t) as Hp. destruct (thread P t) as [| |o k| | |] eqn:Et; try done. rewrite Z.eqb_refl in Ht.
  injection Ht as Ht. destruct (lib_exec lib_junk o _) as [v l| | |] eqn:El; try (rewrite <-Ht, exit_ends in Ha; done).
  destruct Hp as (Ho & Hwin & Hk).
  destruct (lib_answer o _ _ _ _ _ Ho (ci_handle _ _ Hc) El Hfit) as (Hl & Hv & Hgrant).
  assert (forall t', thread P' t' = if decide (t' = t) then k v else thread P t') as Hthr by (intros t'; rewrite <-Ht; by destruct t, t').
  assert (p_pending P' = None /\ p_replies P' = [] /\ p_log P' = p_log P /\ p_events P' = p_events P) as (E1 & E2 & E3 & E4)
    by (by rewrite <-Ht).
  assert (v = V_bool true -> o = L_tryAcquire (pl_fd pl) -> winning pl P) as Hw.
  { intros -> ->. exists t, x, k. split_and!; [done|done|]. rewrite Er, (Hgrant eq_refl eq_refl). by left. }
  destruct Hc as [C1 C2 C3 C4 C5]. split.
  - split; [by rewrite <-Ht|by rewrite <-Ht; cbn; rewrite Hl|by rewrite <-Ht| |by rewrite E1, E2].
    intros t'. rewrite Hthr. case_decide; [by apply Hk|apply C4].
  - intros (I1 & I2 & I3). split_and!.
    + intros t'. rewrite Hthr. case_decide; [|apply I1]. pose proof (I1 t) as Hm. rewrite Et in Hm.
      destruct (Hm v) as [[-> Hvt]|Hm']; [|done]. by destruct (I2 (Hw Hvt eq_refl)).
    + intros (t0 & x0 & k0 & Hp0 & _). by rewrite E1 in Hp0.
    + unfold announced. by rewrite E3.
  - intros [Hn|[[t' Hcl]|[(t0 & x0 & k0 & Hp0 & Hc0 & Hr0)|[t0 Hp0]]]].
    + left. unfold announced. by rewrite E3.
    + right. left. exists t'. rewrite Hthr. case_decide; [|done]. subst t'. rewrite Et in Hcl. apply Hcl.
    + right. left. exists t. rewrite Hthr, decide_True by done. rewrite Ep in Hp0. injection Hp0 as <- <-.
      rewrite Et in Hc0. injection Hc0 as -> ->. rewrite Er in Hr0. apply list_elem_of_singleton in Hr0 as [= <-].
      rewrite (granted_val _ _ _ _ El C2). by apply Hwin.
    + rewrite Ep in Hp0. by injection Hp0 as _ ->.
  - intros [(e & He & Hle)|(t' & Hcl & Hp0)].
    + left. exists e. by rewrite E4.
    + right. exists t'. rewrite Hthr, E1. case_decide as Ht'; [|done]. subst t'. by destruct (Hp0 x).
Qed.
End proc.
