(* ===== verification/LeaderProps.v ===== *)
(** * The invariant of an election

    The processes of [LeaderRel] over the server of [LeaderServer]: who has the
    lock has won or is about to know it, nobody else has, and while nobody has
    it everybody is about to try ([lead_inv], [step_keeps]). *)

From S2P Require Import Prelude Names ServerTypes ServerDB ServerDBWf BackstoreRefine Interfaces ClientLib DbApi TreeStore.
From S2P Require Import ServerLogic LogicInv LogicSpec ChubbyApp Programs LeaderElect LeaderServer LeaderRel.

(** ** What is delivered *)

Lemma replies_none se os : Forall (fun o => match o with OReply se' _ _ => se' <> se | _ => True end) os -> replies_for se os = [].
Proof.
  induction 1 as [|o os Ho _ IH]; [done|]. cbn. destruct o as [se' x r|se' e]; [|done]. destruct (Z.eqb_spec se' se); done.
Qed.

Lemma replies_app se os1 os2 : replies_for se (os1 ++ os2) = replies_for se os1 ++ replies_for se os2.
Proof. apply omap_app. Qed.

Lemma replies_events se m ev f : replies_for se (event_msgs m ev f) = [].
Proof. apply replies_none, list.Forall_forall. by intros o (t & -> & _)%list_elem_of_fmap. Qed.

(** A reply without events. *)
Lemma just_reply l f : l = l ++ event_msgs ∅ 0 f.
Proof. by rewrite app_nil_r. Qed.

Lemma replies_own se x r : replies_for se (reply_msgs se x r) = if x =? INTERNAL then [] else [(x, r)].
Proof. unfold reply_msgs. destruct (x =? INTERNAL); [done|]. cbn. by rewrite Z.eqb_refl. Qed.

Lemma replies_other se se' x r : se <> se' -> replies_for se' (reply_msgs se x r) = [].
Proof. intros H. apply replies_none. unfold reply_msgs. destruct (x =? INTERNAL); by repeat constructor. Qed.

Lemma events_told se m ev f : se ∈ lst m f -> mkEventContent ev f ∈ events_for se (event_msgs m ev f).
Proof.
  intros H. unfold events_for. apply list_elem_of_omap. exists (OEvent se (mkEventContent ev f)). rewrite Z.eqb_refl.
  split; [|done]. apply list_elem_of_fmap. by exists se.
Qed.

Lemma alive_deliver {L} os (P : Proc L) : alive (deliver_to os P) = alive P.
Proof. by rewrite deliver_to_eq. Qed.

(** A process keeps its session. *)
Lemma local_session {L} t (P P' : Proc L) : local_step t P = Some P' -> p_session P' = p_session P.
Proof. unfold local_step. destruct (thread P t); try done; [destruct (ready _); [|done]|..]; by intros [= <-]. Qed.
Lemma reply_session {L} b (P P' : Proc L) : take_reply b P = Some P' -> p_session P' = p_session P.
Proof.
  unfold take_reply. destruct (p_pending P) as [[t x]|]; [|done]. destruct (p_replies P) as [|[x' r] rest]; [done|].
  destruct (thread P t); try done. destruct (if x' =? x then _ else _); by intros [= <-].
Qed.
Lemma event_session {L} (cb : nat -> EventContent -> prog L) i (P P' : Proc L) : take_event cb i P = Some P' -> p_session P' = p_session P.
Proof. unfold take_event. destruct (p_callback P); try done. destruct (p_events P); [done|]. by intros [= <-]. Qed.

(** ** A call *)

Section call.
Context (hdl : FileHandler).
Implicit Types (pl : place) (P : Proc lead_vars).

(** The process [P] whose thread [t] has sent a request and is sent [r] for it. *)
Lemma called pl t o k P os r : citizen hdl pl P -> thread P t = Call o k -> p_pending P = None ->
  replies_for (pl_session pl) os = (if p_xid P =? INTERNAL then [] else [(p_xid P, r)]) -> fits r ->
  let P' := deliver_to os (ask t P) in
  citizen hdl pl P' /\
  ((o = L_tryAcquire (pl_fd pl) -> r <> RepBool (RB_val true)) -> innocent pl P -> innocent pl P') /\
  (elected pl P \/ o = L_tryAcquire (pl_fd pl) /\ r = RepBool (RB_val true) -> elected pl P') /\
  (o <> L_tryAcquire (pl_fd pl) -> keen pl P -> keen pl P').
Proof.
  intros [C1 C2 C3 C4 C5] Hc Hp Hr Hfit P'. rewrite Hp in C5.
  assert (thread P' = thread P /\ p_log P' = p_log P /\ p_pending P' = Some (t, p_xid P) /\
    p_replies P' = (if p_xid P =? INTERNAL then [] else [(p_xid P, r)])) as (E1 & E2 & E3 & E4).
  { unfold P'. rewrite deliver_to_eq. cbn. rewrite C1, Hr, C5. by split_and!. }
  assert (forall x r', (x, r') ∈ p_replies P' -> x = p_xid P /\ r' = r) as Hin.
  { intros x r' H. rewrite E4 in H. destruct (p_xid P =? INTERNAL); [by apply elem_of_nil in H|].
    apply list_elem_of_singleton in H. by injection H as -> ->. }
  split_and!.
  - split.
    + unfold P'. by rewrite deliver_to_eq.
    + unfold P'. by rewrite deliver_to_eq.
    + unfold P'. by rewrite deliver_to_eq.
    + intros t'. rewrite E1. apply C4.
    + rewrite E3, E1, E4. split; [by eexists _, _|]. destruct (Z.eqb_spec (p_xid P) INTERNAL); [by left|]. right.
      split; [done|]. by exists r.
  - intros Hno (I1 & I2 & I3). split_and!.
    + intros t'. rewrite E1. apply I1.
    + intros (t0 & x & k0 & H1 & H2 & H3). rewrite E3 in H1. injection H1 as <- <-. rewrite E1, Hc in H2. injection H2 as -> ->.
      destruct (Hin _ _ H3) as [_ <-]. by apply Hno.
    + unfold announced. by rewrite E2.
  - intros [[Hn|[[t' Hcl]|[(t0 & x & k0 & H1 & _)|[t0 H1]]]]|[-> ->]].
    + left. unfold announced. by rewrite E2.
    + right. left. exists t'. by rewrite E1.
    + by rewrite Hp in H1.
    + by rewrite Hp in H1.
    + destruct (Z.eqb_spec (p_xid P) INTERNAL) as [Ex|Ex].
      * right. right. right. exists t. by rewrite E3, Ex.
      * right. right. left. exists t, (p_xid P), k. rewrite E3, E1, E4. split_and!; [done|done|by left].
  - intros Ho [(e & He & Hl)|(t' & Hcl & _)].
    + left. exists e. split; [|done]. unfold P'. rewrite deliver_to_eq. cbn. apply elem_of_app. by left.
    + right. exists t'. rewrite E1, E3. split; [done|]. intros x [= -> _]. rewrite Hc in Hcl. by apply Ho.
Qed.
End call.

(** ** All processes and the server *)

Section world.
Context {D : Type} `{!DbApi D} {str_hash : string -> Z} {junk : Z} `{!TreeStore D str_hash junk}.
Context (stale : Z -> FileHandler) (lib_junk : bool).

(** The handle on the file, the clients, and the processes. *)
Context (hdl : FileHandler) (clients : gmap Z string) (places : list place).
Context (Hfile : fh_file_name hdl = leaderfile) (Hinst : u32 (fh_instance_number hdl)).
Context (Hclients : forall se c, clients !! se = Some c -> c <> "" /\ c <> NO_OWNER /\ plain c = true).
Context (Hinj : forall se se' c, clients !! se = Some c -> clients !! se' = Some c -> se = se').
Context (Hplaces : forall i pl, places !! i = Some pl -> plain (pl_id pl) = true /\ clients !! pl_session pl = Some (pl_name pl)).
Context (Hsessions : forall i j pl pl', places !! i = Some pl -> places !! j = Some pl' -> pl_session pl = pl_session pl' -> i = j).
Implicit Types (pl : place) (P : Proc lead_vars) (w : World D lead_vars) (s : Api D).

Abbreviation cleared s := (on_out (fun _ => []) s).
Abbreviation server := (lock_server (str_hash := str_hash) (junk := junk) hdl clients).

(** The callbacks of every process. *)
Definition lead_callbacks (i : nat) (e : EventContent) : code :=
  match places !! i with Some pl => lead_callback (pl_id pl) e | None => Stop end.

(** A living process and the lock. *)
Record member (owner : option string) s pl P : Prop := {
  me_citizen : citizen hdl pl P;
  me_connected : session2client_map s !! pl_session pl = Some (pl_name pl);
  me_owner : owner = Some (pl_name pl) \/ innocent pl P;
  me_elected : owner = Some (pl_name pl) -> elected pl P;
  me_keen : owner = None -> keen pl P;
}.

Record lead_inv (owner : option string) w : Prop := {
  li_server : server owner (w_server w);
  li_length : length (w_procs w) = length places;
  li_sessions i pl P : places !! i = Some pl -> w_procs w !! i = Some P -> p_session P = pl_session pl;
  li_procs i pl P : places !! i = Some pl -> w_procs w !! i = Some P -> alive P = true -> member owner (w_server w) pl P;
}.

Lemma member_goes owner s pl P P' : member owner s pl P -> goes_on hdl pl P P' -> member owner s pl P'.
Proof.
  intros [M1 M2 M3 M4 M5] [G1 G2 G3 G4]. split; [done|done| |auto|auto]. destruct M3; [by left|right; auto].
Qed.

(** A step of one process alone. *)
Lemma alone_keeps owner w i pl P P' : lead_inv owner w -> places !! i = Some pl -> w_procs w !! i = Some P -> alive P = true ->
  p_session P' = p_session P -> (alive P' = true -> goes_on hdl pl P P') -> lead_inv owner (mkWorld (w_server w) (<[i := P']> (w_procs w))).
Proof.
  intros [L1 L2 L3 L4] Hpl HP Ha Hse Hgo. split; cbn; [done|by rewrite length_insert|..].
  { intros j plj Pj Hj HPj. destruct (decide (j = i)) as [->|Hji].
    - rewrite list_lookup_insert_eq in HPj by (by eapply lookup_lt_Some). injection HPj as <-. rewrite Hse. by eapply L3.
    - rewrite list_lookup_insert_ne in HPj by done. by eapply L3. }
  intros j plj Pj Hj HPj Haj.
  destruct (decide (j = i)) as [->|Hji].
  - rewrite list_lookup_insert_eq in HPj by (by eapply lookup_lt_Some). injection HPj as <-.
    assert (plj = pl) as -> by congruence. apply (member_goes owner _ pl P); [by eapply L4|by apply Hgo].
  - rewrite list_lookup_insert_ne in HPj by done. by eapply L4.
Qed.

Lemma other_session i j pl pl' : places !! i = Some pl -> places !! j = Some pl' -> i <> j -> pl_session pl <> pl_session pl'.
Proof. intros Hi Hj Hij E. by apply Hij, (Hsessions i j pl pl'). Qed.
Lemma other_name i j pl pl' : places !! i = Some pl -> places !! j = Some pl' -> i <> j -> pl_name pl <> pl_name pl'.
Proof.
  intros Hi Hj Hij E. apply (other_session i j pl pl' Hi Hj Hij).
  destruct (Hplaces i pl Hi) as [_ Hc]. destruct (Hplaces j pl' Hj) as [_ Hc']. rewrite E in Hc. by eapply Hinj.
Qed.

(** Requests and deliveries leave the sessions. *)
Lemma delivered_sessions owner w i P P1 os j plj Pj : lead_inv owner w -> w_procs w !! i = Some P -> p_session P1 = p_session P ->
  places !! j = Some plj -> (deliver_to os <$> <[i := P1]> (w_procs w)) !! j = Some Pj -> p_session Pj = pl_session plj.
Proof.
  intros [_ _ L3 _] HP Hse Hj HPj. rewrite list_lookup_fmap in HPj. destruct (decide (j = i)) as [->|Hji].
  - rewrite list_lookup_insert_eq in HPj by (by eapply lookup_lt_Some). injection HPj as <-. rewrite deliver_to_eq. cbn. rewrite Hse. by eapply L3.
  - rewrite list_lookup_insert_ne in HPj by done. destruct (w_procs w !! j) as [Q|] eqn:HQ; [|done]. injection HPj as <-.
    rewrite deliver_to_eq. cbn. by eapply L3.
Qed.

(** A call of the process [i] that the server has handled. *)
Lemma served_keeps owner owner' w s' i pl P P1 r m ev : lead_inv owner w -> places !! i = Some pl -> w_procs w !! i = Some P ->
  server owner' (cleared s') -> session2client_map s' = session2client_map (w_server w) ->
  out s' = reply_msgs (pl_session pl) (p_xid P) r ++ event_msgs m ev (fh_file_name hdl) ->
  owner' = owner \/ owner = None /\ owner' = Some (pl_name pl) -> p_session P1 = p_session P ->
  (alive P1 = true -> member owner' s' pl (deliver_to (out s') P1)) ->
  lead_inv owner' (mkWorld (cleared s') (deliver_to (out s') <$> <[i := P1]> (w_procs w))).
Proof.
  intros Hw Hpl HP Hs Hcl Hout Hown Hse Hme. pose proof Hw as [L1 L2 _ L3].
  split; cbn; [done|by rewrite length_fmap, length_insert|intros j plj Pj; by eapply delivered_sessions|].
  intros j plj Pj Hj HPj Haj. rewrite list_lookup_fmap in HPj. destruct (decide (j = i)) as [->|Hji].
  - rewrite list_lookup_insert_eq in HPj by (by eapply lookup_lt_Some). injection HPj as <-.
    assert (plj = pl) as -> by congruence. rewrite alive_deliver in Haj. destruct (Hme Haj) as [M1 M2 M3 M4 M5]. by split.
  - rewrite list_lookup_insert_ne in HPj by done. destruct (w_procs w !! j) as [Q|] eqn:HQ; [|done]. injection HPj as <-.
    rewrite alive_deliver in Haj. destruct (L3 j plj Q Hj HQ Haj) as [M1 M2 M3 M4 M5].
    pose proof (deliver_goes hdl plj Q (out s') M1) as [G1 G2 G3 G4].
    { rewrite Hout, replies_app, replies_events, replies_other; [done|]. by apply (other_session i j). }
    assert (pl_name pl <> pl_name plj) as Hn by by apply (other_name i j).
    split; [done|cbn; by rewrite Hcl|..].
    + destruct Hown as [->|[-> ->]]; [destruct M3; [by left|right; auto]|]. right. apply G2. by destruct M3.
    + destruct Hown as [->|[-> ->]]; [auto|]. by intros [= E].
    + destruct Hown as [->|[-> ->]]; [auto|done].
Qed.

Lemma request_of_call pl P t o k : citizen hdl pl P -> thread P t = Call o k -> exists q, request_of o hdl = Some (q, pl_fd pl) /\
  (o = L_tryAcquire (pl_fd pl) /\ q = Q_tryAcquire hdl \/ o = L_getContentsAndStat (pl_fd pl) /\ q = Q_getContentsAndStat hdl \/
   exists c, o = L_setContents (pl_fd pl) c /\ plain c = true /\ q = Q_setContents (mkArgSetContents hdl c)).
Proof.
  intros Hc Ht. pose proof (ci_code _ _ _ Hc t) as Hp. rewrite Ht in Hp. destruct Hp as [[->|[->|(c & -> & Hp)]] _].
  - eexists. split; [done|by left].
  - eexists. split; [done|right; by left].
  - eexists. split; [done|right; right; by exists c].
Qed.

Lemma call_keeps owner w w' i pl P t : lead_inv owner w -> places !! i = Some pl -> w_procs w !! i = Some P -> alive P = true ->
  begin_call str_hash stale lib_junk i t P w = Some w' -> exists owner', lead_inv owner' w'.
Proof.
  intros Hw Hpl HP Ha Hb. pose proof (li_procs _ _ Hw i pl P Hpl HP Ha) as Hme. pose proof (me_citizen _ _ _ _ Hme) as Hc.
  pose proof (li_server _ _ Hw) as Hs. pose proof (me_connected _ _ _ _ Hme) as Hcon.
  destruct (thread P t) as [| |o k| | |] eqn:Et; try (unfold begin_call in Hb; by rewrite Et in Hb).
  destruct (p_pending P) eqn:Ep; [unfold begin_call in Hb; by rewrite Et, Ep in Hb|].
  destruct (request_of_call pl P t o k Hc Et) as (q & Hq & Hcase).
  destruct (begin_asks str_hash stale lib_junk o k hdl q _ i t P w w' Et Hq (ci_handle _ _ _ Hc) Ep Hb) as (s' & Hh & ->).
  rewrite (ci_session _ _ _ Hc) in Hh.
  assert (server owner (cleared (w_server w))) as Hs0 by (destruct Hs; by split).
  assert (forall r m ev, out s' = reply_msgs (pl_session pl) (p_xid P) r ++ event_msgs m ev (fh_file_name hdl) -> fits r ->
    let P' := deliver_to (out s') (ask t P) in citizen hdl pl P' /\
    ((o = L_tryAcquire (pl_fd pl) -> r <> RepBool (RB_val true)) -> innocent pl P -> innocent pl P') /\
    (elected pl P \/ o = L_tryAcquire (pl_fd pl) /\ r = RepBool (RB_val true) -> elected pl P') /\
    (o <> L_tryAcquire (pl_fd pl) -> keen pl P -> keen pl P')) as Hcalled.
  { intros r m ev Ho Hfit. apply (called hdl pl t o k P (out s') r); try done.
    by rewrite Ho, replies_app, replies_events, replies_own, app_nil_r. }
  destruct Hme as [M1 M2 M3 M4 M5].
  destruct Hcase as [[-> ->]|[[-> ->]|(c & -> & Hc1 & ->)]]; cbn [handle] in Hh.
  - destruct (tried (str_hash := str_hash) (junk := junk) stale hdl clients ltac:(by rewrite Hfile) Hinst Hclients owner _ _ _ _ _ Hs0 Hcon Hh) as [Ecl Hres].
    destruct owner as [c|].
    + destruct Hres as [Hs' Ho]. exists (Some c). rewrite (just_reply (bool_msgs _ _ _) (fh_file_name hdl)) in Ho.
      destruct (Hcalled _ ∅ 0 Ho I) as (R1 & R2 & R3 & _).
      apply (served_keeps (Some c) (Some c) w s' i pl P (ask t P) _ ∅ 0 Hw Hpl HP Hs' Ecl Ho ltac:(by left) eq_refl). intros _.
      split; [done|by rewrite Ecl| |intros E; auto|done]. destruct M3 as [M3|M3]; [by left|right]. apply R2; [done|done].
    + destruct Hres as [Hs' Ho]. exists (Some (pl_name pl)). destruct (Hcalled _ _ _ Ho I) as (R1 & R2 & R3 & _).
      apply (served_keeps None _ w s' i pl P (ask t P) _ _ _ Hw Hpl HP Hs' Ecl Ho ltac:(by right) eq_refl). intros _.
      split; [done|by rewrite Ecl|by left| |done]. intros _. apply R3. by right.
  - destruct (read_by (str_hash := str_hash) (junk := junk) stale hdl clients ltac:(by rewrite Hfile) Hinst owner _ _ _ _ Hs0 ltac:(by eexists) Hh) as (Ecl & Hs' & c & meta & Hc1 & Ho).
    exists owner. rewrite (just_reply (reply_msgs _ _ _) (fh_file_name hdl)) in Ho. destruct (Hcalled _ ∅ 0 Ho Hc1) as (R1 & R2 & R3 & R4).
    apply (served_keeps owner owner w s' i pl P (ask t P) _ ∅ 0 Hw Hpl HP Hs' Ecl Ho ltac:(by left) eq_refl). intros _.
    split; [done|by rewrite Ecl| |auto|intros E; apply R4; auto; done]. destruct M3 as [M3|M3]; [by left|right]. by apply R2.
  - destruct (written_by (str_hash := str_hash) (junk := junk) stale hdl clients ltac:(by rewrite Hfile) Hinst owner _ _ _ _ _ Hs0 ltac:(by eexists) Hc1 Hh) as (Ecl & Hs' & Ho).
    exists owner. destruct (Hcalled _ _ _ Ho I) as (R1 & R2 & R3 & R4).
    apply (served_keeps owner owner w s' i pl P (ask t P) _ _ _ Hw Hpl HP Hs' Ecl Ho ltac:(by left) eq_refl). intros _.
    split; [done|by rewrite Ecl| |auto|intros E; apply R4; auto; done]. destruct M3 as [M3|M3]; [by left|right]. by apply R2.
Qed.

(** The end of a session, whatever its process was doing. *)
Lemma end_keeps owner w w' i pl P : lead_inv owner w -> places !! i = Some pl -> w_procs w !! i = Some P ->
  serve_request str_hash stale Q_disconnect (p_session P) 0 (mkWorld (w_server w) (<[i := continue T_main Exit (p_lib P) P]> (w_procs w))) = Some w' ->
  exists owner', lead_inv owner' w'.
Proof.
  intros Hw Hpl HP Hs. pose proof Hw as [L1 L2 L4 L3]. pose proof (L4 i pl P Hpl HP) as Hse. unfold serve_request in Hs. cbn [w_server w_procs handle] in Hs.
  destruct (disconnect stale (p_session P) _) as [[] s'| | |] eqn:Hd; try done. injection Hs as <-.
  assert (server owner (cleared (w_server w))) as Hs0 by (destruct L1; by split).
  destruct (ended (str_hash := str_hash) (junk := junk) stale hdl clients ltac:(by rewrite Hfile) Hinst Hclients Hinj owner _ _ _ Hs0 Hd)
    as (Ecl & owner' & told & Hs' & Hout & Hown). cbn in Ecl, Hown.
  exists owner'. split; cbn; [done|by rewrite length_fmap, length_insert|intros j plj Pj; by eapply (delivered_sessions owner w i P)|].
  intros j plj Pj Hj HPj Haj. rewrite list_lookup_fmap in HPj. destruct (decide (j = i)) as [->|Hji].
  { rewrite list_lookup_insert_eq in HPj by (by eapply lookup_lt_Some). injection HPj as <-. by rewrite alive_deliver in Haj. }
  rewrite list_lookup_insert_ne in HPj by done. destruct (w_procs w !! j) as [Q|] eqn:HQ; [|done]. injection HPj as <-.
  rewrite alive_deliver in Haj. destruct (L3 j plj Q Hj HQ Haj) as [M1 M2 M3 M4 M5].
  assert (pl_session pl <> pl_session plj) as Hsj by (by apply (other_session i j)).
  assert (pl_name pl <> pl_name plj) as Hnj by (by apply (other_name i j)).
  destruct (deliver_goes hdl plj Q (out s') M1) as [G1 G2 G3 G4]; [by rewrite Hout, replies_events|].
  assert (owner' = owner \/ owner = Some (pl_name pl) /\ owner' = None /\ told = file2lockChange_map (w_server w)) as Hcase.
  { rewrite Hse in Hown. destruct (session2client_map (w_server w) !! pl_session pl) as [c|] eqn:Ec; [|by left].
    assert (c = pl_name pl) as ->.
    { pose proof (ls_clients _ _ _ _ L1 _ _ Ec) as Ec'. destruct (Hplaces i pl Hpl) as [_ E]. congruence. }
    destruct Hown as [-> Ht]. case_bool_decide as E; [right|by left]. auto. }
  split; [done|cbn; rewrite Ecl, Hse, lookup_delete_ne by done; done|..].
  - destruct Hcase as [->|(-> & -> & _)]; [destruct M3; [by left|right; auto]|]. right. apply G2. destruct M3 as [[= E]|M3]; done.
  - destruct Hcase as [->|(-> & -> & _)]; [auto|done].
  - destruct Hcase as [->|(_ & _ & ->)]; [auto|]. intros _. left. exists (mkEventContent EV_LOCK_CHANGED (fh_file_name hdl)).
    split; [|by rewrite Hfile]. rewrite deliver_to_eq. cbn. apply elem_of_app. right. rewrite (ci_session _ _ _ M1), Hout.
    apply events_told. apply (ls_told _ _ _ _ L1). by eexists.
Qed.

Lemma step_keeps owner w w' a : lead_inv owner w -> step str_hash stale lib_junk lead_callbacks a w = Some w' -> exists owner', lead_inv owner' w'.
Proof.
  intros Hw Hst.
  assert (forall i, is_Some (w_procs w !! i) -> exists pl P, places !! i = Some pl /\ w_procs w !! i = Some P /\
    (alive P = true -> member owner (w_server w) pl P)) as Hat.
  { intros i [P HP]. destruct (lookup_lt_is_Some_2 places i) as [pl Hpl].
    { rewrite <-(li_length _ _ Hw). by eapply lookup_lt_Some. }
    exists pl, P. split_and!; [done|done|]. by eapply li_procs. }
  destruct a as [i t|i|i|i t|i]; cbn in Hst; destruct (w_procs w !! i) as [P|] eqn:HP; try done; cbn in Hst;
    destruct (Hat i ltac:(by eexists)) as (pl & P' & Hpl & HP' & Hme); rewrite HP in HP'; injection HP' as <-.
  - destruct (alive P) eqn:Ha; [|done]. by eapply call_keeps.
  - destruct (alive P) eqn:Ha; [|done]. destruct (take_reply _ P) as [P'|] eqn:Ht; [|done]. injection Hst as <-.
    exists owner. eapply alone_keeps; try done; [by eapply reply_session|]. intros Ha'. by eapply reply_goes; [apply Hme|..].
  - destruct (alive P) eqn:Ha; [|done]. destruct (take_event _ _ P) as [P'|] eqn:Ht; [|done]. injection Hst as <-.
    exists owner. eapply alone_keeps; try done; [by eapply event_session|]. intros Ha'. eapply event_goes; [by apply (Hplaces i)|by apply Hme|].
    rewrite <-Ht. unfold take_event, lead_callbacks. by rewrite Hpl.
  - destruct (alive P) eqn:Ha; [|done]. destruct (local_step t P) as [P'|] eqn:Ht; [|done]. injection Hst as <-.
    exists owner. eapply alone_keeps; try done; [by eapply local_session|]. intros Ha'. by eapply local_goes; [apply Hme|].
  - by eapply end_keeps.
Qed.
End world.
