(* ===== verification/LeaderHonest.v ===== *)
(** * What the processes of an election announce

    In every run, whatever the server answers: a process of
    [apps/leader_elect.cc] announces its own id as the leader, or a name that it
    found in the file ([honest], [honest_run]).  [compete] and [renew] run in two
    threads and share [leader], so that the second case happens. *)

From S2P Require Import Prelude Interfaces ClientLib ServerTypes DbApi ServerLogic LogicInv ChubbyApp.
From S2P Require Import Programs LeaderElect LeaderRel LeaderProps.

(** ** Code *)

Section code.
Context (myId : string).

(** Code that announces only names for which [Q] holds, where [Q] holds for
    [leader] when [own] is set.  Names are added to [Q] while the code runs: those
    that a thread is about to say it has found. *)
Fixpoint sound (Q : string -> Prop) (own : bool) (p : code) : Prop :=
  match p with
  | Stop | Exit => True
  | Call _ k => forall r, sound Q own (k r)
  | Step _ f k => forall (Q' : string -> Prop) v, (forall n, Q n -> Q' n) -> (own = true -> Q' (leader v)) ->
      leader (f v) = leader v /\ sound Q' own (k v) \/
      leader (f v) = myId /\ sound Q' true (k v) \/
      (exists k', k v = Info (found (leader (f v))) k') /\ sound Q' own (k v)
  | Info m k => (claims m -> exists name, m = claim name /\ Q name) /\ sound Q own k
  | Input k => sound Q own k
  end.

Lemma sound_mono Q Q' own p : (forall n, Q n -> Q' n) -> sound Q own p -> sound Q' own p.
Proof.
  intros HQ. induction p as [| |o k IH|ready f k IH|m k IH|k IH]; cbn; [done|done| | | |done].
  - intros H r. apply IH, H.
  - intros H Q2 v H2. apply H. auto.
  - intros [Hm Hk]. split; [|by apply IH]. intros Hc. destruct (Hm Hc) as (n & -> & Hn). exists n. auto.
Qed.

Lemma found_no_claim name : ~ claims (found name).
Proof. by apply not_claim. Qed.

Lemma watch_sound n l d Q own : sound Q own (watch n l d).
Proof.
  revert l d Q. induction n as [|n IH]; intros l d Q; [done|]. cbn. intros Q' v _ _. left. split; [done|].
  destruct (_ && _); cbn; (split; [|apply IH]); intros Hc; by apply not_claim in Hc.
Qed.

Lemma renew_sound fname k Q own : (forall Q' own, sound Q' own k) -> sound Q own (renew fname k).
Proof.
  intros Hk. unfold renew. destruct (negb _); [apply Hk|]. cbn. intros Q1 v _ _. left. split; [done|].
  intros [| | |[c|]|]; cbn; try done. intros Q2 v2 _ _. left. split; [done|]. destruct (negb _); [|apply Hk]. cbn.
  intros Q3 v3 _ _. right. right. split; [by eexists|]. split; [|apply Hk]. intros Hc. by apply found_no_claim in Hc.
Qed.

Lemma compete_sound fname k Q own : (forall Q' own, sound Q' own k) -> sound Q own (compete myId fname k).
Proof.
  intros Hk. unfold compete. destruct (negb _); [apply Hk|]. cbn. intros Q1 v _ _. left. split; [done|].
  intros r. destruct (val_bool r); [|apply Hk]. cbn. intros Q2 v2 _ _. right. left. split; [done|].
  intros Q3 v3 _ _. left. split; [done|]. intros r3. destruct (val_bool r3); cbn; [|done].
  intros Q4 v4 _ H4. left. split; [done|]. split; [|apply Hk]. intros _. exists (leader v4). split; [done|by apply H4].
Qed.

Lemma main_sound n Q own : sound Q own (lead_main myId n).
Proof. apply compete_sound. intros Q1 own1. apply renew_sound. intros Q2 own2. apply watch_sound. Qed.
Lemma callback_sound e Q own : sound Q own (lead_callback myId e).
Proof. unfold lead_callback. repeat case_match; [by apply compete_sound|by apply renew_sound|done]. Qed.

(** ** A process *)

Implicit Types P : Proc lead_vars.

(** The names that a process may announce: its own, and those it has found or is
    about to say it has. *)
Definition may_announce P (name : string) : Prop :=
  name = myId \/ found name ∈ p_log P \/ exists t k, thread P t = Info (found name) k.

Record honest P : Prop := {
  ho_log m : m ∈ p_log P -> claims m -> exists name, m = claim name /\ may_announce P name;
  ho_code t : exists own, sound (may_announce P) own (thread P t) /\ (own = true -> may_announce P (leader (p_vars P)));
}.

(** A thread that is not about to say what it found goes on. *)
Lemma honest_continue P P' t own k : honest P -> (forall name k0, thread P t <> Info (found name) k0) ->
  (forall t', thread P' t' = if decide (t' = t) then k else thread P t') -> p_log P' = p_log P ->
  ((forall n, may_announce P n -> may_announce P' n) -> sound (may_announce P') own k /\
    (own = true -> may_announce P' (leader (p_vars P'))) /\
    (leader (p_vars P') = leader (p_vars P) \/ may_announce P' (leader (p_vars P')))) -> honest P'.
Proof.
  intros [H1 H2] Hno Ht Hl Hk.
  assert (forall n, may_announce P n -> may_announce P' n) as Hm.
  { intros n [->|[Hn|(t0 & k0 & Hn)]]; [by left|right; left; by rewrite Hl|]. right. right. exists t0, k0. rewrite Ht.
    case_decide; [subst; by apply Hno in Hn|done]. }
  destruct (Hk Hm) as (Hs & Ho & Hv). split.
  - intros m Hin Hc. rewrite Hl in Hin. destruct (H1 m Hin Hc) as (n & -> & Hn). exists n. auto.
  - intros t'. rewrite Ht. case_decide; [by exists own|]. destruct (H2 t') as (own' & Hs' & Ho'). exists own'.
    split; [by eapply sound_mono|]. intros E. destruct Hv as [->|Hv]; auto.
Qed.

Lemma local_honest t P P' : honest P -> local_step t P = Some P' -> honest P'.
Proof.
  intros Hh Hl. unfold local_step in Hl. destruct (ho_code _ Hh t) as (own & Hs & Ho).
  destruct (thread P t) as [| |o k|ready f k|m k|k] eqn:Et; try done; cbn in Hs.
  - destruct (ready (p_vars P)); [|done]. injection Hl as <-.
    set (P' := set_vars _ _).
    assert (forall t', thread P' t' = if decide (t' = t) then k (p_vars P) else thread P t') as Ht by (intros t'; by destruct t, t').
    assert (forall n, may_announce P n -> may_announce P' n) as Hm.
    { intros n [->|[Hn|(t0 & k0 & Hn)]]; [by left|by right; left|]. right. right. exists t0, k0. rewrite Ht. case_decide; [congruence|done]. }
    destruct (Hs (may_announce P') (p_vars P) Hm) as [[E Hk]|[[E Hk]|[[k' E] Hk]]].
    { intros Hown. auto. }
    + eapply (honest_continue P P' t own); [done|congruence|exact Ht|done|]. intros _. split; [done|].
      change (leader (p_vars P')) with (leader (f (p_vars P))). rewrite E. split; [auto|by left].
    + eapply (honest_continue P P' t true); [done|congruence|exact Ht|done|]. intros _. split; [done|].
      change (leader (p_vars P')) with (leader (f (p_vars P))). rewrite E. split; [by left|right; by left].
    + assert (may_announce P' (leader (f (p_vars P)))) as Hf.
      { right. right. exists t, k'. by rewrite Ht, decide_True. }
      eapply (honest_continue P P' t own); [done|congruence|exact Ht|done|]. intros _. by split_and!; [| |right].
  - injection Hl as <-. set (P' := print _ _). destruct Hs as [Hc Hk]. destruct Hh as [H1 H2].
    assert (forall t', thread P' t' = if decide (t' = t) then k else thread P t') as Ht by (intros t'; by destruct t, t').
    assert (forall n, may_announce P n -> may_announce P' n) as Hm.
    { intros n [->|[Hn|(t0 & k0 & Hn)]]; [by left|right; left; cbn; apply elem_of_app; by left|].
      destruct (decide (t0 = t)) as [->|Hne].
      - rewrite Et in Hn. injection Hn as -> _. right. left. cbn. apply elem_of_app. right. by left.
      - right. right. exists t0, k0. by rewrite Ht, decide_False. }
    split.
    + intros m' Hin Hc'. apply elem_of_app in Hin as [Hin|Hin%list_elem_of_singleton].
      * destruct (H1 m' Hin Hc') as (n & -> & Hn). exists n. auto.
      * subst. destruct (Hc Hc') as (n & -> & Hn). exists n. auto.
    + intros t'. rewrite Ht. case_decide.
      * exists own. split; [by eapply sound_mono|]. intros E. apply Hm. auto.
      * destruct (H2 t') as (own' & Hs' & Ho'). exists own'. split; [by eapply sound_mono|]. intros E. apply Hm. auto.
  - injection Hl as <-. eapply (honest_continue P _ t own k); [done|congruence|intros t'; by destruct t, t'|done|].
    intros Hm. split; [by eapply sound_mono|]. split; [|by left]. intros E. apply Hm. auto.
Qed.

(** A thread whose call returns, or that ends. *)
Lemma returned_honest t o k0 k l P P' : honest P -> thread P t = Call o k0 -> k = Exit \/ (exists r, k = k0 r) ->
  (forall t', thread P' t' = thread (continue t k l P) t') -> p_log P' = p_log P -> p_vars P' = p_vars P -> honest P'.
Proof.
  intros Hh Ec Hk Ht Hl Hv. destruct (ho_code _ Hh t) as (own & Hs & Ho). rewrite Ec in Hs. cbn in Hs.
  eapply (honest_continue P P' t own k); [done|congruence|intros t'; by rewrite Ht, thread_continue|done|]. rewrite Hv.
  intros Hm. split_and!; [|auto|by left]. destruct Hk as [->|[r ->]]; [done|]. by eapply sound_mono.
Qed.

Lemma same_honest P P' : honest P -> (forall t, thread P' t = thread P t) -> p_log P' = p_log P -> p_vars P' = p_vars P -> honest P'.
Proof.
  intros [H1 H2] Ht Hl Hv. assert (forall n, may_announce P n -> may_announce P' n) as Hm.
  { intros n. unfold may_announce. rewrite Hl. setoid_rewrite Ht. done. }
  split.
  - rewrite Hl. intros m Hin Hc. destruct (H1 m Hin Hc) as (n & -> & Hn). exists n. auto.
  - intros t. rewrite Ht, Hv. destruct (H2 t) as (own & Hs & Ho). exists own. split; [by eapply sound_mono|auto].
Qed.

Lemma deliver_honest os P : honest P -> honest (deliver_to os P).
Proof. intros Hh. rewrite deliver_to_eq. by apply (same_honest P); [|intros [|]|..]. Qed.

Lemma reply_honest b P P' : honest P -> take_reply b P = Some P' -> honest P'.
Proof.
  intros Hh. unfold take_reply. destruct (p_pending P) as [[t x]|]; [|done]. destruct (p_replies P) as [|[x' r] rest]; [done|].
  destruct (thread P t) as [| |o k| | |] eqn:Et; try done.
  destruct (if x' =? x then _ else _) as [v l|e l| |]; intros [= <-];
    (eapply (returned_honest t o k _ (p_lib P)); [done|exact Et| |by intros [|]; destruct t|done|done]); eauto.
Qed.

Lemma event_honest i P P' : honest P -> take_event (fun _ => lead_callback myId) i P = Some P' -> honest P'.
Proof.
  intros Hh. unfold take_event. destruct (p_callback P) eqn:Ec; try done. destruct (p_events P) as [|e rest]; [done|]. intros [= <-].
  eapply (honest_continue P _ T_callback false (lead_callback myId e)); [done|intros name k0; cbn; by rewrite Ec|by intros [|]|done|].
  intros _. split_and!; [apply callback_sound|done|by left].
Qed.
End code.

(** ** All processes *)

Section world.
Context {D : Type} `{!DbApi D} (str_hash : string -> Z) (stale : Z -> FileHandler) (junk : bool) (places : list place).
Implicit Types w : World D lead_vars.

Definition all_honest w : Prop := forall i pl P, places !! i = Some pl -> w_procs w !! i = Some P -> alive P = true -> honest (pl_id pl) P.

Lemma honest_update i w s P P' : all_honest w -> w_procs w !! i = Some P ->
  (forall pl, places !! i = Some pl -> alive P' = true -> honest (pl_id pl) P') -> all_honest (mkWorld s (<[i := P']> (w_procs w))).
Proof.
  intros Hw HP Hh j pl Q Hpl. cbn. destruct (decide (i = j)) as [<-|Hj].
  - rewrite list_lookup_insert_eq by (by eapply lookup_lt_Some). intros [= <-]. by apply Hh.
  - rewrite list_lookup_insert_ne by done. by apply Hw.
Qed.

Lemma honest_served q se x w w' : all_honest w -> serve_request str_hash stale q se x w = Some w' -> all_honest w'.
Proof.
  intros Hw. unfold serve_request. destruct (handle _ _ _ _ _ _) as [[] s| | |]; try done. intros [= <-] j pl Q Hpl. cbn.
  rewrite list_lookup_fmap. destruct (w_procs w !! j) as [P|] eqn:HP; [|done]. intros [= <-]. rewrite alive_deliver. intros Ha.
  apply deliver_honest. by apply (Hw j pl).
Qed.

Lemma honest_step a w w' : all_honest w -> step str_hash stale junk (lead_callbacks places) a w = Some w' -> all_honest w'.
Proof.
  intros Hw Hst. destruct a as [i t|i|i|i t|i]; cbn in Hst; destruct (w_procs w !! i) as [P|] eqn:HP; try done; cbn in Hst;
    [destruct (alive P) eqn:Ha; [|done]..|].
  - assert (forall pl, places !! i = Some pl -> honest (pl_id pl) P) as Hh by (intros pl Hpl; by apply (Hw i pl)).
    unfold begin_call in Hst. destruct (thread P t) as [| |o k| | |] eqn:Et; try done. destruct (p_pending P); [done|].
    assert (forall k' l s, k' = Exit \/ (exists r, k' = k r) -> all_honest (mkWorld s (<[i := continue t k' l P]> (w_procs w)))) as Hret.
    { intros k' l s Hk. eapply honest_update; [done|exact HP|]. intros pl Hpl _. by eapply (returned_honest (pl_id pl) t o k k' l P); eauto. }
    destruct (lib_exec _ _ _) as [v l|e l| |]; try (injection Hst as <-; apply Hret; eauto).
    destruct (client l) as [[|p a|]|]; try (injection Hst as <-; apply Hret; eauto).
    eapply honest_served; [|exact Hst]. eapply honest_update; [done|exact HP|]. intros pl Hpl _.
    apply (same_honest (pl_id pl) P); [by apply Hh|by intros [|]|done|done].
  - destruct (take_reply _ P) as [P'|] eqn:Ht; [|done]. injection Hst as <-. eapply honest_update; [done|exact HP|].
    intros pl Hpl _. eapply reply_honest; [|exact Ht]. by apply (Hw i pl).
  - destruct (take_event _ _ P) as [P'|] eqn:Ht; [|done]. injection Hst as <-. eapply honest_update; [done|exact HP|].
    intros pl Hpl _. eapply (event_honest (pl_id pl) i P); [by apply (Hw i pl)|]. rewrite <-Ht. unfold take_event, lead_callbacks. by rewrite Hpl.
  - destruct (local_step t P) as [P'|] eqn:Ht; [|done]. injection Hst as <-. eapply honest_update; [done|exact HP|].
    intros pl Hpl _. eapply local_honest; [|exact Ht]. by apply (Hw i pl).
  - eapply honest_served; [|exact Hst]. eapply honest_update; [done|exact HP|]. intros pl Hpl. done.
Qed.

Lemma honest_run acts w w' : all_honest w -> run str_hash stale junk (lead_callbacks places) acts w = Some w' -> all_honest w'.
Proof.
  intros Hw Hr. apply (run_invariant str_hash stale junk (lead_callbacks places) all_honest (fun _ => True) acts w); [|done| |done].
  - intros a v v' Hv _. by apply honest_step.
  - by apply list.Forall_true.
Qed.
End world.
