(* ===== verification/LeaderSafe.v ===== *)
(** * The leader election: the result

    [leader_elected]: in every interleaving of the processes of
    [apps/leader_elect.cc], with processes that end at any time, at most one
    living process has announced that it set the leader; and when all is quiet,
    the lock is held by a connected client, whose process, if it lives, has made
    the announcement, for itself or for a name that it said it found. *)

From S2P Require Import Prelude Numbers Names ServerTypes ServerDB ServerDBWf ServerDBRefine ServerDBProps Tree BackstoreRefine.
From S2P Require Import Interfaces ClientLib DbApi TreeStore ServerLogic LogicInv LogicSpec LogicProps ChubbyApp.
From S2P Require Import Programs Runs LeaderElect LeaderServer LeaderRel LeaderProps LeaderHonest.

(** ** The start *)

Record electorate (hdl : FileHandler) (clients : gmap Z string) (places : list place) : Prop := {
  el_file : fh_file_name hdl = leaderfile;
  el_inst : u32 (fh_instance_number hdl);
  el_clients : map_Forall (fun _ c => c <> "" /\ c <> NO_OWNER /\ plain c = true) clients;
  el_names : NoDup (map_to_list clients).*2;
  el_places : Forall (fun pl => plain (pl_id pl) = true /\ clients !! pl_session pl = Some (pl_name pl)) places;
  el_sessions : NoDup (pl_session <$> places);
}.

Section start.
Context {D : Type} `{!DbApi D} {str_hash : string -> Z} {junk : Z} `{!TreeStore D str_hash junk}.
Context (hdl : FileHandler) (clients : gmap Z string) (places : list place).

(** A process at the beginning of [lead_main]. *)
Record candidate (turns : nat) (pl : place) (P : Proc lead_vars) : Prop := {
  ca_session : p_session P = pl_session pl;
  ca_handle : fdList (p_lib P) !! pl_fd pl = Some hdl;
  ca_vars : fdId (p_vars P) = pl_fd pl /\ plain (leader (p_vars P)) = true;
  ca_main : p_main P = lead_main (pl_id pl) turns;
  ca_callback : p_callback P = Stop;
  ca_calls : p_pending P = None /\ p_replies P = [];
  ca_log : p_log P = [];
}.

(** Nobody has the lock, and all have done the set-up. *)
Record polls_open (turns : nat) (w : World D lead_vars) : Prop := {
  op_server : lock_server (str_hash := str_hash) (junk := junk) hdl clients None (w_server w);
  op_length : length (w_procs w) = length places;
  op_connected pl : pl ∈ places -> session2client_map (w_server w) !! pl_session pl = Some (pl_name pl);
  op_procs i pl P : places !! i = Some pl -> w_procs w !! i = Some P -> candidate turns pl P;
}.

Lemma candidate_member turns (s : Api D) pl P : plain (pl_id pl) = true -> session2client_map s !! pl_session pl = Some (pl_name pl) ->
  candidate turns pl P -> member hdl None s pl P.
Proof.
  intros Hid Hs [C1 C2 C3 C4 C5 [C6 C7] C8]. destruct (main_decent (pl_fd pl) (pl_id pl) turns Hid) as [Hp Hm]. split.
  - split; try done.
    + intros [|]; cbn [thread]; [by rewrite C4|by rewrite C5].
    + by rewrite C6.
  - done.
  - right. split_and!.
    + intros [|]; cbn [thread]; [by rewrite C4|by rewrite C5].
    + intros (t & x & k & H & _). by rewrite C6 in H.
    + intros [name H]. rewrite C8 in H. by apply elem_of_nil in H.
  - done.
  - intros _. right. exists T_main. cbn [thread]. rewrite C4, C6. split; [apply compete_competes|done].
Qed.

Lemma polls_inv turns w : electorate hdl clients places -> polls_open turns w -> lead_inv (str_hash := str_hash) (junk := junk) hdl clients places None w.
Proof.
  intros [E1 E2 E3 E4 E5 E6] [O1 O2 O3 O4]. split; [done|done| |].
  - intros i pl P Hpl HP. by destruct (O4 i pl P Hpl HP).
  - intros i pl P Hpl HP _. rewrite list.Forall_lookup in E5. destruct (E5 i pl Hpl) as [Hid _].
    apply (candidate_member turns); [done| |by eapply O4]. apply O3. by eapply list_elem_of_lookup_2.
Qed.

Lemma polls_honest turns w : polls_open turns w -> all_honest places w.
Proof.
  intros [_ _ _ O4] i pl P Hpl HP _. destruct (O4 i pl P Hpl HP) as [_ _ _ C4 C5 _ C8]. split.
  - intros m Hm. rewrite C8 in Hm. by apply elem_of_nil in Hm.
  - intros t. exists false. split; [|done]. destruct t; cbn [thread]; [rewrite C4; apply main_sound|by rewrite C5].
Qed.

(** What the sections of the invariant assume. *)
Lemma names_differ : electorate hdl clients places -> forall se se' c, clients !! se = Some c -> clients !! se' = Some c -> se = se'.
Proof.
  intros [_ _ _ E4 _ _] se se' c H1%elem_of_map_to_list H2%elem_of_map_to_list.
  apply list_elem_of_lookup in H1 as [i H1], H2 as [j H2].
  assert (i = j) as ->; [|congruence]. eapply NoDup_lookup; [exact E4|by rewrite list_lookup_fmap, H1|by rewrite list_lookup_fmap, H2].
Qed.
Lemma sessions_differ : electorate hdl clients places -> forall i j pl pl', places !! i = Some pl -> places !! j = Some pl' ->
  pl_session pl = pl_session pl' -> i = j.
Proof.
  intros [_ _ _ _ _ E6] i j pl pl' Hi Hj E.
  eapply NoDup_lookup; [exact E6|by rewrite list_lookup_fmap, Hi|by rewrite list_lookup_fmap, Hj; cbn; rewrite E].
Qed.
Lemma owner_places i j pl pl' : electorate hdl clients places -> places !! i = Some pl -> places !! j = Some pl' ->
  pl_name pl = pl_name pl' -> i = j.
Proof.
  intros He Hi Hj E. pose proof (el_places _ _ _ He) as Hp. rewrite list.Forall_lookup in Hp.
  apply (sessions_differ He i j pl pl' Hi Hj). apply (names_differ He _ _ (pl_name pl)).
  - apply (Hp i pl Hi).
  - rewrite E. apply (Hp j pl' Hj).
Qed.

Lemma run_keeps stale lib_junk turns acts w w' : electorate hdl clients places -> polls_open turns w ->
  run str_hash stale lib_junk (lead_callbacks places) acts w = Some w' ->
  exists owner, lead_inv (str_hash := str_hash) (junk := junk) hdl clients places owner w'.
Proof.
  intros He Hw Hr. pose proof (polls_inv turns w He Hw) as Hi. pose proof He as [E1 E2 E3 E4 E5 E6].
  apply (run_invariant str_hash stale lib_junk (lead_callbacks places)
    (fun w => exists owner, lead_inv (str_hash := str_hash) (junk := junk) hdl clients places owner w) (fun _ => True) acts w w'); [|by eexists|by apply list.Forall_true|done].
  intros a v v' [owner Hv] _. eapply step_keeps; try done.
  - by apply names_differ.
  - intros i pl. rewrite list.Forall_lookup in E5. apply E5.
  - by apply sessions_differ.
Qed.
End start.

(** ** The election *)

(** Nothing is left to do for a process but showing the leader: no event waits,
    no callback runs, and [main] makes no more calls. *)
Definition settled (P : Proc lead_vars) : Prop :=
  p_events P = [] /\ p_callback P = Stop /\ exists turns last dots, p_main P = watch turns last dots.

(** The client [c] has the lock of the file of [hdl]. *)
Definition locked_by {D} `{!DbApi D} {str_hash junk} `{!TreeStore D str_hash junk} (hdl : FileHandler) (c : string) (s : Api D) : Prop :=
  exists n, t_nodes (store_tree (db s)) !! fh_file_name hdl = Some n /\ n_owner n = Some c.

Section elected.
Context (hdl : FileHandler).

Lemma settled_elected pl P : settled P -> citizen hdl pl P -> elected pl P -> announced P.
Proof.
  intros (_ & Hcb & turns & last & dots & Hm) Hc. destruct (watch_decent (pl_fd pl) turns last dots) as [[_ Hmod] Hrest].
  assert (forall t o k, thread P t <> Call o k) as Hno.
  { intros [|] o k; cbn [thread]; [rewrite Hm; by destruct turns|by rewrite Hcb]. }
  intros [Hn|[[[|] Hcl]|[(t & x & k & _ & Hk & _)|[t Ht]]]]; [done|..]; cbn [thread] in *.
  - rewrite Hm in Hcl. by apply (resting_claims (pl_fd pl) _ Hmod Hrest) in Hcl.
  - by rewrite Hcb in Hcl.
  - by apply Hno in Hk.
  - pose proof (ci_pending _ _ _ Hc) as Hp. rewrite Ht in Hp. destruct Hp as [(o & k & Hk) _]. by apply Hno in Hk.
Qed.

(** The process has announced that it set a leader: itself, or a process that it
    had announced to have found. *)
Definition proclaimed pl (P : Proc lead_vars) : Prop :=
  exists name, claim name ∈ p_log P /\ (name = pl_id pl \/ found name ∈ p_log P).

Lemma settled_proclaimed pl P : settled P -> honest (pl_id pl) P -> announced P -> proclaimed pl P.
Proof.
  intros (_ & Hcb & turns & last & dots & Hm) Hh [name Hn]. destruct (ho_log _ _ Hh (claim name) Hn) as (n & E & Hmay); [by eexists|].
  exists n. split; [by rewrite <-E|]. destruct Hmay as [->|[Hf|([|] & k & Ht)]]; [by left|by right|..]; cbn [thread] in Ht.
  - rewrite Hm in Ht. by destruct turns.
  - by rewrite Hcb in Ht.
Qed.

Lemma settled_not_keen pl P : settled P -> ~ keen pl P.
Proof.
  intros (He & Hcb & turns & last & dots & Hm) [(e & H & _)|([|] & Hc & _)]; cbn [thread] in *.
  - rewrite He in H. by apply elem_of_nil in H.
  - rewrite Hm in Hc. destruct (watch_decent (pl_fd pl) turns last dots) as [_ Hrest].
    by apply (resting_tries (pl_fd pl) _ Hrest) in Hc.
  - by rewrite Hcb in Hc.
Qed.
End elected.

(** C6: the election of a leader.  Processes that have opened the leader file run
    in any interleaving of their calls, the replies, the events and their threads;
    any of them may end at any time, and the server may find out at any later time.
    Of the living processes at most one has announced that it set a leader.  When
    nothing is left to do for any living process, and there is one, a client that
    is still connected holds the lock, and if its process lives, it has announced
    that it set the leader: under its own id, or under a name that it announced to
    have found in the file before (its two threads share [leader]; the second case
    happens, [leader_mistaken]).  While the lock is free, whoever lives will try to
    take it. *)
Theorem leader_elected {D : Type} `{!DbApi D} {str_hash : string -> Z} {junk : Z} `{!TreeStore D str_hash junk}
  (stale : Z -> FileHandler) (lib_junk : bool) hdl clients places turns (w w' : World D lead_vars) acts :
  electorate hdl clients places -> polls_open hdl clients places turns w ->
  run str_hash stale lib_junk (lead_callbacks places) acts w = Some w' ->
  (forall i j Pi Pj, w_procs w' !! i = Some Pi -> w_procs w' !! j = Some Pj -> alive Pi = true -> alive Pj = true ->
    announced Pi -> announced Pj -> i = j) /\
  ((forall P, P ∈ w_procs w' -> alive P = true -> settled P) -> (exists P, P ∈ w_procs w' /\ alive P = true) ->
   exists se c, session2client_map (w_server w') !! se = Some c /\ locked_by hdl c (w_server w') /\
     forall i pl P, places !! i = Some pl -> pl_session pl = se -> w_procs w' !! i = Some P -> alive P = true -> proclaimed pl P).
Proof.
  intros He Hw Hr. pose proof (honest_run str_hash stale lib_junk places acts w w' (polls_honest hdl clients places turns w Hw) Hr) as Hh. destruct (run_keeps hdl clients places stale lib_junk turns acts w w' He Hw Hr) as [owner [L1 L2 L3 L4]].
  assert (forall i P, w_procs w' !! i = Some P -> exists pl, places !! i = Some pl) as Hpl.
  { intros i P HP. apply lookup_lt_is_Some. rewrite <-L2. by eapply lookup_lt_Some. }
  split.
  - intros i j Pi Pj HPi HPj Hai Haj Hni Hnj. destruct (Hpl i Pi HPi) as [pli Hpli]. destruct (Hpl j Pj HPj) as [plj Hplj].
    destruct (L4 i pli Pi Hpli HPi Hai) as [_ Hsi [Hi|(_ & _ & Hi)] _ _]; [|done].
    destruct (L4 j plj Pj Hplj HPj Haj) as [_ Hsj [Hj|(_ & _ & Hj)] _ _]; [|done].
    apply (owner_places hdl clients places i j pli plj); try done. congruence.
  - intros Hall (P & [i HP]%list_elem_of_lookup & Ha). destruct (Hpl i P HP) as [pl Hpli].
    destruct owner as [c|].
    2: { destruct (L4 i pl P Hpli HP Ha) as [_ _ _ _ Hk]. destruct (settled_not_keen pl P); [|by apply Hk].
      apply Hall; [by eapply list_elem_of_lookup_2|done]. }
    destruct (ls_holder _ _ _ _ L1 c eq_refl) as [se Hse]. exists se, c. split_and!; [done| |].
    + destruct (ls_file _ _ _ _ L1) as (n & t & Hn & _ & _ & _ & Ho). by exists n.
    + intros j plj Q Hplj <- HQ Haj. destruct (L4 j plj Q Hplj HQ Haj) as [Hc Hs _ Hel _].
      assert (settled Q) as HsQ by (apply Hall; [by eapply list_elem_of_lookup_2|done]).
      apply settled_proclaimed; [done|by apply (Hh j)|]. apply (settled_elected hdl plj); [done|done|].
      apply Hel. rewrite Hs in Hse. congruence.
Qed.

(** ** Two processes *)

#[local] Existing Instance strict_engine.
#[local] Instance lead_api : DbApi Db := single_api sample_hash 0.

Definition lead_process (se : Z) (c : code) : Proc lead_vars :=
  mkProc c Stop (mkLead "" 0) (mkLib (Some NoAnswer) ∅ 1) se 2 None [] [] [].
Definition lead_world (code_of : nat -> code) : option (World Db lead_vars) :=
  s ← logged_in 2; Some (mkWorld s ((fun i => lead_process (Z.of_nat i + 1) (code_of i)) <$> seq 0 2)).
Definition lead_place (i : nat) : place := Place (to_string (Z.of_nat i)) (2 - Z.of_nat i) (Z.of_nat i + 1) ("c" +:+ to_string (Z.of_nat i)).
Definition two_places : list place := lead_place <$> seq 0 2.
Definition two_clients : gmap Z string := {[ 1 := "c0"; 2 := "c1" ]}.
Definition lead_handle : FileHandler := mkFileHandler 9 0 "/leader" 1 true.
Definition lead_run := run (D := Db) sample_hash no_stale false (lead_callbacks two_places).

Definition calls (k i : nat) (t : thread_id) : list action := concat (replicate k [Act_call i t; Act_reply i]).
Definition local (k i : nat) (t : thread_id) : list action := replicate k (Act_local i t).
Definition opening (i : nat) : list action :=
  [Act_call i T_main; Act_call i T_main] ++ calls 1 i T_main ++ local 1 i T_main.
Definition set_up : list action :=
  calls 1 0 T_main ++ local 1 0 T_main ++ calls 1 0 T_main ++ opening 0 ++ calls 1 1 T_main ++ local 1 1 T_main ++ opening 1.

Definition opened_with (k : nat -> code) : option (World Db lead_vars) :=
  w ← lead_world (fun i => create_leaderfile (open_leaderfile (k i))); lead_run set_up w.
(** The set-up is run whatever the loop of [main] is. *)
Definition open_with (k : code) : option (World Db lead_vars) :=
  opened_with (fun i => compete (to_string (Z.of_nat i)) leaderfile (renew leaderfile k)).
Definition opened : option (World Db lead_vars) := open_with (watch 10 "" 0).

Lemma opened_programs :
  opened = (w ← lead_world (fun i => lead_program (to_string (Z.of_nat i)) 10); lead_run set_up w).
Proof. unfold opened, open_with, opened_with, lead_program, lead_main. reflexivity. Qed.

(** The process 0 becomes the leader, the process 1 finds it out; the process 0
    ends, and the process 1 takes over. *)
Definition takes (i : nat) (t : thread_id) : list action := local 1 i t ++ calls 1 i t.
Definition wins (i : nat) (t : thread_id) : list action := takes i t ++ local 2 i t ++ calls 1 i t ++ local 2 i t.
Definition hears (i n : nat) : list action := Act_event i :: takes i T_callback ++ local n i T_callback.
Definition taking_over : list action :=
  wins 0 T_main ++ takes 1 T_main ++ takes 1 T_main ++ local 3 1 T_main ++ [Act_end 0] ++
  Act_event 1 :: wins 1 T_callback ++ hears 1 1 ++ hears 1 0 ++ hears 1 0 ++ hears 1 1.
Abbreviation taken_over := (opened ≫= lead_run taking_over).

Lemma opened_main k i pl : two_places !! i = Some pl ->
  (w ← open_with k; p_main <$> w_procs w !! i) = Some (compete (pl_id pl) leaderfile (renew leaderfile k)).
Proof. destruct i as [|[|i]]; [| |done]; intros [= <-]; vm_compute; reflexivity. Qed.
Lemma taken_over_main k : (w ← open_with (read_vars k) ≫= lead_run taking_over; p_main <$> w_procs w !! 1%nat) = Some (read_vars k).
Proof. vm_compute. reflexivity. Qed.

Lemma two_electorate : electorate lead_handle two_clients two_places.
Proof.
  split.
  - done.
  - by vm_compute.
  - apply (bool_decide_unpack _). by vm_compute.
  - apply (bool_decide_unpack _). by vm_compute.
  - apply (bool_decide_unpack _). by vm_compute.
  - apply (bool_decide_unpack _). by vm_compute.
Qed.

(** The database that the set-up leaves. *)
Definition lead_db : Db := created sample_hash "/leader" false 1 create_db.

Lemma lead_db_wf : db_wf lead_db.
Proof.
  apply (created_wf sample_hash create_db "/leader" false 0); [exact create_db_wf|done|done|done|done|].
  intros H. by vm_compute in H.
Qed.

Lemma opened_computes : exists w, computed opened w.
Proof. apply computes. vm_compute. reflexivity. Qed.
Lemma taken_over_computes : exists w, computed taken_over w.
Proof. apply computes. vm_compute. reflexivity. Qed.

Lemma opened_fd_inv w : opened = Some w -> fd_inv (w_server w).
Proof.
  pose proof (logged_in_fd_inv 2) as Hl. unfold opened, open_with, opened_with, lead_world. destruct (logged_in 2) as [s|]; [|discriminate].
  cbn [mbind option_bind]. intros Hr. eapply (run_fd_inv sample_hash no_stale false _ _ _ w); [|exact Hr]. exact (Hl s eq_refl).
Qed.

(** A property that is decided on the computed server. *)
Lemma read_server w (Q : Api Db -> Prop) `{!forall s, Decision (Q s)} : computed opened w ->
  (fun w => bool_decide (Q (w_server w))) <$> opened = Some true -> Q (w_server w).
Proof. intros Hw Hb. apply (bool_decide_eq_true_1 _), (read_off (fun w => bool_decide (Q (w_server w))) opened w true Hw Hb). Qed.

Lemma opened_server w : computed opened w -> lock_server (str_hash := sample_hash) (junk := 0) lead_handle two_clients None (w_server w).
Proof.
  intros Hw.
  assert (db (w_server w) = lead_db) as Hdb by (apply (read_off (fun w => db (w_server w)) opened w _ Hw); by vm_compute).
  assert (session2client_map (w_server w) = two_clients) as Hcl
    by (apply (read_off (fun w => session2client_map (w_server w)) opened w _ Hw); by vm_compute).
  assert (file2lockChange_map (w_server w) !! "/leader" = Some [1; 2]) as Htold
    by (apply (read_off (fun w => file2lockChange_map (w_server w) !! "/leader") opened w _ Hw); by vm_compute).
  assert (forall se, is_Some (two_clients !! se) -> se = 1 \/ se = 2) as Htwo.
  { intros se [c Hc]. unfold two_clients in Hc. apply lookup_insert_Some in Hc as [[E _]|[_ Hc]]; [by left|].
    apply lookup_singleton_Some in Hc as [E _]. by right. }
  split.
  - apply opened_fd_inv, computed_eq, Hw.
  - apply (read_off (fun w => out (w_server w)) opened w _ Hw). by vm_compute.
  - rewrite Hdb. exact lead_db_wf.
  - rewrite Hdb. eexists _, "". split; [vm_compute; reflexivity|]. by split_and!.
  - intros se c. by rewrite Hcl.
  - apply (read_off (fun w => file2lockQueue_map (w_server w) !! "/leader") opened w _ Hw). by vm_compute.
  - intros c. rewrite (read_off (fun w => client2heldLock_map (w_server w)) opened w ∅ Hw) by (by vm_compute). rewrite lookup_empty.
    split; [|done]. by intros H%elem_of_empty.
  - intros c. pose proof (read_server w (fun s => map_Forall (fun _ (fs : gset string) => fs = ∅) (client2ephemeral_map s)) Hw ltac:(by vm_compute)) as H.
    destruct (client2ephemeral_map (w_server w) !! c) as [fs|] eqn:E; [|by intros Hx%elem_of_empty]. cbn.
    rewrite (H c fs E). by intros Hx%elem_of_empty.
  - pose proof (read_server w (fun s => map_Forall (fun _ h => h = lead_handle) (heap s)) Hw ltac:(by vm_compute)) as H.
    intros p h Hp. by apply (H p h).
  - intros se. rewrite Hcl. intros [->| ->]%Htwo.
    + exists 1. split; [apply (read_off (fun w => session2fd_map (w_server w) !! 1) opened w _ Hw)|
        apply (read_off (fun w => heap (w_server w) !! 1) opened w _ Hw)]; by vm_compute.
    + exists 3. split; [apply (read_off (fun w => session2fd_map (w_server w) !! 2) opened w _ Hw)|
        apply (read_off (fun w => heap (w_server w) !! 3) opened w _ Hw)]; by vm_compute.
  - done.
  - intros se. rewrite Hcl. cbn [fh_file_name lead_handle]. unfold lst. rewrite Htold. cbn. intros [->| ->]%Htwo; [by left|by right; left].
Qed.

Lemma opened_polls w : computed opened w -> polls_open (str_hash := sample_hash) (junk := 0) lead_handle two_clients two_places 10 w.
Proof.
  intros Hw. split.
  - by apply opened_server.
  - apply (read_off (fun w => length (w_procs w)) opened w _ Hw). by vm_compute.
  - intros pl Hpl. rewrite (read_off (fun w => session2client_map (w_server w)) opened w two_clients Hw) by (by vm_compute).
    unfold two_places in Hpl. cbn in Hpl. apply elem_of_cons in Hpl as [->|Hpl]; [done|]. by apply list_elem_of_singleton in Hpl as ->.
  - intros i pl P Hpl HP. assert (p_main P = lead_main (pl_id pl) 10) as Hmain.
    { exact (read_proc p_main _ i _ w P Hw HP (opened_main _ i pl Hpl)). }
    destruct i as [|[|i]]; [| |done]; injection Hpl as <-; (split;
      [ apply (read_proc p_session _ _ _ _ _ Hw HP)
      | apply (read_proc (fun P => fdList (p_lib P) !! _) _ _ _ _ _ Hw HP)
      | split; [apply (read_proc (fun P => fdId (p_vars P)) _ _ _ _ _ Hw HP)
               |apply (read_proc (fun P => plain (leader (p_vars P))) _ _ _ _ _ Hw HP)]
      | exact Hmain
      | apply (read_proc p_callback _ _ _ _ _ Hw HP)
      | split; [apply (read_proc p_pending _ _ _ _ _ Hw HP)|apply (read_proc p_replies _ _ _ _ _ Hw HP)]
      | apply (read_proc p_log _ _ _ _ _ Hw HP)]); clear Hmain; vm_compute; reflexivity.
Qed.

(** The two processes then: the first has ended, the second has said that it is
    the leader and rests. *)
Lemma taken_over_procs w' : computed taken_over w' -> exists P0 P1, w_procs w' = [P0; P1] /\ alive P0 = false /\ alive P1 = true /\
  settled P1 /\ announced P0 /\ announced P1.
Proof.
  intros Hw. assert (length (w_procs w') = 2%nat) as Hl
    by (apply (read_off (fun w => length (w_procs w)) taken_over w' _ Hw); by vm_compute).
  destruct (w_procs w') as [|P0 [|P1 [|P2 l]]] eqn:E; [discriminate Hl|discriminate Hl| |discriminate Hl].
  assert (w_procs w' !! 0%nat = Some P0 /\ w_procs w' !! 1%nat = Some P1) as [H0 H1] by (by rewrite E).
  exists P0, P1. split_and!; [done|apply (read_proc alive _ _ _ _ _ Hw H0); by vm_compute|apply (read_proc alive _ _ _ _ _ Hw H1); by vm_compute|..].
  - split_and!; [apply (read_proc p_events _ _ _ _ _ Hw H1); by vm_compute|apply (read_proc p_callback _ _ _ _ _ Hw H1); by vm_compute|].
    exists 10%nat, "", 0. exact (read_proc p_main _ 1 _ w' P1 Hw H1 (taken_over_main _)).
  - exists "0". rewrite (read_proc p_log ["set 0 as the leader"] _ _ _ _ Hw H0) by (by vm_compute). by left.
  - exists "1". rewrite (read_proc p_log ["find out current leader is 0"; "set 1 as the leader"] _ _ _ _ Hw H1) by (by vm_compute).
    by right; left.
Qed.

Lemma taken_over_run w w' : computed opened w -> computed taken_over w' -> lead_run taking_over w = Some w'.
Proof. apply bind_computed. Qed.

Lemma leader_elected_witness : exists w w' P0 P1, opened = Some w /\ lead_run taking_over w = Some w' /\ w_procs w' = [P0; P1] /\
  alive P0 = false /\ announced P0 /\ alive P1 = true /\ announced P1 /\
  (forall i j Pi Pj, w_procs w' !! i = Some Pi -> w_procs w' !! j = Some Pj -> alive Pi = true -> alive Pj = true ->
    announced Pi -> announced Pj -> i = j) /\
  exists se c, session2client_map (w_server w') !! se = Some c /\ locked_by (str_hash := sample_hash) (junk := 0) lead_handle c (w_server w').
Proof.
  destruct opened_computes as [w Hw]. destruct taken_over_computes as [w' Hw'].
  destruct (taken_over_procs w' Hw') as (P0 & P1 & E & A0 & A1 & S1 & N0 & N1).
  destruct (leader_elected (str_hash := sample_hash) (junk := 0) no_stale false lead_handle two_clients two_places 10 w w' taking_over
    two_electorate (opened_polls w Hw) (taken_over_run w w' Hw Hw')) as [Hone Hall].
  exists w, w', P0, P1. split; [exact (computed_eq _ _ Hw)|]. split; [exact (taken_over_run w w' Hw Hw')|].
  split; [exact E|]. split; [exact A0|]. split; [exact N0|]. split; [exact A1|]. split; [exact N1|]. split; [exact Hone|].
  destruct Hall as (se & c & Hse & Hc & _).
  - rewrite E. intros P HP HA. apply elem_of_cons in HP as [->|HP].
    + rewrite A0 in HA. discriminate HA.
    + apply list_elem_of_singleton in HP as ->. exact S1.
  - exists P1. rewrite E. split; [right; left|exact A1].
  - exists se, c. split; [exact Hse|exact Hc].
Defined.

(** ** The variable without the mutex *)

(** The process 1 has read the file when the process 0 ends; its callback takes
    the lock, and [main] assigns the name it has read before the callback writes
    the name of the leader into the file. *)
Definition mistaking : list action :=
  wins 0 T_main ++ takes 1 T_main ++ takes 1 T_main ++ [Act_end 0] ++
  Act_event 1 :: takes 1 T_callback ++ local 1 1 T_callback ++ local 3 1 T_main ++
  local 1 1 T_callback ++ calls 1 1 T_callback ++ local 2 1 T_callback ++ hears 1 1 ++ hears 1 0 ++ hears 1 0 ++ hears 1 1.
Abbreviation mistaken := (opened ≫= lead_run mistaking).

Lemma mistaken_computes : exists w, computed mistaken w.
Proof. apply computes. vm_compute. reflexivity. Qed.
Lemma mistaken_main k : (w ← open_with (read_vars k) ≫= lead_run mistaking; p_main <$> w_procs w !! 1%nat) = Some (read_vars k).
Proof. vm_compute. reflexivity. Qed.

(** A run after which the file names a process that has ended, for as long
    as the leader lives.  [compete] assigns [leader] and reads it again for
    [setContents] without the mutex that [main] holds when it assigns it: of two
    processes the first has ended, the second holds the lock, has written the
    name of the first, has said that the first is the leader, and shows it in its
    loop from then on. *)
Lemma leader_mistaken : exists w P0 P1, opened ≫= lead_run mistaking = Some w /\ w_procs w = [P0; P1] /\
  alive P0 = false /\ alive P1 = true /\ settled P1 /\
  locked_by (str_hash := sample_hash) (junk := 0) lead_handle "c1" (w_server w) /\
  n_kind <$> t_nodes (tree_of (db (w_server w))) !! "/leader" = Some (File "0") /\
  p_log P1 = [("find out current leader is 0")%string; claim "0"] /\ leader (p_vars P1) = "0".
Proof.
  destruct mistaken_computes as [w Hw].
  assert (length (w_procs w) = 2%nat) as Hl by (apply (read_off (fun w => length (w_procs w)) mistaken w _ Hw); by vm_compute).
  destruct (w_procs w) as [|P0 [|P1 [|P2 l]]] eqn:E; [discriminate Hl|discriminate Hl| |discriminate Hl].
  assert (w_procs w !! 0%nat = Some P0 /\ w_procs w !! 1%nat = Some P1) as [H0 H1] by (by rewrite E).
  exists w, P0, P1. split_and!; [exact (computed_eq _ _ Hw)|done|apply (read_proc alive _ _ _ _ _ Hw H0); by vm_compute
    |apply (read_proc alive _ _ _ _ _ Hw H1); by vm_compute|..].
  - split_and!; [apply (read_proc p_events _ _ _ _ _ Hw H1); by vm_compute|apply (read_proc p_callback _ _ _ _ _ Hw H1); by vm_compute|].
    exists 10%nat, "", 0. exact (read_proc p_main _ 1 _ w P1 Hw H1 (mistaken_main _)).
  - assert (n_owner <$> t_nodes (tree_of (db (w_server w))) !! "/leader" = Some (Some "c1")) as Ho
      by (apply (read_off (fun w => n_owner <$> t_nodes (tree_of (db (w_server w))) !! "/leader") mistaken w _ Hw); by vm_compute).
    apply fmap_Some in Ho as (n & Hn & Ho). by exists n.
  - apply (read_off (fun w => n_kind <$> t_nodes (tree_of (db (w_server w))) !! "/leader") mistaken w _ Hw). by vm_compute.
  - apply (read_proc p_log _ _ _ _ _ Hw H1). by vm_compute.
  - apply (read_proc (fun P => leader (p_vars P)) _ _ _ _ _ Hw H1). by vm_compute.
Qed.
