(* ===== verification/StdString.v ===== *)
(** * Searching in a [std::string]

    [find_first_of], [find_first_not_of], [rfind] and [substr] of the standard library,
    with positions as [option nat] ([None] is [npos]), and the cutting of a text
    into pieces. *)

From S2P Require Import Prelude Names.

(** The first character of [b] that [p] holds of, when [b] starts at [i]. *)
Fixpoint find_at (p : ascii -> bool) (b : bytes) (i : nat) : option nat :=
  match b with [] => None | c :: b => if p c then Some i else find_at p b (S i) end.

(** [str.find_first_of(delimiters, pos)] and [find_first_not_of]. *)
Definition find_first_of (delims str : bytes) (pos : option nat) : option nat :=
  match pos with None => None | Some n => find_at (fun c => existsb (Ascii.eqb c) delims) (drop n str) n end.
Definition find_first_not_of (delims str : bytes) (pos : option nat) : option nat :=
  match pos with None => None | Some n => find_at (fun c => negb (existsb (Ascii.eqb c) delims)) (drop n str) n end.

(** [str.substr(lastPos, pos - lastPos)]; it throws when [lastPos] is [npos], and
    takes the rest when [pos] is. *)
Definition substr (str : bytes) (lastPos pos : option nat) : option bytes :=
  match lastPos, pos with
  | None, _ => None
  | Some l, Some q => Some (take (q - l) (drop l str))
  | Some l, None => Some (drop l str)
  end.

(** [str.rfind(c)] *)
Fixpoint rfind (c : ascii) (b : bytes) : option nat :=
  match b with
  | [] => None
  | d :: b => match rfind c b with Some n => Some (S n) | None => if Ascii.eqb d c then Some 0%nat else None end
  end.

Lemma rfind_none c b : c ∉ b -> rfind c b = None.
Proof.
  induction b as [|d b IH]; [done|]. rewrite not_elem_of_cons. intros [Hd Hb]. cbn. rewrite IH by done.
  by destruct (Ascii.eqb_spec d c).
Qed.
Lemma rfind_app c a b : c ∉ b -> rfind c (a ++ c :: b) = Some (length a).
Proof. intros Hb. induction a as [|d a IH]; cbn; [by rewrite rfind_none, Ascii.eqb_refl|]. by rewrite IH. Qed.
Lemma rfind_last c b : rfind c (b ++ [c]) = Some (length b).
Proof. induction b as [|d b IH]; cbn; [by rewrite Ascii.eqb_refl|]. by rewrite IH. Qed.

(** ** Pieces *)

Section words.
Context (p : ascii -> bool).

(** The pieces between the characters that [p] holds of, and the non-empty
    ones. *)
Fixpoint split_on (b : bytes) : list bytes :=
  match b with
  | [] => [[]]
  | c :: b =>
      if p c then [] :: split_on b else
      match split_on b with t :: ts => (c :: t) :: ts | [] => [[c]] end
  end.
Definition words (b : bytes) : list bytes := filter nonempty (split_on b).

Definition free (b : bytes) : Prop := Forall (fun c => p c = false) b.

Lemma split_on_free b : free b -> split_on b = [b].
Proof. induction 1 as [|c b Hc Hb IH]; [done|]. cbn. by rewrite Hc, IH. Qed.

Lemma split_on_app t d b : free t -> p d = true -> split_on (t ++ d :: b) = t :: split_on b.
Proof. intros Ht Hd. induction Ht as [|c t Hc Ht IH]; cbn; [by rewrite Hd|]. by rewrite Hc, IH. Qed.

Lemma words_delim d b : p d = true -> words (d :: b) = words b.
Proof. intros Hd. unfold words. cbn. by rewrite Hd. Qed.

Lemma words_delims u b : Forall (fun c => p c = true) u -> words (u ++ b) = words b.
Proof. induction 1 as [|c u Hc Hu IH]; [done|]. cbn [app]. by rewrite words_delim. Qed.

Lemma words_free t : free t -> t <> [] -> words t = [t].
Proof. intros Ht Hne. unfold words. rewrite split_on_free by done. by destruct t. Qed.

Lemma words_app t d b : free t -> t <> [] -> p d = true -> words (t ++ d :: b) = t :: words (d :: b).
Proof. intros Ht Hne Hd. rewrite words_delim by done. unfold words. rewrite split_on_app by done. by destruct t. Qed.

(** [find_at] finds the first one. *)
Lemma find_at_spec b i : match find_at p b i with
  | None => free b
  | Some q => exists u c v, b = u ++ c :: v /\ free u /\ p c = true /\ q = (i + length u)%nat
  end.
Proof.
  revert i. induction b as [|c b IH]; intros i; cbn; [constructor|]. destruct (p c) eqn:Hc.
  - exists [], c, b. split_and!; [done|constructor|done|cbn; lia].
  - specialize (IH (S i)). destruct (find_at p b (S i)) as [q|].
    + destruct IH as (u & d & v & -> & Hu & Hd & ->). exists (c :: u), d, v. split_and!; [done|by constructor|done|cbn; lia].
    + by constructor.
Qed.
Lemma find_at_app u c v i : free u -> p c = true -> find_at p (u ++ c :: v) i = Some (i + length u)%nat.
Proof.
  intros Hu Hc. revert i. induction Hu as [|d u Hd Hu IH]; intros i; cbn.
  - rewrite Hc. f_equal. lia.
  - rewrite Hd, IH. f_equal. lia.
Qed.
Lemma find_at_none b i : free b -> find_at p b i = None.
Proof. intros Hb. revert i. induction Hb as [|c b Hc Hb IH]; intros i; cbn; [done|]. by rewrite Hc. Qed.
End words.

Lemma append_assoc (a b c : string) : (a +:+ b) +:+ c = a +:+ b +:+ c.
Proof. apply str_bytes_inj. by rewrite !str_bytes_app, app_assoc. Qed.

Lemma forallb_Forall {A} (f : A -> bool) l : forallb f l = true <-> Forall (fun x => f x = true) l.
Proof. rewrite forallb_forall, list.Forall_forall. split; intros H x Hx; apply H; by apply list_elem_of_In. Qed.
