(* ===== verification/IniParse.v ===== *)
(** * Files in the .ini format: [xdrpp/xdrpp/iniparse.cc], [xdrpp/xdrpp/iniparse.h]

    The conversions [from_string], escapes, lines, groups of callbacks and the
    parser.  Callbacks are computations over what they can reach: the error flag
    of the line, [cerr] and the variables [U] of the program. *)

From S2P Require Import Prelude StdString Numbers Config.

(** ** Numbers *)

(** The digits of [strtol] in a base up to 36. *)
Definition digit_value (c : ascii) : Z :=
  let v := byte_val c in
  if is_digit c then v - 48 else
  if (97 <=? v) && (v <=? 122) then v - 87 else
  if (65 <=? v) && (v <=? 90) then v - 55 else 36.
Fixpoint scan_number (base n : Z) (b : bytes) : Z * bytes :=
  match b with
  | c :: b' => if digit_value c <? base then scan_number base (base * n + digit_value c) b' else (n, b)
  | [] => (n, [])
  end.

(** Base 0: 16 behind [0x] when a digit follows, 8 behind [0], else 10. *)
Definition cut_base (b : bytes) : Z * bytes :=
  match b with
  | z :: b' =>
      if negb (Ascii.eqb z "0") then (10, b) else
      match b' with
      | x :: c :: _ =>
          if (Ascii.eqb x "x" || Ascii.eqb x "X") && (digit_value c <? 16) then (16, drop 1 b') else (8, b)
      | _ => (8, b)
      end
  | [] => (10, b)
  end.

(** Sign, magnitude and the rest of the text; [None] without a digit. *)
Definition parse_number (b : bytes) : option (bool * Z * bytes) :=
  let '(negative, b) := cut_sign (skip_spaces b) in
  let '(base, b) := cut_base b in
  match b with
  | c :: _ => if digit_value c <? base then let '(n, rest) := scan_number base 0 b in Some (negative, n, rest) else None
  | [] => None
  end.

(** [std::stoi] and its like with base 0: the number and the text from [pos]
    on.  Their exceptions, [std::invalid_argument] and [std::out_of_range], name
    the function. *)
Inductive conv := std_stoi | std_stol | std_stoll | std_stoul.
Definition conv_name (u : conv) : string :=
  match u with std_stoi => "stoi" | std_stol => "stol" | std_stoll => "stoll" | std_stoul => "stoul" end.
Definition sint64 (z : Z) : Z := (z + 2 ^ 63) `mod` 2 ^ 64 - 2 ^ 63.
(** Conversion to the type of their results. *)
Definition to_U (u : conv) (z : Z) : Z :=
  match u with std_stoi => sint32 z | std_stol | std_stoll => sint64 z | std_stoul => wrap64 z end.

Definition add_base {S} (u : conv) (s : bytes) : M S (Z * bytes) :=
  match parse_number s with
  | None => throw (exn_logic (conv_name u))
  | Some (negative, n, pos) =>
      let v := signed (negative, n) in
      match u with
      | std_stoul => if n <? 2 ^ 64 then mret (wrap64 v, pos) else throw (exn_logic (conv_name u))
      | _ => if to_U u v =? v then mret (v, pos) else throw (exn_logic (conv_name u))
      end
  end.

(** The types of [FROM_STRING]. *)
Inductive num_type := T_int | T_long | T_llong | T_uchar | T_ushort | T_uint | T_ulong | T_ullong.
Definition conv_of (T : num_type) : conv :=
  match T with
  | T_int => std_stoi
  | T_long => std_stol
  | T_llong | T_ullong => std_stoll
  | T_uchar | T_ushort | T_uint | T_ulong => std_stoul
  end.
Definition to_T (T : num_type) (z : Z) : Z :=
  match T with
  | T_int => sint32 z
  | T_long | T_llong => sint64 z
  | T_uchar => z `mod` 2 ^ 8
  | T_ushort => z `mod` 2 ^ 16
  | T_uint => wrap32 z
  | T_ulong | T_ullong => wrap64 z
  end.

Definition blanks : bytes := str_bytes (String "009" (String "013" " ")).
Definition blank_or_newline : bytes := str_bytes (String "009" (String "010" (String "013" " "))).

Definition from_string_with {S} (T : num_type) (s : bytes) : M S Z :=
  '(r, pos) ← add_base (conv_of T) s;
  let t := to_T T r in
  if negb (to_U (conv_of T) t =? r) then throw (exn_logic "value out of range") else
  match find_first_not_of blank_or_newline pos (Some 0%nat) with
  | Some _ => throw (exn_logic ("trailing garbage: " +:+ bytes_str pos))
  | None => mret t
  end.

Definition quote : ascii := "034"%char.
Definition from_string_bool {S} (s : string) : M S bool :=
  if String.eqb s "true" then mret true else
  if String.eqb s "false" then mret false else
  throw (exn_logic ("boolean must be " +:+ String quote ("true" +:+ String quote (" or " +:+ String quote ("false" +:+ String quote ""))))).
Definition from_string_string {S} (s : string) : M S string := mret s.

(** ** Escapes *)

Definition backslash : ascii := "092"%char.
Definition unescaped (c : ascii) : ascii :=
  if Ascii.eqb c "n" then "010"%char else
  if Ascii.eqb c "r" then "013"%char else
  if Ascii.eqb c "s" then " "%char else
  if Ascii.eqb c "t" then "009"%char else c.

(** The loop of [ini_unescape]; [None] when it returns false. *)
Fixpoint unescape_loop (escape : bool) (b : bytes) : option bytes :=
  match b with
  | [] => if escape then None else Some []
  | c :: b =>
      if escape then v ← unescape_loop false b; Some (unescaped c :: v)
      else if Ascii.eqb c backslash then unescape_loop true b
      else v ← unescape_loop false b; Some (c :: v)
  end.
Definition ini_unescape (b : bytes) : option bytes := unescape_loop false b.

(** ** Lines *)

(** [IniLine] without its mutable flag [error_]. *)
Record IniLine := mkLine {
  lineno_ : Z;
  file_ : string;
  group_ : string;
  key_ : string;
  value_ : string;
  rawvalue_ : string;
}.

(** The end of the word that starts at [i]: the next blank that does not follow
    a backslash. *)
Fixpoint word_end (fuel : nat) (raw : bytes) (e : nat) : option nat :=
  match fuel with
  | O => None
  | S fuel =>
      match find_first_of blanks raw (Some (S e)) with
      | None => Some (length raw)
      | Some e =>
          if (0 <? e)%nat && bool_decide (raw !! (e - 1)%nat = Some backslash) then word_end fuel raw e else Some e
      end
  end.

(** The loop of [argv]; more turns than the text has characters do not
    end. *)
Fixpoint argv_loop {S} (fuel : nat) (raw : bytes) (i : option nat) : M S (list string) :=
  match i with
  | None => mret []
  | Some i =>
      if (length raw <=? i)%nat then mret [] else
      match fuel with
      | O => fun _ => Diverge
      | Datatypes.S fuel =>
          match word_end (length raw) raw i with
          | None => fun _ => Diverge
          | Some e =>
              match ini_unescape (take (e - i) (drop i raw)) with
              | None => throw (exn_logic "stray backslash at end of line")
              | Some a =>
                  av ← argv_loop fuel raw (find_first_not_of blanks raw (Some e));
                  mret (bytes_str a :: av)
              end
          end
      end
  end.
Definition argv {S} (li : IniLine) : M S (list string) :=
  let raw := str_bytes (rawvalue_ li) in argv_loop (length raw) raw (Some 0%nat).

(** ** Callbacks *)

Section ini.
Context {U : Type}.

(** What the callbacks can change. *)
Record IniOut := mkOut { error_ : bool; cerr : string; vars : U }.

Definition cb_t : Type := IniLine -> M IniOut unit.
(** [cbs_] *)
Definition IniGroup : Type := gmap string cb_t.
Definition IniActions : Type := gmap string IniGroup.

Definition endl : string := String newline "".
Definition set_cerr (s : string) (o : IniOut) : IniOut := mkOut (error_ o) s (vars o).
Definition set_error (b : bool) (o : IniOut) : IniOut := mkOut b (cerr o) (vars o).
Definition set_vars (v : U) (o : IniOut) : IniOut := mkOut (error_ o) (cerr o) v.

(** [li.warn() << msg] and [li.fail() << msg] *)
Definition warn (li : IniLine) (msg : string) : M IniOut unit :=
  modify (fun o => set_cerr (cerr o +:+ file_ li +:+ ":" +:+ to_string (lineno_ li) +:+ ": " +:+ msg) o).
Definition fail (li : IniLine) (msg : string) : M IniOut unit := modify (set_error true) ;; warn li msg.

(** [IniGroup::add] of a callback, and of a variable. *)
Definition add (key : string) (cb : cb_t) (g : IniGroup) : M IniOut IniGroup :=
  match g !! key with
  | Some _ => throw (exn_runtime ("IniGroup::add: duplicate key " +:+ key))
  | None => mret (<[key := cb]> g)
  end.
Definition convert {A} (from_string : string -> M IniOut A) (put : A -> U -> U) : cb_t := fun li =>
  x ← from_string (value_ li); modify (fun o => set_vars (put x (vars o)) o).
Definition add_var {A} (key : string) (from_string : string -> M IniOut A) (put : A -> U -> U) (g : IniGroup) :
  M IniOut IniGroup := add key (convert from_string put) g.

Definition ignoreline : cb_t := fun _ => mret tt.

(** [IniGroup::parse]: the group afterwards. *)
Definition parse (li : IniLine) (g : IniGroup) : M IniOut IniGroup :=
  match lookup (A := cb_t) (key_ li) g with
  | None =>
      warn li ("unknown property " +:+ group_ li +:+ "." +:+ key_ li +:+ endl) ;;
      mret (<[key_ li := ignoreline]> g)
  | Some cb => cb li ;; mret g
  end.

(** ** The parser *)

(** The loops that advance [li] while [p] holds: what is passed and what is left. *)
Fixpoint span (p : ascii -> bool) (b : bytes) : bytes * bytes :=
  match b with
  | c :: b' => if p c then let (u, v) := span p b' in (c :: u, v) else ([], b)
  | [] => ([], [])
  end.

(** [parsekv]: key, value and raw value; [None] when it returns false, which
    leaves its results as they were. *)
Definition parsekv (line : bytes) : option (bytes * bytes * bytes) :=
  let li := skip_spaces line in
  let (k, li) := span (fun c => negb (is_space c) && negb (Ascii.eqb c "=")) li in
  let li := skip_spaces li in
  match k, li with
  | [], _ | _, [] => None
  | _, c :: li =>
      if negb (Ascii.eqb c "=") then None else
      let li := skip_spaces li in
      v ← ini_unescape li;
      Some (k, v, li)
  end.

(** The parser: the line, the actions and their variables. *)
Record Ini := mkIni { st : IniLine; actions : IniActions; io : IniOut }.

Definition on_line (f : IniLine -> IniLine) (s : Ini) : Ini := mkIni (f (st s)) (actions s) (io s).
Definition with_io {A} (m : IniLine -> M IniOut A) : M Ini A := fun s =>
  zoom io (fun o s => mkIni (st s) (actions s) o) (m (st s)) s.
Definition set_lineno (n : Z) (l : IniLine) : IniLine := mkLine n (file_ l) (group_ l) (key_ l) (value_ l) (rawvalue_ l).
Definition set_group (g : string) (l : IniLine) : IniLine := mkLine (lineno_ l) (file_ l) g (key_ l) (value_ l) (rawvalue_ l).
Definition set_kv (k v r : string) (l : IniLine) : IniLine := mkLine (lineno_ l) (file_ l) (group_ l) k v r.

(** [catch (std::logic_error &e)] *)
Definition catch_logic (m : M Ini unit) (h : string -> M Ini unit) : M Ini unit := fun s =>
  match m s with Throw (exn_logic what) s' => h what s' | r => r end.

(** [group->second.parse(st)] *)
Definition run_group (group : string) : M Ini unit := fun s =>
  match actions s !! group with
  | None => Ret tt s
  | Some g =>
      (g' ← with_io (fun li => parse li g);
       modify (fun s => mkIni (st s) (<[group := g']> (actions s)) (io s))) s
  end.

(** The body of the loop; [group] is the key of the iterator, [None] for
    [a.end()]. *)
Definition section_line (line : bytes) (group : option string) : M Ini (option string) :=
  let syntax_error := with_io (fun li => fail li ("syntax error" +:+ endl)) ;; mret group in
  match rfind "]" line with
  | None => syntax_error
  | Some e =>
      if (e =? 1)%nat then syntax_error else
      match find_first_not_of blanks line (Some (S e)) with
      | Some _ => syntax_error
      | None =>
          let name := bytes_str (take (e - 1) (drop 1 line)) in
          modify (on_line (set_group name)) ;;
          a ← gets actions;
          match a !! name with
          | None => with_io (fun li => warn li ("unknown group " +:+ group_ li +:+ endl)) ;; mret None
          | Some _ => mret (Some name)
          end
      end
  end.
Definition property_line (line : bytes) (group : option string) : M Ini unit :=
  st ← gets st;
  if String.eqb (group_ st) "" then with_io (fun li => fail li ("key precedes group" +:+ endl)) else
  match group with
  | None => mret tt
  | Some g =>
      match parsekv line with
      | Some (k, v, r) =>
          modify (on_line (set_kv (bytes_str k) (bytes_str v) (bytes_str r))) ;;
          catch_logic (run_group g) (fun what => with_io (fun li => fail li (what +:+ endl)))
      | None => with_io (fun li => fail li ("syntax error" +:+ endl))
      end
  end.
Definition parse_line (line : bytes) (group : option string) : M Ini (option string) :=
  modify (on_line (fun l => set_lineno (lineno_ l + 1) l)) ;;
  let line := match find_first_not_of blanks line (Some 0%nat) with None => [] | Some n => drop n line end in
  match line with
  | [] => mret group
  | c :: _ =>
      if Ascii.eqb c "#" then mret group else
      if Ascii.eqb c "[" then section_line line group else
      property_line line group ;; mret group
  end.

(** [while (getline(s, line).good())]; as many turns as there are lines. *)
Fixpoint parse_loop (fuel : nat) (s : ifs) (line : bytes) (group : option string) : M Ini unit :=
  let '(s, line, _) := getline s line in
  if negb (good s) then mret tt else
  match fuel with
  | O => fun _ => Diverge
  | S fuel => group ← parse_line line group; parse_loop fuel s line group
  end.
Definition ini_runparse (s : ifs) : M Ini unit := parse_loop (length (left_of s)) s [] None.

(** [ini_parse] of a file, [None] when it cannot be opened: that sets
    [failbit], which [bad()] does not test. *)
Definition bad (s : ifs) : bool := false.
Definition ini_parse (a : IniActions) (file : string) (content : option bytes) (o : IniOut) : outcome IniOut bool :=
  let s := ifs_open content in
  let li := mkLine 0 file "" "" "" "" in
  if bad s then Ret false o else
  match ini_runparse s (mkIni li a (set_error false o)) with
  | Ret _ i => Ret (negb (error_ (io i))) (io i)
  | Throw e i => Throw e (io i)
  | Abort => Abort
  | Diverge => Diverge
  end.
End ini.
Arguments IniOut U : clear implicits.
Arguments cb_t U : clear implicits.
Arguments IniGroup U : clear implicits.
Arguments IniActions U : clear implicits.
Arguments Ini U : clear implicits.
