(* ===== verification/IniProps.v ===== *)
(** * What the parser of .ini files reads

    Text that is written with escapes is read back ([unescape_escape]), the words
    of a value are found again ([argv_words], with the words that are not), a
    value that was accepted has words ([argv_total]), numbers are converted
    within their types ([from_string_number]) and a file sets the variables that
    were added for its properties ([ini_sets_variables]). *)

From stdpp Require Import pretty.
From S2P Require Import Prelude StdString Numbers Config IniParse.

(** ** Escapes *)

(** What [ini_unescape] turns into [c]; no blank or newline is left. *)
Definition escape_char (c : ascii) : bytes :=
  if Ascii.eqb c "010" then [backslash; "n"%char] else
  if Ascii.eqb c "013" then [backslash; "r"%char] else
  if Ascii.eqb c " " then [backslash; "s"%char] else
  if Ascii.eqb c "009" then [backslash; "t"%char] else
  if Ascii.eqb c backslash || is_space c then [backslash; c] else [c].
Definition ini_escape (b : bytes) : bytes := concat (escape_char <$> b).

Lemma escape_char_cases c : exists d, (escape_char c = [backslash; d] /\ unescaped d = c) \/
  (escape_char c = [c] /\ c <> backslash /\ is_space c = false).
Proof.
  unfold escape_char. destruct (Ascii.eqb_spec c "010"); [subst; by eexists; left|].
  destruct (Ascii.eqb_spec c "013"); [subst; by eexists; left|].
  destruct (Ascii.eqb_spec c " "); [subst; by eexists; left|].
  destruct (Ascii.eqb_spec c "009"); [subst; by eexists; left|].
  exists c. destruct (Ascii.eqb_spec c backslash) as [->|Hb]; [by left|]. destruct (is_space c) eqn:Hs; [left|by right].
  split; [done|]. unfold unescaped. destruct (Ascii.eqb_spec c "n"); [by subst|]. destruct (Ascii.eqb_spec c "r"); [by subst|].
  destruct (Ascii.eqb_spec c "s"); [by subst|]. by destruct (Ascii.eqb_spec c "t"); [subst|].
Qed.

Lemma unescape_escape_app b r : unescape_loop false (ini_escape b ++ r) = (v ← unescape_loop false r; Some (b ++ v)).
Proof.
  induction b as [|c b IH]; [cbn; by destruct (unescape_loop false r)|]. unfold ini_escape in *. cbn [fmap list_fmap concat].
  rewrite <-app_assoc. destruct (escape_char_cases c) as [d [[-> Hd]|(-> & Hb & _)]]; cbn [app].
  - cbn [unescape_loop]. rewrite Ascii.eqb_refl. cbn [unescape_loop]. rewrite IH, Hd. by destruct (unescape_loop false r).
  - cbn [unescape_loop]. destruct (Ascii.eqb_spec c backslash); [done|]. rewrite IH. by destruct (unescape_loop false r).
Qed.

Lemma unescape_escape b : ini_unescape (ini_escape b) = Some b.
Proof. unfold ini_unescape. rewrite <-(app_nil_r (ini_escape b)), unescape_escape_app. cbn. by rewrite app_nil_r. Qed.

Lemma escape_char_free c d : d ∈ escape_char c -> existsb (Ascii.eqb d) blank_or_newline = false.
Proof.
  unfold escape_char. destruct (Ascii.eqb_spec c "010"), (Ascii.eqb_spec c "013"), (Ascii.eqb_spec c " "), (Ascii.eqb_spec c "009");
    try (intros H; by repeat (apply elem_of_cons in H as [->|H]; [done|]); apply elem_of_nil in H).
  destruct (_ || _); intros H; repeat (apply elem_of_cons in H as [->|H]; [|]);
    try (by apply elem_of_nil in H); try done; cbn; by repeat match goal with |- context [Ascii.eqb c ?x] => destruct (Ascii.eqb_spec c x) end.
Qed.

Lemma escape_free b : free (fun c => existsb (Ascii.eqb c) blank_or_newline) (ini_escape b).
Proof.
  apply list.Forall_forall. intros d Hd. apply list_elem_of_In, in_concat in Hd as (l & Hl & Hd).
  apply list_elem_of_In, list_elem_of_fmap in Hl as (c & -> & _). apply escape_char_free with c. by apply list_elem_of_In.
Qed.

Lemma blank_newline c : existsb (Ascii.eqb c) blank_or_newline = false -> existsb (Ascii.eqb c) blanks = false /\ c <> newline.
Proof.
  cbn. rewrite !orb_false_iff. intros (H1 & H2 & H3 & H4 & _). split; [by rewrite H1, H3, H4|]. by apply Ascii.eqb_neq.
Qed.

Lemma escape_blanks b : free (fun c => existsb (Ascii.eqb c) blanks) (ini_escape b).
Proof. eapply list.Forall_impl; [apply escape_free|]. intros c Hc. by apply blank_newline. Qed.

Lemma escape_one_line b : newline ∉ ini_escape b.
Proof. intros H. pose proof (escape_free b) as Hf. unfold free in Hf. rewrite list.Forall_forall in Hf. by apply Hf, blank_newline in H as [_ []]. Qed.

Lemma escape_head b : match ini_escape b with [] => b = [] | c :: _ => is_space c = false end.
Proof. destruct b as [|c b]; [done|]. unfold ini_escape. cbn. by destruct (escape_char_cases c) as [d [[-> _]|(-> & _ & H)]]. Qed.

Lemma escape_nonempty b : b <> [] -> ini_escape b <> [].
Proof. intros Hb E. pose proof (escape_head b) as H. by rewrite E in H. Qed.

(** A text that does not end in a backslash leaves no escape open. *)
Lemma unescape_cut esc w r : w <> [] -> list.last w <> Some backslash ->
  exists v, unescape_loop esc (w ++ r) = (x ← unescape_loop false r; Some (v ++ x)).
Proof.
  revert esc. induction w as [|c w IH]; intros esc Hne Hl; [done|]. destruct w as [|d w].
  - cbn in Hl. assert (c <> backslash) as Hc by congruence. cbn [app unescape_loop]. destruct esc.
    + exists [unescaped c]. by destruct (unescape_loop false r).
    + destruct (Ascii.eqb_spec c backslash); [done|]. exists [c]. by destruct (unescape_loop false r).
  - cbn [app]. change (c :: d :: w ++ r) with (c :: (d :: w) ++ r). cbn [unescape_loop].
    destruct esc; [|destruct (Ascii.eqb c backslash)].
    + destruct (IH false ltac:(done) Hl) as [v ->]. exists (unescaped c :: v). by destruct (unescape_loop false r).
    + by apply IH.
    + destruct (IH false ltac:(done) Hl) as [v ->]. exists (c :: v). by destruct (unescape_loop false r).
Qed.

(** ** Words *)

Lemma find_first_of_bounds d raw n q : find_first_of d raw (Some n) = Some q -> (n <= q < length raw)%nat.
Proof.
  cbn. pose proof (find_at_spec (fun c => existsb (Ascii.eqb c) d) (drop n raw) n) as H.
  destruct (find_at _ _ _) as [x|]; [|done]. intros [= <-]. destruct H as (u & c & v & E & _ & _ & ->).
  apply (f_equal length) in E. rewrite length_drop, length_app in E. cbn in E. lia.
Qed.

Lemma word_end_total fuel raw i : (i < length raw)%nat -> (length raw - i <= fuel)%nat ->
  exists e, word_end fuel raw i = Some e /\ (i < e <= length raw)%nat /\
    (e = length raw \/ raw !! (e - 1)%nat <> Some backslash).
Proof.
  revert i. induction fuel as [|fuel IH]; intros i Hi Hf; [lia|]. cbn [word_end].
  destruct (find_first_of blanks raw (Some (S i))) as [e|] eqn:E.
  - apply find_first_of_bounds in E. destruct (Nat.ltb_spec 0 e); [|lia]. cbn [andb]. case_bool_decide as Hb.
    + destruct (IH e ltac:(lia) ltac:(lia)) as (q & Hq & Hl & Hr). exists q. split_and!; [done|lia|lia|done].
    + exists e. split_and!; [done|lia|lia|by right].
  - exists (length raw). split_and!; [done|lia|lia|by left].
Qed.

(** Blanks behind a word do not matter. *)
Lemma unescape_blanks u r : Forall (fun c => existsb (Ascii.eqb c) blanks = true) u ->
  is_Some (unescape_loop false (u ++ r)) -> is_Some (unescape_loop false r).
Proof.
  induction 1 as [|c u Hc Hu IH]; [done|]. cbn [app unescape_loop]. destruct (Ascii.eqb_spec c backslash) as [->|]; [by vm_compute in Hc|].
  intros H. apply IH. by destruct (unescape_loop false (u ++ r)).
Qed.

(** The loop of [argv] on a text without an open escape. *)
Lemma argv_loop_total {S} fuel raw i (s : S) : (i <= length raw)%nat -> (length raw - i <= fuel)%nat ->
  is_Some (unescape_loop false (drop i raw)) -> exists av, argv_loop fuel raw (Some i) s = Ret av s.
Proof.
  revert i. induction fuel as [|fuel IH]; intros i Hi Hf Hu; cbn [argv_loop].
  { destruct (Nat.leb_spec (length raw) i); [by eexists|lia]. }
  destruct (Nat.leb_spec (length raw) i); [by eexists|].
  destruct (word_end_total (length raw) raw i ltac:(lia) ltac:(lia)) as (e & -> & He & Hb).
  set (w := take (e - i) (drop i raw)).
  assert (drop i raw = w ++ drop e raw) as Esplit.
  { unfold w. replace (drop e raw) with (drop (e - i) (drop i raw)) by (rewrite drop_drop; f_equal; lia). by rewrite take_drop. }
  assert (length w = (e - i)%nat) as Hlw by (unfold w; rewrite length_take, length_drop; lia).
  assert (ini_unescape w <> None /\ is_Some (unescape_loop false (drop e raw))) as [Hw Hr].
  { destruct (decide (e = length raw)) as [->|Hne].
    { rewrite Esplit, drop_all, app_nil_r in Hu. rewrite drop_all. split; [by destruct Hu as [x Hx]; unfold ini_unescape; rewrite Hx|by eexists]. }
    destruct Hb as [Hb|Hb]; [done|].
    assert (w <> []) as Hnil by (intros E; rewrite E in Hlw; cbn in Hlw; lia).
    assert (list.last w <> Some backslash) as Hlast.
    { rewrite last_lookup, Hlw. unfold w. rewrite lookup_take_lt, lookup_drop by lia. by replace (i + Nat.pred (e - i))%nat with (e - 1)%nat by lia. }
    rewrite Esplit in Hu. destruct (unescape_cut false w (drop e raw) Hnil Hlast) as [v Ev]. rewrite Ev in Hu.
    destruct (unescape_cut false w [] Hnil Hlast) as [v2 Ev2]. rewrite app_nil_r in Ev2. unfold ini_unescape. rewrite Ev2.
    split; [done|]. by destruct (unescape_loop false (drop e raw)). }
  destruct (ini_unescape w) as [a|]; [|done].
  pose proof (find_at_spec (fun c => negb (existsb (Ascii.eqb c) blanks)) (drop e raw) e) as Hn. cbn [find_first_not_of].
  destruct (find_at _ _ _) as [i'|]; [|by destruct fuel; eexists].
  destruct Hn as (u & c & v & Eu & Hfree & _ & ->). pose proof (f_equal length Eu) as Hl. rewrite length_drop, length_app in Hl. cbn in Hl.
  destruct (IH (e + length u)%nat) as [av Hav]; [lia|lia| |].
  - assert (drop (e + length u) raw = c :: v) as -> by (rewrite <-drop_drop, Eu; apply drop_app_length).
    apply (unescape_blanks u); [|by rewrite <-Eu]. eapply list.Forall_impl; [exact Hfree|]. intros x. apply negb_false_iff.
  - exists (bytes_str a :: av). cbn. unfold mbind, M_bind. by rewrite Hav.
Qed.

(** Every value that [parsekv] accepts has words: the exception that ends
    [argv] is not thrown. *)
Lemma argv_total {S} li (s : S) : ini_unescape (str_bytes (rawvalue_ li)) <> None -> exists av, argv li s = Ret av s.
Proof.
  intros H. apply argv_loop_total; [lia|lia|]. cbn. unfold ini_unescape in H. rewrite drop_0. by destruct (unescape_loop _ _).
Qed.

(** Words with a blank between them. *)
Fixpoint join_words (ws : list bytes) : bytes :=
  match ws with
  | [] => []
  | [w] => ini_escape w
  | w :: ws => ini_escape w ++ " "%char :: join_words ws
  end.

(** The words but the last one do not end in a backslash. *)
Fixpoint inner_words_ok (ws : list bytes) : Prop :=
  match ws with
  | [] => True
  | w :: ws => (ws = [] \/ list.last w <> Some backslash) /\ inner_words_ok ws
  end.

Lemma escape_last w : list.last w <> Some backslash -> list.last (ini_escape w) <> Some backslash.
Proof.
  destruct w as [|c w _] using rev_ind; [done|]. rewrite last_snoc. intros Hc. unfold ini_escape. rewrite fmap_app, concat_app. cbn.
  rewrite app_nil_r, last_app. destruct (escape_char_cases c) as [d [[-> Hd]|(-> & Hb & _)]]; cbn; intros [= E].
  - subst d. by vm_compute in Hd; subst.
  - done.
Qed.

Lemma word_end_word pre w rest : w <> [] -> (rest = [] \/ list.last w <> Some backslash /\ exists r, rest = " "%char :: r) ->
  let raw := pre ++ ini_escape w ++ rest in word_end (length raw) raw (length pre) = Some (length pre + length (ini_escape w))%nat.
Proof.
  intros Hw Hrest raw. pose proof (escape_nonempty w Hw) as Hne. pose proof (escape_blanks w) as Hf.
  assert (list.last w <> Some backslash -> list.last (ini_escape w) <> Some backslash) as Hlast by apply escape_last.
  destruct (ini_escape w) as [|c tl] eqn:Ee; [done|]. apply list.Forall_cons in Hf as [_ Hf].
  assert (drop (S (length pre)) raw = tl ++ rest) as Ed.
  { unfold raw. replace (S (length pre)) with (length pre + 1)%nat by lia. by rewrite <-drop_drop, drop_app_length. }
  assert (length raw = (length pre + S (length tl) + length rest)%nat) as Hlen.
  { unfold raw. rewrite !length_app. cbn. lia. }
  rewrite Hlen. replace (length pre + S (length tl) + length rest)%nat with (S (length pre + length tl + length rest)) by lia.
  cbn [word_end find_first_of]. rewrite Ed.
  destruct Hrest as [->|[Hl [r ->]]].
  - rewrite app_nil_r, find_at_none by done. f_equal. rewrite Hlen. cbn. lia.
  - rewrite find_at_app by done. destruct (Nat.ltb_spec 0 (S (length pre) + length tl)); [|lia]. cbn [andb].
    case_bool_decide as Hb; [|f_equal; cbn; lia]. exfalso. apply (Hlast Hl). rewrite last_lookup. rewrite <-Hb.
    unfold raw. rewrite lookup_app_r by lia.
    replace (S (length pre) + length tl - 1 - length pre)%nat with (Nat.pred (length (c :: tl))) by (cbn; lia).
    by rewrite lookup_app_l by (cbn; lia).
Qed.

Lemma argv_loop_words {S} fuel pre ws (s : S) : Forall (fun w => w <> []) ws -> inner_words_ok ws -> (length ws <= fuel)%nat ->
  argv_loop fuel (pre ++ join_words ws) (Some (length pre)) s = Ret (bytes_str <$> ws) s.
Proof.
  intros Hne. revert pre fuel. induction Hne as [|w ws Hw Hws IH]; intros pre fuel Hok Hf.
  { rewrite app_nil_r. destruct fuel; cbn; by rewrite Nat.leb_refl. }
  destruct fuel as [|fuel]; cbn [length] in Hf; [lia|].
  set (rest := match ws with [] => [] | _ => " "%char :: join_words ws end).
  assert (join_words (w :: ws) = ini_escape w ++ rest) as -> by (unfold rest; destruct ws; cbn; [by rewrite app_nil_r|done]).
  pose proof (escape_nonempty w Hw) as Hn. cbn [argv_loop].
  destruct (Nat.leb_spec (length (pre ++ ini_escape w ++ rest)) (length pre)) as [Hle|_].
  { rewrite !length_app in Hle. destruct (ini_escape w); [done|cbn in Hle; lia]. }
  rewrite word_end_word; [|done|].
  2: { unfold rest. destruct ws as [|w2 ws]; [by left|]. right. destruct Hok as [[|Hl] _]; [done|]. split; [done|by eexists]. }
  replace (length pre + length (ini_escape w) - length pre)%nat with (length (ini_escape w)) by lia.
  rewrite drop_app_length, take_app_length, unescape_escape. cbn [fmap list_fmap].
  enough (argv_loop fuel (pre ++ ini_escape w ++ rest)
    (find_first_not_of blanks (pre ++ ini_escape w ++ rest) (Some (length pre + length (ini_escape w))%nat)) s = Ret (bytes_str <$> ws) s) as He.
  { unfold mbind, M_bind, mret, M_ret. by rewrite He. }
  rewrite app_assoc, <-length_app. cbn [find_first_not_of]. rewrite drop_app_length. unfold rest. clear rest.
  destruct ws as [|w2 ws]; [by destruct fuel|]. cbn [find_at]. change (negb (existsb (Ascii.eqb " "%char) blanks)) with false. cbn iota.
  set (q := pre ++ ini_escape w).
  assert (q ++ " "%char :: join_words (w2 :: ws) = (q ++ [" "%char]) ++ join_words (w2 :: ws)) as -> by (by rewrite <-app_assoc).
  assert (find_at (fun c => negb (existsb (Ascii.eqb c) blanks)) (join_words (w2 :: ws)) (Datatypes.S (length q)) = Some (length (q ++ [" "%char]))) as ->.
  { apply list.Forall_cons in Hws as [Hw2 _]. pose proof (escape_nonempty w2 Hw2) as Hn2. pose proof (escape_blanks w2) as Hf2.
    assert (exists c l, join_words (w2 :: ws) = c :: l /\ existsb (Ascii.eqb c) blanks = false) as (c & l & -> & Hc).
    { destruct (ini_escape w2) as [|c l] eqn:E2; [done|]. apply list.Forall_cons in Hf2 as [Hc _].
      destruct ws; cbn [join_words]; rewrite E2; by do 2 eexists. }
    cbn [find_at]. rewrite Hc. cbn [negb]. f_equal. rewrite length_app. cbn. lia. }
  apply IH; [by destruct Hok|cbn [length] in *; lia].
Qed.

(** The words of a value are found again when no word but the last one ends in
    a backslash. *)
Lemma argv_words {S} li ws (s : S) : Forall (fun w => w <> []) ws -> inner_words_ok ws ->
  rawvalue_ li = bytes_str (join_words ws) -> argv li s = Ret (bytes_str <$> ws) s.
Proof.
  intros Hne Hok Hr. unfold argv. rewrite Hr, str_bytes_str. apply (argv_loop_words (length (join_words ws)) [] ws s Hne Hok).
  clear -Hne. induction Hne as [|w ws Hw _ IH]; [done|]. pose proof (escape_nonempty w Hw) as Hn.
  destruct ws as [|w2 ws]; [destruct (ini_escape w) eqn:E; [done|]; cbn; rewrite E; cbn; lia|].
  change (join_words (w :: w2 :: ws)) with (ini_escape w ++ " "%char :: join_words (w2 :: ws)). rewrite length_app. cbn [length] in *. lia.
Qed.

(** A word that ends in a backslash is joined with the next one. *)
Lemma argv_joins : let w := str_bytes "a" ++ [backslash] in
  argv (mkLine 1 "" "" "" "" (bytes_str (join_words [w; str_bytes "b"]))) tt = Ret [bytes_str (w ++ str_bytes " b")] tt.
Proof. by vm_compute. Qed.

(** ** Numbers *)

Lemma scan_decimal n ds : Forall (fun c => is_digit c = true) ds -> scan_number 10 n ds = (digits n ds, []).
Proof.
  intros H. revert n. induction H as [|c ds Hc _ IH]; intros n; [done|]. cbn [scan_number digits]. rewrite Hc.
  assert (digit_value c = byte_val c - 48) as -> by (unfold digit_value; by rewrite Hc).
  unfold is_digit in Hc. apply andb_true_iff in Hc as [H1%Z.leb_le H2%Z.leb_le].
  destruct (Z.ltb_spec (byte_val c - 48) 10); [apply IH|lia].
Qed.

Lemma digits_bound n ds : Forall (fun c => is_digit c = true) ds -> 0 <= n ->
  digits n ds < (n + 1) * 10 ^ Z.of_nat (length ds).
Proof.
  intros H. revert n. induction H as [|c ds Hc _ IH]; intros n Hn; cbn [digits]; [cbn; lia|]. rewrite Hc.
  unfold is_digit in Hc. apply andb_true_iff in Hc as [H1%Z.leb_le H2%Z.leb_le].
  specialize (IH (10 * n + (byte_val c - 48)) ltac:(lia)). cbn [length]. rewrite Nat2Z.inj_succ, Z.pow_succ_r by lia. nia.
Qed.

(** A positive number is not written with a leading zero. *)
Lemma pretty_leading (x : N) c ds : str_bytes (pretty x) = c :: ds -> (0 < x)%N -> c <> "0"%char.
Proof.
  intros E Hx ->. destruct (pretty_digits x) as (ds' & E' & _ & Hf & Hd & Hl). rewrite E in E'. subst ds'.
  specialize (Hd []). rewrite app_nil_r in Hd. apply list.Forall_cons in Hf as [_ Hf]. change (digits 0 ds = Z.of_N x) in Hd.
  pose proof (digits_bound 0 ds Hf ltac:(lia)) as Hb. rewrite Hd in Hb.
  destruct ds as [|d ds]; [cbn in Hb; lia|]. cbn [length] in Hb, Hl.
  specialize (Hl (length ds)). enough (x < 10 ^ N.of_nat (S (length ds)))%N by (specialize (Hl ltac:(done)); lia).
  rewrite N2Z.inj_lt, N2Z.inj_pow. lia.
Qed.

Lemma parse_number_to_string z : 0 <= z -> parse_number (str_bytes (to_string z)) = Some (false, z, []).
Proof.
  intros Hz. destruct (decide (z = 0)) as [->|Hne]; [done|]. rewrite to_string_N by done.
  destruct (pretty_digits (Z.to_N z)) as (ds & E & Hnil & Hf & Hd & _).
  destruct ds as [|c ds]; [done|]. pose proof (pretty_leading _ _ _ E ltac:(lia)) as Hc0. rewrite E.
  unfold parse_number. pose proof Hf as [Hc _]%list.Forall_cons. destruct (digit_not_space c Hc) as (Hs & H1 & H2).
  cbn [skip_spaces]. rewrite Hs. cbn [cut_sign]. destruct (Ascii.eqb_spec c "-"); [done|]. destruct (Ascii.eqb_spec c "+"); [done|].
  cbn [cut_base]. destruct (Ascii.eqb_spec c "0"); [done|]. cbn [negb].
  assert ((digit_value c <? 10) = true) as ->.
  { unfold digit_value. rewrite Hc. unfold is_digit in Hc. apply andb_true_iff in Hc as [_ Hc%Z.leb_le]. apply Z.ltb_lt. lia. }
  rewrite scan_decimal by done. specialize (Hd []). rewrite app_nil_r in Hd. rewrite Hd. cbn [digits]. by rewrite Z2N.id.
Qed.

(** The largest number that is read; half the range for [unsigned long long],
    which goes through [std::stoll]. *)
Definition num_max (T : num_type) : Z :=
  match T with
  | T_int => 2 ^ 31 - 1
  | T_long | T_llong | T_ullong => 2 ^ 63 - 1
  | T_uchar => 2 ^ 8 - 1
  | T_ushort => 2 ^ 16 - 1
  | T_uint => 2 ^ 32 - 1
  | T_ulong => 2 ^ 64 - 1
  end.

Definition conv_max (u : conv) : Z :=
  match u with std_stoi => 2 ^ 31 - 1 | std_stol | std_stoll => 2 ^ 63 - 1 | std_stoul => 2 ^ 64 - 1 end.

Lemma add_base_number {S} u z (s : S) : 0 <= z -> add_base u (str_bytes (to_string z)) s =
  if z <=? conv_max u then Ret (z, []) s else Throw (exn_logic (conv_name u)) s.
Proof.
  intros Hz. unfold add_base. rewrite parse_number_to_string by done. change (signed (false, z)) with z.
  destruct u; cbn [to_U conv_max].
  4: { destruct (Z.ltb_spec z (2 ^ 64)), (Z.leb_spec z (2 ^ 64 - 1)); try lia; [|done]. by rewrite wrap64_small. }
  all: match goal with |- context [?f =? ?y] => destruct (Z.eqb_spec f y) as [E|E]; unfold sint32, sint64 in E end;
    case_match eqn:Hle; try done; exfalso; [apply Z.leb_gt in Hle|apply Z.leb_le in Hle]; mod_lia.
Qed.

(** What a type can hold comes back from the type of the conversion. *)
Lemma num_type_keeps T z : 0 <= z <= conv_max (conv_of T) ->
  (to_U (conv_of T) (to_T T z) =? z) = (z <=? num_max T) \/ T = T_ullong.
Proof.
  intros Hz. destruct T; [left..|by right]; cbn [conv_of to_U to_T num_max conv_max] in *; unfold sint32, sint64, wrap32, wrap64;
    apply eq_true_iff_eq; rewrite Z.eqb_eq, Z.leb_le; mod_lia.
Qed.

(** Numbers that are not negative are read up to [num_max]. *)
Lemma from_string_number {S} T z (s : S) : 0 <= z ->
  (z <= num_max T -> from_string_with T (str_bytes (to_string z)) s = Ret z s) /\
  (num_max T < z -> exists what, from_string_with T (str_bytes (to_string z)) s = Throw (exn_logic what) s).
Proof.
  intros Hz. unfold from_string_with, mbind, M_bind. rewrite add_base_number by done.
  destruct (Z.leb_spec z (conv_max (conv_of T))) as [Hc|Hc].
  2: { split; [|by eexists]. intros Hle. exfalso. by destruct T; cbn [num_max conv_of conv_max] in *; lia. }
  assert (z <= num_max T -> to_T T z = z) as Ht.
  { intros Hle. destruct T; cbn [num_max to_T] in *; unfold sint32, sint64, wrap32, wrap64; mod_lia. }
  destruct (num_type_keeps T z ltac:(done)) as [E| ->].
  - rewrite E. destruct (Z.leb_spec z (num_max T)) as [Hle|Hle]; cbn [negb]; (split; [|]); intros; try lia; [|by eexists].
    by rewrite Ht.
  - cbn [num_max conv_of conv_max] in *. split; [intros _|lia]. rewrite Ht by done. cbn [to_U].
    assert (sint64 z = z) as -> by (unfold sint64; mod_lia). by rewrite Z.eqb_refl.
Qed.

(** Unsigned types of 64 bits take negative numbers, the others do not. *)
Lemma from_string_negative :
  from_string_with T_ulong (str_bytes "-1") tt = Ret (2 ^ 64 - 1) tt /\
  from_string_with T_ullong (str_bytes "-1") tt = Ret (2 ^ 64 - 1) tt /\
  from_string_with T_uint (str_bytes "-1") tt = Throw (exn_logic "value out of range") tt /\
  from_string_with T_int (str_bytes " -0x10 ") tt = Ret (-16) tt /\
  from_string_with T_int (str_bytes "017") tt = Ret 15 tt /\
  from_string_with T_int (str_bytes "08") tt = Throw (exn_logic "trailing garbage: 8") tt.
Proof. by vm_compute. Qed.

(** ** The file of a configuration *)

(** A section with its properties. *)
Definition section : Type := string * list (string * string).

Definition property_text (p : string * string) : bytes := str_bytes p.1 ++ str_bytes " = " ++ ini_escape (str_bytes p.2).
Definition section_text (c : section) : list bytes :=
  (("["%char :: str_bytes c.1) ++ ["]"%char]) :: (property_text <$> c.2).
Definition config_text (cfg : list section) : list bytes := concat (section_text <$> cfg).

(** Names of sections are not empty and keep to their line; keys are words that
    do not look like comments or sections. *)
Definition section_ok (g : string) : bool :=
  negb (String.eqb g "") && forallb (fun c => negb (Ascii.eqb c newline)) (str_bytes g).
Definition key_ok (k : string) : bool :=
  forallb (fun c => negb (is_space c) && negb (Ascii.eqb c "=")) (str_bytes k) &&
  match str_bytes k with [] => false | c :: _ => negb (Ascii.eqb c "#") && negb (Ascii.eqb c "[") end.
Definition config_ok (cfg : list section) : Prop :=
  Forall (fun c : section => section_ok c.1 = true /\ Forall (fun p : string * string => key_ok p.1 = true) c.2) cfg.

Lemma span_app p u v : Forall (fun c => p c = true) u -> match v with [] => True | c :: _ => p c = false end -> span p (u ++ v) = (u, v).
Proof.
  intros Hu Hv. induction Hu as [|c u Hc Hu IH]; cbn; [|by rewrite Hc, IH].
  destruct v as [|c v]; [done|]. cbn. by rewrite Hv.
Qed.

Lemma skip_no_space b : match b with [] => True | c :: _ => is_space c = false end -> skip_spaces b = b.
Proof. destruct b as [|c b]; [done|]. cbn. by intros ->. Qed.

Lemma key_chars k : key_ok k = true -> Forall (fun c => negb (is_space c) && negb (Ascii.eqb c "=") = true) (str_bytes k) /\
  exists c b, str_bytes k = c :: b /\ is_space c = false /\ c <> "#"%char /\ c <> "["%char.
Proof.
  unfold key_ok. intros [Hf%forallb_Forall Hc]%andb_true_iff. split; [done|]. destruct (str_bytes k) as [|c b]; [done|]. exists c, b. apply andb_true_iff in Hc as [H1 H2].
  apply list.Forall_cons in Hf as [[H3 _]%andb_true_iff _]. split_and!; [done|by apply negb_true_iff| |].
  - by intros ->.
  - by intros ->.
Qed.

(** A line with a property. *)
Lemma parsekv_property k v : key_ok k = true ->
  parsekv (property_text (k, v)) = Some (str_bytes k, str_bytes v, ini_escape (str_bytes v)).
Proof.
  intros Hk. destruct (key_chars k Hk) as (Hf & c & b & Ek & Hs & _). unfold parsekv, property_text. cbn [fst snd].
  rewrite skip_no_space by (by rewrite Ek). rewrite span_app; [|done|done]. change (skip_spaces (str_bytes " = " ++ ini_escape (str_bytes v))) with ("="%char :: " "%char :: ini_escape (str_bytes v)).
  rewrite Ek. cbn iota. change (negb (Ascii.eqb "=" "=")) with false. cbn iota.
  change (skip_spaces (" "%char :: ini_escape (str_bytes v))) with (skip_spaces (ini_escape (str_bytes v))).
  rewrite skip_no_space by (pose proof (escape_head (str_bytes v)) as H; by destruct (ini_escape (str_bytes v))).
  by rewrite unescape_escape.
Qed.

Lemma not_newline_elem b : forallb (fun c => negb (Ascii.eqb c newline)) b = true -> newline ∉ b.
Proof. intros H%forallb_Forall Hin. rewrite list.Forall_forall in H. by apply H in Hin. Qed.

Lemma config_lines_ok cfg : config_ok cfg -> Forall (fun l => newline ∉ l) (config_text cfg).
Proof.
  intros H. induction H as [|[g ps] cfg [Hg Hps] _ IH]; [constructor|]. cbn. constructor; [|apply Forall_app; split; [|done]].
  - apply andb_true_iff in Hg as [_ Hg%not_newline_elem]. cbn. rewrite not_elem_of_cons, not_elem_of_app. split; [done|].
    split; [done|]. by apply (bool_decide_unpack (_ ∉ _)); vm_compute.
  - apply Forall_fmap. eapply list.Forall_impl; [exact Hps|]. intros [k v] Hk. cbn [fst] in Hk. change (newline ∉ property_text (k, v)). unfold property_text. cbn [fst snd].
    rewrite !not_elem_of_app. destruct (key_chars k Hk) as [Hf _]. split; [|split; [|apply escape_one_line]].
    + intros Hin. rewrite list.Forall_forall in Hf. by apply Hf in Hin.
    + by apply (bool_decide_unpack (_ ∉ _)); vm_compute.
Qed.

Section parse.
Context {U : Type}.
Implicit Types s : Ini U.

Fixpoint run_lines (ls : list bytes) (group : option string) : M (Ini U) (option string) :=
  match ls with [] => mret group | l :: ls => g ← parse_line l group; run_lines ls g end.

(** The loop takes the whole lines; the text behind the last newline is not
    one. *)
Lemma parse_loop_lines ls rest fuel line group s : Forall (fun l => newline ∉ l) ls -> newline ∉ rest -> (length ls <= fuel)%nat ->
  parse_loop fuel (mkIfs (lines ls ++ rest) true) line group s = (run_lines ls group ;; mret tt) s.
Proof.
  intros Hls Hrest. revert fuel line group s. induction Hls as [|l ls Hl _ IH]; intros fuel line group s Hf.
  - assert (cut_line rest = (rest, None)) as Hc.
    { clear -Hrest. induction rest as [|c b IH]; [done|]. apply not_elem_of_cons in Hrest as [Hc Hb]. cbn.
      destruct (Ascii.eqb_spec c newline); [congruence|]. by rewrite IH. }
    destruct fuel; cbn [parse_loop]; unfold getline; cbn [good left_of negb]; change (lines [] ++ rest) with rest; by rewrite Hc.
  - destruct fuel as [|fuel]; cbn [length] in Hf; [lia|]. cbn [parse_loop].
    assert (getline (mkIfs (lines (l :: ls) ++ rest) true) line = (mkIfs (lines ls ++ rest) true, l, true)) as ->.
    { unfold getline. cbn [good left_of negb]. unfold lines. cbn. rewrite <-!app_assoc. cbn [app]. by rewrite cut_line_app. }
    cbn [good negb run_lines]. unfold mbind, M_bind in IH |- *. destruct (parse_line l group s); [|done..].
    apply IH. lia.
Qed.

Lemma lines_length ls : (length ls <= length (lines ls))%nat.
Proof. induction ls as [|l ls IH]; [done|]. unfold lines in *. cbn. rewrite !length_app. cbn. lia. Qed.

(** A line that opens a section of the actions. *)
Lemma parse_section g grp group s : section_ok g = true -> actions s !! g = Some grp -> exists li,
  parse_line (("["%char :: str_bytes g) ++ ["]"%char]) group s = Ret (Some g) (mkIni li (actions s) (io s)) /\ group_ li = g.
Proof.
  intros [Hg _]%andb_true_iff Ha. unfold parse_line. rewrite (bind_Ret _ _ s tt (on_line _ s)) by done. cbn -[section_line].
  unfold section_line. change ("["%char :: str_bytes g ++ ["]"%char]) with (("["%char :: str_bytes g) ++ ["]"%char]).
  rewrite rfind_last. cbn [length].
  assert (length (str_bytes g) <> 0%nat) as Hlen by (destruct g; [done|by cbn]).
  destruct (Nat.eqb_spec (S (length (str_bytes g))) 1); [lia|]. cbn [find_first_not_of].
  rewrite drop_ge by (rewrite length_app; cbn; lia). cbn [find_at]. cbn -[bytes_str take].
  rewrite drop_0, Nat.sub_0_r, take_app_length, bytes_str_bytes. unfold gets, mbind, M_bind. cbn. rewrite Ha. eexists. split; [done|]. done.
Qed.

(** A line with a property of the group. *)
Lemma parse_property g k v (grp : IniGroup U) (cb : cb_t U) s : key_ok k = true -> group_ (st s) = g -> g <> "" -> actions s !! g = Some grp -> grp !! k = Some cb ->
  (forall li o, group_ li = g -> key_ li = k -> value_ li = v -> exists o', cb li o = Ret tt o') ->
  exists li o', parse_line (property_text (k, v)) (Some g) s = Ret (Some g) (mkIni li (actions s) o') /\
    group_ li = g /\ key_ li = k /\ value_ li = v /\ cb li (io s) = Ret tt o'.
Proof.
  intros Hk Hg Hne Ha Hcb Hrun. destruct (key_chars k Hk) as (_ & c & b & Ek & Hs & H1 & H2). unfold parse_line.
  rewrite (bind_Ret _ _ s tt (on_line _ s)) by done.
  assert (existsb (Ascii.eqb c) blanks = false) as Hb.
  { cbn. destruct (Ascii.eqb_spec c "009"); [by subst|]. destruct (Ascii.eqb_spec c "013"); [by subst|].
    destruct (Ascii.eqb_spec c " "); [by subst|done]. }
  assert (find_first_not_of blanks (property_text (k, v)) (Some 0%nat) = Some 0%nat) as ->.
  { unfold property_text. cbn [fst snd]. rewrite Ek. cbn [find_first_not_of]. rewrite drop_0. cbn [app find_at]. by rewrite Hb. }
  rewrite drop_0. destruct (property_text (k, v)) as [|d line] eqn:El; [unfold property_text in El; cbn [fst] in El; by rewrite Ek in El|].
  assert (d = c) as -> by (unfold property_text in El; cbn [fst] in El; rewrite Ek in El; by injection El).
  destruct (Ascii.eqb_spec c "#"); [done|]. destruct (Ascii.eqb_spec c "["); [done|]. rewrite <-El. unfold property_line.
  unfold mbind, M_bind, gets, modify, catch_logic, run_group, with_io, zoom. cbn [st actions io on_line].
  change (group_ (set_lineno (lineno_ (st s) + 1) (st s))) with (group_ (st s)). rewrite Hg.
  destruct (String.eqb_spec g ""); [done|]. rewrite parsekv_property by done. rewrite !bytes_str_bytes. cbn [st actions io on_line].
  rewrite Ha. pose (li := set_kv k v (bytes_str (ini_escape (str_bytes v))) (set_lineno (lineno_ (st s) + 1) (st s))). assert (group_ li = g) as Hlg by done.
  destruct (Hrun li (io s) Hlg eq_refl eq_refl) as [o' Ho]. exists li, o'. split_and!; [|done..].
  assert (parse li grp (io s) = Ret grp o') as Hp.
  { unfold parse. change (key_ li) with k. by rewrite Hcb, (bind_Ret _ _ _ tt o'). }
  unfold mbind, M_bind. cbn [st actions io on_line]. fold li. rewrite Hp. unfold modify. cbn [st actions io]. 
  apply (f_equal (fun a => Ret (Some g) (mkIni li a o'))). exact (insert_id (M := gmap string) (actions s) g grp Ha).
Qed.

Section config.
Context (effect : string -> string -> string -> U -> U).

(** The actions have a group for the section and a callback for each of its
    properties, which only sets variables. *)
Definition sets (a : IniActions U) (c : section) : Prop :=
  exists grp, a !! c.1 = Some grp /\ Forall (fun p : string * string => exists cb, grp !! p.1 = Some cb /\
    forall li o, group_ li = c.1 -> key_ li = p.1 -> value_ li = p.2 ->
      cb li o = Ret tt (set_vars (effect c.1 p.1 p.2 (vars o)) o)) c.2.

Definition set_section (u : U) (c : section) : U := foldl (fun u p => effect c.1 p.1 p.2 u) u c.2.

Lemma run_properties g (grp : IniGroup U) ps s : group_ (st s) = g -> g <> "" -> actions s !! g = Some grp ->
  Forall (fun p : string * string => key_ok p.1 = true) ps ->
  Forall (fun p : string * string => exists cb, grp !! p.1 = Some cb /\
    forall li o, group_ li = g -> key_ li = p.1 -> value_ li = p.2 -> cb li o = Ret tt (set_vars (effect g p.1 p.2 (vars o)) o)) ps ->
  exists li, run_lines (property_text <$> ps) (Some g) s =
    Ret (Some g) (mkIni li (actions s) (set_vars (set_section (vars (io s)) (g, ps)) (io s))).
Proof.
  intros Hg Hne Ha Hk. revert s Hg Ha. induction Hk as [|[k v] ps Hk _ IH]; intros s Hg Ha Hps.
  { exists (st s). destruct s as [l a [e c u]]. done. }
  apply list.Forall_cons in Hps as [(cb & Hcb & Hrun) Hps]. cbn [fst snd] in *.
  destruct (parse_property g k v grp cb s Hk Hg Hne Ha Hcb) as (li & o' & Hp & Hl & Hlk & Hlv & Ho).
  { intros li o H1 H2 H3. eexists. by apply Hrun. }
  cbn [fmap list_fmap run_lines]. rewrite (bind_Ret _ _ _ _ _ Hp). rewrite (Hrun li (io s) Hl Hlk Hlv) in Ho. injection Ho as <-.
  destruct (IH (mkIni li (actions s) (set_vars (effect g k v (vars (io s))) (io s))) Hl Ha Hps) as [li' Hli]. exists li'. by rewrite Hli.
Qed.

Lemma run_config cfg group s : config_ok cfg -> Forall (sets (actions s)) cfg -> exists li g',
  run_lines (config_text cfg) group s = Ret g' (mkIni li (actions s) (set_vars (foldl set_section (vars (io s)) cfg) (io s))).
Proof.
  intros H. revert group s. induction H as [|[g ps] cfg [Hg Hps] _ IH]; intros group s Hsets.
  { exists (st s), group. destruct s as [l a [e c u]]. done. }
  apply list.Forall_cons in Hsets as [(grp & Ha & Hcb) Hsets]. cbn [fst snd] in *.
  assert (g <> "") as Hne by (intros ->; by vm_compute in Hg).
  destruct (parse_section g grp group s Hg Ha) as (li & Hp & Hl).
  destruct (run_properties g grp ps (mkIni li (actions s) (io s)) Hl Hne Ha Hps Hcb) as [li1 H1]. cbn [io actions] in H1.
  destruct (IH (Some g) (mkIni li1 (actions s) (set_vars (set_section (vars (io s)) (g, ps)) (io s))) Hsets) as (li2 & g' & H2). cbn [io actions] in H2.
  exists li2, g'. change (config_text ((g, ps) :: cfg)) with (section_text (g, ps) ++ config_text cfg).
  unfold section_text. cbn [fst snd app run_lines]. rewrite (bind_Ret _ _ _ _ _ Hp).
  assert (forall l1 l2 gr (t : Ini U), run_lines (l1 ++ l2) gr t = (x ← run_lines l1 gr; run_lines l2 x) t) as Happ.
  { clear. intros l1 l2. induction l1 as [|l l1 IH]; intros gr t; [done|]. cbn [app run_lines]. rewrite bind_assoc.
    unfold mbind, M_bind in *. by destruct (parse_line l gr t). }
  by rewrite Happ, (bind_Ret _ _ _ _ _ H1), H2.
Qed.

(** C35: a configuration that is written as text is read back: every property
    reaches the callback of its group and key, in the order of the file, with
    exactly the value that was written, and no error is reported.  What follows
    the last newline of the file is not read. *)
Theorem ini_sets_variables a file cfg rest (o : IniOut U) : config_ok cfg -> newline ∉ rest -> Forall (sets a) cfg ->
  ini_parse a file (Some (lines (config_text cfg) ++ rest)) o =
    Ret true (set_error false (set_vars (foldl set_section (vars o) cfg) o)).
Proof.
  intros Hc Hr Hs. unfold ini_parse, bad, ini_runparse, ifs_open. cbn [left_of].
  rewrite parse_loop_lines; [|by apply config_lines_ok|done|].
  2: { rewrite length_app. pose proof (lines_length (config_text cfg)). lia. }
  destruct (run_config cfg None (mkIni (mkLine 0 file "" "" "" "") a (set_error false o)) Hc Hs) as (li & g & Hrun).
  by rewrite (bind_Ret _ _ _ _ _ Hrun).
Qed.
End config.
End parse.

(** A variable that is added for a key gets the value of the conversion. *)
Lemma convert_sets {U A} (from_string : string -> M (IniOut U) A) put li x (o : IniOut U) :
  from_string (value_ li) o = Ret x o -> convert from_string put li o = Ret tt (set_vars (put x (vars o)) o).
Proof. intros H. unfold convert. by rewrite (bind_Ret _ _ _ _ _ H). Qed.

(** A file that cannot be opened is parsed without an error. *)
Lemma ini_missing_file {U} (a : IniActions U) file o : ini_parse a file None o = Ret true (set_error false o).
Proof. done. Qed.

(** ** A program with three variables *)

Record sample_vars := mkVars { v_foo : string; v_baz : bool; v_n : Z }.
Definition put_foo (x : string) (u : sample_vars) : sample_vars := mkVars x (v_baz u) (v_n u).
Definition put_baz (x : bool) (u : sample_vars) : sample_vars := mkVars (v_foo u) x (v_n u).
Definition put_n (x : Z) (u : sample_vars) : sample_vars := mkVars (v_foo u) (v_baz u) x.

Definition sample_groups : M (IniOut sample_vars) (IniActions sample_vars) :=
  g1 ← add_var "foo" from_string_string put_foo ∅;
  g1 ← add_var "baz" from_string_bool put_baz g1;
  g2 ← add_var "n" (fun s => from_string_with T_uint (str_bytes s)) put_n ∅;
  mret (<["group1" := g1]> (<["group2" := g2]> ∅)).
Definition sample_out : IniOut sample_vars := mkOut false "" (mkVars "" false 0).
Definition sample_actions : IniActions sample_vars :=
  match sample_groups sample_out with Ret a _ => a | _ => ∅ end.

Definition sample_config : list section :=
  [("group1", [("foo", "   three spaces"); ("baz", "true")]); ("group2", [("n", "7")]); ("group1", [("foo", "x")])].
Definition sample_effect (g k v : string) (u : sample_vars) : sample_vars :=
  if String.eqb k "foo" then put_foo v u else if String.eqb k "baz" then put_baz (String.eqb v "true") u else put_n 7 u.

(** The conversions of the values in the file. *)
Ltac converts f x := eexists; split; [reflexivity|]; intros li o _ _ Hv; apply (convert_sets _ f li x); cbn [snd] in Hv; rewrite Hv;
  vm_compute; reflexivity.

Lemma sample_sets : Forall (sets sample_effect sample_actions) sample_config.
Proof.
  unfold sample_actions, sample_config. cbn -[insert lookup from_string_with].
  apply Forall_cons_2; [|apply Forall_cons_2; [|apply Forall_cons_2; [|apply Forall_nil_2]]];
    (eexists; split; [reflexivity|]); cbn [fst snd].
  - apply Forall_cons_2; [|apply Forall_cons_2; [|apply Forall_nil_2]]; [converts put_foo "   three spaces"|converts put_baz true].
  - apply Forall_cons_2; [|apply Forall_nil_2]. converts put_n 7.
  - apply Forall_cons_2; [|apply Forall_nil_2]. converts put_foo "x".
Qed.

Lemma ini_sets_variables_witness : config_ok sample_config /\
  ini_parse sample_actions "config.ini" (Some (lines (config_text sample_config) ++ str_bytes "n = 8")) sample_out =
    Ret true (mkOut false "" (mkVars "x" true 7)).
Proof.
  assert (config_ok sample_config) as Hc by (unfold config_ok; repeat constructor).
  assert (newline ∉ str_bytes "n = 8") as Hr by (by apply (bool_decide_unpack (_ ∉ _)); vm_compute).
  split; [exact Hc|].
  rewrite (ini_sets_variables sample_effect sample_actions "config.ini" sample_config (str_bytes "n = 8") sample_out Hc Hr sample_sets).
  reflexivity.
Defined.

(** What is reported of a file with mistakes. *)
Lemma ini_reports : let o := mkOut false "" (mkVars "" false 0) in
  match ini_parse sample_actions "f" (Some (lines (str_bytes <$> ["n = 1"; "# a comment"; "[group2]"; "n"; "n = 4294967296"; "m = 1"; "m = 2"; "[]"; "[group3]"; "n = 3"; "[group2] "; "n = 5"]))) o with
  | Ret ok o => ok = false /\ vars o = mkVars "" false 5 /\ cerr o = bytes_str (lines (str_bytes <$> [
      "f:1: key precedes group"; "f:4: syntax error"; "f:5: value out of range"; "f:6: unknown property group2.m";
      "f:8: syntax error"; "f:9: unknown group group3"]))
  | _ => False
  end.
Proof. by vm_compute. Qed.
