(* ===== verification/Membership.v ===== *)
(** * Group membership: [apps/group_membership.cc]

    [Tokenize] of [apps/common.h], [membership_parse], and [main] with its
    callback and its loop, as code of the threads of [Programs]. *)

From S2P Require Import Prelude StdString ServerTypes ClientLib ServerLogic Programs.

(** ** [Tokenize] *)

(** The loop, at most [fuel] turns of it; [None] when it is not over then, or
    throws. *)
Fixpoint tokenize_loop (fuel : nat) (delims str : bytes) (lastPos pos : option nat) : option (list bytes) :=
  match lastPos, pos with
  | None, None => Some []
  | _, _ =>
      match fuel with
      | O => None
      | S fuel =>
          token ← substr str lastPos pos;
          let lastPos := find_first_not_of delims str pos in
          let pos := find_first_of delims str lastPos in
          tokens ← tokenize_loop fuel delims str lastPos pos;
          Some (token :: tokens)
      end
  end.
Definition Tokenize (str delims : bytes) : option (list bytes) :=
  let lastPos := find_first_not_of delims str (Some 0%nat) in
  let pos := find_first_of delims str lastPos in
  tokenize_loop (length str) delims str lastPos pos.

(** ** [membership_parse] *)

(** [paths.back()] of no tokens is undefined: [None]. *)
Definition back_of (m : bytes) : option string :=
  paths ← Tokenize m (str_bytes "/");
  match list.last paths with Some b => Some (bytes_str b) | None => None end.

Fixpoint parse_loop (l : list bytes) (ret : string) : option string :=
  match l with
  | [] => Some ret
  | m :: l => b ← back_of m; parse_loop l (ret +:+ (b +:+ " "))
  end.
Definition membership_parse (list : string) : option string :=
  l ← Tokenize (str_bytes list) (str_bytes "|");
  ret ← parse_loop l "< ";
  Some (ret +:+ ">").

(** ** [main] *)

(** The variables that [main] shares with its callback, and whether the
    library has the callback. *)
Record group_vars := mkGroup {
  grouplist : string;
  dirId : Z;
  fdId : Z;
  registered : bool;
}.

Abbreviation code := (prog group_vars).

Definition set_grouplist (s : string) (v : group_vars) : group_vars := mkGroup s (dirId v) (fdId v) (registered v).
Definition set_dirId (i : Z) (v : group_vars) : group_vars := mkGroup (grouplist v) i (fdId v) (registered v).
Definition set_fdId (i : Z) (v : group_vars) : group_vars := mkGroup (grouplist v) (dirId v) i (registered v).
Definition set_registered (b : bool) (v : group_vars) : group_vars := mkGroup (grouplist v) (dirId v) (fdId v) b.
Definition read_vars (k : group_vars -> code) : code := Step (fun _ => true) id k.
Definition assign (f : group_vars -> group_vars) (k : code) : code := Step (fun _ => true) f (fun _ => k).

Definition groupdir : string := "/group".

(** [renew]: the comparison reads [grouplist] without the mutex. *)
Definition renew (fname : string) (k : code) : code :=
  if negb (String.eqb fname groupdir) then k else
  read_vars (fun v => Call (L_getContentsAndStat (dirId v)) (fun r =>
  match r with
  | V_contents (Some c) =>
      let newlist := cas_content c in
      read_vars (fun v =>
        if negb (String.eqb newlist (grouplist v))
        then assign (set_grouplist newlist) (Info "group membership changed" k)
        else k)
  | _ => Exit
  end)).

(** The callback of an event. *)
Definition group_callback (e : EventContent) : code :=
  read_vars (fun v =>
    if registered v && (evc_event e =? EV_CONTENT_MODIFIED) then renew (evc_fname e) Stop else Stop).

(** The loop over the [run] seconds that are left; a dot is printed without
    the prefix of [info], and [Exit] stands for undefined behaviour of
    [membership_parse]. *)
Fixpoint show (run : nat) (lastlist : string) (dotPrinted : Z) (k : code) : code :=
  match run with
  | O => k
  | S run =>
      read_vars (fun v => let curlist := grouplist v in
      let next := show run curlist (dotPrinted + 1) k in
      if String.eqb curlist lastlist && negb (Z.rem dotPrinted 20 =? 0) then Info "." next else
      match membership_parse curlist with
      | Some m => Info ("current membership is " +:+ m) next
      | None => Exit
      end)
  end.

(** The end of [main]. *)
Definition leave_group (k : code) : code :=
  read_vars (fun v => Call (L_fileDelete (fdId v)) (fun r => checkErr (val_bool r) (
  Call (L_deleteCallback EV_CONTENT_MODIFIED) (fun _ => assign (set_registered false) (
  read_vars (fun v => Call (L_fileClose (dirId v)) (fun _ =>
  read_vars (fun v => Call (L_fileClose (fdId v)) (fun _ => k))))))))).

Definition join_group (myId : string) (k : code) : code :=
  Call (L_fileOpen (groupdir +:+ "/" +:+ myId) (Z.lor CREATE_FILE EPHEMERAL)) (fun r =>
  assign (set_fdId (val_fd r)) (checkErr (negb (val_fd r =? FAIL)) (renew groupdir k))).

Definition open_group (k : code) : code :=
  Call (L_fileOpen groupdir (Z.lor (Z.lor READ WRITE) EV_CONTENT_MODIFIED)) (fun r =>
  assign (set_dirId (val_fd r)) (checkErr (negb (val_fd r =? FAIL)) (
  Call (L_registerCallback EV_CONTENT_MODIFIED) (fun _ => assign (set_registered true) k)))).
Definition create_group (k : code) : code :=
  Call (L_fileOpen groupdir CREATE_DIRECTORY) (fun r =>
  assign (set_dirId (val_fd r)) (
  if val_fd r =? FAIL then k else
  read_vars (fun v => Call (L_fileClose (dirId v)) (fun _ => k)))).

Definition group_program (myId : string) (run : nat) : code :=
  create_group (open_group (join_group myId (show run "" 0 (leave_group Stop)))).
