(* ===== verification/MembershipProps.v ===== *)
(** * What the members of a group are shown

    [Tokenize] computes the non-empty pieces between delimiters
    ([Tokenize_words]), and [membership_parse] of the content of the group
    directory names exactly the files in it ([membership_shown]).  Two runs of
    the program follow: members are told of one another ([members_follow]), and
    a list that is overtaken by a newer one ([membership_stale]). *)

From S2P Require Import Prelude StdString Names Numbers ServerTypes ServerDB DirContent Tree ServerDBWf ServerDBRefine ServerDBProps.
From S2P Require Import ClientLib DbApi TreeStore ServerLogic LogicProps Programs Runs Membership.

(** ** [Tokenize] *)

Section tokenize.
Context (delims : bytes).
Abbreviation is_delim := (fun c => existsb (Ascii.eqb c) delims).

(** The next token from position [n] on. *)
Lemma next_token str n : (n <= length str)%nat ->
  match find_first_not_of delims str (Some n) with
  | None => words is_delim (drop n str) = []
  | Some l => exists c, (n <= l < length str)%nat /\ str !! l = Some c /\ is_delim c = false /\
      words is_delim (drop n str) = words is_delim (drop l str)
  end.
Proof.
  intros Hn. cbn. pose proof (find_at_spec (fun c => negb (is_delim c)) (drop n str) n) as H.
  destruct (find_at _ _ _) as [l|].
  - destruct H as (u & c & v & E & Hu & Hc & ->).
    assert (drop (n + length u) str = c :: v) as Ed by (rewrite <-drop_drop, E; apply drop_app_length).
    exists c. assert (str !! (n + length u)%nat = Some c) as Hl.
    { rewrite <-(Nat.add_0_r (n + length u)), <-lookup_drop, Ed. done. }
    split_and!; [lia|by eapply lookup_lt_Some|done|by apply negb_true_iff|].
    rewrite Ed, E. apply words_delims. eapply list.Forall_impl; [exact Hu|]. cbn. intros x Hx. by apply negb_false_iff.
  - rewrite <-(app_nil_r (drop n str)). rewrite words_delims; [done|].
    eapply list.Forall_impl; [exact H|]. cbn. intros x Hx. by apply negb_false_iff.
Qed.

Lemma tokenize_loop_words fuel str n : (n <= length str)%nat -> (length str - n <= fuel)%nat ->
  tokenize_loop fuel delims str (find_first_not_of delims str (Some n))
    (find_first_of delims str (find_first_not_of delims str (Some n))) = Some (words is_delim (drop n str)).
Proof.
  revert n. induction fuel as [|fuel IH]; intros n Hn Hf; pose proof (next_token str n Hn) as H;
    destruct (find_first_not_of delims str (Some n)) as [l|].
  - destruct H as (c & Hl & _). lia.
  - cbn. by rewrite H.
  - destruct H as (c & Hl & Hc & Hd & ->). cbn [tokenize_loop].
    pose proof (find_at_spec is_delim (drop l str) l) as Hq. cbn [find_first_of].
    destruct (find_at is_delim (drop l str) l) as [q|].
    + destruct Hq as (u & d & v & E & Hu & Hdd & ->). cbn [substr mbind option_bind].
      replace (l + length u - l)%nat with (length u) by lia. rewrite E, take_app_length.
      assert (u <> []) as Hne.
      { intros ->. cbn in E. assert (str !! l = Some d) as Hd2 by (rewrite <-(Nat.add_0_r l), <-lookup_drop, E; done). congruence. }
      assert (drop (l + length u) str = d :: v) as Ed by (rewrite <-drop_drop, E; apply drop_app_length).
      assert (length (drop (l + length u) str) = length (d :: v)) as El by (by rewrite Ed). rewrite length_drop in El. cbn in El.
      rewrite IH by (destruct u; cbn in *; [done|lia]). cbn [mbind option_bind]. rewrite Ed. by rewrite words_app.
    + cbn [substr mbind option_bind find_first_not_of find_first_of]. 
      assert (drop l str <> []) as Hne by (intros E; apply (f_equal length) in E; rewrite length_drop in E; cbn in E; lia).
      rewrite (words_free is_delim) by done. by destruct fuel.
  - cbn. by rewrite H.
Qed.

(** [Tokenize] always returns, with the words of the text. *)
Lemma Tokenize_words str : Tokenize str delims = Some (words is_delim str).
Proof. unfold Tokenize. apply (tokenize_loop_words (length str) str 0); lia. Qed.
End tokenize.

(** ** [membership_parse] *)

Definition slash_free (m : string) : Prop := Forall (fun c => is_slash c = false) (str_bytes m).

Lemma delim_one c d : existsb (Ascii.eqb c) [d] = Ascii.eqb c d.
Proof. cbn. apply orb_false_r. Qed.

Lemma free_slash m : slash_free m -> free (fun c => existsb (Ascii.eqb c) (str_bytes "/")) (str_bytes m).
Proof. intros H. eapply list.Forall_impl; [exact H|]. intros c Hc. cbn beta. change (str_bytes "/") with [slash]. by rewrite delim_one. Qed.

Lemma free_bar m : Forall (fun c => is_bar c = false) (str_bytes m) ->
  free (fun c => existsb (Ascii.eqb c) (str_bytes "|")) (str_bytes m).
Proof. intros H. eapply list.Forall_impl; [exact H|]. intros c Hc. cbn beta. change (str_bytes "|") with [bar]. by rewrite delim_one. Qed.

Lemma split_on_ne p b : split_on p b <> [].
Proof. destruct b as [|c b]; [done|]. cbn. by destruct (p c), (split_on p b). Qed.

Lemma split_on_both p a d b : p d = true -> split_on p (a ++ d :: b) = split_on p a ++ split_on p b.
Proof.
  intros Hd. induction a as [|c a IH]; cbn; [by rewrite Hd|]. rewrite IH. destruct (p c); [done|].
  pose proof (split_on_ne p a). by destruct (split_on p a).
Qed.

(** The last component of a path. *)
Lemma back_of_path a m : slash_free m -> m <> "" -> back_of (str_bytes (a +:+ "/" +:+ m)) = Some m.
Proof.
  intros Hm Hne. unfold back_of. rewrite Tokenize_words. cbn [mbind option_bind]. rewrite !str_bytes_app.
  change (str_bytes "/" ++ str_bytes m) with (slash :: str_bytes m). unfold words. rewrite split_on_both by done.
  rewrite (split_on_free _ (str_bytes m)) by by apply free_slash. rewrite list.filter_app.
  assert (filter nonempty [str_bytes m] = [str_bytes m]) as -> by (by destruct m).
  rewrite last_snoc. by rewrite bytes_str_bytes.
Qed.

(** The entries of a content. *)
Lemma words_render ns : Forall entry_ok ns ->
  words (fun c => existsb (Ascii.eqb c) (str_bytes "|")) (str_bytes (render ns)) = str_bytes <$> ns.
Proof.
  induction 1 as [|n ns [Hne Hn] Hns IH]; [done|]. cbn [render fmap list_fmap]. rewrite !str_bytes_app.
  change (str_bytes "|" ++ str_bytes n ++ str_bytes (render ns)) with (bar :: str_bytes n ++ str_bytes (render ns)).
  rewrite words_delim by done. assert (str_bytes n <> []) as Hb by by destruct n.
  destruct ns as [|n2 ns].
  - cbn [render]. change (str_bytes "") with (@nil ascii). rewrite app_nil_r. by rewrite words_free by (by try apply free_bar).
  - cbn [render] in IH |- *. rewrite !str_bytes_app in IH |- *. change (str_bytes "|") with [bar] in IH |- *. cbn [app] in IH |- *.
    rewrite words_app by (by try apply free_bar). by rewrite IH.
Qed.

(** What is shown for the members [ms]. *)
Fixpoint members_line (ms : list string) : string :=
  match ms with [] => ">" | m :: ms => m +:+ " " +:+ members_line ms end.

Lemma parse_loop_line a ms ret : Forall (fun m => slash_free m /\ m <> "") ms ->
  (r ← parse_loop ((fun m => str_bytes (a +:+ "/" +:+ m)) <$> ms) ret; Some (r +:+ ">")) = Some (ret +:+ members_line ms).
Proof.
  intros H. revert ret. induction H as [|m ms [Hm Hne] Hms IH]; intros ret; [done|]. cbn [fmap list_fmap parse_loop].
  rewrite back_of_path by done. cbn [mbind option_bind]. rewrite IH. cbn [members_line]. by rewrite !append_assoc.
Qed.

Lemma membership_parse_render a ms : Forall (fun m => slash_free m /\ m <> "") ms ->
  Forall entry_ok ((fun m => a +:+ "/" +:+ m) <$> ms) ->
  membership_parse (render ((fun m => a +:+ "/" +:+ m) <$> ms)) = Some ("< " +:+ members_line ms).
Proof.
  intros Hm He. unfold membership_parse. rewrite Tokenize_words, words_render by done. cbn [mbind option_bind].
  rewrite <-list_fmap_compose. by apply parse_loop_line.
Qed.

(** ** The directory *)

(** A path is split at its last slash in one way. *)
Lemma last_slash_split (a b u v : bytes) : a ++ slash :: u = b ++ slash :: v ->
  Forall (fun c => is_slash c = false) u -> Forall (fun c => is_slash c = false) v -> a = b /\ u = v.
Proof.
  revert b. induction a as [|c a IH]; intros [|d b] E Hu Hv; cbn in E.
  - by injection E as ->.
  - injection E as _ ->. rewrite Forall_app, list.Forall_cons in Hu. by destruct Hu as (_ & Hs & _).
  - injection E as _ <-. rewrite Forall_app, list.Forall_cons in Hv. by destruct Hv as (_ & Hs & _).
  - injection E as -> E. by destruct (IH b E Hu Hv) as [-> ->].
Qed.

Lemma child_name d n : d <> "/" -> checkName n = true -> getParentName n = d ->
  exists m, n = d +:+ "/" +:+ m /\ slash_free m /\ m <> "".
Proof.
  intros Hd Hn Hp. destruct (getParentName_spec n Hn) as (m & Hne & Hm & [[E _]|[_ E]]); [congruence|].
  exists m. split_and!; [congruence|done|done].
Qed.

Lemma child_parent d m : checkName (d +:+ "/" +:+ m) = true -> d <> "" -> slash_free m ->
  getParentName (d +:+ "/" +:+ m) = d /\ m <> "".
Proof.
  intros Hn Hd Hm. destruct (getParentName_spec _ Hn) as (m' & Hne & Hm' & [[_ E]|[_ E]]).
  - exfalso. apply (f_equal str_bytes%stdpp) in E. rewrite !str_bytes_app in E. change (str_bytes "/") with [slash] in E.
    destruct (last_slash_split (str_bytes d) [] (str_bytes m) (str_bytes m') E Hm Hm') as [Ed _]. by destruct d.
  - pose proof E as E2. apply (f_equal str_bytes%stdpp) in E2. rewrite !str_bytes_app in E2. change (str_bytes "/") with [slash] in E2.
    destruct (last_slash_split _ _ _ _ E2 Hm Hm') as [Ed Em]. apply str_bytes_inj in Ed, Em. by subst.
Qed.

(** C34: what is shown.  When the database answers a read of the group directory,
    [membership_parse] of its content shows a list of names, each once, and these
    are exactly the nodes [/group/m] that exist. *)
Theorem membership_shown `{!Sqlite} db inst r db' : db_wf db -> checkAndRead groupdir inst db = Ret (Some r) db' ->
  r_is_directory r = true ->
  exists ms, membership_parse (r_content r) = Some ("< " +:+ members_line ms) /\ NoDup ms /\
    forall m, m ∈ ms <-> slash_free m /\ is_Some (fs db !! (groupdir +:+ "/" +:+ m)).
Proof.
  intros Hwf Hr Hd. rewrite read_runs in Hr by done. injection Hr as Hr _. unfold tree_read in Hr.
  rewrite tree_lookup in Hr. destruct (fs db !! groupdir) as [row|] eqn:Erow; [|done]. cbn [fmap option_fmap option_map] in Hr.
  destruct (_ =? _); [|done].
  assert (r_content r = content row) as -> by (injection Hr as <-; by apply (node_content db groupdir)).
  assert (is_directory row <> 0) as Hk0 by (injection Hr as <-; intros E; cbn in Hd; by rewrite E in Hd).
  assert (is_dir_row row) as Hdir.
  { destruct (wf_row _ Hwf _ _ Erow) as [_ _ [Hk|[Hk _]] _]; done. }
  destruct (row_dir_names db groupdir row Hwf Erow Hdir) as (ns & -> & _ & Hnames & Hnd & _ & Hns).
  assert (exists ms, ns = (fun m => groupdir +:+ "/" +:+ m) <$> ms /\ Forall (fun m => slash_free m /\ m <> "") ms) as (ms & -> & Hms).
  { assert (Forall (fun n => exists m, n = groupdir +:+ "/" +:+ m /\ slash_free m /\ m <> "") ns) as Hall.
    { apply list.Forall_forall. intros n Hn. rewrite list.Forall_forall in Hnames. apply child_name; [done|by apply Hnames|by apply Hns]. }
    clear -Hall. induction Hall as [|n ns (m & -> & Hm) _ (ms & -> & Hms)]; [by exists []|]. exists (m :: ms). by split; [|constructor]. }
  exists ms. split_and!.
  - apply membership_parse_render; [done|]. eapply list.Forall_impl; [exact Hnames|]. apply name_entry.
  - by apply NoDup_fmap_1 in Hnd.
  - intros m. rewrite list.Forall_forall in Hms. split.
    + intros Hm. split; [by apply Hms|]. apply Hns. apply list_elem_of_fmap. by exists m.
    + intros [Hm [row' Hrow]]. assert (checkName (groupdir +:+ "/" +:+ m) = true) as Hc.
      { by destruct (wf_row _ Hwf _ _ Hrow) as [[Hn _]%name_ok_facts _ _ _]. }
      destruct (child_parent groupdir m Hc ltac:(done) Hm) as [Hp Hne].
      assert (groupdir +:+ "/" +:+ m ∈ (fun m => groupdir +:+ "/" +:+ m) <$> ms) as Hin by (apply Hns; split; [by eexists|done]).
      apply list_elem_of_fmap in Hin as (m' & E & Hm'). apply (f_equal str_bytes%stdpp) in E. rewrite !str_bytes_app in E.
      apply app_inj_1 in E as [_ E]; [|done]. apply app_inj_1 in E as [_ E]; [|done]. apply str_bytes_inj in E. by subst.
Qed.

(** ** Two members *)

#[local] Existing Instance strict_engine.

Definition group_db : Db :=
  created sample_hash "/group/b" false 3 (created sample_hash "/group/a" false 2 (created sample_hash "/group" true 1 create_db)).

Lemma group_db_wf : db_wf group_db.
Proof.
  assert (db_wf (created sample_hash "/group" true 1 create_db)) as H1.
  { apply (created_wf sample_hash create_db "/group" true 0); [exact create_db_wf|done|done|done|done|].
    intros H. by vm_compute in H. }
  assert (db_wf (created sample_hash "/group/a" false 2 (created sample_hash "/group" true 1 create_db))) as H2.
  { apply (created_wf sample_hash _ "/group/a" false 1); [exact H1|done|done|done|done|].
    intros _. eexists. split; [vm_compute; reflexivity|]. by vm_compute. }
  apply (created_wf sample_hash _ "/group/b" false 2); [exact H2|done|done|done|done|].
  intros _. eexists. split; [vm_compute; reflexivity|]. by vm_compute.
Qed.

Lemma membership_shown_witness : exists r ms, checkAndRead groupdir 1 group_db = Ret (Some r) group_db /\
  membership_parse (r_content r) = Some ("< " +:+ members_line ms) /\ membership_parse (r_content r) = Some "< a b >" /\
  (forall m, m ∈ ms <-> slash_free m /\ is_Some (fs group_db !! (groupdir +:+ "/" +:+ m))).
Proof.
  assert (exists r, checkAndRead groupdir 1 group_db = Ret (Some r) group_db /\ r_is_directory r = true /\
    membership_parse (r_content r) = Some "< a b >") as (r & Hr & Hd & Hline) by (eexists; by split_and!; vm_compute).
  destruct (membership_shown group_db 1 r group_db group_db_wf Hr Hd) as (ms & Hms & Hnd & Hin).
  exists r, ms. split; [exact Hr|]. split; [exact Hms|]. split; [exact Hline|exact Hin].
Defined.

(** ** A run *)

#[local] Instance group_api : DbApi Db := single_api sample_hash 0.

Definition group_process (se : Z) (c : code) : Proc group_vars :=
  mkProc c Stop (mkGroup "" 0 0 false) (mkLib (Some NoAnswer) ∅ 1) se 2 None [] [] [].
Definition group_world (n run : nat) : option (World Db group_vars) :=
  s ← logged_in n;
  Some (mkWorld s ((fun i => group_process (Z.of_nat i + 1) (group_program (to_string (Z.of_nat i)) run)) <$> seq 0 n)).

Definition does (i : nat) (t : thread_id) (locals : nat) : list action :=
  [Act_call i t; Act_reply i] ++ replicate locals (Act_local i t).
Definition joins (i created : nat) : list action :=
  does i T_main (1 + created) ++ concat (replicate created (does i T_main 0)) ++ does i T_main 1 ++
  [Act_call i T_main; Act_local i T_main] ++ does i T_main 2.
Definition shows (i : nat) : list action := replicate 2 (Act_local i T_main).
Definition notified (i changed : nat) : list action :=
  [Act_event i; Act_local i T_callback; Act_local i T_callback] ++ does i T_callback (1 + changed).

(** Both join, the first learns of the second and ends, and the second learns
    that. *)
Definition two_members : list action :=
  joins 0 1 ++ does 0 T_main 3 ++ shows 0 ++ joins 1 0 ++ does 1 T_main 3 ++ shows 1 ++
  notified 0 2 ++ notified 0 0 ++ shows 0 ++ [Act_end 0] ++ notified 1 2 ++ notified 1 0 ++ shows 1.

Definition group_run (n run : nat) (acts : list action) : option (World Db group_vars) :=
  w ← group_world n run; Programs.run (D := Db) sample_hash no_stale false (fun _ => group_callback) acts w.

Lemma members_follow : (fun w => p_log <$> w_procs w) <$> group_run 2 3 two_members = Some [
  ["group membership changed"; "current membership is < 0 >";
   "group membership changed"; "current membership is < 0 1 >"];
  ["group membership changed"; "current membership is < 0 1 >";
   "group membership changed"; "current membership is < 1 >"]].
Proof. by vm_compute. Qed.

(** The first member has read the directory for the last step of its set-up
    when the second joins; its callback learns of that before the set-up stores
    what it read. *)
Definition overtaken : list action :=
  joins 0 1 ++ does 0 T_main 1 ++ joins 1 0 ++ notified 0 2 ++ notified 0 0 ++
  replicate 4 (Act_local 0 T_main).

(** Both threads renew [grouplist], and an older list may be the last one that is
    stored: nothing is left to tell the first member that there are two. *)
Lemma membership_stale :
  (w ← group_run 2 3 overtaken; P ← w_procs w !! 0%nat;
   Some (content <$> fs (db (w_server w)) !! groupdir, grouplist (p_vars P), list.last (p_log P),
     p_events P, p_pending P, match p_callback P with Stop => true | _ => false end)) =
  Some (Some "|/group/0|/group/1", "|/group/0", Some "current membership is < 0 >", [], None, true).
Proof. by vm_compute. Qed.
