(* ===== verification/Printer.v ===== *)
(** * Printing of XDR values: [xdrpp/xdrpp/printer.h], [xdrpp/xdrpp/printer.cc]

    [escape_string], [hexdump] and the archive [Printer].  A value is what the
    archive is given of it: its leaves, and the fields of a class or the elements
    of a container in the order in which [xdr_traits<T>::save] and the loop pass
    them. *)

From S2P Require Import Prelude Numbers.

Definition quote : ascii := "034"%char.
Definition backslash : ascii := "092"%char.
Definition newline : ascii := "010"%char.

(** ** Strings and bytes *)

Definition octal_digit (v : Z) : ascii := byte_of (48 + v).
(** One turn of [escape_string]; [char] is signed, so that bytes above 127 are
    not printed. *)
Definition escape_char (c : ascii) : bytes :=
  let v := byte_val c in
  if (32 <=? v) && (v <? 127) then
    (if Ascii.eqb c quote || Ascii.eqb c backslash then [backslash; c] else [c])
  else if Ascii.eqb c "009" then [backslash; "t"%char]
  else if Ascii.eqb c "013" then [backslash; "r"%char]
  else if Ascii.eqb c "010" then [backslash; "n"%char]
  else [backslash; octal_digit (v / 64); octal_digit ((v / 8) `mod` 8); octal_digit (v `mod` 8)].
Definition escape_string (s : bytes) : bytes := quote :: concat (escape_char <$> s) ++ [quote].

Definition hex_digit (v : Z) : ascii := if v <? 10 then byte_of (48 + v) else byte_of (87 + v).
Definition hexdump (data : bytes) : bytes :=
  concat ((fun c => [hex_digit (byte_val c / 16); hex_digit (byte_val c `mod` 16)]) <$> data).

(** ** Values *)

#[warnings="-register-all"]
Inductive value :=
| V_string (s : bytes)
| V_opaque (b : bytes)                       (* opaque_array, opaque_vec *)
| V_enum (name : option string) (n : Z)      (* enum_name(t), t *)
| V_num (n : Z)
| V_pointer (t : option value)
| V_class (fields : list (string * value))   (* structs and unions *)
| V_container (elements : list value).

(** ** [Printer] *)

Record Printer := mkPrinter { buf_ : bytes; indent_ : nat; skipnl_ : bool; comma_ : bool }.
Definition new_printer : Printer := mkPrinter [] 0 true true.

Definition put (b : bytes) (p : Printer) : Printer := mkPrinter (buf_ p ++ b) (indent_ p) (skipnl_ p) (comma_ p).
Definition set_comma (b : bool) (p : Printer) : Printer := mkPrinter (buf_ p) (indent_ p) (skipnl_ p) b.
Definition set_skipnl (b : bool) (p : Printer) : Printer := mkPrinter (buf_ p) (indent_ p) b (comma_ p).
Definition set_indent (n : nat) (p : Printer) : Printer := mkPrinter (buf_ p) n (skipnl_ p) (comma_ p).

Definition new_line (indent : nat) : bytes := newline :: replicate indent " "%char.
Definition bol (name : option string) (p : Printer) : Printer :=
  let p :=
    if skipnl_ p then set_skipnl false p else
    let p := if comma_ p then put [","%char] p else p in
    put (new_line (indent_ p)) p in
  let p := set_comma true p in
  match name with Some n => put (str_bytes n ++ str_bytes " = ") p | None => p end.

(** What comes before and behind the parts of a class or a container. *)
Definition open_group (field : option string) (c : ascii) (p : Printer) : Printer :=
  let skipnl := match field with None => true | Some _ => false end in
  let p := put [c] (bol field p) in
  let p := if skipnl then put [" "%char] p else p in
  set_indent (indent_ p + 2) (set_skipnl skipnl (set_comma false p)).
Definition close_group (field : option string) (c : ascii) (p : Printer) : Printer :=
  match field with
  | None => set_indent (indent_ p - 2) (put [" "%char; c] p)
  | Some _ => put [c] (bol None (set_indent (indent_ p - 2) (set_comma false p)))
  end.

(** [archive(p, t, field)] *)
Fixpoint apply (t : value) (field : option string) (p : Printer) {struct t} : Printer :=
  match t with
  | V_string s => put (escape_string s) (bol field p)
  | V_opaque b => put (hexdump b) (bol field p)
  | V_enum (Some n) _ => put (str_bytes n) (bol field p)
  | V_enum None n | V_num n => put (str_bytes (to_string n)) (bol field p)
  | V_pointer (Some t) => apply t field p
  | V_pointer None => put (str_bytes "NULL") (bol field p)
  | V_class fields =>
      let p := open_group field "{" p in
      let p := (fix save fs p := match fs with [] => p | (n, t) :: fs => save fs (apply t (Some n) p) end) fields p in
      close_group field "}" p
  | V_container elements =>
      let p := open_group field "[" p in
      let p := (fix each ts p := match ts with [] => p | t :: ts => each ts (apply t None p) end) elements p in
      close_group field "]" p
  end.

(** [xdr_to_string]; [indent] is not used. *)
Definition xdr_to_string (t : value) (name : option string) (indent : nat) : bytes :=
  let p := apply t name new_printer in
  buf_ (put [newline] p).
