(* ===== verification/PrinterProps.v ===== *)
(** * What the printer writes

    Strings and bytes that are printed can be read back ([escape_string_read],
    [hexdump_read]), and [Printer] writes a value in the layout of [body]
    ([printer_layout]), except below an element that has no parts. *)

From S2P Require Import Prelude Numbers Printer.

(** ** Strings and bytes *)

Definition octal (a b c : ascii) : ascii := byte_of ((byte_val a - 48) * 64 + (byte_val b - 48) * 8 + (byte_val c - 48)).
(** Reads a string up to the closing quote. *)
Fixpoint read_escaped (b : bytes) : option (bytes * bytes) :=
  match b with
  | [] => None
  | c :: b' =>
      if Ascii.eqb c quote then Some ([], b') else
      if negb (Ascii.eqb c backslash) then '(s, r) ← read_escaped b'; Some (c :: s, r) else
      match b' with
      | [] => None
      | d :: b' =>
          if Ascii.eqb d quote || Ascii.eqb d backslash then '(s, r) ← read_escaped b'; Some (d :: s, r) else
          if Ascii.eqb d "t" then '(s, r) ← read_escaped b'; Some ("009"%char :: s, r) else
          if Ascii.eqb d "r" then '(s, r) ← read_escaped b'; Some ("013"%char :: s, r) else
          if Ascii.eqb d "n" then '(s, r) ← read_escaped b'; Some ("010"%char :: s, r) else
          match b' with
          | e :: f :: b' => '(s, r) ← read_escaped b'; Some (octal d e f :: s, r)
          | _ => None
          end
      end
  end.
Definition read_string (b : bytes) : option (bytes * bytes) :=
  match b with c :: b => if Ascii.eqb c quote then read_escaped b else None | [] => None end.

Lemma read_escaped_char c b : read_escaped (escape_char c ++ b) = ('(s, r) ← read_escaped b; Some (c :: s, r)).
Proof. by destruct c as [[] [] [] [] [] [] [] []]. Qed.

(** A printed string ends where it ended, and is read back. *)
Lemma escape_string_read s r : read_string (escape_string s ++ r) = Some (s, r).
Proof.
  unfold escape_string. rewrite <-app_comm_cons, <-app_assoc. cbn [read_string app]. rewrite Ascii.eqb_refl.
  induction s as [|c s IH]; [by cbn|]. cbn [fmap list_fmap concat]. by rewrite <-app_assoc, read_escaped_char, IH.
Qed.

Definition hex_value (c : ascii) : Z := if byte_val c <? 58 then byte_val c - 48 else byte_val c - 87.
Fixpoint read_hex (b : bytes) : option bytes :=
  match b with
  | [] => Some []
  | h :: l :: b => v ← read_hex b; Some (byte_of (16 * hex_value h + hex_value l) :: v)
  | _ => None
  end.

Lemma hexdump_read b : read_hex (hexdump b) = Some b.
Proof.
  induction b as [|c b IH]; [done|]. unfold hexdump in *. cbn [fmap list_fmap concat app read_hex]. rewrite IH. cbn [mbind option_bind].
  f_equal. f_equal. by destruct c as [[] [] [] [] [] [] [] []].
Qed.
Lemma hexdump_length b : length (hexdump b) = (2 * length b)%nat.
Proof. induction b as [|c b IH]; [done|]. unfold hexdump in *. cbn. lia. Qed.

(** ** The layout of a value *)

Fixpoint join (sep : bytes) (items : list bytes) : bytes :=
  match items with
  | [] => []
  | [b] => b
  | b :: items => b ++ sep ++ join sep items
  end.

(** The parts of a class or a container between its brackets: on lines of
    their own, the first one on the line of the bracket when it has no name. *)
Definition group_text (n : nat) (named : bool) (o c : ascii) (items : list bytes) : bytes :=
  let edge m := if named then new_line m else [" "%char] in
  [o] ++ match items with
         | [] => if named then [] else [" "%char]
         | _ => edge (n + 2)%nat ++ join (","%char :: new_line (n + 2)) items
         end ++ edge n ++ [c].

Definition label (name : option string) : bytes :=
  match name with Some f => str_bytes f ++ str_bytes " = " | None => [] end.

(** The text of a value that starts in a line with the indentation [n]. *)
Fixpoint body (n : nat) (named : bool) (t : value) : bytes :=
  match t with
  | V_string s => escape_string s
  | V_opaque b => hexdump b
  | V_enum (Some f) _ => str_bytes f
  | V_enum None i | V_num i => str_bytes (to_string i)
  | V_pointer (Some t) => body n named t
  | V_pointer None => str_bytes "NULL"
  | V_class fs => group_text n named "{" "}" ((fun p : string * value => label (Some p.1) ++ body (n + 2) true p.2) <$> fs)
  | V_container ts => group_text n named "[" "]" (body (n + 2) false <$> ts)
  end.

(** No class or container without a name is empty. *)
Fixpoint dense (named : bool) (t : value) : bool :=
  match t with
  | V_pointer (Some t) => dense named t
  | V_class fs => (named || match fs with [] => false | _ => true end) && forallb (fun p : string * value => dense true p.2) fs
  | V_container ts => (named || match ts with [] => false | _ => true end) && forallb (dense false) ts
  | _ => true
  end.

(** What [bol] writes before the label. *)
Definition lead (p : Printer) : bytes :=
  if skipnl_ p then [] else (if comma_ p then [","%char] else []) ++ new_line (indent_ p).

Lemma bol_eq name p : bol name p = mkPrinter (buf_ p ++ lead p ++ label name) (indent_ p) false true.
Proof.
  unfold bol, lead, label, put, set_comma, set_skipnl. destruct p as [b n [] []], name; cbn; by rewrite ?app_nil_r, <-?app_assoc.
Qed.

(** Induction over the parts of a value. *)
Section value_rect.
Context (P : value -> Prop).
Context (Hstring : forall s, P (V_string s)) (Hopaque : forall b, P (V_opaque b)) (Henum : forall f n, P (V_enum f n))
  (Hnum : forall n, P (V_num n)) (Hnull : P (V_pointer None)) (Hpointer : forall t, P t -> P (V_pointer (Some t)))
  (Hclass : forall fs, Forall (fun p : string * value => P p.2) fs -> P (V_class fs))
  (Hcontainer : forall ts, Forall P ts -> P (V_container ts)).

Fixpoint value_parts (t : value) : P t :=
  match t with
  | V_string s => Hstring s
  | V_opaque b => Hopaque b
  | V_enum f n => Henum f n
  | V_num n => Hnum n
  | V_pointer None => Hnull
  | V_pointer (Some t) => Hpointer t (value_parts t)
  | V_class fs => Hclass fs ((fix go fs : Forall (fun p : string * value => P p.2) fs :=
      match fs with [] => Forall_nil_2 _ | p :: fs => Forall_cons_2 _ _ _ (value_parts p.2) (go fs) end) fs)
  | V_container ts => Hcontainer ts ((fix go ts : Forall P ts :=
      match ts with [] => Forall_nil_2 _ | t :: ts => Forall_cons_2 _ _ _ (value_parts t) (go ts) end) ts)
  end.
End value_rect.

(** What the printer has written when the value is done. *)
Definition prints (p : Printer) (name : option string) (b : bytes) (p' : Printer) : Prop :=
  p' = mkPrinter (buf_ p ++ lead p ++ label name ++ b) (indent_ p) false true.

Definition laid_out (t : value) : Prop := forall field p, dense (bool_decide (is_Some field)) t = true ->
  prints p field (body (indent_ p) (bool_decide (is_Some field)) t) (apply t field p).

Lemma prints_text b name p : prints p name b (put b (bol name p)).
Proof. unfold prints. rewrite bol_eq. unfold put. cbn. by rewrite <-!app_assoc. Qed.

(** The parts of a group: [print x] prints [text x], each on its own line but
    the first one. *)
Section parts.
Context {A : Type} (print : A -> Printer -> Printer) (text : nat -> A -> bytes).

Fixpoint print_all (l : list A) (p : Printer) : Printer := match l with [] => p | x :: l => print_all l (print x p) end.

Lemma print_all_rest n l b : Forall (fun x => forall p, print x p = mkPrinter (buf_ p ++ lead p ++ text (indent_ p) x) (indent_ p) false true) l ->
  print_all l (mkPrinter b n false true) = mkPrinter (b ++ concat ((fun x => ","%char :: new_line n ++ text n x) <$> l)) n false true.
Proof.
  intros H. revert b. induction H as [|x l Hx _ IH]; intros b; cbn [print_all]; [by rewrite app_nil_r|].
  rewrite Hx. unfold lead. cbn [buf_ indent_ skipnl_ comma_]. rewrite IH. cbn [fmap list_fmap concat]. f_equal. by rewrite <-app_assoc.
Qed.

Lemma join_concat sep b items : join sep (b :: items) = b ++ concat ((fun i => sep ++ i) <$> items).
Proof.
  revert b. induction items as [|i items IH]; intros b; [by cbn; rewrite app_nil_r|].
  change (join sep (b :: i :: items)) with (b ++ sep ++ join sep (i :: items)). rewrite IH. cbn. by rewrite <-app_assoc.
Qed.

Lemma print_all_text p l : l <> [] ->
  Forall (fun x => forall p, print x p = mkPrinter (buf_ p ++ lead p ++ text (indent_ p) x) (indent_ p) false true) l ->
  print_all l p = mkPrinter (buf_ p ++ lead p ++ join (","%char :: new_line (indent_ p)) (text (indent_ p) <$> l)) (indent_ p) false true.
Proof.
  intros Hne H. destruct H as [|x l Hx Hl]; [done|]. cbn [print_all]. rewrite Hx, print_all_rest by done. cbn [fmap list_fmap].
  rewrite join_concat, <-list_fmap_compose. by rewrite <-!app_assoc.
Qed.

(** A whole group. *)
Lemma group_prints field o c l p :
  Forall (fun x => forall p, print x p = mkPrinter (buf_ p ++ lead p ++ text (indent_ p) x) (indent_ p) false true) l ->
  (bool_decide (is_Some field) || match l with [] => false | _ => true end) = true ->
  prints p field (group_text (indent_ p) (bool_decide (is_Some field)) o c (text (indent_ p + 2)%nat <$> l))
    (close_group field c (print_all l (open_group field o p))).
Proof.
  intros Hl Hne. unfold open_group, prints. rewrite bol_eq.
  destruct l as [|x l].
  - destruct field as [f|]; [|done]. unfold close_group, group_text, put, set_indent, set_skipnl, set_comma. cbn [print_all fmap list_fmap].
    rewrite bol_eq. cbn [buf_ indent_ skipnl_ comma_ lead label]. unfold lead. cbn [buf_ indent_ skipnl_ comma_].
    rewrite Nat.add_sub. cbn -[new_line]. by rewrite <-!app_assoc.
  - rewrite print_all_text by done. unfold lead at 1. destruct field as [f|]; unfold close_group, group_text;
      rewrite ?bol_eq; unfold lead, put, set_indent, set_skipnl, set_comma; cbn [buf_ indent_ skipnl_ comma_ label];
      rewrite Nat.add_sub; cbn -[new_line join]; by rewrite <-!app_assoc.
Qed.
End parts.

Definition print_field (f : string * value) (p : Printer) : Printer := apply f.2 (Some f.1) p.
Definition print_element (t : value) (p : Printer) : Printer := apply t None p.

Lemma apply_class fs field p : apply (V_class fs) field p = close_group field "}" (print_all print_field fs (open_group field "{" p)).
Proof.
  cbn [apply]. f_equal. generalize (open_group field "{" p). clear p. induction fs as [|[f t] fs IH]; intros p; [done|]. cbn. by rewrite IH.
Qed.
Lemma apply_container ts field p : apply (V_container ts) field p = close_group field "]" (print_all print_element ts (open_group field "[" p)).
Proof. reflexivity. Qed.

Lemma all_laid_out t : laid_out t.
Proof.
  induction t as [s|b|f n|n| |t IH|fs IH|ts IH] using value_parts; intros field p Hd.
  - apply prints_text.
  - apply prints_text.
  - destruct f; apply prints_text.
  - apply prints_text.
  - apply prints_text.
  - by apply IH.
  - rewrite apply_class. cbn [dense] in Hd. apply andb_true_iff in Hd as [Hne Hd]. cbn [body].
    apply (group_prints print_field (fun n f => label (Some f.1) ++ body n true f.2)); [|done].
    apply list.Forall_forall. intros [f t] Hin q. rewrite list.Forall_forall in IH. rewrite forallb_forall in Hd.
    unfold print_field. cbn [fst snd]. apply (IH (f, t) Hin (Some f) q). apply (Hd (f, t)). by apply list_elem_of_In.
  - rewrite apply_container. cbn [dense] in Hd. apply andb_true_iff in Hd as [Hne Hd]. cbn [body].
    apply (group_prints print_element (fun n t => body n false t)); [|done].
    apply list.Forall_forall. intros t Hin q. rewrite list.Forall_forall in IH. rewrite forallb_forall in Hd.
    apply (IH t Hin None q). apply Hd. by apply list_elem_of_In.
Qed.

(** C36: a value in which no class or container without a name is empty ([dense];
    for others see [empty_element_joins]) is printed in the layout of [body]: each
    field of a class behind its name and each element of a container on a line
    of its own, indented by two more than what contains it, with commas between
    them.  The text depends on what was printed before only in what separates
    the two ([lead]); the indentation is as before, and the printer expects a
    comma and a new line before what follows. *)
Theorem printer_layout t field p : dense (bool_decide (is_Some field)) t = true ->
  apply t field p = mkPrinter (buf_ p ++ lead p ++ label field ++ body (indent_ p) (bool_decide (is_Some field)) t) (indent_ p) false true.
Proof. apply all_laid_out. Qed.

Lemma xdr_to_string_layout t name indent : dense (bool_decide (is_Some name)) t = true ->
  xdr_to_string t name indent = label name ++ body 0 (bool_decide (is_Some name)) t ++ [newline].
Proof.
  intros Hd. unfold xdr_to_string. rewrite (all_laid_out t name new_printer Hd). unfold put, lead. cbn. by rewrite <-app_assoc.
Qed.

(** A class with a container and a pointer. *)
Definition sample_value : value :=
  V_class [("name", V_string (str_bytes "a/b")); ("ids", V_container [V_num 1; V_num (-2)]); ("next", V_pointer None);
           ("list", V_container [V_class [("kind", V_enum (Some "FILE") 1); ("data", V_opaque (str_bytes "AB"))]])].

Definition text (ls : list string) : bytes := concat ((fun l => str_bytes l ++ [newline]) <$> ls).

Lemma printer_layout_witness :
  dense true sample_value = true /\
  put [newline] (apply sample_value (Some "v") new_printer) = mkPrinter (text [
    "v = {"; "  name = " +:+ String quote ("a/b" +:+ String quote ","); "  ids = ["; "    1,"; "    -2"; "  ],"; "  next = NULL,";
    "  list = ["; "    { kind = FILE,"; "      data = 4142 }"; "  ]"; "}"]) 0 false true.
Proof.
  assert (dense true sample_value = true) as Hd by by vm_compute.
  split; [exact Hd|]. rewrite (printer_layout sample_value (Some "v") new_printer Hd). by vm_compute.
Defined.

(** Behind an element without parts no comma is printed, and the next one stays
    on its line. *)
Lemma empty_element_joins :
  xdr_to_string (V_container [V_container []; V_container []; V_num 1]) None 0 = text ["[ [  ][  ]1 ]"] /\
  xdr_to_string (V_container [V_class []; V_num 1]) (Some "x") 0 = text ["x = ["; "  {  }1"; "]"].
Proof. by vm_compute. Qed.
