(* ===== verification/XdrShapes.v ===== *)
(** * The other shapes of XDR types: [xdrpp/xdrpp/types.h], [xdrpp/xdrpp/marshal.h]

    Fixed-size arrays, optional data, vectors and opaque data with a bound, and
    floating-point numbers, each with its codec and its laws, so that the theorems of [Xdr] hold of types
    that are built from them. *)

From S2P Require Import Prelude Endian Xdr.

(** ** [pointer<T>]: [xdr_container_base<pointer<T>, true>] *)

Section pointer.
Context {A : Type} `{!Xdr A, !XdrLaws A}.

(** [pointer<T>::size] and the elements of the container. *)
Definition pointer_elems (t : option A) : list A := match t with Some a => [a] | None => [] end.

Definition load_pointer : get (option A) :=
  n ← load_u32;
  if 1 <? n then get_fail xdr_overflow else
  l ← load_elems (Z.to_nat n);
  mret (head l).

#[export] Instance xdr_pointer : Xdr (option A) := {|
  xdr_valid t := Forall xdr_valid (pointer_elems t);
  serial_size t := 4 + elems_size (pointer_elems t);
  save t := save_u32 (Z.of_nat (length (pointer_elems t))) >;> save_elems (pointer_elems t);
  load := load_pointer;
  wire t := be32 (Z.of_nat (length (pointer_elems t))) ++ wire_elems (pointer_elems t);
|}.

#[export] Instance xdr_pointer_laws : XdrLaws (option A).
Proof.
  assert (forall t : option A, u32 (Z.of_nat (length (pointer_elems t)))) as Hu by (intros [a|]; cbn; unfold u32; lia).
  split; cbn [xdr_valid serial_size save load wire xdr_pointer].
  - intros t Hv. by rewrite blen_app, elems_wire_size.
  - intros t Hv. apply saves_seq; [by apply save_u32_ok|by apply save_elems_ok].
  - intros t Hv. eapply loads_bind; [by apply load_u32_ok|].
    destruct (Z.ltb_spec 1 (Z.of_nat (length (pointer_elems t)))); [destruct t; cbn in *; lia|].
    rewrite Nat2Z.id. eapply loads_bind_last; [by apply load_elems_ok|]. by destruct t.
  - eapply safe_bind; [apply safe_u32|]. intros n Hn. destruct (Z.ltb_spec 1 n); [apply safe_fail|].
    eapply safe_bind; [apply safe_elems|]. intros l [Hl Hv]. apply safe_ret. by destruct Hv; constructor.
Qed.
End pointer.

(** ** [xarray<T, N>] *)

Record xarray (A : Type) (N : nat) := mkArray { elems : list A }.
Arguments mkArray {A N}.
Arguments elems {A N}.

Section array.
Context {A : Type} {N : nat} `{!Xdr A, !XdrLaws A}.

#[export] Instance xdr_array : Xdr (xarray A N) := {|
  xdr_valid t := length (elems t) = N /\ Forall xdr_valid (elems t);
  serial_size t := elems_size (elems t);
  save t := save_elems (elems t);
  load := l ← load_elems N; mret (mkArray l);
  wire t := wire_elems (elems t);
|}.

#[export] Instance xdr_array_laws : XdrLaws (xarray A N).
Proof.
  split; cbn [xdr_valid serial_size save load wire xdr_array].
  - intros t [_ Hv]. by apply elems_wire_size.
  - intros t [_ Hv]. by apply save_elems_ok.
  - intros [l] [<- Hv]. eapply loads_bind_last; [by apply load_elems_ok|done].
  - eapply safe_bind; [apply safe_elems|]. intros l Hl. by apply safe_ret.
Qed.
End array.

(** The sizes of containers whose elements all have the size [k]
    ([xdr_container_base<T, _, true>]). *)
Lemma fixed_elems_size {A} `{!Xdr A} k (l : list A) : Forall (fun a => serial_size a = k) l -> elems_size l = Z.of_nat (length l) * k.
Proof. induction 1 as [|a l Ha _ IH]; [done|]. cbn [elems_size length]. rewrite Ha, IH. lia. Qed.

(** The bound of a type. *)
Class Bound (N : Z) := bound_max : 0 <= N <= XDR_MAX_LEN.

(** ** [opaque_array<N>] *)

Record opaque_array (N : Z) := mkOpaque { data : bytes }.
Arguments mkOpaque {N}.
Arguments data {N}.

Section opaque_array.
Context {N : Z} `{!Bound N}.

(** [(std::size_t(N) + std::size_t(3)) & ~std::size_t(3)] *)
Definition array_fixed_size : Z := Z.land (N + 3) (2 ^ 64 - 4).

#[export] Instance xdr_opaque_array : Xdr (opaque_array N) := {|
  xdr_valid t := blen (data t) = N;
  serial_size _ := array_fixed_size;
  save t := put_check (blen (data t)) >;> put_bytes (data t);
  load := get_check N ;; b ← get_bytes N; mret (mkOpaque b);
  wire t := data t ++ pad (blen (data t));
|}.

#[export] Instance xdr_opaque_array_laws : XdrLaws (opaque_array N).
Proof.
  pose proof (bound_max : 0 <= N <= XDR_MAX_LEN) as HN. pose proof (pad_len_range N) as Hp.
  split; cbn [xdr_valid serial_size save load wire xdr_opaque_array].
  - intros t Hv. rewrite blen_app, blen_pad, Hv. unfold array_fixed_size.
    rewrite land_round by (unfold XDR_MAX_LEN in *; lia). unfold pad_len. mod_lia.
  - intros t Hv. split; [rewrite blen_app, blen_pad, Hv; unfold aligned, pad_len; mod_lia|].
    intros w Hw Ha. unfold put_seq, put_check. rewrite blen_app, blen_pad, Hv.
    destruct (Z.ltb_spec (w_room w) N), (Z.ltb_spec (w_room w) (N + pad_len N)); try lia; cbn; try done.
    { unfold aligned, pad_len in *. mod_lia. }
    rewrite put_bytes_ok by (rewrite Hv; lia). by rewrite Hv.
  - intros [b] Hv rest. cbn [data] in *. subst. unfold mbind at 1, get_bind at 1.
    rewrite get_check_ok by (rewrite <-app_assoc, blen_app; pose proof (blen_nonneg (pad (blen b) ++ rest)); lia).
    rewrite <-app_assoc. unfold mbind, get_bind. by rewrite get_bytes_ok.
  - intros b Hb. apply inside_check. intros Hn. eapply inside_bind; [apply get_bytes_safe; [lia|done]|].
    intros c Hc. by apply safe_ret.
Qed.
End opaque_array.

(** ** [xvector<T, N>] and [opaque_vec<N>] with a bound *)

Record xvector (A : Type) (N : Z) := mkVector { items : list A }.
Arguments mkVector {A N}.
Arguments items {A N}.

Section bounded.
Context {A : Type} {N : Z} `{!Xdr A, !XdrLaws A, !Bound N}.

#[export] Instance xdr_xvector : Xdr (xvector A N) := {|
  xdr_valid t := Z.of_nat (length (items t)) <= N /\ Forall xdr_valid (items t);
  serial_size t := 4 + elems_size (items t);
  save t := save_u32 (wrap32 (Z.of_nat (length (items t)))) >;> save_elems (items t);
  load := n ← load_u32; if N <? n then get_fail xdr_overflow else l ← load_elems (Z.to_nat n); mret (mkVector l);
  wire t := be32 (Z.of_nat (length (items t))) ++ wire_elems (items t);
|}.

#[export] Instance xdr_xvector_laws : XdrLaws (xvector A N).
Proof.
  pose proof (bound_max : 0 <= N <= XDR_MAX_LEN) as HN.
  split; cbn [xdr_valid serial_size save load wire xdr_xvector].
  - intros t [_ Hv]. by rewrite blen_app, elems_wire_size.
  - intros t [Hn Hv]. rewrite wrap32_small by (unfold u32, XDR_MAX_LEN in *; lia).
    apply saves_seq; [apply save_u32_ok; unfold u32, XDR_MAX_LEN in *; lia|by apply save_elems_ok].
  - intros [l] [Hn Hv]. cbn [items] in *. eapply loads_bind; [apply load_u32_ok; unfold u32, XDR_MAX_LEN in *; lia|].
    destruct (Z.ltb_spec N (Z.of_nat (length l))); [lia|]. rewrite Nat2Z.id.
    eapply loads_bind_last; [by apply load_elems_ok|done].
  - eapply safe_bind; [apply safe_u32|]. intros n Hn. destruct (Z.ltb_spec N n); [apply safe_fail|].
    eapply safe_bind; [apply safe_elems|]. intros l [Hl Hv]. apply safe_ret. cbn. split; [unfold u32 in *; lia|done].
Qed.
End bounded.

Record opaque_vec (N : Z) := mkOpaqueVec { octets : bytes }.
Arguments mkOpaqueVec {N}.
Arguments octets {N}.

Section opaque_vec.
Context {N : Z} `{!Bound N}.

#[export] Instance xdr_opaque_vec : Xdr (opaque_vec N) := {|
  xdr_valid t := blen (octets t) <= N;
  serial_size t := bytes_serial_size (blen (octets t));
  save t := save_bytes (octets t);
  load :=
    get_check 4 ;;
    size ← get32;
    get_check size ;;
    if N <? size then get_fail xdr_overflow else b ← get_bytes size; mret (mkOpaqueVec b);
  wire t := wire_bytes (octets t);
|}.

#[export] Instance xdr_opaque_vec_laws : XdrLaws (opaque_vec N).
Proof.
  pose proof (bound_max : 0 <= N <= XDR_MAX_LEN) as HN.
  split; cbn [xdr_valid serial_size save load wire xdr_opaque_vec].
  - intros t Hv. apply bytes_wire_size. lia.
  - intros t Hv. apply save_bytes_ok. lia.
  - intros [b] Hv rest. cbn [octets] in *. pose proof (blen_nonneg b).
    rewrite load_counted by (unfold u32, XDR_MAX_LEN in *; lia). destruct (Z.ltb_spec N (blen b)); [lia|].
    unfold mbind, get_bind. by rewrite get_bytes_ok.
  - apply (safe_counted (fun size => if N <? size then get_fail xdr_overflow else b ← get_bytes size; mret (mkOpaqueVec b))).
    intros n b Hn Hb. destruct (Z.ltb_spec N n); [done|]. eapply inside_bind; [by apply get_bytes_safe|].
    intros c Hc. apply safe_ret. cbn in *. lia.
Qed.
End opaque_vec.

(** ** [xstring<N>] *)

(** [resize] is the one of [std::string]: the bound of the type is not
    tested. *)
Definition load_xstring (N : Z) : get string := load_string.

(** A string that is longer than the type allows is read. *)
Lemma xstring_bound_ignored N s : N < blen (str_bytes s) <= XDR_MAX_LEN -> Loads (load_xstring N) s (wire_bytes (str_bytes s)).
Proof. intros [_ H]. by apply load_string_ok. Qed.

(** ** [float] and [double]: [xdr_fp_base] *)

(** A number is its bits, which [xdr_reinterpret] copies. *)
Record float := mkFloat { float_bits : Z }.
Record double := mkDouble { double_bits : Z }.

#[export] Instance xdr_float : Xdr float := {|
  xdr_valid t := u32 (float_bits t);
  serial_size _ := 4;
  save t := save_u32 (float_bits t);
  load := u ← load_u32; mret (mkFloat u);
  wire t := be32 (float_bits t);
|}.
#[export] Instance xdr_float_laws : XdrLaws float.
Proof. solve_xdr xdr_float. Qed.

#[export] Instance xdr_double : Xdr double := {|
  xdr_valid t := u64 (double_bits t);
  serial_size _ := 8;
  save t := save_u64 (double_bits t);
  load := u ← load_u64; mret (mkDouble u);
  wire t := be64 (double_bits t);
|}.
#[export] Instance xdr_double_laws : XdrLaws double.
Proof. solve_xdr xdr_double. Qed.

(** ** Samples *)

(** A list with a next element, as [tests/xdrtest.x] has it. *)
Lemma shapes_sample :
  let t : list (option string) := [Some "a"; None] in
  wire t = be32 2 ++ be32 1 ++ wire "a" ++ be32 0 /\
  load (wire t) = XOk (t, []) /\ @load (option bool) _ (be32 2 ++ be32 1 ++ be32 1) = XErr xdr_overflow /\
  @load (xarray bool 2) _ (be32 1 ++ be32 0) = XOk (mkArray [true; false], []) /\
  @load (opaque_array 3) _ (str_bytes "abc" ++ pad 3) = XOk (mkOpaque (str_bytes "abc"), []) /\
  @load (xvector bool 1) _ (be32 2 ++ be32 1 ++ be32 1) = XErr xdr_overflow.
Proof. by vm_compute. Qed.
