(* ===== verification/Signals.v ===== *)
(** * Signals: [pollset_plus] of [xdrpp/xdrpp/pollset.cc]

    Signal handlers, the threads of several event loops and the calls that
    register callbacks, as interleaved steps.  A handler takes four of them, so
    that two handlers of one signal can overlap; of the thread of a loop only what
    concerns signals is kept ([Wakeups] and [Pollset] have the rest), and a
    callback is a name.  The sections under [signal_owners_lock] are single steps,
    up to the wait of [erase_signal_cb].  Callbacks may throw, and [sigaction] may
    fail: an exception leaves [poll] or the call, and what was changed before stays
    changed. *)

From S2P Require Import Prelude.

(** ** State *)

(** Where the thread of a set is: in [::poll], before [run_subtype_handlers], or
    in its loop over the signals that it found.  A thread whose callback throws
    leaves [poll]; it is [Polling] again in its next call. *)
Inductive place := Polling | Checking | Handling (pending : list Z).

(** A set: the bytes in its pipe ([true] for [wake_type::Signal]),
    [signal_pending_], [signal_cbs_] and its thread. *)
Record PSet := mkSet {
  pipe : list bool;
  signal_pending_ : bool;
  signal_cbs_ : gmap Z Z;
  at_ : place;
}.
Definition new_set : PSet := mkSet [] false ∅ Polling.

(** How far [signal_handler] is: behind its test, behind its first assignment,
    with the owner it read, behind [wake]. *)
Inductive stage := Passed | Flagged | Read (owner : option Z) | Woken.

(** [signal_flags], [signal_owners], the sets, the handlers that run, the signal
    that [erase_signal_cb] waits for, and what was run (set, signal, callback) and
    raised again. *)
Record Signals := mkSignals {
  flags : gmap Z Z;
  owners : gmap Z Z;
  sets : gmap Z PSet;
  handlers : list (Z * stage);
  erasing : option Z;
  ran : list (Z * Z * Z);
  raised : list Z;
}.
Definition start : Signals := mkSignals ∅ ∅ ∅ [] None [] [].

Definition flag (s : Signals) (sig : Z) : Z := default 0 (flags s !! sig).
Definition set_of (s : Signals) (p : Z) : PSet := default new_set (sets s !! p).

Definition set_flag (sig v : Z) (s : Signals) : Signals :=
  mkSignals (<[sig := v]> (flags s)) (owners s) (sets s) (handlers s) (erasing s) (ran s) (raised s).
Definition set_owners (o : gmap Z Z) (s : Signals) : Signals :=
  mkSignals (flags s) o (sets s) (handlers s) (erasing s) (ran s) (raised s).
Definition on_set (p : Z) (f : PSet -> PSet) (s : Signals) : Signals :=
  mkSignals (flags s) (owners s) (<[p := f (set_of s p)]> (sets s)) (handlers s) (erasing s) (ran s) (raised s).
Definition set_handlers (l : list (Z * stage)) (s : Signals) : Signals :=
  mkSignals (flags s) (owners s) (sets s) l (erasing s) (ran s) (raised s).
Definition set_erasing (e : option Z) (s : Signals) : Signals :=
  mkSignals (flags s) (owners s) (sets s) (handlers s) e (ran s) (raised s).
Definition add_ran (x : Z * Z * Z) (s : Signals) : Signals :=
  mkSignals (flags s) (owners s) (sets s) (handlers s) (erasing s) (ran s ++ [x]) (raised s).
Definition add_raised (sig : Z) (s : Signals) : Signals :=
  mkSignals (flags s) (owners s) (sets s) (handlers s) (erasing s) (ran s) (raised s ++ [sig]).

Definition set_cbs (m : gmap Z Z) (q : PSet) : PSet := mkSet (pipe q) (signal_pending_ q) m (at_ q).
Definition set_at (a : place) (q : PSet) : PSet := mkSet (pipe q) (signal_pending_ q) (signal_cbs_ q) a.
Definition set_pending (b : bool) (q : PSet) : PSet := mkSet (pipe q) b (signal_cbs_ q) (at_ q).

(** ** Steps *)

(** What surrounds the program: the bytes that a pipe holds, the signals for which
    [sigaction] succeeds, and the callbacks that throw. *)
Class World := mkWorld { room : nat; handled : Z -> bool; throws : Z -> bool }.

Section signals.
Context {W : World}.

(** [wake(wt)]: a byte that does not fit is lost. *)
Definition wake (wt : bool) (q : PSet) : PSet :=
  mkSet (if (length (pipe q) <? room)%nat then pipe q ++ [wt] else pipe q) (signal_pending_ q) (signal_cbs_ q) (at_ q).

Definition num_sig : Z := 32.
Definition valid_sig (sig : Z) : bool := (0 <? sig) && (sig <? num_sig).

(** [signal_cb(sig, cb)] with a callback.  When [sigaction] fails, it throws behind
    the change of the owner. *)
Definition signal_cb (p sig cb : Z) (s : Signals) : Signals :=
  let s := on_set p (fun q => set_cbs (<[sig := cb]> (signal_cbs_ q)) q) s in
  if bool_decide (owners s !! sig = Some p) then s else
  let fails := bool_decide (owners s !! sig = None) && negb (handled sig) in
  let s :=
    match owners s !! sig with
    | Some ps => on_set ps (fun q => set_cbs (delete sig (signal_cbs_ q)) q) (set_owners (<[sig := p]> (owners s)) s)
    | None => set_owners (<[sig := p]> (owners s)) s
    end in
  if fails then s else
  if flag s sig =? 0 then s else on_set p (wake true) s.

(** [erase_signal_cb(sig)] up to its wait, and behind it; when [sigaction] fails, it
    throws before it changes anything. *)
Definition erase_signal_cb (sig : Z) (s : Signals) : Signals :=
  match owners s !! sig with
  | None => s
  | Some ps =>
      if negb (handled sig) then s else
      set_erasing (Some sig)
        (on_set ps (fun q => set_cbs (delete sig (signal_cbs_ q)) q) (set_owners (delete sig (owners s)) s))
  end.
Definition erase_end (sig : Z) (s : Signals) : option Signals :=
  if flag s sig =? 1 then None else
  let s := set_erasing None s in
  Some (if flag s sig =? 0 then s else add_raised sig (set_flag sig 0 s)).

(** A step of the handler number [i]. *)
Definition handler_step (i : nat) (s : Signals) : option Signals :=
  h ← handlers s !! i;
  let sig := h.1 in
  let next st := set_handlers (<[i := (sig, st)]> (handlers s)) in
  Some (match h.2 with
        | Passed => next Flagged (set_flag sig 1 s)
        | Flagged => next (Read (owners s !! sig)) s
        | Read (Some ps) => next Woken (on_set ps (wake true) s)
        | Read None => next Woken s
        | Woken => set_handlers (delete i (handlers s)) (set_flag sig 2 s)
        end).

(** [poll] returns; [read] tells whether the pipe was ready, and is emptied by
    [run_pending_asyncs]. *)
Definition poll (read : bool) (q : PSet) : PSet :=
  if read then mkSet [] (signal_pending_ q || existsb id (pipe q)) (signal_cbs_ q) Checking
  else set_at Checking q.

(** [run_subtype_handlers]: the test and the search, and a turn of its second
    loop, which waits while the handler of the signal runs.  A callback that throws
    leaves [poll] behind the reset of its flag: the rest of the list is forgotten,
    [signal_pending_] stays set. *)
Definition find_pending (p : Z) (s : Signals) : Signals :=
  let q := set_of s p in
  on_set p (set_at (if signal_pending_ q
    then Handling (filter (fun i => flag s i <> 0) (in_order (signal_cbs_ q)).*1) else Polling)) s.
Definition handle_one (p : Z) (pending : list Z) (s : Signals) : option Signals :=
  match pending with
  | [] => Some (on_set p (fun q => set_at Polling (set_pending false q)) s)
  | i :: rest =>
      match signal_cbs_ (set_of s p) !! i with
      | None => Some (on_set p (set_at (Handling rest)) s)
      | Some cb =>
          if flag s i =? 1 then None
          else Some (add_ran (p, i, cb) (on_set p (set_at (if throws cb then Polling else Handling rest)) (set_flag i 0 s)))
      end
  end.

Inductive action :=
| Wake (p : Z)                     (* wake() of another thread *)
| Signal_cb (p sig cb : Z)
| Erase (sig : Z)                  (* signal_cb(sig, nullptr) *)
| Erase_end
| Deliver (sig : Z)                (* the handler of a signal is called *)
| Handler (i : nat)
| Poll (p : Z) (read : bool)
| Escape (p : Z)                   (* a callback of a descriptor or timeout throws *)
| Thread (p : Z).

Definition step (a : action) (s : Signals) : option Signals :=
  let unlocked := match erasing s with None => true | Some _ => false end in
  match a with
  | Wake p => Some (on_set p (wake false) s)
  | Signal_cb p sig cb => if unlocked && valid_sig sig then Some (signal_cb p sig cb s) else None
  | Erase sig => if unlocked && valid_sig sig then Some (erase_signal_cb sig s) else None
  | Erase_end => sig ← erasing s; erase_end sig s
  | Deliver sig =>
      _ ← owners s !! sig;
      if negb (handled sig) then None else
      Some (if flag s sig =? 0 then set_handlers (handlers s ++ [(sig, Passed)]) s else s)
  | Handler i => handler_step i s
  | Poll p read => match at_ (set_of s p) with Polling => Some (on_set p (poll read) s) | _ => None end
  | Escape p => match at_ (set_of s p) with Checking => Some (on_set p (set_at Polling) s) | _ => None end
  | Thread p =>
      if negb unlocked then None else
      match at_ (set_of s p) with
      | Polling => None
      | Checking => Some (find_pending p s)
      | Handling l => handle_one p l s
      end
  end.

(** What the result below asks of a run: the handlers of one signal do not
    overlap, no byte is written to a full pipe, and no callback throws while the
    thread of its set has signals left to look for. *)
Definition fits (p : Z) (s : Signals) : Prop := (length (pipe (set_of s p)) < room)%nat.
Definition calm (a : action) (s : Signals) : Prop :=
  match a with
  | Wake p | Signal_cb p _ _ => fits p s
  | Deliver sig => sig ∉ (handlers s).*1
  | Handler i => forall sig p, handlers s !! i = Some (sig, Read (Some p)) -> fits p s
  | Escape p => signal_pending_ (set_of s p) = false
  | Thread p =>
      match at_ (set_of s p) with
      | Handling (i :: rest) => forall cb, signal_cbs_ (set_of s p) !! i = Some cb -> throws cb = true -> rest = []
      | _ => True
      end
  | _ => True
  end.

Inductive reach : Signals -> Prop :=
| reach_start : reach start
| reach_step a s s' : reach s -> calm a s -> step a s = Some s' -> reach s'.
End signals.
