(* ===== verification/SignalsProps.v ===== *)
(** * No signal is lost, unless handlers overlap or the pipe is full

    [signals_inv] is what the steps of [Signals] keep; [no_lost_signal] follows
    from it.  The runs at the end show what its conditions are for. *)

From S2P Require Import Prelude Signals.

Section props.
Context {W : World}.

Lemma set_of_on_set p f s q : set_of (on_set p f s) q = if bool_decide (q = p) then f (set_of s p) else set_of s q.
Proof.
  unfold set_of at 1, on_set. cbn. case_bool_decide as Hq; [subst; by rewrite lookup_insert_eq|]. by rewrite lookup_insert_ne.
Qed.
Lemma flag_set_flag sig v s k : flag (set_flag sig v s) k = if bool_decide (k = sig) then v else flag s k.
Proof. unfold flag, set_flag. cbn. case_bool_decide; [subst; by rewrite lookup_insert_eq|]. by rewrite lookup_insert_ne. Qed.

(** Something will make the thread of the set look for the signal. *)
Definition awake (s : Signals) (sig p : Z) : Prop :=
  (sig, Flagged) ∈ handlers s \/ (sig, Read (Some p)) ∈ handlers s \/ true ∈ pipe (set_of s p) \/
  signal_pending_ (set_of s p) = true /\ match at_ (set_of s p) with Handling l => sig ∈ l | Checking => True | Polling => False end.

Record signals_inv (s : Signals) : Prop := {
  si_owner sig p : owners s !! sig = Some p <-> is_Some (signal_cbs_ (set_of s p) !! sig);
  si_nodup : NoDup (handlers s).*1;
  si_passed sig : (sig, Passed) ∈ handlers s -> flag s sig = 0;
  si_one sig : flag s sig = 1 <-> exists st, (sig, st) ∈ handlers s /\ st <> Passed;
  si_handled sig : flag s sig <> 0 \/ sig ∈ (handlers s).*1 -> handled sig = true;
  si_awake sig p : owners s !! sig = Some p -> flag s sig <> 0 -> awake s sig p;
}.

Lemma signals_start_inv : signals_inv start.
Proof.
  split; cbn.
  - intros sig p. unfold set_of. cbn. rewrite !lookup_empty. split; [done|by intros [? ?]].
  - constructor.
  - intros sig H. by apply elem_of_nil in H.
  - intros sig. split; [done|]. intros (st & H & _). by apply elem_of_nil in H.
  - intros sig [H|H]; [done|by apply elem_of_nil in H].
  - done.
Qed.

(** A change of one set that leaves its callbacks and its thread alone, and no
    less in its pipe. *)
Lemma inv_on_pipe p f s : signals_inv s -> let q := set_of s p in
  signal_cbs_ (f q) = signal_cbs_ q -> signal_pending_ (f q) = signal_pending_ q -> at_ (f q) = at_ q ->
  (true ∈ pipe q -> true ∈ pipe (f q)) -> signals_inv (on_set p f s).
Proof.
  intros [H1 H2 H3 H4 H5 H6]. cbn zeta. intros Hc Hp Ha Hw. split; cbn; [|done|done|done|done|].
  - intros sig k. rewrite set_of_on_set. case_bool_decide; [subst; rewrite Hc|]; apply H1.
  - intros sig k Ho Hf. specialize (H6 sig k Ho Hf). unfold awake in *. cbn [handlers on_set]. rewrite set_of_on_set.
    case_bool_decide; [subst; rewrite Ha, Hp; tauto|done].
Qed.

Lemma wake_pipe wt q : (length (pipe q) < room)%nat -> pipe (wake wt q) = pipe q ++ [wt].
Proof. intros H. unfold wake. by rewrite (proj2 (Nat.ltb_lt _ _) H). Qed.

Lemma inv_wake wt p s : fits p s -> signals_inv s ->
  signals_inv (on_set p (wake wt) s) /\ (wt = true -> forall sig, awake (on_set p (wake wt) s) sig p).
Proof.
  intros Hf Hs. split.
  - apply inv_on_pipe; [done..|]. rewrite wake_pipe by done. set_solver.
  - intros -> sig. unfold awake. rewrite set_of_on_set, bool_decide_eq_true_2 by done. rewrite wake_pipe by done. set_solver.
Qed.

(** A handler has one place in the list. *)
Lemma one_stage s sig a b : signals_inv s -> (sig, a) ∈ handlers s -> (sig, b) ∈ handlers s -> a = b.
Proof.
  intros Hs Ha Hb. pose proof (si_nodup _ Hs) as Hn.
  apply list_elem_of_lookup in Ha as [i Hi], Hb as [j Hj].
  assert (i = j) as <-.
  { eapply NoDup_lookup; [exact Hn|..]; rewrite list_lookup_fmap; [by rewrite Hi|by rewrite Hj]. }
  congruence.
Qed.

(** ** The steps *)

Lemma elem_insert_handlers s i sig st st' x : signals_inv s -> handlers s !! i = Some (sig, st) ->
  x ∈ <[i := (sig, st')]> (handlers s) <-> x = (sig, st') \/ x ∈ handlers s /\ x.1 <> sig.
Proof.
  intros Hs Hi. rewrite !list_elem_of_lookup. split.
  - intros [j Hj]. destruct (decide (i = j)) as [<-|Hne].
    + rewrite list_lookup_insert_eq in Hj by (by eapply lookup_lt_Some). left. by injection Hj.
    + rewrite list_lookup_insert_ne in Hj by done. right. split; [by exists j|]. intros E. apply Hne.
      eapply NoDup_lookup; [apply (si_nodup _ Hs)|..]; rewrite list_lookup_fmap; [by rewrite Hi|]. rewrite Hj. cbn. by rewrite E.
  - intros [->|[[j Hj] Hne]].
    + exists i. apply list_lookup_insert_eq. by eapply lookup_lt_Some.
    + exists j. rewrite list_lookup_insert_ne; [done|]. intros <-. rewrite Hi in Hj. injection Hj as <-. by apply Hne.
Qed.

Lemma insert_handlers_nodup s i sig st st' : signals_inv s -> handlers s !! i = Some (sig, st) ->
  NoDup (<[i := (sig, st')]> (handlers s)).*1.
Proof.
  intros Hs Hi. rewrite list_fmap_insert. cbn. rewrite list_insert_id; [apply Hs|]. by rewrite list_lookup_fmap, Hi.
Qed.

(** A handler goes on, from a place behind its test to another. *)
Lemma inv_handler i sig st st' s : signals_inv s -> handlers s !! i = Some (sig, st) -> st <> Passed -> st' <> Passed ->
  (forall p, owners s !! sig = Some p -> awake s sig p -> awake (set_handlers (<[i := (sig, st')]> (handlers s)) s) sig p) ->
  signals_inv (set_handlers (<[i := (sig, st')]> (handlers s)) s).
Proof.
  intros Hs Hi Hne Hne' Haw. pose proof (elem_insert_handlers s i sig st st') as He.
  assert ((sig, st) ∈ handlers s) as Hin by (by eapply list_elem_of_lookup_2).
  destruct (Hs) as [H1 H2 H3 H4 H5 H6]. split; cbn [owners handlers set_handlers]; change (set_of (set_handlers _ s)) with (set_of s);
    change (flag (set_handlers _ s)) with (flag s).
  - done.
  - by eapply insert_handlers_nodup.
  - intros k. rewrite He by done. intros [[= -> <-]|[Hk _]]; [done|by apply H3].
  - intros k. rewrite H4. split; intros (x & Hx & Hnp).
    + destruct (decide (k = sig)) as [->|Hk]; [exists st'|exists x]; (split; [|done]); apply He; auto.
    + apply He in Hx as [[= -> ->]|[Hx _]]; [by exists st|by exists x|done..].
  - intros k. rewrite list_fmap_insert, list_insert_id by (by rewrite list_lookup_fmap, Hi). apply H5.
  - intros k p Ho Hf. specialize (H6 k p Ho Hf). destruct (decide (k = sig)) as [->|Hk]; [by apply Haw|].
    unfold awake in *. cbn [handlers set_handlers]. change (set_of (set_handlers _ s)) with (set_of s). rewrite !He by done. cbn. tauto.
Qed.

Lemma inv_raise_flag i sig s : signals_inv s -> handlers s !! i = Some (sig, Passed) ->
  signals_inv (set_handlers (<[i := (sig, Flagged)]> (handlers s)) (set_flag sig 1 s)).
Proof.
  intros Hs Hi. pose proof (elem_insert_handlers s i sig Passed Flagged) as He. destruct (Hs) as [H1 H2 H3 H4 H5 H6].
  split; cbn [owners handlers set_handlers set_flag]; change (set_of (set_handlers _ _)) with (set_of s).
  - done.
  - by eapply insert_handlers_nodup.
  - intros k. rewrite He by done. change (flag (set_handlers _ ?t)) with (flag t). rewrite flag_set_flag.
    intros [[=]|[Hk Hne]]. cbn in Hne. rewrite bool_decide_eq_false_2 by done. by apply H3.
  - intros k. change (flag (set_handlers _ ?t)) with (flag t). rewrite flag_set_flag. case_bool_decide as Hk; [subst|rewrite H4].
    + split; [|done]. intros _. exists Flagged. split; [|done]. apply He; auto.
    + split; intros (x & Hx & Hnp); exists x; (split; [|done]); [apply He; auto|]. apply He in Hx as [[= -> _]|[Hx _]]; done.
  - intros k. change (flag (set_handlers _ ?t)) with (flag t). rewrite flag_set_flag, list_fmap_insert.
    rewrite list_insert_id by (by rewrite list_lookup_fmap, Hi). case_bool_decide; [subst; intros _|apply H5].
    apply H5. right. apply list_elem_of_fmap. exists (sig, Passed). split; [done|by eapply list_elem_of_lookup_2].
  - intros k p Ho. change (flag (set_handlers _ ?t)) with (flag t). rewrite flag_set_flag. unfold awake. cbn [handlers set_handlers].
    change (set_of (set_handlers _ _)) with (set_of s). rewrite !He by done. case_bool_decide as Hk; [subst; intros _; auto|].
    intros Hf. specialize (H6 k p Ho Hf). unfold awake in H6. cbn. tauto.
Qed.

Lemma inv_handler_done i sig s : signals_inv s -> handlers s !! i = Some (sig, Woken) ->
  signals_inv (set_handlers (delete i (handlers s)) (set_flag sig 2 s)).
Proof.
  intros Hs Hi. destruct (Hs) as [H1 H2 H3 H4 H5 H6].
  assert (forall x, x ∈ delete i (handlers s) <-> x ∈ handlers s /\ x.1 <> sig) as He.
  { intros [k x]. rewrite delete_take_drop, elem_of_app, !list_elem_of_lookup. split.
    - intros Hj. assert (exists j, j <> i /\ handlers s !! j = Some (k, x)) as (j & Hne & Hj').
      { destruct Hj as [[j Hj]|[j Hj]]; [apply lookup_take_Some in Hj as [Hj Hlt]; exists j; split; [lia|done]|].
        rewrite lookup_drop in Hj. exists (S i + j)%nat. split; [lia|done]. }
      split; [by exists j|]. cbn. intros ->. apply Hne. eapply NoDup_lookup; [exact H2|..]; rewrite list_lookup_fmap; [by rewrite Hj'|by rewrite Hi].
    - intros [[j Hj] Hne]. cbn in Hne. destruct (Nat.lt_trichotomy j i) as [Hlt|[->|Hlt]].
      + left. exists j. by rewrite lookup_take_lt.
      + congruence.
      + right. exists (j - S i)%nat. rewrite lookup_drop. by replace (S i + (j - S i))%nat with j by lia. }
  assert (forall st, (sig, st) ∈ handlers s -> st = Woken) as Hone.
  { intros st Hst. eapply one_stage; [done|exact Hst|]. by eapply list_elem_of_lookup_2. }
  split; cbn [owners handlers set_handlers set_flag]; change (set_of (set_handlers _ _)) with (set_of s).
  - done.
  - rewrite list_fmap_delete. eapply sublist_NoDup; [exact H2|apply sublist_delete].
  - intros k [Hk Hne]%He. change (flag (set_handlers _ ?t)) with (flag t). rewrite flag_set_flag, bool_decide_eq_false_2 by done. by apply H3.
  - intros k. change (flag (set_handlers _ ?t)) with (flag t). rewrite flag_set_flag. case_bool_decide as Hk; [subst|rewrite H4].
    + split; [done|]. intros (st & [_ Hst]%He & _). done.
    + split; intros (x & Hx & Hnp); exists x; (split; [|done]); [by apply He|]. by apply He in Hx as [Hx _].
  - intros k [Hk|Hk].
    + revert Hk. change (flag (set_handlers _ ?t)) with (flag t). rewrite flag_set_flag. case_bool_decide; [subst; intros _|intros Hk; apply H5; by left].
      apply H5. right. apply list_elem_of_fmap. exists (sig, Woken). split; [done|by eapply list_elem_of_lookup_2].
    + apply H5. right. apply list_elem_of_fmap in Hk as (x & -> & [Hx _]%He). by apply list_elem_of_fmap_2.
  - intros k p Ho. change (flag (set_handlers _ ?t)) with (flag t). rewrite flag_set_flag. unfold awake. cbn [handlers set_handlers].
    change (set_of (set_handlers _ _)) with (set_of s). rewrite !He. cbn. case_bool_decide as Hk.
    + subst. intros _. assert (flag s sig = 1) as Hf by (apply H4; exists Woken; split; [by eapply list_elem_of_lookup_2|done]).
      specialize (H6 sig p Ho ltac:(lia)). unfold awake in H6. destruct H6 as [Hx%Hone|[Hx%Hone|Hx]]; [done..|]. tauto.
    + intros Hf. specialize (H6 k p Ho Hf). unfold awake in H6. tauto.
Qed.

Lemma step_handler i s s' : signals_inv s -> (forall sig p, handlers s !! i = Some (sig, Read (Some p)) -> fits p s) ->
  handler_step i s = Some s' -> signals_inv s'.
Proof.
  intros Hs Hfit. unfold handler_step. destruct (handlers s !! i) as [[sig st]|] eqn:Hi; [|done]. cbn [mbind option_bind fst snd].
  assert (forall x, (sig, x) ∈ handlers s -> x = st) as Hone.
  { intros x Hx. eapply one_stage; [done|exact Hx|]. by eapply list_elem_of_lookup_2. }
  destruct st as [| |[ps|]|]; intros [= <-].
  - by apply inv_raise_flag.
  - eapply inv_handler; [done|exact Hi|done|done|]. intros p Ho _. right. left. cbn. rewrite <-Ho.
    apply elem_insert_handlers with (st := Flagged); auto.
  - destruct (inv_wake true ps s (Hfit sig ps eq_refl) Hs) as [Hs' Haw].
    change (handlers s) with (handlers (on_set ps (wake true) s)).
    eapply inv_handler; [done|exact Hi|done|done|]. intros p Ho Hp. unfold awake in Hp |- *. cbn [handlers set_handlers].
    change (set_of (set_handlers _ ?t)) with (set_of t). cbn [handlers on_set] in Hp. destruct Hp as [Hx|[Hx|Hx]]; [by apply Hone in Hx| |by right; right].
    apply Hone in Hx. injection Hx as ->. specialize (Haw eq_refl sig). unfold awake in Haw. cbn [handlers on_set] in Haw.
    destruct Haw as [Hx|[Hx|Hx]]; [by apply Hone in Hx| |by right; right].
    right. right. left. rewrite set_of_on_set, bool_decide_eq_true_2 by done. rewrite wake_pipe by (by eapply Hfit). set_solver.
  - eapply inv_handler; [done|exact Hi|done|done|]. intros p Ho Hp. unfold awake in *. destruct Hp as [Hx|[Hx|Hx]]; [by apply Hone in Hx..|by right; right].
  - by apply inv_handler_done.
Qed.

(** *** Calls *)

(** A change of the owners that leaves handlers and threads alone, and wakes the
    new owner of a signal that is flagged. *)
Lemma inv_owners s t : signals_inv s -> handlers t = handlers s -> (forall x, flag t x = flag s x) ->
  (forall x k, owners t !! x = Some k <-> is_Some (signal_cbs_ (set_of t k) !! x)) ->
  (forall k, signal_pending_ (set_of t k) = signal_pending_ (set_of s k) /\ at_ (set_of t k) = at_ (set_of s k) /\
     (true ∈ pipe (set_of s k) -> true ∈ pipe (set_of t k))) ->
  (forall x k, owners t !! x = Some k -> flag s x <> 0 -> owners s !! x = Some k \/ true ∈ pipe (set_of t k)) -> signals_inv t.
Proof.
  intros [H1 H2 H3 H4 H5 H6] Th Tf Tc Tq Tw. split; rewrite ?Th; [exact Tc|exact H2|intros x; rewrite Tf; apply H3|intros x; rewrite Tf; apply H4|intros x; rewrite Tf; apply H5|].
  - intros x k Ho. rewrite Tf. intros Hf. unfold awake. rewrite Th. destruct (Tq k) as (-> & -> & Hp).
    destruct (Tw x k Ho Hf) as [Ho'|Hw]; [|tauto]. specialize (H6 x k Ho' Hf). unfold awake in H6. tauto.
Qed.

Lemma step_erase sig s : signals_inv s -> signals_inv (erase_signal_cb sig s).
Proof.
  intros Hs. unfold erase_signal_cb. destruct (owners s !! sig) as [ps|] eqn:Eo; [|done]. destruct (handled sig); [|done]. destruct (Hs) as [H1 H2 H3 H4 H5 H6].
  cbn [negb]. set (t := set_erasing _ _).
  assert (forall k, set_of t k = if bool_decide (k = ps) then set_cbs (delete sig (signal_cbs_ (set_of s ps))) (set_of s ps) else set_of s k) as Et.
  { intros k. change (set_of t k) with (set_of (on_set ps (fun q => set_cbs (delete sig (signal_cbs_ q)) q) (set_owners (delete sig (owners s)) s)) k).
    by rewrite set_of_on_set. }
  apply (inv_owners s t Hs); [done|done|..]; change (owners t) with (delete sig (owners s)).
  - intros x k. rewrite Et. destruct (decide (x = sig)) as [->|Hx].
    + rewrite lookup_delete_eq. split; [done|]. case_bool_decide as Hk; [cbn; rewrite lookup_delete_eq; by intros [? ?]|].
      intros Hc. apply H1 in Hc. congruence.
    + rewrite lookup_delete_ne, H1 by done. case_bool_decide as Hk; [subst; cbn; by rewrite lookup_delete_ne|done].
  - intros k. rewrite Et. by case_bool_decide; [subst|].
  - intros x k Ho _. left. by apply lookup_delete_Some in Ho as [_ Ho].
Qed.

(** The callbacks and owners of [signal_cb], before it wakes the set. *)
Definition registered (p sig cb : Z) (s : Signals) : Signals :=
  let s := on_set p (fun q => set_cbs (<[sig := cb]> (signal_cbs_ q)) q) s in
  match owners s !! sig with
  | Some ps =>
      if bool_decide (ps = p) then s
      else on_set ps (fun q => set_cbs (delete sig (signal_cbs_ q)) q) (set_owners (<[sig := p]> (owners s)) s)
  | None => set_owners (<[sig := p]> (owners s)) s
  end.

Lemma signal_cb_eq p sig cb s : signal_cb p sig cb s =
  if bool_decide (owners s !! sig = Some p) || bool_decide (owners s !! sig = None) && negb (handled sig) || (flag s sig =? 0)
  then registered p sig cb s else on_set p (wake true) (registered p sig cb s).
Proof.
  unfold signal_cb, registered. change (owners (on_set _ _ _)) with (owners s). case_bool_decide as Ho.
  - rewrite Ho. by rewrite (bool_decide_eq_true_2 (p = p)).
  - destruct (owners s !! sig) as [ps|] eqn:E.
    + rewrite (bool_decide_eq_false_2 (ps = p)) by congruence. by rewrite (bool_decide_eq_false_2 (Some ps = None)).
    + rewrite (bool_decide_eq_true_2 (None = None)) by done. destruct (handled sig); done.
Qed.

(** What it does to the sets. *)
Lemma registered_sets p sig cb s : signals_inv s -> let t := registered p sig cb s in
  owners t = <[sig := p]> (owners s) /\
  forall k, pipe (set_of t k) = pipe (set_of s k) /\ signal_pending_ (set_of t k) = signal_pending_ (set_of s k) /\
    at_ (set_of t k) = at_ (set_of s k) /\
    forall x, signal_cbs_ (set_of t k) !! x =
      if bool_decide (x = sig) then (if bool_decide (k = p) then Some cb else None) else signal_cbs_ (set_of s k) !! x.
Proof.
  intros Hs t. unfold t, registered. clear t. change (owners (on_set _ _ _)) with (owners s). set (s1 := on_set p _ s).
  assert (forall k, set_of s1 k = if bool_decide (k = p) then set_cbs (<[sig:=cb]> (signal_cbs_ (set_of s p))) (set_of s p) else set_of s k) as E1
    by (intros k; unfold s1; by rewrite set_of_on_set).
  assert (forall k, owners s !! sig <> Some k -> signal_cbs_ (set_of s k) !! sig = None) as Hnone.
  { intros k Hk. apply eq_None_not_Some. intros Hc. by apply (si_owner _ Hs) in Hc. }
  assert (forall k x, owners s !! sig <> Some k \/ k = p -> signal_cbs_ (set_of s1 k) !! x =
    if bool_decide (x = sig) then (if bool_decide (k = p) then Some cb else None) else signal_cbs_ (set_of s k) !! x) as Hc1.
  { intros k x Hk. rewrite E1. destruct (decide (k = p)) as [->|Hp].
    - rewrite !(bool_decide_eq_true_2 (p = p)) by done. cbn. case_bool_decide; [subst; by rewrite lookup_insert_eq|by rewrite lookup_insert_ne].
    - rewrite !(bool_decide_eq_false_2 (k = p)) by done. case_bool_decide; [subst; apply Hnone; tauto|done]. }
  assert (forall k, pipe (set_of s1 k) = pipe (set_of s k) /\ signal_pending_ (set_of s1 k) = signal_pending_ (set_of s k) /\
    at_ (set_of s1 k) = at_ (set_of s k)) as Hq1 by (intros k; rewrite E1; by case_bool_decide; [subst|]).
  destruct (owners s !! sig) as [ps|] eqn:Eo; [case_bool_decide as Hps|].
  - subst. change (owners s1) with (owners s). split; [by rewrite insert_id|]. intros k. destruct (Hq1 k) as (-> & -> & ->).
    split_and!; [done..|]. intros x. apply Hc1. destruct (decide (k = p)); [by right|left; congruence].
  - split; [done|]. intros k. rewrite set_of_on_set. change (set_of (set_owners _ s1)) with (set_of s1).
    destruct (Hq1 k) as (Q1 & Q2 & Q3). destruct (decide (k = ps)) as [->|Hk].
    + rewrite bool_decide_eq_true_2 by done. split_and!; [done..|]. intros x. cbn. rewrite E1.
      rewrite !(bool_decide_eq_false_2 (ps = p)) by done. case_bool_decide; [subst; by rewrite lookup_delete_eq|by rewrite lookup_delete_ne].
    + rewrite bool_decide_eq_false_2 by done. split_and!; [done..|]. intros x. apply Hc1. left. congruence.
  - split; [done|]. intros k. change (set_of (set_owners _ s1)) with (set_of s1). destruct (Hq1 k) as (Q1 & Q2 & Q3).
    split_and!; [done..|]. intros x. apply Hc1. by left.
Qed.

Lemma step_signal_cb p sig cb s : signals_inv s -> fits p s -> signals_inv (signal_cb p sig cb s).
Proof.
  intros Hs Hf. rewrite signal_cb_eq. destruct (registered_sets p sig cb s Hs) as [To Tq]. set (t := registered p sig cb s) in *.
  assert (handlers t = handlers s /\ forall x, flag t x = flag s x) as [Th Tf].
  { unfold t, registered. destruct (owners _ !! sig); [|done]. by case_bool_decide. }
  set (u := if bool_decide (owners s !! sig = Some p) || bool_decide (owners s !! sig = None) && negb (handled sig) || (flag s sig =? 0) then t else on_set p (wake true) t).
  assert (owners u = owners t /\ handlers u = handlers t /\ (forall x, flag u x = flag t x) /\ forall k,
    signal_cbs_ (set_of u k) = signal_cbs_ (set_of t k) /\ signal_pending_ (set_of u k) = signal_pending_ (set_of t k) /\
    at_ (set_of u k) = at_ (set_of t k) /\ (true ∈ pipe (set_of t k) -> true ∈ pipe (set_of u k))) as (Uo & Uh & Uf & Uq).
  { unfold u. destruct (_ || _); [by split_and!|]. split_and!; [done..|]. intros k. rewrite set_of_on_set. case_bool_decide; [subst|done].
    split_and!; [done..|]. intros Hin. unfold wake. cbn. case_match; [apply elem_of_app; by left|done]. }
  apply (inv_owners s u Hs); [by rewrite Uh|intros x; by rewrite Uf|..].
  - intros x k. destruct (Uq k) as (-> & _). rewrite Uo, To. destruct (Tq k) as (_ & _ & _ & ->). case_bool_decide as Hx; [subst|].
    + rewrite lookup_insert_eq. case_bool_decide as Hk; [subst; by split; [eexists|]|split; [congruence|by intros [? ?]]].
    + rewrite lookup_insert_ne by done. apply Hs.
  - intros k. destruct (Uq k) as (_ & -> & -> & Hp), (Tq k) as (E & -> & -> & _). rewrite E in Hp. done.
  - intros x k. rewrite Uo, To. destruct (decide (x = sig)) as [->|Hx]; [|rewrite lookup_insert_ne by done; by left].
    rewrite lookup_insert_eq. intros [= <-] Hfx. unfold u. case_bool_decide as Ho; [by left|]. right.
    rewrite (si_handled _ Hs sig (or_introl Hfx)), (proj2 (Z.eqb_neq _ _) Hfx), andb_false_r. cbn. rewrite set_of_on_set, bool_decide_eq_true_2 by done.
    rewrite wake_pipe by (destruct (Tq p) as (-> & _); exact Hf). apply elem_of_app. right. by apply list_elem_of_singleton.
Qed.

(** *** Flags that are cleared *)

Lemma inv_clear_flag sig s : signals_inv s -> flag s sig <> 1 -> signals_inv (set_flag sig 0 s).
Proof.
  intros [H1 H2 H3 H4 H5 H6] Hf. split; cbn [owners handlers set_flag]; change (set_of (set_flag _ _ _)) with (set_of s).
  - done.
  - done.
  - intros k Hk. rewrite flag_set_flag. case_bool_decide; [done|by apply H3].
  - intros k. rewrite flag_set_flag. case_bool_decide; [subst|apply H4]. split; [done|]. intros Hx%H4. done.
  - intros k. rewrite flag_set_flag. case_bool_decide; [|apply H5]. intros [?|Hk]; [done|]. apply H5. by right.
  - intros k p Ho. rewrite flag_set_flag. case_bool_decide; [done|]. apply H6, Ho.
Qed.

Lemma step_erase_end sig s s' : signals_inv s -> erase_end sig s = Some s' -> signals_inv s'.
Proof.
  intros Hs. unfold erase_end. destruct (Z.eqb_spec (flag s sig) 1) as [|Hf]; [done|]. intros [= <-].
  change (flag (set_erasing None s) sig) with (flag s sig). case_match.
  - by destruct Hs.
  - pose proof (inv_clear_flag sig s Hs Hf) as H'. by destruct H'.
Qed.

Lemma step_deliver sig s : signals_inv s -> handled sig = true -> sig ∉ (handlers s).*1 -> flag s sig = 0 ->
  signals_inv (set_handlers (handlers s ++ [(sig, Passed)]) s).
Proof.
  intros [H1 H2 H3 H4 H5 H6] Hh Hn Hf.
  assert (forall x, x ∈ handlers s ++ [(sig, Passed)] <-> x ∈ handlers s \/ x = (sig, Passed)) as He
    by (intros x; by rewrite elem_of_app, list_elem_of_singleton).
  split; cbn [owners handlers set_handlers]; change (set_of (set_handlers _ _)) with (set_of s); change (flag (set_handlers _ s)) with (flag s).
  - done.
  - rewrite fmap_app, list.NoDup_app. cbn. split_and!; [done|by intros x Hx ->%list_elem_of_singleton|by apply NoDup_singleton].
  - intros k [Hk|[= ->]]%He; [by apply H3|done].
  - intros k. rewrite H4. split; intros (st & Hst & Hne); exists st; (split; [|done]); [apply He; by left|].
    apply He in Hst as [Hst|[= _ ->]]; done.
  - intros k. rewrite fmap_app, elem_of_app. cbn. rewrite list_elem_of_singleton. intros [Hk|[Hk| -> ]]; [apply H5; auto..|done].
  - intros k p Ho Hk. specialize (H6 k p Ho Hk). unfold awake in *. cbn [handlers set_handlers]. change (set_of (set_handlers _ _)) with (set_of s).
    rewrite !He. tauto.
Qed.

(** *** The thread of a set *)

(** A change of the thread of one set. *)
Lemma inv_thread p q s : signals_inv s -> signal_cbs_ q = signal_cbs_ (set_of s p) ->
  (forall sig, owners s !! sig = Some p -> flag s sig <> 0 -> awake s sig p -> awake (on_set p (fun _ => q) s) sig p) ->
  signals_inv (on_set p (fun _ => q) s).
Proof.
  intros [H1 H2 H3 H4 H5 H6] Hc Haw. split; cbn [owners handlers on_set]; [|done|done|done|done|].
  - intros sig k. rewrite set_of_on_set. case_bool_decide; [subst; rewrite Hc|]; apply H1.
  - intros sig k Ho Hf. destruct (decide (k = p)) as [->|Hk]; [by apply Haw; [..|apply H6]|].
    specialize (H6 sig k Ho Hf). unfold awake in *. cbn [handlers on_set]. by rewrite set_of_on_set, bool_decide_eq_false_2.
Qed.

Lemma on_set_const p f s : on_set p f s = on_set p (fun _ => f (set_of s p)) s.
Proof. done. Qed.

Lemma step_poll p read s : signals_inv s -> at_ (set_of s p) = Polling -> signals_inv (on_set p (poll read) s).
Proof.
  intros Hs Hat. rewrite on_set_const. apply inv_thread; [done|by destruct read|].
  intros sig Ho Hf. unfold awake. cbn [handlers on_set]. rewrite set_of_on_set, bool_decide_eq_true_2 by done. rewrite Hat.
  intros [H|[H|[H|[_ Hx]]]]; [by left|by right; left| |done]. right. right. destruct read; [right|by left].
  split; [|done]. cbn. apply orb_true_iff. right. apply existsb_exists. exists true. split; [by apply list_elem_of_In|done].
Qed.

Lemma step_escape p s : signals_inv s -> signal_pending_ (set_of s p) = false -> signals_inv (on_set p (set_at Polling) s).
Proof.
  intros Hs Hp. rewrite on_set_const. apply inv_thread; [done|done|].
  intros sig Ho Hf. unfold awake. cbn [handlers on_set]. rewrite set_of_on_set, bool_decide_eq_true_2 by done. rewrite Hp.
  intros [H|[H|[H|[? _]]]]; [by left|by right; left|by right; right; left|done].
Qed.

Lemma step_find p s : signals_inv s -> at_ (set_of s p) = Checking -> signals_inv (find_pending p s).
Proof.
  intros Hs Hat. unfold find_pending. rewrite on_set_const. apply inv_thread; [done|done|].
  intros sig Ho Hf. unfold awake. cbn [handlers on_set]. rewrite set_of_on_set, bool_decide_eq_true_2 by done.
  intros [H|[H|[H|[H _]]]]; [by left|by right; left|by right; right; left|]. right. right. right. cbn. rewrite H. split; [done|].
  apply list_elem_of_filter. split; [done|]. apply (si_owner _ Hs) in Ho as [cb Hcb].
  apply list_elem_of_fmap. exists (sig, cb). split; [done|]. by apply elem_of_in_order.
Qed.

(** The thread goes on from a signal that needs no callback any more: to the next
    one, or to [poll] when it was the last. *)
Lemma inv_next p i rest q t : signals_inv t -> at_ (set_of t p) = Handling (i :: rest) -> (flag t i <> 0 -> owners t !! i <> Some p) ->
  q = Handling rest \/ q = Polling /\ rest = [] -> signals_inv (on_set p (set_at q) t).
Proof.
  intros Ht Hat Hi Hq. rewrite on_set_const. apply inv_thread; [done|done|]. intros sig Ho Hf. unfold awake. cbn [handlers on_set].
  rewrite set_of_on_set, bool_decide_eq_true_2, Hat by done.
  intros [H|[H|[H|[H Hl]]]]; [by left|by right; left|by right; right; left|]. right. right. right. split; [done|]. cbn.
  apply elem_of_cons in Hl as [->|Hl]; [by destruct (Hi Hf)|]. destruct Hq as [->|[_ ->]]; [done|]. by apply elem_of_nil in Hl.
Qed.

Lemma step_handle p l s s' : signals_inv s -> at_ (set_of s p) = Handling l -> calm (Thread p) s -> handle_one p l s = Some s' -> signals_inv s'.
Proof.
  intros Hs Hat Hcalm. destruct l as [|i rest]; cbn [handle_one].
  - intros [= <-]. rewrite on_set_const. apply inv_thread; [done|done|]. intros sig Ho Hf. unfold awake. cbn [handlers on_set].
    rewrite set_of_on_set, bool_decide_eq_true_2 by done. rewrite Hat. intros [H|[H|[H|[_ H]]]]; [by left|by right; left|by right; right; left|].
    by apply elem_of_nil in H.
  - cbn [calm] in Hcalm. rewrite Hat in Hcalm. destruct (signal_cbs_ (set_of s p) !! i) as [cb|] eqn:Hcb.
    + destruct (Z.eqb_spec (flag s i) 1) as [|Hf]; [done|]. intros [= <-].
      assert (signals_inv (on_set p (set_at (if throws cb then Polling else Handling rest)) (set_flag i 0 s))) as H'.
      { eapply (inv_next p i rest); [by apply inv_clear_flag|done|by rewrite flag_set_flag, bool_decide_eq_true_2|].
        specialize (Hcalm cb eq_refl). destruct (throws cb); [right; split; [done|by apply Hcalm]|by left]. }
      by destruct H'.
    + intros [= <-]. eapply (inv_next p i rest); [done|done| |by left]. intros _ Ho. apply (si_owner _ Hs) in Ho. rewrite Hcb in Ho. by destruct Ho.
Qed.

(** ** All steps *)

Lemma signals_step_inv a s s' : signals_inv s -> calm a s -> step a s = Some s' -> signals_inv s'.
Proof.
  intros Hs Hc. destruct a as [p|p sig cb|sig| |sig|i|p read|p|p]; cbn [step] in *.
  - intros [= <-]. by apply inv_wake.
  - destruct (_ && _); [|done]. intros [= <-]. by apply step_signal_cb.
  - destruct (_ && _); [|done]. intros [= <-]. by apply step_erase.
  - destruct (erasing s) as [sig|]; [|done]. by apply step_erase_end.
  - destruct (owners s !! sig); [|done]. cbn. destruct (handled sig) eqn:Eh; [|done]. cbn. intros [= <-]. destruct (Z.eqb_spec (flag s sig) 0); [|done]. by apply step_deliver.
  - by apply step_handler.
  - destruct (at_ (set_of s p)) eqn:E; [|done..]. intros [= <-]. by apply step_poll.
  - destruct (at_ (set_of s p)); [done| |done]. intros [= <-]. by apply step_escape.
  - destruct (negb _); [done|]. destruct (at_ (set_of s p)) eqn:E; [done|intros [= <-]; by apply step_find|]. by apply step_handle.
Qed.

Lemma signals_reach_inv s : reach s -> signals_inv s.
Proof. induction 1 as [|a s s' _ IH Hc Hst]; [apply signals_start_inv|]. by eapply signals_step_inv. Qed.

(** ** The thread finds the signal *)

Section thread.
Context (p : Z).

(** The next step of the thread of the set, when the pipe is ready. *)
Definition own_action (s : Signals) : action :=
  match at_ (set_of s p) with Polling => Poll p true | _ => Thread p end.
Fixpoint own_steps (n : nat) (s : Signals) : option Signals :=
  match n with O => Some s | S n => s ← step (own_action s) s; own_steps n s end.

Lemma thread_steps_add n m s t : own_steps n s = Some t -> own_steps (n + m) s = own_steps m t.
Proof.
  revert s. induction n as [|n IH]; intros s; cbn; [by intros [= ->]|]. destruct (step (own_action s) s); [|done]. apply IH.
Qed.

(** No handler runs and nothing is being erased. *)
Definition quiet (s : Signals) : Prop := handlers s = [] /\ erasing s = None.
Lemma quiet_flag s sig : signals_inv s -> quiet s -> flag s sig <> 1.
Proof. intros Hs [Hq _] Hf. apply (si_one _ Hs) in Hf as (st & Hst & _). rewrite Hq in Hst. by apply elem_of_nil in Hst. Qed.

(** The thread comes to run the callback, unless one that it runs before throws. *)
Definition serves (sig cb : Z) (s : Signals) : Prop := exists n t l, own_steps n s = Some t /\ ran t = ran s ++ l /\
  ((p, sig, cb) ∈ l \/ exists r k c, l = r ++ [(p, k, c)] /\ throws c = true).

Lemma serves_step sig cb s t x : step (own_action s) s = Some t -> ran t = ran s ++ x -> serves sig cb t -> serves sig cb s.
Proof.
  intros Hst Hr (n & u & l & Hn & Hu & Hl). exists (S n), u, (x ++ l). split; [cbn; by rewrite Hst|]. split; [by rewrite Hu, Hr, app_assoc|].
  destruct Hl as [Hl|(r & k & c & -> & Hc)]; [left; apply elem_of_app; by right|]. right. exists (x ++ r), k, c. by rewrite app_assoc.
Qed.
Lemma serves_now sig cb s t x : step (own_action s) s = Some t -> ran t = ran s ++ x ->
  (p, sig, cb) ∈ x \/ (exists r k c, x = r ++ [(p, k, c)] /\ throws c = true) -> serves sig cb s.
Proof. intros Hst Hr Hx. exists 1%nat, t, x. split; [cbn; by rewrite Hst|done]. Qed.

(** A signal that was delivered waits for the thread. *)
Record waits (sig cb : Z) (s : Signals) : Prop := {
  w_inv : signals_inv s;
  w_quiet : quiet s;
  w_flag : flag s sig <> 0;
  w_cb : signal_cbs_ (set_of s p) !! sig = Some cb;
}.

Lemma waits_set sig cb f s : signals_inv (on_set p f s) -> signal_cbs_ (f (set_of s p)) = signal_cbs_ (set_of s p) ->
  waits sig cb s -> waits sig cb (on_set p f s).
Proof. intros Hs Hf [_ H2 H3 H4]. split; [done..|]. by rewrite set_of_on_set, bool_decide_eq_true_2, Hf. Qed.

(** A turn of the loop runs the callback of the signal at hand, if it still has
    one. *)
Lemma turn sig cb i l s : waits sig cb s -> at_ (set_of s p) = Handling (i :: l) ->
  serves sig cb s \/ i <> sig /\ exists t x, step (own_action s) s = Some t /\ ran t = ran s ++ x /\ waits sig cb t /\
    at_ (set_of t p) = Handling l /\ pipe (set_of t p) = pipe (set_of s p).
Proof.
  intros [Hs Hq Hf Hcb] Hat.
  assert (step (own_action s) s = handle_one p (i :: l) s) as Est
    by (unfold own_action; rewrite Hat; cbn [step]; destruct Hq as [_ He]; by rewrite He, Hat).
  cbn [handle_one] in Est. destruct (signal_cbs_ (set_of s p) !! i) as [ci|] eqn:Ei.
  - rewrite (proj2 (Z.eqb_neq _ _) (quiet_flag s i Hs Hq)) in Est. destruct (decide (i = sig)) as [->|Hne].
    { left. eapply serves_now; [exact Est|done|]. left. rewrite Ei in Hcb. injection Hcb as ->. by apply list_elem_of_singleton. }
    destruct (throws ci) eqn:Et; [left; eapply serves_now; [exact Est|done|]; right; by exists [], i, ci|].
    right. split; [done|]. do 2 eexists. split; [exact Est|]. split; [done|].
    change (set_of (add_ran _ ?x)) with (set_of x). rewrite set_of_on_set, bool_decide_eq_true_2 by done. split_and!; [|done..]. split.
    + eapply (step_handle p (i :: l) s); [done|done| |].
      * cbn [calm]. rewrite Hat. intros c Hc. congruence.
      * cbn [handle_one]. rewrite Ei, (proj2 (Z.eqb_neq _ _) (quiet_flag s i Hs Hq)), Et. done.
    + done.
    + change (flag (add_ran _ (on_set _ _ ?x)) sig) with (flag x sig). by rewrite flag_set_flag, bool_decide_eq_false_2.
    + change (set_of (add_ran _ ?x)) with (set_of x). by rewrite set_of_on_set, bool_decide_eq_true_2.
  - right. split; [congruence|]. do 2 eexists. split; [exact Est|]. split; [symmetry; apply app_nil_r|].
    rewrite set_of_on_set, bool_decide_eq_true_2 by done. split_and!; [|done..]. apply waits_set; [|done|by split].
    eapply (step_handle p (i :: l) s); [done|done| |].
    + cbn [calm]. rewrite Hat. intros c Hc. congruence.
    + cbn [handle_one]. by rewrite Ei.
Qed.

(** The loop, when it has the signal before it. *)
Lemma handling_serves sig cb l s : waits sig cb s -> at_ (set_of s p) = Handling l -> sig ∈ l -> serves sig cb s.
Proof.
  revert s. induction l as [|i l IH]; intros s Hw Hat Hl; [by apply elem_of_nil in Hl|].
  destruct (turn sig cb i l s Hw Hat) as [H|(Hi & t & x & Hst & Hr & Hwt & Hatt & _)]; [done|].
  eapply serves_step; [exact Hst|exact Hr|]. apply IH; [done|done|]. by apply elem_of_cons in Hl as [->|Hl].
Qed.

(** From the search on. *)
Lemma checking_serves sig cb s : waits sig cb s -> at_ (set_of s p) = Checking -> signal_pending_ (set_of s p) = true -> serves sig cb s.
Proof.
  intros Hw Hat Hp. assert (step (own_action s) s = Some (find_pending p s)) as Hst.
  { unfold own_action. rewrite Hat. cbn [step]. destruct (w_quiet _ _ _ Hw) as [_ He]. by rewrite He, Hat. }
  eapply serves_step; [exact Hst|symmetry; apply app_nil_r|].
  apply (handling_serves sig cb (filter (fun i => flag s i <> 0) (in_order (signal_cbs_ (set_of s p))).*1)).
  - apply waits_set; [by apply step_find; [apply Hw|]|done|done].
  - unfold find_pending. rewrite set_of_on_set, bool_decide_eq_true_2 by done. by rewrite Hp.
  - apply list_elem_of_filter. split; [apply Hw|]. apply list_elem_of_fmap. exists (sig, cb). split; [done|]. apply elem_of_in_order, Hw.
Qed.

(** From [poll] on, when the byte is in the pipe. *)
Lemma polling_serves sig cb s : waits sig cb s -> at_ (set_of s p) = Polling -> true ∈ pipe (set_of s p) -> serves sig cb s.
Proof.
  intros Hw Hat Hp. set (s1 := on_set p (poll true) s).
  assert (step (own_action s) s = Some s1) as Hst by (unfold own_action; rewrite Hat; cbn [step]; by rewrite Hat).
  assert (set_of s1 p = poll true (set_of s p)) as Hset by (unfold s1; by rewrite set_of_on_set, bool_decide_eq_true_2).
  eapply serves_step; [exact Hst|symmetry; apply app_nil_r|]. apply checking_serves; rewrite ?Hset; [|done|].
  - apply waits_set; [by apply step_poll; [apply Hw|]|done|done].
  - cbn. apply orb_true_iff. right. apply existsb_exists. exists true. split; [by apply list_elem_of_In|done].
Qed.

(** The loop without the signal, and then [poll]. *)
Lemma handling_polls sig cb l s : waits sig cb s -> at_ (set_of s p) = Handling l -> true ∈ pipe (set_of s p) -> serves sig cb s.
Proof.
  revert s. induction l as [|i l IH]; intros s Hw Hat Hp.
  - assert (step (own_action s) s = handle_one p [] s) as Hst
      by (unfold own_action; rewrite Hat; cbn [step]; destruct (w_quiet _ _ _ Hw) as [_ He]; by rewrite He, Hat).
    eapply serves_step; [exact Hst|symmetry; apply app_nil_r|]. apply polling_serves.
    + apply waits_set; [|done|done]. eapply (step_handle p []); [apply Hw|done| |done]. cbn. by rewrite Hat.
    + by rewrite set_of_on_set, bool_decide_eq_true_2.
    + by rewrite set_of_on_set, bool_decide_eq_true_2.
  - destruct (turn sig cb i l s Hw Hat) as [H|(Hi & t & x & Hst & Hr & Hwt & Hatt & Hpt)]; [done|].
    eapply serves_step; [exact Hst|exact Hr|]. apply IH; [done|done|]. by rewrite Hpt.
Qed.

(** The search that finds nothing, and then [poll]. *)
Lemma checking_polls sig cb s : waits sig cb s -> at_ (set_of s p) = Checking -> true ∈ pipe (set_of s p) -> serves sig cb s.
Proof.
  intros Hw Hat Hp. destruct (signal_pending_ (set_of s p)) eqn:E; [by apply checking_serves|].
  assert (step (own_action s) s = Some (find_pending p s)) as Hst.
  { unfold own_action. rewrite Hat. cbn [step]. destruct (w_quiet _ _ _ Hw) as [_ He]. by rewrite He, Hat. }
  eapply serves_step; [exact Hst|symmetry; apply app_nil_r|]. unfold find_pending. rewrite E. apply polling_serves.
  - apply waits_set; [|done|done]. pose proof (step_find p s (w_inv _ _ _ Hw) Hat) as H. unfold find_pending in H. by rewrite E in H.
  - by rewrite set_of_on_set, bool_decide_eq_true_2.
  - by rewrite set_of_on_set, bool_decide_eq_true_2.
Qed.

(** C19: no signal is lost.  Whatever the interleaving of handlers, of the
    threads of several event loops and of calls that register, move and remove
    callbacks, as long as the handlers of one signal do not overlap, no pipe is
    full and no callback throws in front of other pending signals: when no handler
    runs, a signal that was delivered and not looked at since keeps the thread of
    the set that owns it from sleeping; and the steps of this thread alone, from
    here on, run its callback or come to another callback that throws before it
    ([l] is what they run). *)
Theorem no_lost_signal s sig : reach s -> handlers s = [] -> erasing s = None ->
  owners s !! sig = Some p -> flag s sig <> 0 ->
  (at_ (set_of s p) = Polling -> true ∈ pipe (set_of s p)) /\
  exists cb n t l, signal_cbs_ (set_of s p) !! sig = Some cb /\ own_steps n s = Some t /\ ran t = ran s ++ l /\
    ((p, sig, cb) ∈ l \/ exists r k c, l = r ++ [(p, k, c)] /\ throws c = true).
Proof.
  intros Hr Hh He Ho Hf. pose proof (signals_reach_inv s Hr) as Hs.
  destruct (proj1 (si_owner _ Hs sig p) Ho) as [cb Hcb]. assert (waits sig cb s) as Hw by done.
  pose proof (si_awake _ Hs sig p Ho Hf) as Haw. unfold awake in Haw. rewrite Hh in Haw.
  assert (serves sig cb s) as Hserves.
  { destruct Haw as [H|[H|[H|[Hp H]]]]; [by apply elem_of_nil in H..| |]; destruct (at_ (set_of s p)) as [| |l] eqn:Hat; try done.
    - by apply polling_serves.
    - by apply checking_polls.
    - by eapply handling_polls.
    - by apply checking_serves.
    - by eapply handling_serves. }
  split.
  - intros Hat. rewrite Hat in Haw. destruct Haw as [H|[H|[H|[_ H]]]]; [by apply elem_of_nil in H..|done|done].
  - destruct Hserves as (n & t & l & Hn & Ht & Hl). by exists cb, n, t, l.
Qed.
End thread.
End props.

(** ** Runs *)

Section runs.
Context {W : World}.

#[export] Instance fits_dec p s : Decision (fits p s).
Proof. unfold fits. apply _. Defined.
#[export] Instance calm_dec a s : Decision (calm a s).
Proof.
  destruct a as [p|p sig cb|sig| |sig|i|p read|p|p]; cbn [calm]; try apply _.
  - destruct (handlers s !! i) as [[sig [| |[p|]|]]|] eqn:E; try (left; intros; congruence).
    destruct (decide (fits p s)); [left; intros; congruence|right; intros H; by apply n, (H sig)].
  - destruct (at_ (set_of s p)) as [| |[|i [|k rest]]]; [left; done..|left; done|].
    destruct (signal_cbs_ (set_of s p) !! i) as [cb|]; [|left; done].
    destruct (throws cb) eqn:E; [right; intros H; by specialize (H cb eq_refl E)|left; congruence].
Defined.

Fixpoint run (acts : list action) (s : Signals) : option Signals :=
  match acts with [] => Some s | a :: acts => s ← step a s; run acts s end.
Fixpoint calm_run (acts : list action) (s : Signals) : bool :=
  match acts with
  | [] => true
  | a :: acts => bool_decide (calm a s) && match step a s with Some s => calm_run acts s | None => false end
  end.

Lemma run_reach acts s t : reach s -> calm_run acts s = true -> run acts s = Some t -> reach t.
Proof.
  revert s. induction acts as [|a acts IH]; intros s Hs; cbn; [by intros _ [= <-]|].
  intros [Hc%bool_decide_eq_true Ha]%andb_true_iff. destruct (step a s) as [s1|] eqn:E; [|done]. cbn.
  apply IH; [by eapply reach_step|done].
Qed.

(** A signal that nobody will look for: its flag is set, so that its handler
    returns at once from now on, and its thread sleeps. *)
Definition lost (sig p : Z) (s : Signals) : bool :=
  match handlers s with [] => true | _ => false end && (flag s sig =? 2) && bool_decide (owners s !! sig = Some p) &&
  match pipe (set_of s p), at_ (set_of s p) with [], Polling => true | _, _ => false end.

Lemma lost_for_ever sig p s : handled sig = true -> lost sig p s = true -> step (Deliver sig) s = Some s.
Proof.
  intros Hh. unfold lost. rewrite !andb_true_iff. intros [[[_ Hf%Z.eqb_eq] Ho%bool_decide_eq_true] _]. cbn. rewrite Ho. cbn. by rewrite Hh, Hf.
Qed.
End runs.

(** A pipe of the size of the first argument; signal 9 cannot be handled, and the
    callbacks from 100 on throw. *)
Definition small_world (n : nat) : World := mkWorld n (fun sig => negb (sig =? 9)) (fun cb => 100 <=? cb).

(** The callback of a signal moves to another set while its handler runs, after
    the same callback ran for an earlier delivery; another one throws alone. *)
Definition stolen : list action :=
  [Signal_cb 1 10 7; Signal_cb 2 11 100; Deliver 11; Handler 0; Handler 0; Handler 0; Handler 0; Poll 2 true; Thread 2; Thread 2;
   Signal_cb 2 10 8; Deliver 10; Handler 0; Handler 0; Handler 0; Handler 0; Poll 2 true; Thread 2; Thread 2; Thread 2;
   Signal_cb 1 10 7; Deliver 10; Handler 0; Handler 0; Signal_cb 2 10 8; Handler 0; Handler 0].
Definition stolen_state : Signals := default start (run (W := small_world 4) stolen start).

Lemma no_lost_signal_witness : owners stolen_state !! 10 = Some 2 /\ flag stolen_state 10 = 2 /\
  ran stolen_state = [(2, 11, 100); (2, 10, 8)] /\
  exists n t l, own_steps (W := small_world 4) 2 n stolen_state = Some t /\ ran t = ran stolen_state ++ l /\
    ((2, 10, 8) ∈ l \/ exists r k c, l = r ++ [(2, k, c)] /\ throws (World := small_world 4) c = true).
Proof.
  assert (reach (W := small_world 4) stolen_state) as Hr.
  { apply (run_reach (W := small_world 4) stolen start); [apply reach_start|by vm_compute|]. by vm_compute. }
  assert (owners stolen_state !! 10 = Some 2) as Ho by by vm_compute.
  assert (flag stolen_state 10 = 2) as Hf by by vm_compute.
  assert (signal_cbs_ (set_of stolen_state 2) !! 10 = Some 8) as Hcb by by vm_compute.
  split; [exact Ho|]. split; [exact Hf|]. split; [by vm_compute|].
  destruct (no_lost_signal (W := small_world 4) 2 stolen_state 10 Hr) as [_ (cb & n & t & l & Hc & Hn & Ht & Hl)];
    [by vm_compute|by vm_compute|exact Ho|by rewrite Hf|].
  exists n, t, l. rewrite Hcb in Hc. injection Hc as <-. split; [exact Hn|]. split; [exact Ht|exact Hl].
Defined.

(** Two handlers of one signal pass the test together; the second one raises the
    flag again after the callback has run. *)
Lemma overlap_loses_signal : lost 10 1 <$> run (W := small_world 64)
  ([Signal_cb 1 10 7; Deliver 10; Deliver 10; Handler 0; Handler 0; Handler 0;
  Handler 1; Handler 1; Handler 1; Handler 0; Poll 1 true; Thread 1; Thread 1; Thread 1; Handler 0]) start = Some true.
Proof. by vm_compute. Qed.

(** The byte of the signal does not fit into the pipe. *)
Lemma full_pipe_loses_signal : lost 10 1 <$> run (W := small_world 1)
  [Signal_cb 1 10 7; Wake 1; Deliver 10; Handler 0; Handler 0; Handler 0; Handler 0; Poll 1 true; Thread 1] start = Some true.
Proof. by vm_compute. Qed.

(** The callback of signal 10 throws while signal 11 waits behind it: the thread
    sleeps in [poll], with [signal_pending_] set, until something else wakes it. *)
Definition thrown : option Signals := run (W := small_world 64)
  [Signal_cb 1 10 100; Signal_cb 1 11 7; Deliver 10; Handler 0; Handler 0; Handler 0; Handler 0;
   Deliver 11; Handler 0; Handler 0; Handler 0; Handler 0; Poll 1 true; Thread 1; Thread 1] start.
Lemma throw_loses_signal : lost 11 1 <$> thrown = Some true /\ ran <$> thrown = Some [(1, 10, 100)] /\
  ran <$> (thrown ≫= run (W := small_world 64) [Wake 1; Poll 1 true; Thread 1; Thread 1]) = Some [(1, 10, 100); (1, 11, 7)].
Proof. by vm_compute. Qed.

(** A call whose [sigaction] fails leaves the set as the owner of the signal, so
    that the next one returns without an error; no handler is ever called. *)
Lemma failed_call_owns : let s := signal_cb (W := small_world 64) 1 9 7 start in
  owners s !! 9 = Some 1 /\ signal_cb (W := small_world 64) 1 9 7 s = s /\ step (W := small_world 64) (Deliver 9) s = None.
Proof. by vm_compute. Qed.
