(* ===== verification/Sockets.v ===== *)
(** * Sockets: [xdrpp/xdrpp/socket.h], [xdrpp/xdrpp/socket.cc]

    Connecting, listening and the registration with rpcbind, with the calls on a
    descriptor of [xdrpp/xdrpp/srpc.cc] and [srpc.h].  A [unique_fd] is the number
    that it holds; [on_throw] and [scoped] are what its destructor does when an
    exception leaves its scope and at the end of the scope.  What the kernel and
    the resolver answer is the parameter [kernel]; the numbers of constants are
    those of Linux. *)

From S2P Require Import Prelude Endian Xdr RpcMsg Rpc Numbers StdString.

(** ** Addresses and system calls *)

(** The port of an internet address is the number that [htons] converts. *)
Inductive sockaddr :=
| sockaddr_in (addr port : Z)
| sockaddr_in6 (addr port : Z)
| other_addr (family : Z) (data : bytes).

Definition AF_UNSPEC : Z := 0.
Definition AF_INET : Z := 2.
Definition AF_INET6 : Z := 10.
Definition SOCK_STREAM : Z := 1.
Definition EINTR : Z := 4.
Definition EINVAL : Z := 22.
Definition EADDRINUSE : Z := 98.
Definition EADDRNOTAVAIL : Z := 99.
Definition ECONNREFUSED : Z := 111.
Definition EINPROGRESS : Z := 115.
Definition O_NONBLOCK : Z := 2048.
Definition FD_CLOEXEC : Z := 1.
Definition AI_PASSIVE : Z := 1.
Definition AI_ADDRCONFIG : Z := 32.

Definition sa_family (a : sockaddr) : Z :=
  match a with sockaddr_in _ _ => AF_INET | sockaddr_in6 _ _ => AF_INET6 | other_addr f _ => f end.
Definition set_port (port : Z) (a : sockaddr) : sockaddr :=
  match a with
  | sockaddr_in h _ => sockaddr_in h port
  | sockaddr_in6 h _ => sockaddr_in6 h port
  | other_addr f d => other_addr f d
  end.

(** An element of the list of [getaddrinfo]; [ai_next] is the rest of the list. *)
Record addrinfo := mkAddrinfo { ai_family : Z; ai_socktype : Z; ai_protocol : Z; ai_addr : sockaddr }.
Record hints := mkHints { h_flags : Z; h_family : Z; h_socktype : Z }.

Inductive syscall :=
| Socket (family type protocol : Z)
| Connect (fd : Z) (a : sockaddr)
| Bind (fd : Z) (a : sockaddr)
| Listen (fd backlog : Z)
| Reuseaddr (fd : Z)               (* setsockopt(fd, SOL_SOCKET, SO_REUSEADDR, ...) *)
| Getfl (fd : Z) | Setfl (fd flags : Z)
| Getfd (fd : Z) | Setfd (fd flags : Z)
| Getsockname (fd : Z)
| Read (fd n : Z) | Write (fd : Z) (data : bytes)
| Close (fd : Z).

(** Answers ([inr] is an error number), given the open descriptors and the calls
    made before; whether [close] has closed the descriptor when it answers
    [EINTR]; the library functions on addresses and errors. *)
Record kernel := Kernel {
  sys_int : gset Z -> list syscall -> syscall -> Z + Z;
  sys_name : gset Z -> list syscall -> Z -> sockaddr + Z;
  sys_read : gset Z -> list syscall -> Z -> Z -> bytes + Z;
  eintr_closes : bool;
  getaddrinfo : option string -> option string -> hints -> list addrinfo + Z;
  getnameinfo : sockaddr -> string * string + Z;
  strerror : Z -> string;
  geteuid : Z;
}.

(** [rpcb] of [rpcbind.x] *)
Record rpcb := mkRpcb { r_prog : Z; r_vers : Z; r_netid : string; r_addr : string; r_owner : string }.

#[export] Instance xdr_rpcb : Xdr rpcb := {|
  xdr_valid o := u32 (r_prog o) /\ u32 (r_vers o) /\ xdr_valid (r_netid o) /\ xdr_valid (r_addr o) /\ xdr_valid (r_owner o);
  serial_size o := 4 + 4 + serial_size (r_netid o) + serial_size (r_addr o) + serial_size (r_owner o);
  save o := save_u32 (r_prog o) >;> save_u32 (r_vers o) >;> save (r_netid o) >;> save (r_addr o) >;> save (r_owner o);
  load :=
    x0 ← load_u32;
    x1 ← load_u32;
    x2 ← load;
    x3 ← load;
    x4 ← load;
    mret (mkRpcb x0 x1 x2 x3 x4);
  wire o := be32 (r_prog o) ++ be32 (r_vers o) ++ wire (r_netid o) ++ wire (r_addr o) ++ wire (r_owner o);
|}.
#[export] Instance xdr_rpcb_laws : XdrLaws rpcb.
Proof. solve_xdr xdr_rpcb. Qed.

(** The process: its open descriptors, [errno], the calls it made, [xid_counter],
    what it wrote to [std::cerr], [registered_services], and whether [atexit] was
    called. *)
Record Process := mkProcess {
  open_fds : gset Z;
  errno : Z;
  calls : list syscall;
  xid_counter_ : Z;
  cerr : string;
  registered_services : list rpcb;
  cleanup_set : bool;
}.
Definition new_process : Process := mkProcess ∅ 0 [] 0 "" [] false.

Definition set_open (s : gset Z) (o : Process) : Process :=
  mkProcess s (errno o) (calls o) (xid_counter_ o) (cerr o) (registered_services o) (cleanup_set o).
Definition set_errno (e : Z) (o : Process) : Process :=
  mkProcess (open_fds o) e (calls o) (xid_counter_ o) (cerr o) (registered_services o) (cleanup_set o).
Definition add_call (c : syscall) (o : Process) : Process :=
  mkProcess (open_fds o) (errno o) (calls o ++ [c]) (xid_counter_ o) (cerr o) (registered_services o) (cleanup_set o).
Definition set_xid (x : Z) (o : Process) : Process :=
  mkProcess (open_fds o) (errno o) (calls o) x (cerr o) (registered_services o) (cleanup_set o).
Definition add_cerr (s : string) (o : Process) : Process :=
  mkProcess (open_fds o) (errno o) (calls o) (xid_counter_ o) (cerr o +:+ s) (registered_services o) (cleanup_set o).
Definition add_service (r : rpcb) (o : Process) : Process :=
  mkProcess (open_fds o) (errno o) (calls o) (xid_counter_ o) (cerr o) (registered_services o ++ [r]) (cleanup_set o).
(** [set_cleanup] *)
Definition set_cleanup (o : Process) : Process :=
  mkProcess (open_fds o) (errno o) (calls o) (xid_counter_ o) (cerr o) (registered_services o) true.

(** ** Universal addresses *)

Definition dot : ascii := ".".

Definition parse_uaddr_port (uaddr : bytes) : Z :=
  match rfind dot uaddr with
  | None => -1
  | Some low =>
      if (low =? 0)%nat then -1 else
      match rfind dot (take low uaddr) with
      | None => -1
      | Some high =>
          match stoi (drop (high + 1) uaddr), stoi (drop (low + 1) uaddr) with
          | Some hb, Some lb =>
              if (hb <? 0) || (255 <? hb) || (lb <? 0) || (255 <? lb) then -1
              else Z.lor (Z.shiftl hb 8) lb
          | _, _ => -1
          end
      end
  end.

(** The end of [make_uaddr]. *)
Definition uaddr_of (host : string) (port : Z) : string :=
  host +:+ "." +:+ to_string (Z.shiftr port 8) +:+ "." +:+ to_string (Z.land port 0xff).

Definition has_colon (s : string) : bool := existsb (Ascii.eqb ":") (str_bytes s).

Definition cat_host_service (host service : option string) : string :=
  let target := match host with Some h => if has_colon h then "[" +:+ h +:+ "]" else h | None => "" end in
  match service with Some s => target +:+ ":" +:+ s | None => target end.

(** ** Calls of the kernel *)

Section sockets.
Context (K : kernel).
(** How often [close] may answer [EINTR] in a row. *)
Context (patience : nat).
Abbreviation Op := (M Process).

Definition after_close (e : Z) (c : syscall) (o : Process) : Process :=
  match c with
  | Close fd => if (e =? EINTR) && negb (eintr_closes K) then o else set_open (open_fds o ∖ {[fd]}) o
  | _ => o
  end.

(** The result of a call, -1 for an error; [errno] is then set. *)
Definition sys (c : syscall) : Op Z := fun o =>
  let o' := add_call c o in
  match sys_int K (open_fds o) (calls o) c with
  | inl v =>
      Ret v match c with
            | Socket _ _ _ => set_open ({[v]} ∪ open_fds o) o'
            | Close fd => set_open (open_fds o ∖ {[fd]}) o'
            | _ => o'
            end
  | inr e => Ret (-1) (after_close e c (set_errno e o'))
  end.

Definition throw_errno {A} (what : string) : Op A := e ← gets errno; throw (exn_system system_category e what).

Definition set_nonblock (fd : Z) : Op unit :=
  n ← sys (Getfl fd);
  if n =? -1 then throw_errno "O_NONBLOCK" else
  r ← sys (Setfl fd (Z.lor n O_NONBLOCK));
  if r =? -1 then throw_errno "O_NONBLOCK" else mret tt.

Definition set_close_on_exec (fd : Z) : Op unit :=
  n ← sys (Getfd fd);
  if n =? -1 then throw_errno "F_SETFD" else
  r ← sys (Setfd fd (Z.lor n FD_CLOEXEC));
  if r =? -1 then throw_errno "F_SETFD" else mret tt.

Fixpoint close_loop (fuel : nat) (fd : Z) : Op unit :=
  r ← sys (Close fd);
  if negb (r =? -1) then mret tt else
  e ← gets errno;
  if negb (e =? EINTR) then modify (add_cerr ("really_close: " +:+ strerror K e)) else
  match fuel with O => fun _ => Diverge | S fuel => close_loop fuel fd end.
Definition really_close (fd : Z) : Op unit := close_loop patience fd.

(** [unique_fd::clear] *)
Definition clear (fd : Z) : Op unit := if fd =? -1 then mret tt else really_close fd.

(** The scope of a [unique_fd] whose value leaves it, and of one that ends. *)
Definition on_throw {A} (fd : Z) (m : Op A) : Op A := try_catch m (fun e => clear fd ;; throw e).
Definition scoped {A} (fd : Z) (m : Op A) : Op A := a ← on_throw fd m; clear fd ;; mret a.

(** [get_numinfo] *)
Definition get_numinfo (sa : sockaddr) : Op (string * string) :=
  match getnameinfo K sa with
  | inl hs => mret hs
  | inr e => throw (exn_system gai_category e "getnameinfo")
  end.

Fixpoint addrinfo_loop (first : bool) (ail : list addrinfo) : Op string :=
  match ail with
  | [] => mret ""
  | ai :: ail =>
      '(h, p) ← get_numinfo (ai_addr ai);
      rest ← addrinfo_loop false ail;
      mret ((if first then "" else ", ") +:+ (if has_colon h then "[" +:+ h +:+ "]:" +:+ p else h +:+ ":" +:+ p) +:+ rest)
  end.
Definition addrinfo_to_string : list addrinfo -> Op string := addrinfo_loop true.

Definition get_addrinfo (host : option string) (socktype : Z) (service : option string) (family : Z) : Op (list addrinfo) :=
  match getaddrinfo K host service (mkHints AI_ADDRCONFIG family socktype) with
  | inl res => mret res
  | inr e => throw (exn_system gai_category e (cat_host_service host service))
  end.

Definition make_uaddr (sa : sockaddr) : Op string :=
  '(host, portstr) ← get_numinfo sa;
  match stoul (str_bytes portstr) with
  | None => throw (exn_logic "stoul")
  | Some port =>
      let port := wrap32 port in
      if (port =? 0) || (65536 <=? port) then throw (exn_system generic_category EINVAL "bad port number")
      else mret (uaddr_of host port)
  end.

Definition getsockname (fd : Z) : Op sockaddr := fun o =>
  let o' := add_call (Getsockname fd) o in
  match sys_name K (open_fds o) (calls o) fd with
  | inl sa => Ret sa o'
  | inr e => throw_errno "getsockname" (set_errno e o')
  end.
Definition make_uaddr_fd (fd : Z) : Op string := sa ← getsockname fd; make_uaddr sa.

(** ** Connecting and listening *)

Definition socket_of (ai : addrinfo) : Op Z :=
  fd ← sys (Socket (ai_family ai) (ai_socktype ai) (ai_protocol ai));
  if fd =? -1 then throw_errno "socket" else mret fd.

Definition tcp_connect1 (ai : addrinfo) (ndelay : bool) : Op Z :=
  fd ← socket_of ai;
  on_throw fd
    ((if ndelay then set_nonblock fd else mret tt) ;;
     r ← sys (Connect fd (ai_addr ai));
     e ← gets errno;
     if (r =? -1) && negb (e =? EINPROGRESS) then clear fd ;; mret (-1) else mret fd).

Fixpoint connect_loop (ail : list addrinfo) : Op Z :=
  match ail with
  | [] => throw_errno "connect"
  | ai :: ail => fd ← tcp_connect1 ai false; if negb (fd =? -1) then mret fd else connect_loop ail
  end.
Definition tcp_connect (ail : list addrinfo) : Op Z := modify (set_errno EADDRNOTAVAIL) ;; connect_loop ail.
Definition tcp_connect_to (host service : option string) (family : Z) : Op Z :=
  ail ← get_addrinfo host SOCK_STREAM service family; tcp_connect ail.

Definition tcp_listen (service : option string) (family : Z) : Op Z :=
  match getaddrinfo K None (Some (default "0" service)) (mkHints (Z.lor AI_ADDRCONFIG AI_PASSIVE) family SOCK_STREAM) with
  | inr e => throw (exn_system gai_category e "AI_PASSIVE")
  | inl [] => abort  (* getaddrinfo returns no empty list *)
  | inl (ai :: _) =>
      fd ← socket_of ai;
      on_throw fd
        (sys (Reuseaddr fd) ;;
         r ← sys (Bind fd (ai_addr ai));
         if r =? -1 then throw_errno "bind" else
         r ← sys (Listen fd 5);
         if r =? -1 then throw_errno "listen" else mret fd)
  end.

(** ** Calls on a descriptor: [srpc.h], [srpc.cc] *)

Definition read (fd n : Z) : Op (option bytes) := fun o =>
  let o' := add_call (Read fd n) o in
  match sys_read K (open_fds o) (calls o) fd n with
  | inl b => Ret (Some b) o'
  | inr e => Ret None (set_errno e o')
  end.

(** More than four bytes would not fit into [len]. *)
Definition read_message (fd : Z) : Op bytes :=
  len ← read fd 4;
  match len with
  | None => throw exn_xdr
  | Some len =>
      let n := blen len in
      if n <? 4 then throw exn_xdr else
      if negb (Z.land n 3 =? 0) then throw exn_xdr else
      if 0x80000000 <=? n then throw exn_xdr else
      match len with
      | [b0; b1; b2; b3] =>
          let len := swap_get32 b0 b1 b2 b3 in
          if Z.land len 0x80000000 =? 0 then throw exn_xdr else
          let len := Z.land len 0x7fffffff in
          m ← read fd len;
          match m with
          | None => throw exn_xdr
          | Some m => if negb (blen m =? len) then throw exn_xdr else mret m
          end
      | _ => abort
      end
  end.

Definition write_message (fd : Z) (m : message) : Op unit :=
  n ← sys (Write fd (raw_data m));
  if n =? -1 then throw exn_xdr else cassert (n =? blen (raw_data m)).

Definition next_xid : Op Z := fun o => let x := wrap32 (xid_counter_ o + 1) in Ret x (set_xid x o).

(** [synchronous_client_base::invoke<P>]; [prog], [vers], [proc] and the types are
    those of [P]. *)
Definition invoke {A R} `{!Xdr A, !Xdr R} (prog vers proc : Z) (fd : Z) (a : A) : Op R :=
  x ← next_xid;
  m ← of_msg (xdr_to_msg (prepare_call x prog vers proc (mkrpc_msg 0 (CALL new_call)), a));
  write_message fd m ;;
  r ← read_message fd;
  accept_reply x r.

(** ** Rpcbind *)

Definition RPCBPROG : Z := 100000.
Definition RPCBVERS4 : Z := 4.
Definition RPCBPROC_SET (fd : Z) (a : rpcb) : Op bool := invoke RPCBPROG RPCBVERS4 1 fd a.
Definition RPCBPROC_UNSET (fd : Z) (a : rpcb) : Op bool := invoke RPCBPROG RPCBVERS4 2 fd a.
Definition RPCBPROC_GETADDR (fd : Z) (a : rpcb) : Op string := invoke RPCBPROG RPCBVERS4 3 fd a.

Definition netid_of (family : Z) : string := if family =? AF_INET6 then "tcp6" else "tcp".

(** A turn of the loop of [tcp_connect_rpc], -1 when it goes on. *)
Definition ask_rpcbind (prog vers : Z) (ai : addrinfo) : Op Z :=
  fd ← tcp_connect1 ai false;
  port ← scoped fd
    (addr ← make_uaddr_fd fd;
     res ← RPCBPROC_GETADDR fd (mkRpcb prog vers (netid_of (ai_family ai)) addr "");
     mret (parse_uaddr_port (str_bytes res)));
  if port =? -1 then mret (-1) else
  let port_set := (ai_family ai =? AF_INET) || (ai_family ai =? AF_INET6) in
  tcp_connect1 (mkAddrinfo (ai_family ai) (ai_socktype ai) (ai_protocol ai)
                  (if port_set then set_port port (ai_addr ai) else ai_addr ai)) false.

(** [catch (const std::system_error &) {}] *)
Definition catch_system {A} (m h : Op A) : Op A :=
  try_catch m (fun e => match e with exn_system _ _ _ => h | _ => throw e end).

Fixpoint connect_rpc_loop (prog vers : Z) (ail : list addrinfo) : Op Z :=
  match ail with
  | [] => throw (exn_system generic_category ECONNREFUSED "Could not obtain port from rpcbind")
  | ai :: ail =>
      fd ← catch_system (ask_rpcbind prog vers ai) (mret (-1));
      if negb (fd =? -1) then mret fd else connect_rpc_loop prog vers ail
  end.
Definition tcp_connect_rpc (host : option string) (prog vers family : Z) : Op Z :=
  ail ← get_addrinfo host SOCK_STREAM (Some "sunrpc") family;
  connect_rpc_loop prog vers ail.

Definition rpcbind_register (sa : sockaddr) (prog vers : Z) : Op unit :=
  modify set_cleanup ;;
  fd ← tcp_connect_to None (Some "sunrpc") (sa_family sa);
  scoped fd
    (addr ← make_uaddr sa;
     let arg := mkRpcb prog vers (netid_of (sa_family sa)) addr (to_string (geteuid K)) in
     RPCBPROC_UNSET fd arg ;;
     res ← RPCBPROC_SET fd arg;
     if negb res then throw (exn_system generic_category EADDRINUSE "RPCBPROC_SET")
     else modify (add_service arg)).
Definition rpcbind_register_fd (fd prog vers : Z) : Op unit :=
  sa ← getsockname fd; rpcbind_register sa prog vers.

(** Called by [exit] when [cleanup_set]. *)
Definition run_cleanup : Op unit :=
  try_catch
    (fd ← tcp_connect_to None (Some "sunrpc") AF_UNSPEC;
     scoped fd (l ← gets registered_services; for_each l (fun arg => RPCBPROC_UNSET fd arg ;; mret tt)))
    (fun _ => mret tt).

(** ** The listener: [xdrpp/xdrpp/server.cc] *)

(** [rpc_tcp_listener::rpc_tcp_listener]: [listen_fd_]. *)
Definition rpc_tcp_listener (fd : Z) : Op Z :=
  fd ← (if negb (fd =? -1) then mret fd else tcp_listen None AF_UNSPEC);
  on_throw fd (set_close_on_exec fd ;; mret fd).

(** The end of [register_service]. *)
Definition register_with_rpcbind (use_rpcbind_ : bool) (listen_fd_ prog vers : Z) : Op unit :=
  if use_rpcbind_ then rpcbind_register_fd listen_fd_ prog vers else mret tt.
End sockets.
