(* ===== verification/SocketsProps.v ===== *)
(** * Descriptors and addresses: theorems on [Sockets]

    No path of the functions of [Sockets] leaks or closes a descriptor that it
    should not ([descriptors_kept]), [tcp_connect] takes the first address that
    answers ([connects_in_order]), and ports survive universal addresses. *)

From S2P Require Import Prelude Endian Xdr RpcMsg Rpc Numbers StdString Sockets.

(** ** What a kernel does *)

(** Results are not negative, a new descriptor was not open, and [close] stops
    answering [EINTR]. *)
Record kernel_laws (K : kernel) (patience : nat) : Prop := {
  k_value op h c v : sys_int K op h c = inl v -> 0 <= v;
  k_fresh op h f t p v : sys_int K op h (Socket f t p) = inl v -> v ∉ op;
  k_close h fd : exists n, (n <= patience)%nat /\
    forall op, sys_int K op (h ++ replicate n (Close fd)) (Close fd) <> inr EINTR;
}.

(** Postconditions as [sat], of computations that end; the process may stop at a
    failed assertion. *)
Definition ends {A} (o : outcome Process A) (Q : A -> Process -> Prop) (E : exn -> Process -> Prop) : Prop :=
  match o with Ret a s => Q a s | Throw e s => E e s | Abort => True | Diverge => False end.

Lemma ends_bind {A B} (m : M Process A) (k : A -> M Process B) s Q E :
  ends (m s) (fun a s' => ends (k a s') Q E) E -> ends ((m ≫= k) s) Q E.
Proof. unfold mbind, M_bind. by destruct (m s). Qed.
Lemma ends_mono {A} (o : outcome Process A) (Q Q' : A -> Process -> Prop) (E E' : exn -> Process -> Prop) :
  ends o Q E -> (forall a s, Q a s -> Q' a s) -> (forall e s, E e s -> E' e s) -> ends o Q' E'.
Proof. destruct o; simpl; auto. Qed.

(** ** Computations that keep the open descriptors *)

Definition same_fds {A} (m : M Process A) : Prop :=
  forall o, ends (m o) (fun _ o' => open_fds o' = open_fds o) (fun _ o' => open_fds o' = open_fds o).
(** A computation that returns a new descriptor, or -1. *)
Definition fresh_fd (o : Process) (fd : Z) (o' : Process) : Prop :=
  fd = -1 /\ open_fds o' = open_fds o \/ 0 <= fd /\ (fd ∉ open_fds o) /\ open_fds o' = ({[fd]} ∪ open_fds o).
Definition opens (m : M Process Z) : Prop :=
  forall o, ends (m o) (fresh_fd o) (fun _ o' => open_fds o' = open_fds o).

Lemma same_fds_ret {A} (a : A) : same_fds (mret a).
Proof. done. Qed.
Lemma same_fds_throw {A} e : same_fds (throw (A := A) e).
Proof. done. Qed.
Lemma same_fds_abort {A} : same_fds (abort (A := A)).
Proof. done. Qed.
Lemma same_fds_gets {A} (f : Process -> A) : same_fds (gets f).
Proof. done. Qed.
Lemma same_fds_modify f : (forall o, open_fds (f o) = open_fds o) -> same_fds (modify f).
Proof. intros H o. apply H. Qed.
Lemma same_fds_bind {A B} (m : M Process A) (k : A -> M Process B) : same_fds m -> (forall a, same_fds (k a)) -> same_fds (m ≫= k).
Proof.
  intros Hm Hk o. apply ends_bind. eapply ends_mono; [apply Hm| |by auto]. intros a s <-. apply Hk.
Qed.
Lemma same_fds_if {A} (b : bool) (m1 m2 : M Process A) : same_fds m1 -> same_fds m2 -> same_fds (if b then m1 else m2).
Proof. by destruct b. Qed.
Lemma same_fds_of_msg {A} (r : msg_res A) : same_fds (of_msg r).
Proof. by destruct r. Qed.
Lemma same_fds_accept_reply {A} `{!Xdr A} x m : same_fds (accept_reply (A := A) x m).
Proof.
  unfold accept_reply. apply same_fds_if; [done|]. destruct (load m) as [[hdr g]| |]; [|done..]. destruct (check_call_hdr hdr); [done|].
  apply same_fds_if; [done|]. unfold load_all. by destruct (load g) as [[? [|]]| |].
Qed.
Lemma same_fds_cassert b : same_fds (cassert b).
Proof. by destruct b. Qed.
Lemma same_fds_for_each {A} (l : list A) body : (forall x, same_fds (body x)) -> same_fds (for_each l body).
Proof. intros H. induction l as [|x l IH]; [done|]. by apply same_fds_bind. Qed.
Lemma same_fds_try {A} (m : M Process A) h : same_fds m -> (forall e, same_fds (h e)) -> same_fds (try_catch m h).
Proof.
  intros Hm Hh o. unfold try_catch. pose proof (Hm o) as H. destruct (m o); [done| |done..]. cbn in H. rewrite <-H. apply Hh.
Qed.

Create HintDb sockets.
#[export] Hint Resolve same_fds_ret same_fds_throw same_fds_abort same_fds_gets same_fds_if same_fds_of_msg same_fds_accept_reply same_fds_cassert
  same_fds_for_each : sockets.
#[export] Hint Extern 2 (same_fds (modify _)) => (by apply same_fds_modify) : sockets.
#[export] Hint Extern 3 (same_fds (_ ≫= _)) => (apply same_fds_bind; [|intros ?]) : sockets.
#[export] Hint Extern 3 (same_fds (try_catch _ _)) => (apply same_fds_try; [|intros ?]) : sockets.

Lemma add_remove (fd : Z) (S : gset Z) : fd ∉ S -> ({[fd]} ∪ S) ∖ {[fd]} = S.
Proof. set_solver. Qed.
Lemma remove_twice (fd : Z) (S : gset Z) : S ∖ {[fd]} ∖ {[fd]} = S ∖ {[fd]}.
Proof. set_solver. Qed.

Section descriptors.
Context (K : kernel) (patience : nat).

Lemma same_fds_throw_errno {A} what : same_fds (throw_errno (A := A) what).
Proof. done. Qed.
Hint Resolve same_fds_throw_errno : sockets.

(** Every call but [socket] and [close]. *)
Definition plain_call (c : syscall) : bool := match c with Socket _ _ _ | Close _ => false | _ => true end.
Lemma same_fds_sys c : plain_call c = true -> same_fds (sys K c).
Proof. intros Hc o. unfold sys. destruct (sys_int K _ _ c); by destruct c. Qed.
Hint Extern 2 (same_fds (sys K _)) => (by apply same_fds_sys) : sockets.

Lemma same_fds_nonblock fd : same_fds (set_nonblock K fd).
Proof. unfold set_nonblock. auto 10 with sockets. Qed.
Lemma same_fds_close_on_exec fd : same_fds (set_close_on_exec K fd).
Proof. unfold set_close_on_exec. auto 10 with sockets. Qed.
Lemma same_fds_get_numinfo sa : same_fds (get_numinfo K sa).
Proof. unfold get_numinfo. by destruct (getnameinfo K sa). Qed.
Hint Resolve same_fds_nonblock same_fds_close_on_exec same_fds_get_numinfo : sockets.
Lemma same_fds_addrinfo_to_string ail : same_fds (addrinfo_to_string K ail).
Proof.
  unfold addrinfo_to_string. generalize true. induction ail as [|ai ail IH]; intros b; cbn; [done|].
  apply same_fds_bind; [auto with sockets|intros [h p]]. auto with sockets.
Qed.
Lemma same_fds_get_addrinfo host t service family : same_fds (get_addrinfo K host t service family).
Proof. unfold get_addrinfo. by destruct (getaddrinfo K _ _ _). Qed.
Lemma same_fds_make_uaddr sa : same_fds (make_uaddr K sa).
Proof.
  unfold make_uaddr. apply same_fds_bind; [auto with sockets|intros [h p]]. destruct (stoul _); [|done]. cbn zeta. auto with sockets.
Qed.
Lemma same_fds_getsockname fd : same_fds (getsockname K fd).
Proof. intros o. unfold getsockname. by destruct (sys_name K _ _ fd). Qed.
Lemma same_fds_read fd n : same_fds (read K fd n).
Proof. intros o. unfold read. by destruct (sys_read K _ _ fd n). Qed.
Hint Resolve same_fds_get_addrinfo same_fds_make_uaddr same_fds_getsockname same_fds_read : sockets.
Lemma same_fds_make_uaddr_fd fd : same_fds (make_uaddr_fd K fd).
Proof. unfold make_uaddr_fd. auto with sockets. Qed.
Lemma same_fds_read_message fd : same_fds (read_message K fd).
Proof.
  unfold read_message. apply same_fds_bind; [auto with sockets|intros [len|]; [|done]]. cbn zeta. repeat (apply same_fds_if; [done|]).
  destruct len as [|b0 [|b1 [|b2 [|b3 [|? ?]]]]]; try done. apply same_fds_if; [done|].
  apply same_fds_bind; [auto with sockets|intros [m|]; [|done]]. auto with sockets.
Qed.
Lemma same_fds_write_message fd m : same_fds (write_message K fd m).
Proof. unfold write_message. auto with sockets. Qed.
Lemma same_fds_next_xid : same_fds next_xid.
Proof. done. Qed.
Hint Resolve same_fds_make_uaddr_fd same_fds_read_message same_fds_write_message same_fds_next_xid : sockets.
Lemma same_fds_invoke {A R} `{!Xdr A, !Xdr R} prog vers proc fd (a : A) : same_fds (invoke K (R := R) prog vers proc fd a).
Proof. unfold invoke. auto 10 with sockets. Qed.
Lemma same_fds_set fd a : same_fds (RPCBPROC_SET K fd a).
Proof. unfold RPCBPROC_SET. apply same_fds_invoke. Qed.
Lemma same_fds_unset fd a : same_fds (RPCBPROC_UNSET K fd a).
Proof. unfold RPCBPROC_UNSET. apply same_fds_invoke. Qed.
Lemma same_fds_getaddr fd a : same_fds (RPCBPROC_GETADDR K fd a).
Proof. unfold RPCBPROC_GETADDR. apply same_fds_invoke. Qed.

(** ** Closing *)

Context (HK : kernel_laws K patience).

(** What closing [fd] does: some calls of [close], the last of which closes it. *)
Definition closed (fd : Z) (o o' : Process) : Prop :=
  open_fds o' = open_fds o ∖ {[fd]} /\ exists n, calls o' = calls o ++ replicate (S n) (Close fd).

Lemma after_close_kept e fd o : errno (after_close K e (Close fd) o) = errno o /\
  calls (after_close K e (Close fd) o) = calls o /\
  (open_fds (after_close K e (Close fd) o) = open_fds o \/ open_fds (after_close K e (Close fd) o) = open_fds o ∖ {[fd]}) /\
  (e <> EINTR -> open_fds (after_close K e (Close fd) o) = open_fds o ∖ {[fd]}).
Proof. unfold after_close. destruct (Z.eqb_spec e EINTR), (eintr_closes K); cbn; naive_solver. Qed.

Lemma close_loop_ends fuel n fd o : (n <= fuel)%nat ->
  (forall op, sys_int K op (calls o ++ replicate n (Close fd)) (Close fd) <> inr EINTR) ->
  ends (close_loop K fuel fd o) (fun _ => closed fd o) (fun _ _ => False).
Proof.
  revert n o. induction fuel as [|fuel IH]; intros n o Hn Hc; cbn [close_loop]; apply ends_bind; unfold sys;
    destruct (sys_int K (open_fds o) (calls o) (Close fd)) as [v|e] eqn:E; cbn -[closed after_close];
    [apply (k_value _ _ HK) in E; destruct (Z.eqb_spec v (-1)); [lia|]; split; [done|by exists 0%nat]| | |].
  2: apply (k_value _ _ HK) in E; destruct (Z.eqb_spec v (-1)); [lia|]; split; [done|by exists 0%nat].
  all: apply ends_bind; cbn -[closed after_close]; set (o' := set_errno e (add_call (Close fd) o));
    destruct (after_close_kept e fd o') as (He & Hca & Ho & Ho'); rewrite He; cbn [o' errno set_errno];
    destruct (Z.eqb_spec e EINTR) as [->|Hne]; cbn -[closed after_close].
  - assert (n = 0%nat) as -> by lia. rewrite app_nil_r in Hc. by apply Hc in E.
  - split; [by apply Ho'|exists 0%nat; apply Hca].
  - destruct n as [|n]; [rewrite app_nil_r in Hc; by apply Hc in E|].
    eapply ends_mono; [apply (IH n); [lia|]| |done].
    + intros op. rewrite Hca. cbn. rewrite <-app_assoc. apply Hc.
    + intros _ s [Hs [m Hm]]. split.
      * rewrite Hs. destruct Ho as [->| ->]; cbn; [done|apply remove_twice].
      * exists (S m). rewrite Hm, Hca. cbn. by rewrite <-app_assoc.
  - split; [by apply Ho'|exists 0%nat; apply Hca].
Qed.

Lemma really_close_ends fd o : ends (really_close K patience fd o) (fun _ => closed fd o) (fun _ _ => False).
Proof. destruct (k_close _ _ HK (calls o) fd) as (n & Hn & Hc). by apply (close_loop_ends _ n). Qed.

(** A descriptor [fd] that this computation owns, and [S] that it does not; or no
    descriptor. *)
Definition owned (fd : Z) (S : gset Z) (o : Process) : Prop :=
  fd = -1 /\ open_fds o = S \/ 0 <= fd /\ (fd ∉ S) /\ open_fds o = ({[fd]} ∪ S).

Lemma owned_same fd S o o' : owned fd S o -> open_fds o' = open_fds o -> owned fd S o'.
Proof. unfold owned. by intros H ->. Qed.

Lemma clear_ends fd S o : owned fd S o -> ends (clear K patience fd o) (fun _ o' => open_fds o' = S) (fun _ _ => False).
Proof.
  unfold clear. intros [[-> Ho]|(H0 & Hn & Ho)]; [done|]. destruct (Z.eqb_spec fd (-1)); [lia|].
  eapply ends_mono; [apply really_close_ends| |done]. intros _ o' [-> _]. by rewrite Ho, add_remove.
Qed.

(** When an exception leaves the scope of [fd], it is closed. *)
Lemma on_throw_ends {A} fd S (m : M Process A) o Q : 
  ends (m o) Q (fun _ => owned fd S) -> ends (on_throw K patience fd m o) Q (fun _ o' => open_fds o' = S).
Proof.
  unfold on_throw, try_catch. destruct (m o) as [|e o'| |]; [done| |done..]. cbn. intros Ho. apply ends_bind.
  eapply ends_mono; [by apply (clear_ends fd S)|done|done].
Qed.

Lemma scoped_ends {A} fd S (m : M Process A) o : same_fds m -> owned fd S o ->
  ends (scoped K patience fd m o) (fun _ o' => open_fds o' = S) (fun _ o' => open_fds o' = S).
Proof.
  intros Hm Ho. unfold scoped. apply ends_bind. eapply ends_mono.
  - apply (on_throw_ends fd S _ _ (fun _ => owned fd S)). eapply ends_mono; [apply Hm| |]; intros ? ? ?; by eapply owned_same.
  - intros a s Hs. apply ends_bind. eapply ends_mono; [apply (clear_ends fd S), Hs| |done]. by intros _ s' <-.
  - done.
Qed.

(** ** Opening *)

Lemma opens_socket ai : opens (socket_of K ai).
Proof.
  intros o. unfold socket_of. apply ends_bind. unfold sys.
  destruct (sys_int K _ _ _) as [v|e] eqn:E; cbn; [|done].
  pose proof (k_value _ _ HK _ _ _ _ E) as Hv. destruct (Z.eqb_spec v (-1)); [lia|]. cbn. right. by apply (k_fresh _ _ HK) in E.
Qed.

(** A descriptor that is opened and then used. *)
Lemma opens_use (m : M Process Z) (k : Z -> M Process Z) : opens m ->
  (forall fd S o, owned fd S o -> ends (k fd o) (fun fd' => owned fd' S) (fun _ o' => open_fds o' = S)) -> opens (m ≫= k).
Proof.
  intros Hm Hk o. apply ends_bind. eapply ends_mono; [apply Hm| |done]. intros fd s Hs. apply Hk, Hs.
Qed.
Lemma opens_after {A} (m : M Process A) k : same_fds m -> (forall a, opens (k a)) -> opens (m ≫= k).
Proof.
  intros Hm Hk o. apply ends_bind. eapply ends_mono; [apply Hm| |done]. intros a s Hs. unfold fresh_fd. rewrite <-Hs. apply Hk.
Qed.
Lemma opens_throw e : opens (throw e).
Proof. done. Qed.
Lemma same_fds_scope {A} (m : M Process Z) (k : Z -> M Process A) : opens m -> (forall fd, same_fds (k fd)) ->
  same_fds (fd ← m; scoped K patience fd (k fd)).
Proof. intros Hm Hk o. apply ends_bind. eapply ends_mono; [apply Hm| |done]. intros fd s Hs. by apply scoped_ends. Qed.

Lemma owned_bind {A B} fd S (m : M Process A) (k : A -> M Process B) o Q : same_fds m -> owned fd S o ->
  (forall a s, owned fd S s -> ends (k a s) Q (fun _ => owned fd S)) -> ends ((m ≫= k) o) Q (fun _ => owned fd S).
Proof.
  intros Hm Ho Hk. apply ends_bind. eapply ends_mono; [apply Hm|intros a s Hs; by eapply Hk, owned_same|].
  intros e s Hs. by eapply owned_same.
Qed.

Lemma opens_connect1 ai ndelay : opens (tcp_connect1 K patience ai ndelay).
Proof.
  apply opens_use; [apply opens_socket|]. intros fd S o Ho. apply on_throw_ends.
  apply owned_bind; [destruct ndelay; auto with sockets|done|intros _ s1 H1].
  apply owned_bind; [by apply same_fds_sys|done|intros r s2 H2]. apply owned_bind; [done..|intros e s3 H3].
  destruct (_ && _); [|done]. apply ends_bind. eapply ends_mono; [by apply (clear_ends fd S)| |done]. intros [] s4 H4. left. done.
Qed.

Lemma opens_tcp_connect ail : opens (tcp_connect K patience ail).
Proof.
  apply opens_after; [by apply same_fds_modify|intros _]. induction ail as [|ai ail IH]; [done|].
  intros o. cbn [connect_loop]. apply ends_bind. eapply ends_mono; [apply opens_connect1| |done]. intros fd s Hs.
  destruct (Z.eqb_spec fd (-1)) as [->|]; cbn; [|done]. destruct Hs as [[_ Hs]|[Hs _]]; [|done]. unfold fresh_fd. rewrite <-Hs. apply IH.
Qed.
Lemma opens_connect_to host service family : opens (tcp_connect_to K patience host service family).
Proof. apply opens_after; [auto with sockets|intros ail]. apply opens_tcp_connect. Qed.

Lemma opens_listen service family : opens (tcp_listen K patience service family).
Proof.
  unfold tcp_listen. destruct (getaddrinfo K _ _ _) as [[|ai ail]|e]; [done| |done]. apply opens_use; [apply opens_socket|].
  intros fd S o Ho. apply on_throw_ends. apply owned_bind; [by apply same_fds_sys|done|intros _ s1 H1].
  apply owned_bind; [by apply same_fds_sys|done|intros r s2 H2]. destruct (r =? -1); [done|].
  apply owned_bind; [by apply same_fds_sys|done|intros r' s3 H3]. by destruct (r' =? -1).
Qed.

Lemma opens_catch m : opens m -> opens (catch_system m (mret (-1))).
Proof.
  intros Hm o. unfold catch_system, try_catch. pose proof (Hm o) as H. destruct (m o) as [|e s| |]; [done| |done..].
  destruct e; cbn in *; (by left) || done.
Qed.
Lemma opens_ask_rpcbind prog vers ai : opens (ask_rpcbind K patience prog vers ai).
Proof.
  unfold ask_rpcbind. set (k := fun port : Z => if port =? -1 then _ else _).
  assert (forall port, opens (k port)) as Hk by (intros port; unfold k; destruct (port =? -1); [by left|apply opens_connect1]).
  intros o. apply ends_bind. eapply ends_mono; [apply opens_connect1| |done]. intros fd s Hs. apply ends_bind.
  eapply ends_mono; [apply (scoped_ends fd (open_fds o)); [|exact Hs]| |done].
  { apply same_fds_bind; [auto with sockets|intros addr]. apply same_fds_bind; [apply same_fds_getaddr|intros res; apply same_fds_ret]. }
  intros port s' Hs'. unfold fresh_fd. rewrite <-Hs'. apply Hk.
Qed.
Lemma opens_connect_rpc host prog vers family : opens (tcp_connect_rpc K patience host prog vers family).
Proof.
  apply opens_after; [auto with sockets|intros ail]. induction ail as [|ai ail IH]; [done|]. intros o. cbn [connect_rpc_loop].
  apply ends_bind. eapply ends_mono; [apply opens_catch, opens_ask_rpcbind| |done]. intros fd s Hs.
  destruct (Z.eqb_spec fd (-1)) as [->|]; cbn; [|done]. destruct Hs as [[_ Hs]|[Hs _]]; [|done]. unfold fresh_fd. rewrite <-Hs. apply IH.
Qed.

Lemma same_fds_register sa prog vers : same_fds (rpcbind_register K patience sa prog vers).
Proof.
  unfold rpcbind_register. apply same_fds_bind; [by apply same_fds_modify|intros _]. apply same_fds_scope; [apply opens_connect_to|].
  intros fd. apply same_fds_bind; [auto with sockets|intros addr]. cbn zeta. apply same_fds_bind; [apply same_fds_unset|intros _].
  apply same_fds_bind; [apply same_fds_set|intros r]. apply same_fds_if; [done|by apply same_fds_modify].
Qed.
Lemma same_fds_cleanup : same_fds (run_cleanup K patience).
Proof.
  apply same_fds_try; [|done]. apply same_fds_scope; [apply opens_connect_to|]. intros fd. apply same_fds_bind; [done|intros l].
  apply same_fds_for_each. intros arg. apply same_fds_bind; [apply same_fds_unset|intros _; apply same_fds_ret].
Qed.
End descriptors.

(** ** The order of the attempts *)

Section attempts.
Context (K : kernel) (patience : nat).
Definition socket_call (ai : addrinfo) : syscall := Socket (ai_family ai) (ai_socktype ai) (ai_protocol ai).

(** An attempt at an address, from the calls made before to those made after
    it: the address refuses and the descriptor is closed, it accepts, or there is
    no descriptor for its family. *)
Inductive refused (ai : addrinfo) : list syscall -> list syscall -> Prop :=
| refused_intro h op op' fd e n :
    sys_int K op h (socket_call ai) = inl fd ->
    sys_int K op' (h ++ [socket_call ai]) (Connect fd (ai_addr ai)) = inr e -> e <> EINPROGRESS ->
    refused ai h (h ++ [socket_call ai; Connect fd (ai_addr ai)] ++ replicate (S n) (Close fd)).
Inductive accepted (ai : addrinfo) (fd : Z) : list syscall -> list syscall -> Prop :=
| accepted_intro h op op' r :
    sys_int K op h (socket_call ai) = inl fd ->
    sys_int K op' (h ++ [socket_call ai]) (Connect fd (ai_addr ai)) = r ->
    match r with inl _ => True | inr e => e = EINPROGRESS end ->
    accepted ai fd h (h ++ [socket_call ai; Connect fd (ai_addr ai)]).
Inductive no_socket (ai : addrinfo) (code : Z) : list syscall -> list syscall -> Prop :=
| no_socket_intro h op : sys_int K op h (socket_call ai) = inr code -> no_socket ai code h (h ++ [socket_call ai]).

(** Attempts at several addresses, which all refuse. *)
Inductive all_refused : list addrinfo -> list syscall -> list syscall -> Prop :=
| none_refused h : all_refused [] h h
| one_refused ai ail h h1 h2 : refused ai h h1 -> all_refused ail h1 h2 -> all_refused (ai :: ail) h h2.

Context (HK : kernel_laws K patience).

Lemma on_throw_never {A} fd (m : M Process A) o Q : ends (m o) Q (fun _ _ => False) ->
  ends (on_throw K patience fd m o) Q (fun _ _ => False).
Proof. unfold on_throw, try_catch. by destruct (m o). Qed.

Lemma connect1_attempt ai o : ends (tcp_connect1 K patience ai false o)
  (fun fd o' => fd = -1 /\ refused ai (calls o) (calls o') \/ 0 <= fd /\ accepted ai fd (calls o) (calls o'))
  (fun e o' => exists code, e = exn_system system_category code "socket" /\ no_socket ai code (calls o) (calls o')).
Proof.
  unfold tcp_connect1, socket_of. apply ends_bind, ends_bind. unfold sys at 1. fold (socket_call ai).
  destruct (sys_int K (open_fds o) (calls o) (socket_call ai)) as [fd|e] eqn:E; cbn -[on_throw really_close clear].
  2: { exists e. split; [done|]. by eapply no_socket_intro. }
  pose proof (k_value _ _ HK _ _ _ _ E) as Hfd. destruct (Z.eqb_spec fd (-1)); [lia|].
  cbn -[on_throw really_close clear sys set_open].
  set (o1 := set_open ({[fd]} ∪ open_fds o) (add_call (socket_call ai) o)).
  eapply ends_mono; [apply (on_throw_never fd _ o1 (fun fd' o' => fd' = -1 /\ refused ai (calls o) (calls o') \/
    0 <= fd' /\ accepted ai fd' (calls o) (calls o')))|done|done].
  apply ends_bind. cbn -[really_close clear o1 sys]. apply ends_bind. unfold sys.
  destruct (sys_int K (open_fds o1) (calls o1) (Connect fd (ai_addr ai))) as [v|e] eqn:Ec; cbn -[really_close clear o1].
  - pose proof (k_value _ _ HK _ _ _ _ Ec). destruct (Z.eqb_spec v (-1)); [lia|]. cbn -[o1]. right. split; [done|].
    cbn. rewrite <-app_assoc. by eapply accepted_intro.
  - apply ends_bind. cbn -[really_close clear o1]. destruct (Z.eqb_spec e EINPROGRESS) as [->|He]; cbn -[really_close clear o1].
    { right. split; [done|]. cbn. rewrite <-app_assoc. by eapply accepted_intro. }
    apply ends_bind. unfold clear. destruct (Z.eqb_spec fd (-1)); [lia|].
    eapply ends_mono; [by apply really_close_ends| |done]. intros _ o2 [_ [n' Hn]]. left. split; [done|].
    rewrite Hn. cbn -[replicate]. rewrite <-!app_assoc. by eapply refused_intro.
Qed.

Lemma connect_attempts ail o : ends (connect_loop K patience ail o)
  (fun fd o' => exists l1 ai l2 h, ail = l1 ++ ai :: l2 /\ all_refused l1 (calls o) h /\ accepted ai fd h (calls o'))
  (fun e o' => exists code,
    e = exn_system system_category code "connect" /\ all_refused ail (calls o) (calls o') \/
    e = exn_system system_category code "socket" /\
      exists l1 ai l2 h, ail = l1 ++ ai :: l2 /\ all_refused l1 (calls o) h /\ no_socket ai code h (calls o')).
Proof.
  revert o. induction ail as [|ai ail IH]; intros o; cbn [connect_loop].
  { exists (errno o). left. split; [done|constructor]. }
  apply ends_bind. eapply ends_mono; [apply connect1_attempt| |].
  - intros fd s [[-> Hr]|[Hfd Ha]]; cbn.
    + eapply ends_mono; [apply IH| |].
      * intros fd s' (l1 & ai' & l2 & h & -> & Hl & Ha). exists (ai :: l1), ai', l2, h. split_and!; [done| |done]. by eapply one_refused.
      * intros e s' (code & [[-> Hl]|[-> (l1 & ai' & l2 & h & -> & Hl & Ha)]]); exists code; [left|right].
        { split; [done|]. by eapply one_refused. }
        split; [done|]. exists (ai :: l1), ai', l2, h. split_and!; [done| |done]. by eapply one_refused.
    + destruct (Z.eqb_spec fd (-1)); [lia|]. exists [], ai, ail, (calls o). split_and!; [done|constructor|done].
  - intros e s (code & -> & Hn). exists code. right. split; [done|]. exists [], ai, ail, (calls o). split_and!; [done|constructor|done].
Qed.
End attempts.

(** ** Ports *)

Lemma digits_no_dot n : 0 <= n < 256 -> dot ∉ str_bytes (to_string n).
Proof.
  intros Hn Hin. destruct (to_string_digits n) as [Hd _]; [unfold u64; lia|].
  rewrite list.Forall_forall in Hd. by apply Hd in Hin.
Qed.
Lemma stoi_byte n b : 0 <= n < 256 -> (match b with [] => True | c :: _ => is_digit c = false end) ->
  stoi (str_bytes (to_string n) ++ b) = Some n.
Proof.
  intros Hn Hb. unfold stoi. rewrite parse_to_string_app by lia. cbn.
  assert (digits n b = n) as -> by (destruct b as [|c b]; [done|]; cbn; by rewrite Hb). unfold signed. cbn [fst snd].
  destruct (Z.leb_spec (- 2 ^ 31) n), (Z.ltb_spec n (2 ^ 31)); done || lia.
Qed.

Lemma parse_uaddr_of host port : 0 <= port < 65536 -> parse_uaddr_port (str_bytes (uaddr_of host port)) = port.
Proof.
  intros Hp. assert (0 <= port / 256 < 256) as Hhi by mod_lia. assert (0 <= port mod 256 < 256) as Hlo by mod_lia.
  unfold uaddr_of. change 0xff with (Z.ones 8). rewrite Z.shiftr_div_pow2, Z.land_ones by lia. change (2 ^ 8) with 256.
  rewrite !str_bytes_app. change (str_bytes ".") with [dot].
  set (hb := str_bytes (to_string (port / 256))). set (lb := str_bytes (to_string (port mod 256))). set (h := str_bytes host).
  assert (h ++ [dot] ++ hb ++ [dot] ++ lb = (h ++ [dot] ++ hb) ++ dot :: lb) as E by by rewrite <-!app_assoc.
  unfold parse_uaddr_port. rewrite E, rfind_app by by apply digits_no_dot.
  assert ((length (h ++ [dot] ++ hb) =? 0)%nat = false) as ->.
  { apply Nat.eqb_neq. rewrite length_app. cbn. lia. }
  rewrite take_app_length. cbn [app]. rewrite rfind_app by by apply digits_no_dot.
  replace (length (h ++ dot :: hb) + 1)%nat with (length ((h ++ dot :: hb) ++ [dot])) by (rewrite length_app; cbn; lia).
  replace (length h + 1)%nat with (length (h ++ [dot])) by (rewrite length_app; cbn; lia).
  replace ((h ++ dot :: hb) ++ dot :: lb) with ((h ++ [dot]) ++ hb ++ dot :: lb) at 1 by (by rewrite <-!app_assoc).
  rewrite drop_app_length.
  replace ((h ++ dot :: hb) ++ dot :: lb) with (((h ++ dot :: hb) ++ [dot]) ++ lb) by (by rewrite <-!app_assoc).
  rewrite drop_app_length. unfold hb. rewrite stoi_byte by done. unfold lb.
  rewrite <-(app_nil_r (str_bytes (to_string (port mod 256)))), stoi_byte by done.
  destruct (Z.ltb_spec (port / 256) 0), (Z.ltb_spec 255 (port / 256)), (Z.ltb_spec (port mod 256) 0), (Z.ltb_spec 255 (port mod 256)); try lia.
  cbn [orb]. rewrite lor_join by lia. mod_lia.
Qed.

(** A local address is written and its port read back. *)
Lemma uaddr_roundtrip K sa host port o : getnameinfo K sa = inl (host, to_string port) -> 0 < port < 65536 ->
  exists u, make_uaddr K sa o = Ret u o /\ parse_uaddr_port (str_bytes u) = port.
Proof.
  intros Hg Hp. exists (uaddr_of host port). split; [|apply parse_uaddr_of; lia].
  unfold make_uaddr, get_numinfo. rewrite Hg. change (mret (host, to_string port) ≫= ?k) with (k (host, to_string port)).
  cbn beta iota. rewrite stoul_to_string by (unfold u64; lia). cbn zeta. rewrite wrap32_small by (unfold u32; lia).
  destruct (Z.eqb_spec port 0), (Z.leb_spec 65536 port); done || lia.
Qed.
Lemma parse_uaddr_range uaddr : let port := parse_uaddr_port uaddr in port = -1 \/ 0 <= port < 65536.
Proof.
  cbn zeta. unfold parse_uaddr_port. destruct (rfind dot uaddr) as [low|]; [|by left]. destruct (low =? 0)%nat; [by left|].
  destruct (rfind dot (take low uaddr)) as [high|]; [|by left].
  destruct (stoi (drop (high + 1) uaddr)) as [hb|], (stoi (drop (low + 1) uaddr)) as [lb|]; try by left.
  destruct (Z.ltb_spec hb 0), (Z.ltb_spec 255 hb), (Z.ltb_spec lb 0), (Z.ltb_spec 255 lb); try (by left).
  right. cbn [orb]. rewrite lor_join by lia. lia.
Qed.

(** C21: descriptors.  On every path, whatever the kernel answers and whichever
    exception is thrown, [tcp_connect], [tcp_connect_rpc] and [tcp_listen] either
    return a descriptor that was not open, and that is then the only one more
    than before, or leave the open descriptors as they were; [rpcbind_register]
    and [run_cleanup] leave them as they were.  All of them end; the process may
    stop only at an assertion, when a message of a call is written in part. *)
Theorem descriptors_kept K patience : kernel_laws K patience ->
  (forall host service family, opens (tcp_connect_to K patience host service family)) /\
  (forall host prog vers family, opens (tcp_connect_rpc K patience host prog vers family)) /\
  (forall service family, opens (tcp_listen K patience service family)) /\
  (forall fd prog vers, same_fds (rpcbind_register_fd K patience fd prog vers)) /\
  same_fds (run_cleanup K patience).
Proof.
  intros HK. split_and!; intros; auto using opens_connect_to, opens_connect_rpc, opens_listen, same_fds_cleanup.
  apply same_fds_bind; [apply same_fds_getsockname|intros sa]. by apply same_fds_register.
Qed.

(** The system has sockets of the family of an address. *)
Definition has_socket (K : kernel) (ai : addrinfo) : Prop := forall op h e, sys_int K op h (socket_call ai) <> inr e.

(** C22: the order of the addresses.  When the system has sockets for the families
    of the addresses of a list, [tcp_connect] tries every one, in order, until one
    accepts, and returns its descriptor: all before it refused and their
    descriptors were closed.  It throws only when all refused.  (Without sockets of
    some family it does not get behind the first address of that family:
    [missing_family_stops].) *)
Theorem connects_in_order K patience ail o : kernel_laws K patience -> Forall (has_socket K) ail ->
  ends (tcp_connect K patience ail o)
    (fun fd o' => exists l1 ai l2 h, ail = l1 ++ ai :: l2 /\ all_refused K l1 (calls o) h /\ accepted K ai fd h (calls o'))
    (fun e o' => exists code, e = exn_system system_category code "connect" /\ all_refused K ail (calls o) (calls o')).
Proof.
  intros HK Hs. eapply ends_mono; [apply (connect_attempts K patience HK ail (set_errno EADDRNOTAVAIL o))|done|].
  intros e o' (code & [He|[_ (l1 & ai & l2 & h & -> & _ & Hn)]]); [by exists code|].
  apply Forall_app in Hs as [_ Hs]. apply Forall_cons_1 in Hs as [Hs _]. inversion Hn. by edestruct Hs.
Qed.

(** ** Runs *)

(** A kernel without sockets of the family [missing], where the addresses [down]
    refuse, and where [close] answers [EINTR] once when [interrupts]; behind every
    other address is a rpcbind that knows the universal address [known]. *)
Section sample.
Context (missing : Z) (down : sockaddr -> bool) (interrupts : bool) (known : string) (resolved : list addrinfo).

Definition next_fd (op : gset Z) : Z := 1 + foldr Z.max 2 (elements op).
Definition EBADF : Z := 9.
Definition EAFNOSUPPORT : Z := 97.

Definition sample_int (op : gset Z) (h : list syscall) (c : syscall) : Z + Z :=
  match c with
  | Socket f _ _ => if f =? missing then inr EAFNOSUPPORT else inl (next_fd op)
  | Connect _ a => if down a then inr ECONNREFUSED else inl 0
  | Write fd data => if bool_decide (fd ∈ op) then inl (blen data) else inr EBADF
  | Close fd =>
      let again := match reverse h with Close _ :: _ => true | _ => false end in
      if interrupts && negb again then inr EINTR else if bool_decide (fd ∈ op) then inl 0 else inr EBADF
  | _ => inl 0
  end.
Definition is_write (c : syscall) : bool := match c with Write _ _ => true | _ => false end.
Definition sample_read (op : gset Z) (h : list syscall) (fd n : Z) : bytes + Z :=
  let reply := wire (reply_hdr (Z.of_nat (length (filter is_write h))), known) in
  if n =? 4 then inl (swap_put32 (Z.lor (blen reply) 0x80000000)) else inl reply.
Definition sample_kernel : kernel :=
  Kernel sample_int (fun _ _ _ => inl (sockaddr_in 1 1023)) sample_read true (fun _ _ _ => inl resolved)
    (fun _ => inl ("10.0.0.1", "1023")) (fun _ => "error") 0.

Lemma next_fd_above op fd : fd ∈ op -> fd < next_fd op.
Proof.
  rewrite <-elem_of_elements. unfold next_fd. induction (elements op) as [|x l IH]; [by intros ?%elem_of_nil|].
  rewrite elem_of_cons. cbn. intros [->|H]; [lia|]. specialize (IH H). lia.
Qed.
Lemma next_fd_positive op : 0 < next_fd op.
Proof. unfold next_fd. induction (elements op) as [|x l IH]; cbn; lia. Qed.

Lemma sample_laws : kernel_laws sample_kernel 1.
Proof.
  split.
  - intros op h c v. cbn. destruct c; cbn; repeat case_match; intros [= <-]; unfold blen; try lia.
    pose proof (next_fd_positive op). lia.
  - intros op h f t p v. cbn. destruct (f =? missing); [done|]. intros [= <-] H%next_fd_above. lia.
  - intros h fd. exists 1%nat. split; [lia|]. intros op. cbn. rewrite reverse_snoc, andb_false_r. by destruct (bool_decide _).
Qed.
End sample.

(** A host with two addresses for [service]. *)
Definition addr6 : addrinfo := mkAddrinfo AF_INET6 SOCK_STREAM 6 (sockaddr_in6 1 111).
Definition addr4 : addrinfo := mkAddrinfo AF_INET SOCK_STREAM 6 (sockaddr_in 1 111).
Definition both_up : kernel := sample_kernel (-1) (fun _ => false) true "10.0.0.1.1.2" [addr6; addr4].
Definition first_down : kernel :=
  sample_kernel (-1) (fun a => sa_family a =? AF_INET6) true "10.0.0.1.1.2" [addr6; addr4].
Definition no_ipv6 : kernel := sample_kernel AF_INET6 (fun _ => false) false "10.0.0.1.1.2" [addr6; addr4].

Definition observe (r : outcome Process Z) : option (Z + exn) * list syscall :=
  match r with
  | Ret fd o => (Some (inl fd), calls o)
  | Throw e o => (Some (inr e), calls o)
  | _ => (None, [])
  end.

Lemma descriptors_kept_witness : kernel_laws both_up 1 /\
  match tcp_connect_rpc both_up 1 (Some "host") 7 1 AF_UNSPEC new_process with
  | Ret fd o => fresh_fd new_process fd o /\ head (reverse (calls o)) = Some (Connect fd (sockaddr_in6 1 258))
  | _ => False
  end.
Proof.
  pose proof (sample_laws (-1) (fun _ => false) true "10.0.0.1.1.2" [addr6; addr4]) as HK. split; [exact HK|].
  destruct (descriptors_kept both_up 1 HK) as (_ & H & _). specialize (H (Some "host") 7 1 AF_UNSPEC new_process).
  destruct (tcp_connect_rpc both_up 1 (Some "host") 7 1 AF_UNSPEC new_process) as [fd o| | |] eqn:E; [|by vm_compute in E..].
  split; [exact H|]. vm_compute in E. injection E as <- <-. by vm_compute.
Defined.

Lemma connects_in_order_witness : kernel_laws first_down 1 /\
  match tcp_connect first_down 1 [addr6; addr4] new_process with
  | Ret fd o => fd = 3 /\ calls o = [socket_call addr6; Connect 3 (ai_addr addr6); Close 3; Close 3; socket_call addr4; Connect 3 (ai_addr addr4)] /\
      exists l1 ai l2 h, [addr6; addr4] = l1 ++ ai :: l2 /\ all_refused first_down l1 [] h /\ accepted first_down ai fd h (calls o)
  | _ => False
  end.
Proof.
  pose proof (sample_laws (-1) (fun a => sa_family a =? AF_INET6) true "10.0.0.1.1.2" [addr6; addr4]) as HK. split; [exact HK|].
  assert (Forall (has_socket first_down) [addr6; addr4]) as Hs by (repeat constructor; intros op h e; discriminate).
  pose proof (connects_in_order first_down 1 [addr6; addr4] new_process HK Hs) as H.
  destruct (tcp_connect first_down 1 [addr6; addr4] new_process) as [fd o| | |] eqn:E; [|by vm_compute in E..].
  cut (fd = 3 /\ calls o = [socket_call addr6; Connect 3 (ai_addr addr6); Close 3; Close 3; socket_call addr4; Connect 3 (ai_addr addr4)]).
  { intros [H1 H2]. split; [exact H1|]. split; [exact H2|exact H]. }
  vm_compute in E. injection E as <- <-. split; by vm_compute.
Defined.

(** All refuse: every address was tried. *)
Lemma all_down_throws :
  let K := sample_kernel (-1) (fun _ => true) false "10.0.0.1.1.2" [addr6; addr4] in
  observe (tcp_connect K 0 [addr6; addr4] new_process) =
    (Some (inr (exn_system system_category ECONNREFUSED "connect")),
     [socket_call addr6; Connect 3 (ai_addr addr6); Close 3; socket_call addr4; Connect 3 (ai_addr addr4); Close 3]).
Proof. by vm_compute. Qed.

(** An address of a family without sockets keeps [tcp_connect] from trying the
    next address, which would accept. *)
Lemma missing_family_stops : observe (tcp_connect no_ipv6 0 [addr6; addr4] new_process) =
    (Some (inr (exn_system system_category EAFNOSUPPORT "socket")), [socket_call addr6]) /\
  (observe (tcp_connect no_ipv6 0 [addr4] new_process)).1 = Some (inl 3).
Proof. by vm_compute. Qed.

(** A first address that refuses keeps [tcp_connect_rpc] from trying the next
    one: the call on the descriptor -1 throws an exception that is not caught. *)
Lemma refusal_stops_rpc :
  (observe (tcp_connect_rpc first_down 1 (Some "host") 7 1 AF_UNSPEC new_process)).1 = Some (inr exn_xdr) /\
  (observe (connect_rpc_loop first_down 1 7 1 [addr4] new_process)).1 = Some (inl 3).
Proof. by vm_compute. Qed.

(** When [close] is interrupted and has closed the descriptor, as on Linux, it is
    closed again while it is not open. *)
Lemma closed_again : exists o, really_close both_up 1 5 (set_open {[5]} new_process) = Ret tt o /\
  calls o = [Close 5; Close 5] /\ sample_int (-1) (fun _ => false) true ∅ [Close 5] (Close 5) = inr EBADF.
Proof. eexists. by vm_compute. Qed.
