(* ===== verification/WireSafety.v ===== *)
(** * The messages of the programs are decoded safely

    [laws_safe] on every type of message that a process of the repository
    receives: the calls and replies of the four interfaces behind their headers,
    and what the replicas and their backing stores unpack from a command. *)

From S2P Require Import Prelude Xdr RpcMsg Rpc ServerTypes PaxosTypes ServerPaxosTypes Interfaces Sockets.

(** A call or a reply of an interface, with its header. *)
Definition calls_safe (I : rpc_interface) (data : bytes) : Prop := forall p : proc_t I,
  decodes_safely (A := rpc_msg * arg_wire_type I p) data /\ decodes_safely (A := rpc_msg * res_wire_type I p) data.

(** C37: whatever the bytes of a message shorter than 2^31, decoding it as a call
    or a reply of the interface of the clients, of their callbacks, of the
    replicas or of the library of the replicas, as a header alone, as a view
    request, as a command to the database or its result, or as an argument for
    rpcbind, reads nothing outside the message, fails no assertion, and accepts
    only a value that is valid and takes the whole message. *)
Theorem messages_decoded_safely data : blen data < 2 ^ 31 ->
  calls_safe api_v1 data /\ calls_safe handler_v1 data /\ calls_safe paxos_v1 data /\ calls_safe paxos_client_v1 data /\
  decodes_safely (A := rpc_msg) data /\ decodes_safely (A := init_view_request) data /\
  decodes_safely (A := ServerPaxosParam) data /\ decodes_safely (A := ServerPaxosResult) data /\
  decodes_safely (A := rpcb) data.
Proof. intros Hd. split_and!; try (intros p; split); by apply laws_safe. Qed.

(** A message that ends inside its file name is refused, and one with more
    behind the value too. *)
Lemma messages_decoded_safely_witness :
  let data := take 8 (wire sample_param) in
  xdr_from_msg (A := ServerPaxosParam) data = MThrow xdr_overflow /\
  (exists e, xdr_from_msg (A := ServerPaxosParam) (wire sample_param ++ wire sample_param) = MThrow e) /\
  decodes_safely (A := ServerPaxosParam) data.
Proof.
  split; [vm_compute; reflexivity|]. split; [eexists; vm_compute; reflexivity|].
  destruct (messages_decoded_safely (take 8 (wire sample_param))) as (_ & _ & _ & _ & _ & _ & H & _); [|exact H].
  vm_compute. reflexivity.
Defined.
